(* ===== verification/_CoqProject ===== *)
-Q . S2P
Prelude.v
Memory.v
LibString.v
OrderedList.v
Machine.v
Console.v
Stdio.v
Descriptors.v
Frames.v
PageFrames.v
Kmalloc.v
Initrd.v
Mount.v
Paging.v
MapPages.v
CloneTable.v
Task.v
Stack.v
Devices.v
Heap.v
HeapSpec.v
HeapResize.v
HeapAlloc.v
HeapGrow.v
HeapAllocator.v
HeapFree.v
HeapContract.v
Boot.v
BootMap.v
BootPaging.v
PagedMemory.v
CopyPage.v
Startup.v
KernelMain.v
FirstTick.v
