(* ===== verification/Prelude.v ===== *)
(** * Loris: a verification development of a small i386 kernel

    Loris is a C++ kernel: it sets up segments and interrupts, turns paging on,
    manages physical frames, page directories and a heap, schedules kernel
    tasks, drives timer, keyboard and text console, and mounts a ramdisk.  This
    library translates its C++ sources into executable definitions and proves
    what they do.  It is the root file: the rest of this comment is the guide.

    ** The model

    - Memory is a finite map from 32-bit addresses to bytes ([Memory]); structs
      are bytes at an address, and an access to a field is a load or a store at
      its offset.  Pointers, [uint32_t] and the like are [Z], every wrap-around
      written out: [x ⊕ y], [x ⊖ y], [x ⊗ y] are the operations modulo 2^32,
      [s32] the value of an [int].
    - The state ([machine] of [Machine]) is the memory, the C++ globals of each
      source file as one record each, the control registers the kernel writes,
      and a trace of what it asks of the hardware: port accesses, descriptor
      tables loaded, interrupts disabled or enabled, physical pages copied.
    - A routine is an action of the monad [K]: it ends in one of the outcomes
      [Done] (it returns), [Hang] (the source's endless loops), [Jump] (control
      has gone to another task), [Undefined] (the source runs into undefined
      behaviour, such as an array index out of range) or [OutOfFuel].
    - Loops whose length the code knows are counted ([for_loop], [forM],
      [count_while]); the others take fuel.  The theorems bound it: the fuel of
      the string routines by the length of the string, that of [fork] by the
      length of the ready queue, that of [Alloc] by the number of nested calls
      (one, two when the heap grows), that of [Contract] by the pages below the
      old length, that of start-up by 1024 loop iterations.  [whileM_total]
      turns a measure into a proof that a loop returns.
    - What the linker, the compiler or the processor chooses (addresses of
      statics and literals, the content of an uninitialised variable, the
      registers read by inline assembly, the byte a port delivers) is a class
      or an argument, and every theorem holds for all its values, those on the
      booted kernel apart: they need an uninitialised variable that happens to
      hold the address of a page directory (see Start-up below).

    ** The files, in order

    - [Prelude] (this file): integers, loops, outcomes, their lemmas, tactics
      ([w32_simpl], [zdecide]).  [Memory]: bytes and words in memory, frame
      conditions ("nothing else changes"), [mem_simpl].
    - [LibString]: libc/string (memset.cpp ... strlen.cpp) against lists of
      bytes.  [OrderedList]: Util/OrderedList.h, the array the heap keeps its
      holes in, against sorted lists.
    - [Machine]: the state and the monad.
    - [Console]: arch/i386/tty.cpp and vga.h.  [Stdio]: libc/stdio/stdio.cpp,
      [printf] against a specification of formatting.
    - [Descriptors]: arch/i386/GlobalDescriptorTable.cpp,
      InterruptDescriptorTable.cpp and [outb]: tables decoded as the processor
      decodes them, and the dispatch of interrupts.
    - [Frames]: page-table entries of paging.h, the frame bitmap of paging.cpp.
      [PageFrames]: PageFrameAllocator.cpp, a copy that is not built, against it.
    - [Kmalloc]: kmalloc.cpp, and the interface [Allocator] / [AllocatorSpec] /
      [AllocatorLaws] against which [Paging], [Task] and [Mount] are verified;
      the placement allocator is an instance of it.
    - [Initrd]: FIleSystem/FileSystem.cpp and the operations of initrd.cpp.
      [Mount]: [initialise_initrd], and the path mount, look up, read.
    - [Paging]: get_page, switch_page_directory, clone_directory of paging.cpp.
      [MapPages]: the loops that call alloc_frame on one page after the other.
      [CloneTable]: clone_table.  [Task]: Task.cpp; the ready queue in memory
      against a list of tasks, the scheduler against [sched_step] on lists.
      [Stack]: the end of move_stack.
    - [Devices]: Timer.cpp, Keyboard.h, [inb] and [inw] of io.cpp, StdLib.cpp, abort.cpp.
    - [Heap]: Heap.cpp and Heap.h, statement by statement.  [HeapSpec]: the heap
      as a list of [chunk]s that tile its range, with an index of its holes
      ([tiled], [heap_ok]); the constructor.  [HeapResize]: [Expand] and
      [Contract].  [HeapAlloc], [HeapFree]: the theorems on [Alloc] and [Free].
      [HeapContract]: [Free] when the freed chunk is the last one.
      [HeapGrow]: [Alloc] when no hole fits.  [HeapAllocator]: [kmalloc] over
      the heap as a second instance of the allocator interface.
    - [Boot]: [initialise_paging] of paging.cpp and kernel.cpp.  [BootMap]: the
      first page tables, as the processor's walk [translate] sees them.
      [BootPaging]: [initialise_paging] as a whole.  [PagedMemory]: the flat
      memory of the model against physical memory behind the page tables.
      [CopyPage]: copy_page_physical of PagingAssembly.S, instruction by
      instruction.  [Startup]: [kernel_main] up to the first process.  [KernelMain]:
      [kernel_main] to its end.  [FirstTick]: the timer's interrupts after it.

    ** How the parts call each other

    [kmalloc] serves from the placement pointer until [kheap] is set and from
    the heap afterwards; the heap grows through [get_page] and [alloc_frame],
    and [get_page] allocates tables through [kmalloc] again.  The cycle is cut
    by arguments: [kmalloc] takes the heap's [Alloc], [Alloc_body] takes its own
    recursive call, and [Alloc] closes the cycle with fuel.  The timer's handler
    calls the scheduler from inside [irq_handler]; the handlers are reached
    through [irq_routines], of which [call_device] is the indirect call.

    ** What the theorems show

    - Heap: the constructor establishes the invariant; [Alloc] is best fit,
      splits or hands out whole holes and spares every block in use; [Free]
      joins neighbours; freeing what was allocated gives the hole back; a heap
      without a fitting hole grows; [Contract] terminates, and [Free] at the end
      of the heap cuts it to the minimum size; [kmalloc] over the heap keeps the
      allocator's laws; and the ways in which the code leaves the invariant:
      page-aligned requests ([Alloc_aligned_overlaps]), the footer not rewritten
      by [Free] ([Free_loses_memory]), growth over a block in use
      ([Alloc_grows_over_block]), a hole that vanishes but stays listed
      ([Free_lists_vanished_hole]) and a contraction that takes the kernel's own
      pages away ([Contract_unmaps_kernel]).
    - Frames and paging: [first_frame] is least-unused search, [alloc_frame] in
      full, no frame but frame 0 is ever shared, what [free_frame] does instead
      of freeing and how frame 0 comes to be shared by it, [get_page] in full for
      any lawful allocator, [clone_directory] on kernel tables, [clone_table]
      entry by entry, and that the [copy_page_physical] it calls page-faults.
    - Start-up: the first page tables map the memory in use to itself and the
      heap behind it; over that map every program that leaves the tables alone
      runs on physical memory as it runs on the flat memory of this model;
      [initialise_paging] ends with a CR3 made of an uninitialised variable
      ([initialise_paging_boots]).  If that variable holds the physical address
      of the kernel's directory or of its clone ([lucky]), [kernel_main], from
      what a multiboot loader leaves, runs to its end: two processes, the
      greeting on the screen, the files of the module readable from [fs_root],
      the hardware told exactly the listed events, and the walk from CR3 still
      the map in which the flat memory lies ([processor_maps]).  Timer interrupts
      then jump to the child and back to the parent with the registers it had.
    - Tasks: round robin as a refinement, every task gets its turn with its
      context intact, the child that [fork] makes, the first task; and that a
      task resumed in [switch_task] does not get out of it, because the value
      that [read_eip] seems to return is not recognised.
    - Interrupts and devices: all gates of the table, dispatch and
      acknowledgement, installed handlers are called, a timer interrupt that
      switches tasks is not acknowledged, the timer's divisor, the keyboard.
    - Files: lookup, listing and reading, the mount for any number of files,
      and the whole path from the mounted ramdisk to the bytes read.
    - Console and libc: [printf] against its specification, the screen after a
      string, strings and blocks of memory.

    ** What is not modelled

    - The assembly files but for copy_page_physical: their routines are events,
      arguments or outcomes.  On the C++ side copy_page_physical is an event
      too, so that the theorem on [clone_table] says nothing of page contents.
    - Address translation while code runs: memory is flat, whatever CR3 holds.
      [flat_memory_sound] is the reason why that is faithful, for code that does
      not change the page tables and for a CR3 behind which they lie; the
      theorems on the booted kernel prove the latter at their end.  Page faults.
    - The stack.  Locals are values: [fork_after] is given the two pointers that
      [fork] holds in a stack frame which parent and child share, and nothing is
      claimed of what the child finds there.
    - Globals are records of [machine] and not bytes of memory: a store through
      a stray pointer cannot reach them.  The theorems give the ranges that are
      written; those of [kernel_main] lie above the first module, in the static
      tables, in the ramdisk's headers and on the screen.
    - The count of ticks is an [int]; its overflow is undefined behaviour in C++
      and the outcome [Undefined] here.
    - [Registers] of InterruptDescriptorTable.h: of the saved registers the C++
      code reads only [int_no], which is an argument of [irq_handler].
    - [move_stack] ends in an endless loop; [copy_stack] behind it is modelled,
      but never runs. *)
From Stdlib Require Export ZArith Lia Bool.
From stdpp Require Export prelude gmap sorting.

#[export] Set Default Goal Selector "!".

Open Scope Z_scope.

Declare Scope u32_scope.

Delimit Scope u32_scope with u32.

(** ** Machine integers

    A C++ [uint8_t]/[uint16_t]/[uint32_t] is a [Z]; the wrap-around of an
    operation is written out with the functions below.  [s32] is the value of
    an [int] whose bit pattern is given. *)
Definition w8 (z : Z) : Z := z mod 256.
Definition w16 (z : Z) : Z := z mod 65536.
Definition w32 (z : Z) : Z := z mod 4294967296.
Definition s32 (z : Z) : Z :=
  if w32 z <? 2147483648 then w32 z else w32 z - 4294967296.
Arguments w8 : simpl never.
Arguments w16 : simpl never.
Arguments w32 : simpl never.
Arguments s32 : simpl never.

Notation "x ⊕ y" := (w32 (x + y)) (at level 50, left associativity) : u32_scope.
Notation "x ⊖ y" := (w32 (x - y)) (at level 50, left associativity) : u32_scope.
Notation "x ⊗ y" := (w32 (x * y)) (at level 40, left associativity) : u32_scope.

(** ** Loops

    [for_loop n i body] is [for (; n iterations; i++) body].  [while] takes
    fuel and answers [None] exactly when the fuel runs out while the condition
    still holds. *)
Fixpoint for_loop {A} (n : nat) (i : Z) (body : Z → A → A) (a : A) : A :=
  match n with
  | O => a
  | S n' => for_loop n' (i + 1) body (body i a)
  end.

Fixpoint while {A} (fuel : nat) (cond : A → bool) (body : A → A) (a : A) : option A :=
  if cond a then
    match fuel with
    | O => None
    | S fuel' => while fuel' cond body (body a)
    end
  else Some a.

(** [count_while n i p] is [while (i < i0 + n && p(i)) i++], from [i = i0]. *)
Fixpoint count_while (n : nat) (i : Z) (p : Z → bool) : Z :=
  match n with
  | O => i
  | S n' => if p i then count_while n' (i + 1) p else i
  end.

(** ** Outcomes of a kernel routine

    [Done] returns a value, [Hang] is a deliberate [while (true);], [Jump] is a
    task switch: control has left for the code of another task, and
    [Undefined] is a run the C++ standard gives no meaning to, and
    [OutOfFuel] says that the fuel given to the model was too small. *)
Inductive outcome (St A : Type) : Type :=
  | Done (a : A) (s : St)
  | Hang (s : St)
  | Jump (s : St)
  | Undefined
  | OutOfFuel.
Arguments Done {St A} a s.
Arguments Hang {St A} s.
Arguments Jump {St A} s.
Arguments Undefined {St A}.
Arguments OutOfFuel {St A}.

Definition kernel (St A : Type) : Type := St → outcome St A.

#[export] Instance kernel_ret {St} : MRet (kernel St) := λ A a s, Done a s.
#[export] Instance kernel_bind {St} : MBind (kernel St) := λ A B f m s,
  match m s with
  | Done a s' => f a s'
  | Hang s' => Hang s'
  | Jump s' => Jump s'
  | Undefined => Undefined
  | OutOfFuel => OutOfFuel
  end.

Definition hang {St A} : kernel St A := λ s, Hang s.
Definition undefined {St A} : kernel St A := λ _, Undefined.
Definition out_of_fuel {St A} : kernel St A := λ _, OutOfFuel.

Fixpoint whileM {St A} (fuel : nat) (cond : A → St → bool)
    (body : A → kernel St A) (a : A) : kernel St A := λ s,
  if cond a s then
    match fuel with
    | O => OutOfFuel
    | S fuel' => (x ← body a; whileM fuel' cond body x) s
    end
  else Done a s.

Fixpoint forM {St} (n : nat) (i : Z) (body : Z → kernel St unit) : kernel St unit :=
  match n with
  | O => mret tt
  | S n' => body i ;; forM n' (i + 1) body
  end.

(** ** Lemmas on machine integers *)
Section words.
Local Open Scope Z_scope.

Lemma w8_range z : 0 <= w8 z < 256.
Proof. apply Z.mod_pos_bound; lia. Qed.
Lemma w16_range z : 0 <= w16 z < 65536.
Proof. apply Z.mod_pos_bound; lia. Qed.
Lemma w32_range z : 0 <= w32 z < 4294967296.
Proof. apply Z.mod_pos_bound; lia. Qed.
Lemma w8_small z : 0 <= z < 256 → w8 z = z.
Proof. apply Z.mod_small. Qed.
Lemma w16_small z : 0 <= z < 65536 → w16 z = z.
Proof. apply Z.mod_small. Qed.
Lemma w32_small z : 0 <= z < 4294967296 → w32 z = z.
Proof. apply Z.mod_small. Qed.
Lemma w8_w8 z : w8 (w8 z) = w8 z.
Proof. apply w8_small, w8_range. Qed.
Lemma w32_w32 z : w32 (w32 z) = w32 z.
Proof. apply w32_small, w32_range. Qed.
Lemma w32_add_l x y : w32 (w32 x + y) = w32 (x + y).
Proof. apply Zplus_mod_idemp_l. Qed.
Lemma w32_add_r x y : w32 (x + w32 y) = w32 (x + y).
Proof. apply Zplus_mod_idemp_r. Qed.
Lemma w32_sub_l x y : w32 (w32 x - y) = w32 (x - y).
Proof. apply Zminus_mod_idemp_l. Qed.
Lemma w32_sub_r x y : w32 (x - w32 y) = w32 (x - y).
Proof. apply Zminus_mod_idemp_r. Qed.
Lemma w32_period x k : w32 (x + k * 4294967296) = w32 x.
Proof. apply Z_mod_plus_full. Qed.
Lemma w32_neg z : -4294967296 <= z < 0 → w32 z = z + 4294967296.
Proof. intros. rewrite <- (w32_period z 1). apply w32_small. lia. Qed.

(** Two addresses of the same small window are congruent only if equal. *)
Lemma w32_inj_near x y : -4294967296 < x - y < 4294967296 → w32 x = w32 y → x = y.
Proof.
  unfold w32. intros H E.
  pose proof (Z.div_mod x 4294967296 ltac:(lia)) as Hx.
  pose proof (Z.div_mod y 4294967296 ltac:(lia)) as Hy.
  rewrite E in Hx. lia.
Qed.
(** A field above [n] bits joined to one below is their sum. *)
Lemma lor_shift_add a b n : 0 <= n → 0 <= a < 2 ^ n → Z.lor a (Z.shiftl b n) = a + b * 2 ^ n.
Proof.
  intros Hn Ha. rewrite Z.shiftl_mul_pow2 by done. symmetry.
  rewrite <- (Z.add_lor_land a (b * 2 ^ n)).
  assert (Z.land a (b * 2 ^ n) = 0) as ->; [|lia].
  apply Z.bits_inj_iff. intros i. rewrite Z.land_spec, Z.bits_0.
  destruct (decide (i < n)) as [Hi|Hi].
  - destruct (decide (i < 0)); [by rewrite !Z.testbit_neg_r by lia|].
    rewrite Z.mul_pow2_bits_low by lia. by rewrite andb_false_r.
  - rewrite <- (Z.mod_small a (2 ^ n)) by done. rewrite Z.mod_pow2_bits_high by lia. done.
Qed.
End words.

Create HintDb words discriminated.
Create Rewrite HintDb words.
#[export] Hint Resolve w8_range w16_range w32_range : words.
#[export] Hint Rewrite w8_w8 w32_w32 w32_add_l w32_add_r w32_sub_l w32_sub_r : words.

(** [w32_simpl] drops every wrap-around that the context shows to be in range. *)
Ltac w32_simpl :=
  repeat match goal with
  | |- context [w32 ?e] => rewrite (w32_small e) by lia
  | H : context [w32 ?e] |- _ => rewrite (w32_small e) in H by lia
  end.

(** Closed arithmetic facts, decided by evaluation. *)
Ltac zdecide := repeat split; vm_compute; intros; (reflexivity || discriminate).

(** ** Lemmas on loops *)
Section loops.
Local Open Scope Z_scope.
Context {A : Type}.

Lemma for_loop_inv (P : Z → A → Prop) body n i a :
  P i a →
  (∀ j x, i <= j < i + Z.of_nat n → P j x → P (j + 1) (body j x)) →
  P (i + Z.of_nat n) (for_loop n i body a).
Proof.
  revert i a. induction n as [|n IH]; intros i a H Hstep; simpl.
  - by rewrite Z.add_0_r.
  - replace (i + Z.of_nat (S n)) with (i + 1 + Z.of_nat n) by lia.
    apply IH; [apply Hstep; [lia|done]|].
    intros j x Hj. apply Hstep. lia.
Qed.

Lemma count_while_spec n i p :
  let r := count_while n i p in
  i <= r <= i + Z.of_nat n ∧ (∀ j, i <= j < r → p j = true) ∧
  (r < i + Z.of_nat n → p r = false).
Proof.
  revert i. induction n as [|n IH]; intros i; simpl; [split_and!; lia|].
  destruct (p i) eqn:E.
  - destruct (IH (i + 1)) as (H1 & H2 & H3). split_and!; [lia..| |].
    + intros j Hj. destruct (decide (j = i)) as [->|]; [done|]. apply H2. lia.
    + intros Hr. apply H3. lia.
  - split_and!; [lia..|done].
Qed.

Lemma count_while_ext n i p q :
  (∀ j, i <= j < i + Z.of_nat n → p j = q j) → count_while n i p = count_while n i q.
Proof.
  revert i. induction n as [|n IH]; intros i H; simpl; [done|].
  rewrite (H i) by lia. destruct (q i); [|done]. apply IH. intros. apply H. lia.
Qed.

(** Total correctness of a loop: an invariant and a measure below the fuel. *)
Lemma while_total (I : A → Prop) (μ : A → nat) cond body fuel a :
  I a → (μ a <= fuel)%nat →
  (∀ x, I x → cond x = true → I (body x) ∧ (μ (body x) < μ x)%nat) →
  ∃ a', while fuel cond body a = Some a' ∧ I a' ∧ cond a' = false.
Proof.
  intros HI Hμ Hstep. revert a HI Hμ.
  induction fuel as [|fuel IH]; intros a HI Hμ; simpl;
    destruct (cond a) eqn:E; eauto;
    destruct (Hstep a HI E) as [HI' Hlt]; [lia|].
  apply IH; [done|lia].
Qed.
End loops.

Section kernel_loops.
Local Open Scope Z_scope.
Context {St A : Type}.

Lemma whileM_total (I : A → St → Prop) (μ : A → St → nat) cond body fuel a s :
  I a s → (μ a s <= fuel)%nat →
  (∀ x t, I x t → cond x t = true →
     ∃ x' t', body x t = Done x' t' ∧ I x' t' ∧ (μ x' t' < μ x t)%nat) →
  ∃ a' s', whileM fuel cond body a s = Done a' s' ∧ I a' s' ∧ cond a' s' = false.
Proof.
  intros HI Hμ Hstep. revert a s HI Hμ.
  induction fuel as [|fuel IH]; intros a s HI Hμ; simpl;
    destruct (cond a s) eqn:E; eauto;
    destruct (Hstep a s HI E) as (x' & t' & Hb & HI' & Hlt); [lia|].
  unfold mbind, kernel_bind. rewrite Hb. apply IH; [done|lia].
Qed.

Lemma forM_inv (P : Z → St → Prop) body n i (s : St) :
  P i s →
  (∀ j t, i <= j < i + Z.of_nat n → P j t →
     ∃ t', body j t = Done tt t' ∧ P (j + 1) t') →
  ∃ s', forM n i body s = Done tt s' ∧ P (i + Z.of_nat n) s'.
Proof.
  revert i s. induction n as [|n IH]; intros i s H Hstep; simpl.
  - exists s. by rewrite Z.add_0_r.
  - destruct (Hstep i s ltac:(lia) H) as (t' & Hb & HP).
    unfold mbind, kernel_bind. rewrite Hb.
    replace (i + Z.of_nat (S n)) with (i + 1 + Z.of_nat n) by lia.
    apply IH; [done|]. intros j t Hj. apply Hstep. lia.
Qed.
End kernel_loops.
