(* ===== verification/Memory.v ===== *)
(** * The flat 32-bit byte memory the kernel runs on *)
From S2P Require Import Prelude.
Local Open Scope Z_scope.

(** Every content of the 2^32 bytes is representable: a missing key reads as 0.
    Loads and stores take an address modulo 2^32; multi-byte accesses are
    little-endian and may be unaligned, as on i386. *)
Abbreviation memory := (gmap Z Z).

Definition ld8 (m : memory) (a : Z) : Z := w8 (default 0 (m !! w32 a)).
Definition st8 (m : memory) (a v : Z) : memory := <[w32 a := w8 v]> m.

Definition ld16 (m : memory) (a : Z) : Z := ld8 m a + 256 * ld8 m (a + 1).
Definition st16 (m : memory) (a v : Z) : memory := st8 (st8 m a v) (a + 1) (v / 256).

Definition ld32 (m : memory) (a : Z) : Z :=
  ld8 m a + 256 * ld8 m (a + 1) + 65536 * ld8 m (a + 2) + 16777216 * ld8 m (a + 3).
Definition st32 (m : memory) (a v : Z) : memory :=
  st8 (st8 (st8 (st8 m a v) (a + 1) (v / 256)) (a + 2) (v / 65536)) (a + 3) (v / 16777216).

Arguments ld8 : simpl never.
Arguments st8 : simpl never.
Arguments ld16 : simpl never.
Arguments st16 : simpl never.
Arguments ld32 : simpl never.
Arguments st32 : simpl never.

(** Two memories are the same when every byte reads the same. *)
Definition mem_eq (m1 m2 : memory) : Prop := ∀ a, ld8 m1 a = ld8 m2 a.
Infix "≅" := mem_eq (at level 70, no associativity).

(** [frame P m m']: going from [m] to [m'], only bytes in [P] changed. *)
Definition frame (P : Z → Prop) (m m' : memory) : Prop :=
  ∀ a, 0 <= a < 4294967296 → ¬ P a → ld8 m' a = ld8 m a.
(** The half-open range of [n] bytes at [a]. *)
Definition range (a n : Z) : Z → Prop := λ x, a <= x < a + n.

#[export] Instance mem_eq_equiv : Equivalence mem_eq.
Proof.
  split; [by intros m a|by intros m1 m2 H a|].
  intros m1 m2 m3 H1 H2 a. by rewrite H1.
Qed.
#[export] Instance ld8_proper : Proper (mem_eq ==> eq ==> eq) ld8.
Proof. intros m1 m2 H a ? <-. apply H. Qed.
#[export] Instance ld32_proper : Proper (mem_eq ==> eq ==> eq) ld32.
Proof. intros m1 m2 H a ? <-. unfold ld32. by rewrite !H. Qed.

Lemma ld8_range m a : 0 <= ld8 m a < 256.
Proof. apply w8_range. Qed.
Lemma ld16_range m a : 0 <= ld16 m a < 65536.
Proof. unfold ld16. pose proof (ld8_range m a). pose proof (ld8_range m (a+1)). lia. Qed.
Lemma ld32_range m a : 0 <= ld32 m a < 4294967296.
Proof.
  unfold ld32. pose proof (ld8_range m a). pose proof (ld8_range m (a+1)).
  pose proof (ld8_range m (a+2)). pose proof (ld8_range m (a+3)). lia.
Qed.
#[export] Hint Resolve ld8_range ld16_range ld32_range : words.

Lemma ld8_lookup m a : ld8 m a = w8 (default 0 (m !! w32 a)).
Proof. done. Qed.

Lemma ld8_w32 m a : ld8 m (w32 a) = ld8 m a.
Proof. unfold ld8. by rewrite w32_w32. Qed.

Lemma ld8_st8 m a v b :
  ld8 (st8 m a v) b = if decide (w32 a = w32 b) then w8 v else ld8 m b.
Proof.
  unfold ld8, st8. rewrite lookup_insert.
  destruct (decide (w32 a = w32 b)); simpl; [apply w8_w8|done].
Qed.
Lemma ld8_st8_eq m a v : ld8 (st8 m a v) a = w8 v.
Proof. rewrite ld8_st8. by rewrite decide_True. Qed.
Lemma ld8_st8_ne m a v b :
  0 <= a < 4294967296 → 0 <= b < 4294967296 → a ≠ b → ld8 (st8 m a v) b = ld8 m b.
Proof. intros. rewrite ld8_st8, decide_False; [done|]. by rewrite !w32_small. Qed.

(** ** Congruent and neighbouring addresses *)
Lemma ld8_st8_near_ne m a v b :
  -4294967296 < a - b < 4294967296 → a ≠ b → ld8 (st8 m a v) b = ld8 m b.
Proof.
  intros H Hne. rewrite ld8_st8, decide_False; [done|].
  intros E. apply Hne. by apply w32_inj_near.
Qed.

Lemma ld32_st8_near_ne m a v b :
  (a < b ∧ b + 4 <= a + 4294967296) ∨ (b + 4 <= a ∧ a < b + 4294967296) →
  ld32 (st8 m a v) b = ld32 m b.
Proof. intros. unfold ld32. by rewrite !ld8_st8_near_ne by lia. Qed.

Lemma ld8_st32_near_ne m a v b :
  (b < a ∧ a + 4 <= b + 4294967296) ∨ (a + 4 <= b ∧ b < a + 4294967296) →
  ld8 (st32 m a v) b = ld8 m b.
Proof. intros. unfold st32. by rewrite !ld8_st8_near_ne by lia. Qed.

Lemma ld32_st32_near_ne m a v b :
  (a + 4 <= b ∧ b + 4 <= a + 4294967296) ∨ (b + 4 <= a ∧ a + 4 <= b + 4294967296) →
  ld32 (st32 m a v) b = ld32 m b.
Proof. intros. unfold ld32. by rewrite !ld8_st32_near_ne by lia. Qed.

(** The [k]-th byte written by [st32]. *)
Lemma ld8_st32_byte m a v i :
  0 <= i < 4 → ld8 (st32 m a v) (a + i) = w8 (v / 2 ^ (8 * i)).
Proof.
  intros Hi. unfold st32.
  assert (i = 0 ∨ i = 1 ∨ i = 2 ∨ i = 3) as [-> | [-> | [-> | ->]]] by lia;
    rewrite ?Z.add_0_r; repeat rewrite ld8_st8_near_ne by lia; rewrite ld8_st8_eq; try done.
  by rewrite Z.div_1_r.
Qed.

Lemma ld8_st32_first m a v : ld8 (st32 m a v) a = w8 v.
Proof. rewrite <- (Z.add_0_r a) at 2. rewrite ld8_st32_byte by lia. by rewrite Z.div_1_r. Qed.

(** A word is the sum of its bytes. *)
Lemma bytes_sum v :
  w8 v + 256 * w8 (v / 256) + 65536 * w8 (v / 65536) + 16777216 * w8 (v / 16777216) = w32 v.
Proof.
  unfold w8, w32.
  replace 65536 with (256 * 256) by done. replace 16777216 with (256 * 256 * 256) by done.
  replace 4294967296 with (256 * (256 * (256 * 256))) by done.
  rewrite <- !Z.div_div by lia.
  rewrite (Z.rem_mul_r v 256), (Z.rem_mul_r (v / 256) 256), (Z.rem_mul_r (v / 256 / 256) 256) by lia.
  lia.
Qed.

Lemma ld32_st32_eq m a v : ld32 (st32 m a v) a = w32 v.
Proof.
  unfold ld32. rewrite <- (Z.add_0_r a) at 2.
  rewrite !ld8_st32_byte by lia. rewrite <- bytes_sum.
  change (2 ^ (8 * 0)) with 1. by rewrite Z.div_1_r.
Qed.

Lemma ld32_w32 m a : ld32 m (w32 a) = ld32 m a.
Proof.
  unfold ld32. rewrite ld8_w32.
  by rewrite <- (ld8_w32 _ (w32 a + 1)), <- (ld8_w32 _ (w32 a + 2)), <- (ld8_w32 _ (w32 a + 3)),
    !w32_add_l, !ld8_w32.
Qed.

Lemma ld16_st16_eq m a v : ld16 (st16 m a v) a = w16 v.
Proof.
  unfold ld16, st16. rewrite ld8_st8_near_ne by lia. rewrite !ld8_st8_eq.
  unfold w8, w16. replace 65536 with (256 * 256) by done. rewrite Z.rem_mul_r by lia. lia.
Qed.

Lemma ld16_st16_near_ne m a v b :
  (a + 2 <= b ∧ b + 2 <= a + 4294967296) ∨ (b + 2 <= a ∧ a + 2 <= b + 4294967296) →
  ld16 (st16 m a v) b = ld16 m b.
Proof. intros. unfold ld16, st16. by rewrite !ld8_st8_near_ne by lia. Qed.

(** ** Frames *)
Lemma frame_refl P m : frame P m m.
Proof. by intros a. Qed.
Lemma frame_trans P m1 m2 m3 : frame P m1 m2 → frame P m2 m3 → frame P m1 m3.
Proof. intros H1 H2 a Ha HP. by rewrite H2, H1. Qed.
Lemma frame_weaken (P Q : Z → Prop) m m' :
  frame P m m' → (∀ a, 0 <= a < 4294967296 → P a → Q a) → frame Q m m'.
Proof. intros H HPQ a Ha HQ. apply H; [done|]. intros HP. by apply HQ, HPQ. Qed.

Lemma frame_st8 (P : Z → Prop) m m' a v :
  frame P m m' → 0 <= a < 4294967296 → P a → frame P m (st8 m' a v).
Proof.
  intros H Ha HP b Hb HPb. rewrite ld8_st8_ne; [by apply H|done..|]. by intros ->.
Qed.
Lemma frame_st32 (P : Z → Prop) m m' a v :
  frame P m m' → 0 <= a → a + 4 <= 4294967296 → (∀ x, a <= x < a + 4 → P x) →
  frame P m (st32 m' a v).
Proof.
  intros H H0 H1 HP. unfold st32.
  repeat (apply frame_st8; [|lia|apply HP; lia]). done.
Qed.

Lemma frame_ld8 P m m' a : frame P m m' → 0 <= a < 4294967296 → ¬ P a → ld8 m' a = ld8 m a.
Proof. auto. Qed.
Lemma frame_ld32 (P : Z → Prop) m m' a :
  frame P m m' → 0 <= a → a + 4 <= 4294967296 → (∀ x, a <= x < a + 4 → ¬ P x) →
  ld32 m' a = ld32 m a.
Proof. intros H H0 H1 HP. unfold ld32. rewrite !H by (lia || (apply HP; lia)). done. Qed.
Lemma frame_ld16 (P : Z → Prop) m m' a :
  frame P m m' → 0 <= a → a + 2 <= 4294967296 → (∀ x, a <= x < a + 2 → ¬ P x) →
  ld16 m' a = ld16 m a.
Proof. intros H H0 H1 HP. unfold ld16. rewrite !H by (lia || (apply HP; lia)). done. Qed.

Lemma ld32_ext m m' a b :
  (∀ i, 0 <= i < 4 → ld8 m' (b + i) = ld8 m (a + i)) → ld32 m' b = ld32 m a.
Proof.
  intros H. unfold ld32. pose proof (H 0 ltac:(lia)) as H0. rewrite !Z.add_0_r in H0.
  by rewrite H0, !H by lia.
Qed.

(** ** Bytes at 32-bit addresses *)
Definition mem_wf (m : memory) : Prop := map_Forall (λ a v, 0 <= a < 4294967296 ∧ 0 <= v < 256) m.
Lemma st8_wf m a v : mem_wf m → mem_wf (st8 m a v).
Proof. intros Hm. apply map_Forall_insert_2; [split; [apply w32_range|apply w8_range]|done]. Qed.
Lemma st16_wf m a v : mem_wf m → mem_wf (st16 m a v).
Proof. intros. by repeat apply st8_wf. Qed.
Lemma st32_wf m a v : mem_wf m → mem_wf (st32 m a v).
Proof. intros. by repeat apply st8_wf. Qed.

(** ** Words stored as bytes: distinct ranges below 2^32 *)
Create HintDb mem discriminated.
#[export] Hint Resolve frame_refl : mem.

(** [mem_simpl] reads through stores, discharging the disjointness of the
    ranges with [lia]. *)
Ltac mem_step :=
  match goal with
  | |- context [ld32 (st32 ?m ?a ?v) ?a] => rewrite (ld32_st32_eq m a v)
  | |- context [ld8 (st8 ?m ?a ?v) ?a] => rewrite (ld8_st8_eq m a v)
  | |- context [ld32 (st32 ?m ?a ?v) ?b] => rewrite (ld32_st32_near_ne m a v b) by lia
  | |- context [ld32 (st8 ?m ?a ?v) ?b] => rewrite (ld32_st8_near_ne m a v b) by lia
  | |- context [ld8 (st32 ?m ?a ?v) ?b] => rewrite (ld8_st32_near_ne m a v b) by lia
  | |- context [ld8 (st8 ?m ?a ?v) ?b] => rewrite (ld8_st8_near_ne m a v b) by lia
  | |- context [ld32 (st32 ?m ?a ?v) ?b] =>
      replace b with a by lia; rewrite (ld32_st32_eq m a v)
  | |- context [ld8 (st8 ?m ?a ?v) ?b] =>
      replace b with a by lia; rewrite (ld8_st8_eq m a v)
  end.
Ltac mem_simpl := repeat mem_step.

(** Conversion never needs to look inside a byte access. *)
#[global] Opaque ld8 st8.
