(* ===== verification/LibString.v ===== *)
(** * libc/string: memcpy, memmove, memset, memcmp, strlen, strcmp, strcpy

    The routines of [src/libc/string/] on the byte memory.  A [while] over a
    C string takes fuel: the length of the string is enough. *)
From S2P Require Import Prelude Memory.
Local Open Scope Z_scope.
Local Open Scope u32_scope.

(** ** The routines *)
Definition memset (m : memory) (bufptr value size : Z) : memory * Z :=
  (for_loop (Z.to_nat size) 0 (λ i m, st8 m (bufptr ⊕ i) (w8 value)) m, bufptr).

Definition memcpy (m : memory) (dstptr srcptr size : Z) : memory * Z :=
  (for_loop (Z.to_nat size) 0 (λ i m, st8 m (dstptr ⊕ i) (ld8 m (srcptr ⊕ i))) m, dstptr).

(** The second loop counts [i] down from [size]; [k] iterations are done when
    [i = size - k]. *)
Definition memmove (m : memory) (dstptr srcptr size : Z) : memory * Z :=
  if dstptr <? srcptr then
    (for_loop (Z.to_nat size) 0 (λ i m, st8 m (dstptr ⊕ i) (ld8 m (srcptr ⊕ i))) m, dstptr)
  else
    (for_loop (Z.to_nat size) 0 (λ k m,
       let i := size - k in
       st8 m (dstptr ⊕ (i - 1)) (ld8 m (srcptr ⊕ (i - 1)))) m, dstptr).

Fixpoint memcmp_from (m : memory) (aptr bptr : Z) (n : nat) (i : Z) : Z :=
  match n with
  | O => 0
  | S n' =>
      let a := ld8 m (aptr ⊕ i) in
      let b := ld8 m (bptr ⊕ i) in
      if a <? b then -1
      else if b <? a then 1
      else memcmp_from m aptr bptr n' (i + 1)
  end.
Definition memcmp (m : memory) (aptr bptr size : Z) : Z :=
  memcmp_from m aptr bptr (Z.to_nat size) 0.

Definition strlen (fuel : nat) (m : memory) (str : Z) : option Z :=
  while fuel (λ len, negb (ld8 m (str ⊕ len) =? 0)) (λ len, len ⊕ 1) 0.

Definition strcmp (fuel : nat) (m : memory) (X Y : Z) : option Z :=
  '(X', Y') ← while fuel
    (λ '(X, Y), negb (ld8 m X =? 0) && (ld8 m X =? ld8 m Y))
    (λ '(X, Y), (X ⊕ 1, Y ⊕ 1)) (X, Y);
  Some (ld8 m X' - ld8 m Y').

Definition strcpy (fuel : nat) (m : memory) (destination source : Z) : option (memory * Z) :=
  if destination =? 0 then Some (m, 0)
  else
    '(m', d, _) ← while fuel
      (λ '(m, _, s), negb (ld8 m s =? 0))
      (λ '(m, d, s), (st8 m d (ld8 m s), d ⊕ 1, s ⊕ 1)) (m, destination, source);
    Some (st8 m' d 0, destination).

(** ** Reference notions *)

(** The [n] bytes at [a]. *)
Fixpoint bytes (m : memory) (a : Z) (n : nat) : list Z :=
  match n with
  | O => []
  | S n' => ld8 m a :: bytes m (a + 1) n'
  end.

(** [cstr m s l]: the bytes [l], none of them zero, lie at [s] and are
    followed by a zero byte. *)
Fixpoint cstr (m : memory) (s : Z) (l : list Z) : Prop :=
  match l with
  | [] => ld8 m s = 0
  | c :: l' => c ≠ 0 ∧ ld8 m s = c ∧ cstr m (s + 1) l'
  end.

(** Lexicographic order on byte strings, a proper prefix being smaller. *)
Fixpoint lex (l1 l2 : list Z) : comparison :=
  match l1, l2 with
  | [], [] => Eq
  | [], _ :: _ => Lt
  | _ :: _, [] => Gt
  | x :: l1', y :: l2' => match x ?= y with Eq => lex l1' l2' | c => c end
  end.

(** ** Lemmas *)
Lemma ld8_add_l m a b : ld8 m (w32 a + b) = ld8 m (a + b).
Proof. by rewrite <- ld8_w32, w32_add_l, ld8_w32. Qed.

Lemma lex_eq l1 l2 : lex l1 l2 = Eq ↔ l1 = l2.
Proof.
  revert l2. induction l1 as [|x l1 IH]; intros [|y l2]; simpl; try done.
  destruct (Z.compare_spec x y) as [->|H|H].
  - rewrite IH. split; [by intros ->|by intros [= ->]].
  - split; [done|]. intros [= -> _]. lia.
  - split; [done|]. intros [= -> _]. lia.
Qed.

Lemma length_bytes m a n : length (bytes m a n) = n.
Proof. revert a. induction n; intros; simpl; auto. Qed.

Lemma bytes_lookup m a n i : (i < n)%nat → bytes m a n !! i = Some (ld8 m (a + Z.of_nat i)).
Proof.
  revert a i. induction n as [|n IH]; intros a i Hi; [lia|].
  destruct i as [|i]; simpl; [by rewrite Z.add_0_r|].
  rewrite IH by lia. do 2 f_equal. lia.
Qed.

Lemma bytes_ext m m' a b n :
  (∀ i, 0 <= i < Z.of_nat n → ld8 m' (b + i) = ld8 m (a + i)) → bytes m' b n = bytes m a n.
Proof.
  intros H. apply list_eq_same_length with n; rewrite ?length_bytes; [done..|].
  intros i x y Hi. rewrite !bytes_lookup by done. intros [= <-] [= <-].
  apply H. lia.
Qed.

Lemma memset_spec m p v n :
  0 <= p → 0 <= n → p + n <= 4294967296 →
  frame (range p n) m (memset m p v n).1 ∧
  ∀ x, p <= x < p + n → ld8 (memset m p v n).1 x = w8 v.
Proof.
  intros Hp Hn Hpn. unfold memset; simpl.
  pose proof (for_loop_inv (λ i m', frame (range p n) m m' ∧
    ∀ x, p <= x < p + i → ld8 m' x = w8 v)
    (λ i m, st8 m (p ⊕ i) (w8 v)) (Z.to_nat n) 0 m) as H.
  rewrite Z2Nat.id, Z.add_0_l in H by done.
  apply H; [split; [apply frame_refl|lia]|].
  intros j m' Hj [Hf IH]. w32_simpl. split.
  - apply frame_st8; [done|unfold range; lia..].
  - intros x Hx. destruct (decide (x = p + j)) as [->|Hne].
    + by rewrite ld8_st8_eq, w8_w8.
    + rewrite ld8_st8_near_ne by lia. apply IH. lia.
Qed.

(** What a block copy promises: the destination holds the source bytes as
    they were before, and nothing else changed. *)
Definition copied (m : memory) (dst src n : Z) (m' : memory) : Prop :=
  frame (range dst n) m m' ∧ ∀ i, 0 <= i < n → ld8 m' (dst + i) = ld8 m (src + i).

(** The ascending copy loop is right when it never overwrites a byte it has
    still to read. *)
Lemma copy_up_spec m dst src n :
  0 <= dst → 0 <= src → 0 <= n → dst + n <= 4294967296 → src + n <= 4294967296 →
  dst <= src ∨ src + n <= dst →
  copied m dst src n
    (for_loop (Z.to_nat n) 0 (λ i m, st8 m (dst ⊕ i) (ld8 m (src ⊕ i))) m).
Proof.
  intros Hd Hs Hn Hdn Hsn Hov.
  pose proof (for_loop_inv (λ i m', frame (range dst i) m m' ∧
    ∀ x, 0 <= x < i → ld8 m' (dst + x) = ld8 m (src + x))
    (λ i m, st8 m (dst ⊕ i) (ld8 m (src ⊕ i))) (Z.to_nat n) 0 m) as H.
  rewrite Z2Nat.id, Z.add_0_l in H by done.
  apply H; [split; [apply frame_refl|lia]|].
  intros j m' Hj [Hf IH]. w32_simpl. split.
  - apply frame_st8; [|unfold range; lia..].
    eapply frame_weaken; [done|]. unfold range; lia.
  - intros x Hx. destruct (decide (x = j)) as [->|Hne].
    + rewrite ld8_st8_eq, w8_small by apply ld8_range. apply Hf; unfold range; lia.
    + rewrite ld8_st8_near_ne by lia. apply IH. lia.
Qed.

Lemma copy_down_spec m dst src n :
  0 <= dst → 0 <= src → 0 <= n → dst + n <= 4294967296 → src + n <= 4294967296 →
  src <= dst →
  copied m dst src n
    (for_loop (Z.to_nat n) 0 (λ k m, let i := n - k in
       st8 m (dst ⊕ (i - 1)) (ld8 m (src ⊕ (i - 1)))) m).
Proof.
  intros Hd Hs Hn Hdn Hsn Hov.
  pose proof (for_loop_inv (λ k m', frame (range (dst + (n - k)) k) m m' ∧
    ∀ x, n - k <= x < n → ld8 m' (dst + x) = ld8 m (src + x))
    (λ k m, let i := n - k in st8 m (dst ⊕ (i - 1)) (ld8 m (src ⊕ (i - 1))))
    (Z.to_nat n) 0 m) as H.
  rewrite Z2Nat.id, Z.add_0_l in H by done.
  destruct H as [Hf H]; [split; [apply frame_refl|lia]| |].
  - intros j m' Hj [Hf IH]. cbv zeta. w32_simpl. split.
    + apply frame_st8; [|unfold range; lia..].
      eapply frame_weaken; [done|]. unfold range; lia.
    + intros x Hx. destruct (decide (x = n - j - 1)) as [->|Hne].
      * rewrite ld8_st8_eq, w8_small by apply ld8_range. apply Hf; unfold range; lia.
      * rewrite ld8_st8_near_ne by lia. apply IH. lia.
  - split; [|intros; apply H; lia]. by replace dst with (dst + (n - n)) at 1 by lia.
Qed.

Lemma memcpy_spec m dst src n :
  0 <= dst → 0 <= src → 0 <= n → dst + n <= 4294967296 → src + n <= 4294967296 →
  dst <= src ∨ src + n <= dst →
  copied m dst src n (memcpy m dst src n).1.
Proof. apply copy_up_spec. Qed.

(** ** C strings *)
Lemma cstr_frame P m m' s l :
  frame P m m' → 0 <= s → s + Z.of_nat (length l) < 4294967296 →
  (∀ x, s <= x <= s + Z.of_nat (length l) → ¬ P x) →
  cstr m s l → cstr m' s l.
Proof.
  revert s. induction l as [|c l IH]; simpl; intros s Hf Hs Hl HP H.
  - rewrite <- H. apply Hf; [lia|apply HP; lia].
  - destruct H as (Hc & Hs' & H). split_and!; [done| |].
    + rewrite <- Hs'. apply Hf; [lia|apply HP; lia].
    + apply IH; [done|lia..| |done]. intros x Hx. apply HP. lia.
Qed.

(** A string in memory is determined by its address. *)
Lemma cstr_inj m s l1 l2 : cstr m s l1 → cstr m s l2 → l1 = l2.
Proof.
  revert s l2. induction l1 as [|c l1 IH]; intros s [|d l2]; simpl; [done|intuition congruence..|].
  intros (_ & Hc & H1) (_ & Hd & H2). f_equal; [congruence|by eapply IH].
Qed.

Lemma cstr_lookup m s l i c : cstr m s l → l !! i = Some c → ld8 m (s + Z.of_nat i) = c ∧ c ≠ 0.
Proof.
  revert s i. induction l as [|d l IH]; intros s i H Hi; [done|].
  destruct H as (Hd & Hs & H). destruct i as [|i]; simpl in Hi.
  - simplify_eq. by rewrite Z.add_0_r.
  - replace (s + Z.of_nat (S i)) with (s + 1 + Z.of_nat i) by lia. by apply IH.
Qed.

Lemma cstr_nul m s l : cstr m s l → ld8 m (s + Z.of_nat (length l)) = 0.
Proof.
  revert s. induction l as [|d l IH]; intros s H; simpl in *; [by rewrite Z.add_0_r|].
  destruct H as (_ & _ & H).
  replace (s + Z.of_nat (S (length l))) with (s + 1 + Z.of_nat (length l)) by lia. by apply IH.
Qed.

Lemma cstr_w32 m s l : cstr m (w32 s) l ↔ cstr m s l.
Proof.
  revert s. induction l as [|c l IH]; intros s; simpl; rewrite ld8_w32; [done|].
  rewrite <- (IH (s + 1)), <- (IH (w32 s + 1)), w32_add_l. done.
Qed.

Lemma strlen_loop fuel m s l len :
  cstr m (s + len) l → 0 <= len → len + Z.of_nat (length l) < 4294967296 →
  (length l <= fuel)%nat →
  while fuel (λ len, negb (ld8 m (s ⊕ len) =? 0)) (λ len, len ⊕ 1) len
  = Some (len + Z.of_nat (length l)).
Proof.
  revert l len. induction fuel as [|fuel IH]; intros [|c l] len H Hlen Hl Hf;
    simpl in *; rewrite ld8_w32; try lia.
  - by rewrite H, Z.add_0_r.
  - by rewrite H, Z.add_0_r.
  - destruct H as (Hc & Hs & H). rewrite Hs.
    destruct (Z.eqb_spec c 0) as [|_]; [done|simpl]. w32_simpl.
    rewrite (IH l); [f_equal; lia| |lia..]. by rewrite Z.add_assoc.
Qed.

Lemma strlen_spec fuel m s l :
  cstr m s l → Z.of_nat (length l) < 4294967296 → (length l <= fuel)%nat →
  strlen fuel m s = Some (Z.of_nat (length l)).
Proof. intros. unfold strlen. rewrite (strlen_loop _ _ _ l); rewrite ?Z.add_0_r; auto with lia. Qed.

Lemma strcmp_unfold fuel m X Y :
  strcmp fuel m X Y =
    if negb (ld8 m X =? 0) && (ld8 m X =? ld8 m Y) then
      match fuel with O => None | S fuel' => strcmp fuel' m (X ⊕ 1) (Y ⊕ 1) end
    else Some (ld8 m X - ld8 m Y).
Proof. unfold strcmp. destruct fuel; simpl; by case_match. Qed.

Lemma sub_compare a b : (a - b ?= 0) = (a ?= b).
Proof.
  destruct (Z.compare_spec a b); [apply Z.compare_eq_iff|apply Z.compare_lt_iff|apply Z.compare_gt_iff]; lia.
Qed.

(** The sign of [strcmp] is the lexicographic order of the two strings. *)
Lemma strcmp_spec fuel m X Y l1 l2 :
  cstr m X l1 → cstr m Y l2 → (length l1 <= fuel)%nat →
  ∃ r, strcmp fuel m X Y = Some r ∧ (r ?= 0) = lex l1 l2.
Proof.
  revert fuel X Y l2. induction l1 as [|c1 l1 IH]; intros fuel X Y l2 H1 H2 Hf;
    rewrite strcmp_unfold.
  - simpl in H1. rewrite H1. simpl. eexists; split; [done|].
    destruct l2 as [|c2 l2]; simpl in H2; [by rewrite H2|].
    destruct H2 as (? & HY & _). pose proof (ld8_range m Y).
    rewrite (sub_compare 0). apply Z.compare_lt_iff. lia.
  - destruct H1 as (Hc1 & HX & H1). rewrite HX.
    destruct (Z.eqb_spec c1 0) as [|_]; [done|]. cbn [negb andb].
    destruct l2 as [|c2 l2]; [|destruct H2 as (Hc2 & HY & H2)]; cbn [lex].
    + simpl in H2. rewrite H2. destruct (Z.eqb_spec c1 0) as [|_]; [done|].
      eexists; split; [done|]. rewrite sub_compare. apply Z.compare_gt_iff.
      pose proof (ld8_range m X). lia.
    + rewrite HY. destruct (Z.eqb_spec c1 c2) as [->|Hne].
      * rewrite Z.compare_refl. destruct fuel as [|fuel]; simpl in Hf; [lia|].
        apply IH; [by apply cstr_w32..|lia].
      * eexists; split; [done|]. rewrite sub_compare.
        destruct (Z.compare_spec c1 c2); done.
Qed.

(** ** strcpy *)
Lemma strcpy_loop fuel m d s l :
  cstr m s l → 0 < d → 0 <= s →
  d + Z.of_nat (length l) < 4294967296 → s + Z.of_nat (length l) < 4294967296 →
  d + Z.of_nat (length l) < s ∨ s + Z.of_nat (length l) < d →
  (length l <= fuel)%nat →
  ∃ m' s', while fuel (λ '(m, _, s), negb (ld8 m s =? 0))
      (λ '(m, d, s), (st8 m d (ld8 m s), d ⊕ 1, s ⊕ 1)) (m, d, s)
    = Some (m', d + Z.of_nat (length l), s') ∧
    frame (range d (Z.of_nat (length l))) m m' ∧
    ∀ i c, l !! i = Some c → ld8 m' (d + Z.of_nat i) = c.
Proof.
  revert fuel m d s. induction l as [|c l IH]; intros fuel m d s H Hd Hs Hdl Hsl Hov Hf.
  - simpl in H. exists m, s. destruct fuel; simpl; rewrite H, Z.add_0_r; split_and!; done.
  - destruct H as (Hc & Hcs & H). simpl in *. destruct fuel as [|fuel]; [lia|].
    cbn [while]. rewrite Hcs. destruct (Z.eqb_spec c 0) as [|_]; [done|]. cbn [negb].
    w32_simpl.
    destruct (IH fuel (st8 m d c) (d + 1) (s + 1)) as (m' & s' & Hw & Hfr & Hl);
      [eapply cstr_frame; [apply (frame_st8 (range d 1)); [apply frame_refl|..]|..|done]; unfold range; lia|lia..|].
    exists m', s'. split_and!.
    + rewrite Hw. do 3 f_equal. lia.
    + eapply frame_trans.
      * apply (frame_st8 (range d (Z.of_nat (S (length l)))) m m d c);
          [apply frame_refl|unfold range; lia..].
      * eapply frame_weaken; [done|]. unfold range; lia.
    + intros [|i] c' Hi; simpl in Hi.
      * simplify_eq. rewrite Z.add_0_r, Hfr by (unfold range; lia).
        rewrite ld8_st8_eq. apply w8_small, ld8_range.
      * replace (d + Z.of_nat (S i)) with (d + 1 + Z.of_nat i) by lia. by apply Hl.
Qed.

Lemma cstr_intro m s l :
  (∀ i c, l !! i = Some c → c ≠ 0 ∧ ld8 m (s + Z.of_nat i) = c) →
  ld8 m (s + Z.of_nat (length l)) = 0 → cstr m s l.
Proof.
  revert s. induction l as [|c l IH]; intros s Hl H0; simpl in *; [by rewrite Z.add_0_r in H0|].
  destruct (Hl 0%nat c) as [Hc Hs]; [done|]. rewrite Z.add_0_r in Hs. split_and!; [done..|].
  apply IH; [|by rewrite <- H0; f_equal; lia].
  intros i d Hi. destruct (Hl (S i) d) as [Hd Hi']; [done|].
  split; [done|]. rewrite <- Hi'. f_equal. lia.
Qed.

Lemma strcpy_spec fuel m dst src l :
  cstr m src l → 0 < dst → 0 <= src →
  dst + Z.of_nat (length l) < 4294967296 → src + Z.of_nat (length l) < 4294967296 →
  dst + Z.of_nat (length l) < src ∨ src + Z.of_nat (length l) < dst →
  (length l <= fuel)%nat →
  ∃ m', strcpy fuel m dst src = Some (m', dst) ∧ cstr m' dst l ∧
    frame (range dst (Z.of_nat (length l) + 1)) m m'.
Proof.
  intros H Hd Hs Hdl Hsl Hov Hf. unfold strcpy. destruct (Z.eqb_spec dst 0) as [|_]; [lia|].
  destruct (strcpy_loop fuel m dst src l) as (m' & s' & -> & Hfr & Hl); [done..|].
  eexists; split_and!; [simpl; reflexivity| |].
  - apply cstr_intro; [|apply ld8_st8_eq].
    intros i c Hi. destruct (cstr_lookup _ _ _ _ _ H Hi) as [_ ?]. split; [done|].
    apply lookup_lt_Some in Hi as ?. rewrite ld8_st8_near_ne by lia. by apply Hl.
  - apply frame_st8; [|lia|unfold range; lia].
    eapply frame_weaken; [done|]. unfold range; lia.
Qed.

(** ** memcmp *)
Lemma memcmp_from_spec m a b n i :
  memcmp_from m a b n i =
    match lex (bytes m (a + i) n) (bytes m (b + i) n) with Lt => -1 | Eq => 0 | Gt => 1 end.
Proof.
  revert i. induction n as [|n IH]; intros i; simpl; [done|].
  rewrite !ld8_w32, IH, !Z.add_assoc.
  destruct (Z.ltb_spec (ld8 m (a + i)) (ld8 m (b + i)));
    destruct (Z.ltb_spec (ld8 m (b + i)) (ld8 m (a + i)));
    destruct (Z.compare_spec (ld8 m (a + i)) (ld8 m (b + i))); lia || done.
Qed.

(** ** Properties *)

(** [strcmp] returns, and the sign of its result is the lexicographic order
    of the two strings; the length of the first string is fuel enough. *)
Theorem strcmp_order fuel m X Y l1 l2 :
  cstr m X l1 → cstr m Y l2 → (length l1 <= fuel)%nat →
  ∃ r, strcmp fuel m X Y = Some r ∧ (r ?= 0) = lex l1 l2.
Proof. apply strcmp_spec. Qed.

(** [strcpy] returns its destination and leaves there the source string
    with its terminator, whenever the two areas are disjoint; it writes nothing
    beyond the terminator. *)
Theorem strcpy_copies fuel m dst src l :
  cstr m src l → 0 < dst → 0 <= src →
  dst + Z.of_nat (length l) < 4294967296 → src + Z.of_nat (length l) < 4294967296 →
  dst + Z.of_nat (length l) < src ∨ src + Z.of_nat (length l) < dst →
  (length l <= fuel)%nat →
  ∃ m', strcpy fuel m dst src = Some (m', dst) ∧ cstr m' dst l ∧
    frame (range dst (Z.of_nat (length l) + 1)) m m'.
Proof. apply strcpy_spec. Qed.

(** [memcmp] is the lexicographic comparison of the two blocks of bytes. *)
Theorem memcmp_lexicographic m a b size :
  memcmp m a b size =
    match lex (bytes m a (Z.to_nat size)) (bytes m b (Z.to_nat size)) with
    | Lt => -1 | Eq => 0 | Gt => 1
    end.
Proof. unfold memcmp. by rewrite memcmp_from_spec, !Z.add_0_r. Qed.

(** [memmove] copies a block however source and destination overlap: the
    destination holds the bytes the source held before the call, no byte
    outside the destination changes, and the destination is returned. *)
Theorem memmove_copies m dst src n :
  0 <= dst → 0 <= src → 0 <= n → dst + n <= 4294967296 → src + n <= 4294967296 →
  copied m dst src n (memmove m dst src n).1 ∧ (memmove m dst src n).2 = dst.
Proof.
  intros Hd Hs Hn Hdn Hsn. unfold memmove. destruct (Z.ltb_spec dst src); (split; [cbn [fst]|done]).
  - apply copy_up_spec; (done || lia).
  - apply copy_down_spec; done.
Qed.

Lemma memset_pair m p v n : memset m p v n = ((memset m p v n).1, p).
Proof. done. Qed.
#[global] Opaque memset memcpy memmove.

(** ** Instances *)
(** "abc" at 16 and "abd" at 32. *)
Definition sample_strings : memory :=
  st8 (st8 (st8 (st8 (st8 (st8 ∅ 16 97) 17 98) 18 99) 32 97) 33 98) 34 100.

Lemma memmove_copies_witness :
  copied sample_strings 17 16 3 (memmove sample_strings 17 16 3).1 ∧
  (memmove sample_strings 17 16 3).2 = 17.
Proof. apply (memmove_copies sample_strings 17 16 3); lia. Defined.

Lemma strcmp_order_witness :
  ∃ r, strcmp 3 sample_strings 16 32 = Some r ∧ (r ?= 0) = lex [97; 98; 99] [97; 98; 100].
Proof. apply (strcmp_order 3 sample_strings 16 32 [97; 98; 99] [97; 98; 100]); by vm_compute. Defined.

Lemma strcpy_copies_witness :
  ∃ m', strcpy 3 sample_strings 64 16 = Some (m', 64) ∧ cstr m' 64 [97; 98; 99] ∧
    frame (range 64 (3 + 1)) sample_strings m'.
Proof.
  apply (strcpy_copies 3 sample_strings 64 16 [97; 98; 99]); try (by vm_compute); cbn; lia.
Defined.
