(* ===== verification/OrderedList.v ===== *)
(** * Util/OrderedList.h: the ordered array of pointers

    The elements live in the byte memory, one 32-bit word each; the object
    itself is a record.  The representation predicate [ol_repr] relates it to
    a list, on which [Insert] is sorted insertion and [Remove] is deletion. *)
From S2P Require Import Prelude Memory LibString.
Local Open Scope Z_scope.
Local Open Scope u32_scope.

Record OrderedList := MkOrderedList {
  m_elements : Z;
  m_size : Z;
  m_maxSize : Z;
}.

(** The address of [m_elements[index]]. *)
Definition slot (ol : OrderedList) (index : Z) : Z := m_elements ol ⊕ 4 * index.

(** The constructor over a given array: [sizeof(T)] is 4 for a pointer. *)
Definition OrderedList_at (m : memory) (elementsMemAddress maxSize : Z) : memory * OrderedList :=
  ((memset m elementsMemAddress 0 (maxSize ⊗ 4)).1,
   MkOrderedList elementsMemAddress 0 maxSize).

Definition GetItemAtIndex (m : memory) (ol : OrderedList) (index : Z) : Z :=
  ld32 m (slot ol index).

Definition Size (ol : OrderedList) : Z := m_size ol.

Section operations.
(** [m_lessThanPredicate], which reads the objects its arguments point to. *)
Variable lessThan : memory → Z → Z → bool.

Definition Insert (m : memory) (ol : OrderedList) (item : Z) : memory * OrderedList :=
  let iterator := count_while (Z.to_nat (m_size ol)) 0
    (λ i, lessThan m (ld32 m (slot ol i)) item) in
  if iterator =? m_size ol then
    (st32 m (slot ol (m_size ol)) item,
     MkOrderedList (m_elements ol) (m_size ol ⊕ 1) (m_maxSize ol))
  else
    let tmp := ld32 m (slot ol iterator) in
    let m1 := st32 m (slot ol iterator) item in
    let '(m2, _) := for_loop (Z.to_nat (m_size ol - iterator)) iterator
      (λ i '(m, tmp), (st32 m (slot ol (i + 1)) tmp, ld32 m (slot ol (i + 1)))) (m1, tmp) in
    (m2, MkOrderedList (m_elements ol) (m_size ol ⊕ 1) (m_maxSize ol)).
End operations.

Definition Remove (m : memory) (ol : OrderedList) (index : Z) : memory * OrderedList :=
  (for_loop (Z.to_nat (m_size ol - index)) index
     (λ i m, st32 m (slot ol i) (ld32 m (slot ol (i + 1)))) m,
   MkOrderedList (m_elements ol) (m_size ol ⊖ 1) (m_maxSize ol)).

(** ** Specification *)

(** The words of [l] are stored from address [a] on. *)
Definition words_at (m : memory) (a : Z) (l : list Z) : Prop :=
  ∀ i x, l !! i = Some x → ld32 m (a + 4 * Z.of_nat i) = x.

(** [ol_repr m ol l]: the object holds the list [l] and there is room for one
    more word below 2^32. *)
Definition ol_repr (m : memory) (ol : OrderedList) (l : list Z) : Prop :=
  m_size ol = Z.of_nat (length l) ∧ words_at m (m_elements ol) l ∧
  0 <= m_elements ol ∧ m_elements ol + 4 * (Z.of_nat (length l) + 1) <= 4294967296.

(** Insertion before the first element that is not smaller. *)
Fixpoint insert_ordered (lt : Z → Z → bool) (x : Z) (l : list Z) : list Z :=
  match l with
  | [] => [x]
  | y :: l' => if lt y x then y :: insert_ordered lt x l' else x :: l
  end.

Definition Sorted_by (lt : Z → Z → bool) : list Z → Prop := StronglySorted (λ x y, lt y x = false).

(** ** Lemmas *)
Lemma words_at_frame P m m' a l :
  frame P m m' → 0 <= a → a + 4 * Z.of_nat (length l) <= 4294967296 →
  (∀ x, a <= x < a + 4 * Z.of_nat (length l) → ¬ P x) →
  words_at m a l → words_at m' a l.
Proof.
  intros Hf Ha Hl HP H i x Hi. rewrite <- (H i x Hi).
  apply lookup_lt_Some in Hi. eapply frame_ld32; [done|lia..|]. intros y Hy. apply HP. lia.
Qed.

Lemma ol_repr_frame P m m' ol l :
  frame P m m' →
  (∀ x, m_elements ol <= x < m_elements ol + 4 * Z.of_nat (length l) → ¬ P x) →
  ol_repr m ol l → ol_repr m' ol l.
Proof.
  intros Hf HP (Hs & Hw & He & Hr). split_and!; [done| |done..].
  eapply words_at_frame; [done|done|lia|done|done].
Qed.

Lemma slot_val m ol l i :
  ol_repr m ol l → 0 <= i <= Z.of_nat (length l) → slot ol i = m_elements ol + 4 * i.
Proof. intros (_ & _ & He & Hr) Hi. unfold slot. apply w32_small. lia. Qed.

Lemma GetItemAtIndex_lookup m ol l i x :
  ol_repr m ol l → l !! i = Some x → GetItemAtIndex m ol (Z.of_nat i) = x.
Proof.
  intros H Hi. pose proof (lookup_lt_Some _ _ _ Hi). unfold GetItemAtIndex.
  erewrite slot_val by (done || lia). by apply H.
Qed.

Lemma insert_ordered_split lt x l :
  ∃ l1 l2, l = l1 ++ l2 ∧ insert_ordered lt x l = l1 ++ x :: l2 ∧
    Forall (λ y, lt y x = true) l1 ∧
    match l2 with [] => True | y :: _ => lt y x = false end.
Proof.
  induction l as [|y l IH]; simpl; [by exists [], []|].
  destruct (lt y x) eqn:E.
  - destruct IH as (l1 & l2 & -> & -> & H1 & H2). exists (y :: l1), l2. split_and!; auto.
  - exists [], (y :: l). split_and!; auto.
Qed.

Lemma insert_ordered_perm lt x l : insert_ordered lt x l ≡ₚ x :: l.
Proof.
  destruct (insert_ordered_split lt x l) as (l1 & l2 & -> & -> & _).
  by rewrite Permutation_middle.
Qed.

(** Insertion keeps a list sorted when the order is total and transitive. *)
Lemma insert_ordered_sorted lt x l :
  (∀ a b, lt a b = true → lt b a = false) →
  (∀ a b c, lt b a = false → lt c b = false → lt c a = false) →
  Sorted_by lt l → Sorted_by lt (insert_ordered lt x l).
Proof.
  intros Hasym Htrans. induction 1 as [|y l Hs IH Hy]; simpl; [repeat constructor|].
  destruct (lt y x) eqn:E.
  - constructor; [done|]. rewrite insert_ordered_perm. auto.
  - repeat constructor; [done..|].
    eapply Forall_impl; [done|]. eauto.
Qed.

(** The scan of [Insert] stops at the insertion point. *)
Lemma scan_spec (lt : Z → Z → bool) (f : Z → Z) x l1 l2 i :
  (∀ j y, (l1 ++ l2) !! j = Some y → f (i + Z.of_nat j) = y) →
  Forall (λ y, lt y x = true) l1 →
  match l2 with [] => True | y :: _ => lt y x = false end →
  count_while (length (l1 ++ l2)) i (λ j, lt (f j) x) = i + Z.of_nat (length l1).
Proof.
  revert i. induction l1 as [|y l1 IH]; intros i Hf H1 H2; simpl in *.
  - destruct l2 as [|y l2]; simpl; [lia|].
    specialize (Hf 0%nat y eq_refl). rewrite Z.add_0_r in Hf. rewrite Hf, H2. lia.
  - pose proof (Hf 0%nat y eq_refl) as H0. rewrite Z.add_0_r in H0. rewrite H0.
    inversion_clear H1 as [|? ? Hy Hl]. rewrite Hy, IH; [lia| |done..].
    intros j z Hj. rewrite <- (Hf (S j) z Hj). f_equal. lia.
Qed.

(** The shifting loop of [Insert]: slot [it] holds the item, the old contents
    of the slots from [it] on move up by one. *)
Lemma shift_up_spec m ol n it item :
  0 <= m_elements ol → m_elements ol + 4 * (n + 1) <= 4294967296 → 0 <= it < n →
  let old k := ld32 m (m_elements ol + 4 * k) in
  ∃ m' tmp,
    for_loop (Z.to_nat (n - it)) it
      (λ i '(m, tmp), (st32 m (slot ol (i + 1)) tmp, ld32 m (slot ol (i + 1))))
      (st32 m (slot ol it) item, old it) = (m', tmp) ∧
    frame (range (m_elements ol) (4 * (n + 1))) m m' ∧
    ∀ k, 0 <= k <= n → ld32 m' (m_elements ol + 4 * k) =
      if k <? it then old k else if k =? it then w32 item else old (k - 1).
Proof.
  intros He Hr Hit old.
  assert (Hslot : ∀ i, 0 <= i <= n → slot ol i = m_elements ol + 4 * i)
    by (intros; apply w32_small; lia).
  pose proof (for_loop_inv (λ j '(m', tmp),
    frame (range (m_elements ol) (4 * (n + 1))) m m' ∧ tmp = old j ∧
    ∀ k, 0 <= k <= n → ld32 m' (m_elements ol + 4 * k) =
      if k <? it then old k else if k =? it then w32 item
      else if k <=? j then old (k - 1) else old k)
    (λ i '(m, tmp), (st32 m (slot ol (i + 1)) tmp, ld32 m (slot ol (i + 1))))
    (Z.to_nat (n - it)) it (st32 m (slot ol it) item, old it)) as H.
  rewrite Z2Nat.id in H by lia. replace (it + (n - it)) with n in H by lia.
  destruct (for_loop _ _ _ _) as [m' tmp]. exists m', tmp. destruct H as (Hf & _ & Hk).
  - rewrite Hslot by lia. split_and!; [|done|].
    + apply frame_st32; [apply frame_refl|unfold range; lia..].
    + intros k Hk. destruct (Z.eqb_spec k it) as [->|].
      * rewrite ld32_st32_eq. by destruct (Z.ltb_spec it it); [lia|].
      * rewrite ld32_st32_near_ne by lia.
        destruct (Z.ltb_spec k it), (Z.leb_spec k it); try done; lia.
  - intros j [m1 t1] Hj (Hf & -> & Hk). rewrite Hslot by lia. split_and!.
    + apply frame_st32; [done|unfold range; lia..].
    + rewrite Hk by lia. by destruct (Z.ltb_spec (j + 1) it), (Z.eqb_spec (j + 1) it),
        (Z.leb_spec (j + 1) j); try lia.
    + intros k Hk'. destruct (Z.eqb_spec k (j + 1)) as [->|].
      * rewrite ld32_st32_eq. unfold old at 1. rewrite w32_small by apply ld32_range.
        destruct (Z.ltb_spec (j + 1) it), (Z.eqb_spec (j + 1) it), (Z.leb_spec (j + 1) (j + 1));
          try lia. unfold old. f_equal. lia.
      * rewrite ld32_st32_near_ne, Hk by lia.
        destruct (Z.ltb_spec k it), (Z.eqb_spec k it), (Z.leb_spec k j), (Z.leb_spec k (j + 1));
          lia || done.
  - split_and!; [done..|]. intros k Hk'. rewrite Hk by lia.
    by destruct (Z.leb_spec k n); [|lia].
Qed.

Lemma Insert_empty lt m a n x :
  Insert lt m (MkOrderedList a 0 n) x = (st32 m (w32 a) x, MkOrderedList a 1 n).
Proof.
  unfold Insert, slot. cbn [m_size m_elements m_maxSize Z.to_nat count_while Z.eqb].
  by rewrite Z.mul_0_r, Z.add_0_r.
Qed.

Section insert.
Variable lessThan : memory → Z → Z → bool.

(** [Insert] refines insertion into the represented list, and writes only
    the slots up to the new last one. *)
Lemma Insert_refines m ol l x :
  ol_repr m ol l → 0 <= x < 4294967296 →
  m_elements ol + 4 * (Z.of_nat (length l) + 2) <= 4294967296 →
  let '(m', ol') := Insert lessThan m ol x in
  ol_repr m' ol' (insert_ordered (lessThan m) x l) ∧ m_elements ol' = m_elements ol ∧
  frame (range (m_elements ol) (4 * (Z.of_nat (length l) + 1))) m m'.
Proof.
  intros H Hx Hroom. pose proof H as (Hs & Hw & He & Hr).
  destruct (insert_ordered_split (lessThan m) x l) as (l1 & l2 & Hl & Hins & H1 & H2).
  unfold Insert. rewrite Hs, Nat2Z.id.
  assert (count_while (length l) 0 (λ i, lessThan m (ld32 m (slot ol i)) x)
          = Z.of_nat (length l1)) as ->.
  { rewrite Hl at 1.
    apply (scan_spec (lessThan m) (λ i, ld32 m (slot ol i)) x l1 l2 0); [|done..].
    intros j y Hj. rewrite <- Hl in Hj. rewrite Z.add_0_l. by eapply GetItemAtIndex_lookup. }
  assert (length l = length l1 + length l2)%nat as Hlen by (by rewrite Hl, length_app).
  assert (Hnew : length (insert_ordered (lessThan m) x l) = S (length l))
    by (rewrite Hins, length_app; simpl; lia).
  destruct (Z.eqb_spec (Z.of_nat (length l1)) (Z.of_nat (length l))) as [E|E].
  - (* append *)
    destruct l2 as [|? ?]; [|simpl in Hlen; lia]. rewrite app_nil_r in Hl. subst l1.
    erewrite slot_val by (done || lia). unfold ol_repr; simpl. rewrite Hnew, Hins.
    split_and!; [rewrite w32_small; lia| |done|lia|done|].
    + intros i y Hi. apply lookup_app_Some in Hi as [Hi|[Hge Hi]].
      * apply lookup_lt_Some in Hi as ?. rewrite ld32_st32_near_ne by lia. by apply Hw.
      * apply list_lookup_singleton_Some in Hi as [Hi ->].
        replace i with (length l) by lia. by rewrite ld32_st32_eq, w32_small.
    + apply frame_st32; [apply frame_refl|unfold range; lia..].
  - (* shift *)
    destruct (shift_up_spec m ol (Z.of_nat (length l)) (Z.of_nat (length l1)) x)
      as (m' & tmp & Hloop & Hf & Hk); [lia..|].
    rewrite (slot_val m ol l (Z.of_nat (length l1))) by (done || lia).
    rewrite (slot_val m ol l (Z.of_nat (length l1))) in Hloop by (done || lia).
    rewrite Hloop. unfold ol_repr; simpl. rewrite Hnew.
    split_and!; [rewrite w32_small; lia| |done|lia|done..].
    intros i y Hi. rewrite Hins in Hi, Hnew. apply lookup_lt_Some in Hi as Hlt.
    rewrite Hnew in Hlt. rewrite Hk by lia. rewrite Hl in Hw.
    destruct (Z.ltb_spec (Z.of_nat i) (Z.of_nat (length l1))) as [?|?].
    + apply Hw. rewrite lookup_app_l in Hi |- * by lia. done.
    + rewrite lookup_app_r in Hi by lia.
      destruct (Z.eqb_spec (Z.of_nat i) (Z.of_nat (length l1))) as [?|?].
      * replace (i - length l1)%nat with 0%nat in Hi by lia. simplify_eq/=. by apply w32_small.
      * replace (Z.of_nat i - 1) with (Z.of_nat (i - 1)) by lia. apply Hw.
        rewrite lookup_app_r by lia.
        replace (i - length l1)%nat with (S (i - 1 - length l1)) in Hi by lia. done.
Qed.
End insert.

(** The closing loop of [Remove]: the slots above [i0] move down by one. *)
Lemma shift_down_spec m ol n i0 :
  0 <= m_elements ol → m_elements ol + 4 * (n + 1) <= 4294967296 → 0 <= i0 <= n →
  let old k := ld32 m (m_elements ol + 4 * k) in
  let m' := for_loop (Z.to_nat (n - i0)) i0
      (λ i m, st32 m (slot ol i) (ld32 m (slot ol (i + 1)))) m in
  frame (range (m_elements ol) (4 * n)) m m' ∧
  ∀ k, 0 <= k < n → ld32 m' (m_elements ol + 4 * k) = if k <? i0 then old k else old (k + 1).
Proof.
  intros He Hr Hi0 old m'.
  assert (Hslot : ∀ i, 0 <= i <= n → slot ol i = m_elements ol + 4 * i)
    by (intros; apply w32_small; lia).
  pose proof (for_loop_inv (λ j m',
    frame (range (m_elements ol) (4 * n)) m m' ∧
    ∀ k, 0 <= k <= n → ld32 m' (m_elements ol + 4 * k) =
      if k <? i0 then old k else if k <? j then old (k + 1) else old k)
    (λ i m, st32 m (slot ol i) (ld32 m (slot ol (i + 1)))) (Z.to_nat (n - i0)) i0 m) as H.
  rewrite Z2Nat.id in H by lia. replace (i0 + (n - i0)) with n in H by lia.
  destruct H as [Hf Hk].
  - split; [apply frame_refl|]. intros k Hk. by destruct (Z.ltb_spec k i0).
  - intros j m1 Hj [Hf Hk]. rewrite !Hslot by lia. split.
    + apply frame_st32; [done|unfold range; lia..].
    + intros k Hk'. destruct (Z.eqb_spec k j) as [->|].
      * rewrite ld32_st32_eq, w32_small, Hk by (apply ld32_range || lia).
        by destruct (Z.ltb_spec (j + 1) i0), (Z.ltb_spec (j + 1) j), (Z.ltb_spec j i0),
          (Z.ltb_spec j (j + 1)); try lia.
      * rewrite ld32_st32_near_ne, Hk by lia.
        by destruct (Z.ltb_spec k i0), (Z.ltb_spec k j), (Z.ltb_spec k (j + 1)); try lia.
  - split; [done|]. intros k Hk'. unfold m'. rewrite Hk by lia.
    by destruct (Z.ltb_spec k n); [|lia].
Qed.

Lemma Remove_frame m ol l i :
  ol_repr m ol l → 0 <= i <= Z.of_nat (length l) →
  frame (range (m_elements ol) (4 * Z.of_nat (length l))) m (Remove m ol i).1 ∧
  m_elements (Remove m ol i).2 = m_elements ol.
Proof.
  intros (Hs & Hw & He & Hr) Hi. split; [|done]. unfold Remove. rewrite Hs.
  apply shift_down_spec; lia.
Qed.

(** [Remove] of a valid index refines deletion. *)
Lemma Remove_refines m ol l i :
  ol_repr m ol l → (i < length l)%nat →
  let '(m', ol') := Remove m ol (Z.of_nat i) in ol_repr m' ol' (delete i l).
Proof.
  intros (Hs & Hw & He & Hr) Hi. unfold Remove. rewrite Hs.
  destruct (shift_down_spec m ol (Z.of_nat (length l)) (Z.of_nat i)) as [_ Hk]; [lia..|].
  unfold ol_repr; simpl. rewrite length_delete by (by apply lookup_lt_is_Some).
  split_and!; [rewrite w32_small; lia| |done|lia].
  intros j x Hj. apply lookup_lt_Some in Hj as Hlt.
  rewrite length_delete in Hlt by (by apply lookup_lt_is_Some). rewrite Hk by lia.
  destruct (Z.ltb_spec (Z.of_nat j) (Z.of_nat i)).
  - apply Hw. by rewrite list_lookup_delete_lt in Hj by lia.
  - rewrite list_lookup_delete_ge in Hj by lia.
    replace (Z.of_nat j + 1) with (Z.of_nat (S j)) by lia. by apply Hw.
Qed.

(** [Remove] of the index one past the end drops the last element. *)
Lemma Remove_past_end m ol l x :
  ol_repr m ol (l ++ [x]) →
  let '(m', ol') := Remove m ol (Z.of_nat (length (l ++ [x]))) in
  ol_repr m' ol' l ∧ m' = m.
Proof.
  intros (Hs & Hw & He & Hr). unfold Remove. rewrite Hs, Z.sub_diag. simpl.
  rewrite length_app in *; simpl in *. split; [|done].
  unfold ol_repr; simpl. split_and!; [rewrite w32_small; lia| |done|lia].
  intros i y Hi. apply Hw. by apply lookup_app_l_Some.
Qed.

(** ** The two operations *)

(** An order given by a boolean test. *)
Record total_preorder (lt : Z → Z → bool) : Prop := {
  tp_asym : ∀ a b, lt a b = true → lt b a = false;
  tp_trans : ∀ a b c, lt b a = false → lt c b = false → lt c a = false;
}.

(** C24. [Insert] into a sorted list keeps it sorted: when the array has room,
    the object holds the old elements and the new one, in order, and only the
    slots in use are written. *)
Theorem Insert_sorted lessThan m ol l x :
  total_preorder (lessThan m) → ol_repr m ol l → Sorted_by (lessThan m) l →
  0 <= x < 4294967296 → m_elements ol + 4 * (Z.of_nat (length l) + 2) <= 4294967296 →
  ∃ l', ol_repr (Insert lessThan m ol x).1 (Insert lessThan m ol x).2 l' ∧
    l' ≡ₚ x :: l ∧ Sorted_by (lessThan m) l' ∧
    frame (range (m_elements ol) (4 * (Z.of_nat (length l) + 1))) m (Insert lessThan m ol x).1.
Proof.
  intros [Hasym Htrans] Hol Hs Hx Hroom.
  pose proof (Insert_refines lessThan m ol l x Hol Hx Hroom) as H.
  exists (insert_ordered (lessThan m) x l). destruct (Insert _ _ _ _). cbn [fst snd].
  destruct H as (Hr & _ & Hf). split_and!; [done| | |done].
  - apply insert_ordered_perm.
  - by apply insert_ordered_sorted.
Qed.

(** [Remove] of a valid index deletes that element and keeps the others in
    order; [GetItemAtIndex] then reads the shortened list. *)
Theorem Remove_deletes m ol l i :
  ol_repr m ol l → (i < length l)%nat →
  let r := Remove m ol (Z.of_nat i) in
  ol_repr r.1 r.2 (delete i l) ∧ Size r.2 = Z.of_nat (length l) - 1 ∧
  ∀ j x, delete i l !! j = Some x → GetItemAtIndex r.1 r.2 (Z.of_nat j) = x.
Proof.
  intros Hol Hi r. pose proof (Remove_refines m ol l i Hol Hi) as H. fold r in H.
  destruct r as [m' ol']. cbn [fst snd]. split; [done|]. split.
  - unfold Size. destruct H as [-> _]. rewrite length_delete by (by apply lookup_lt_is_Some). lia.
  - intros j x Hj. by eapply GetItemAtIndex_lookup.
Qed.

(** [Insert] does not look at [m_maxSize]: into a full list of smaller
    elements it stores the new one just past the end of the array. *)
Theorem Insert_overflows lessThan m ol l x :
  ol_repr m ol l → Z.of_nat (length l) = m_maxSize ol → Forall (λ y, lessThan m y x = true) l →
  Insert lessThan m ol x =
    (st32 m (m_elements ol + 4 * m_maxSize ol) x,
     MkOrderedList (m_elements ol) (m_maxSize ol ⊕ 1) (m_maxSize ol)).
Proof.
  intros Hol Hfull Hall. pose proof Hol as (Hs & _ & He & Hr). unfold Insert. rewrite Hs, Nat2Z.id.
  assert (count_while (length l) 0 (λ i, lessThan m (ld32 m (slot ol i)) x) = Z.of_nat (length l)) as ->.
  { pose proof (scan_spec (lessThan m) (λ i, ld32 m (slot ol i)) x l [] 0) as H.
    rewrite app_nil_r in H. apply H; [|done..].
    intros j y Hj. rewrite Z.add_0_l. by eapply GetItemAtIndex_lookup. }
  rewrite Z.eqb_refl, Hfull. unfold slot. by rewrite w32_small by lia.
Qed.

(** The list [10; 30] at [0x100] in an array of two, ordered by value. *)
Definition sample_list : memory := st32 (st32 ∅ 0x100 10) 0x104 30.
Definition sample_ol : OrderedList := MkOrderedList 0x100 2 2.
Definition by_value (m : memory) (a b : Z) : bool := a <? b.

Lemma sample_repr : ol_repr sample_list sample_ol [10; 30].
Proof.
  split_and!; [done| |done|done]. intros [|[|i]] x Hx; simplify_eq/=; by vm_compute.
Qed.

Lemma Insert_sorted_witness :
  ∃ l', ol_repr (Insert by_value sample_list sample_ol 20).1 (Insert by_value sample_list sample_ol 20).2 l' ∧
    l' ≡ₚ [20; 10; 30] ∧ Sorted_by (by_value sample_list) l' ∧
    frame (range 0x100 (4 * (2 + 1))) sample_list (Insert by_value sample_list sample_ol 20).1.
Proof.
  apply (Insert_sorted by_value sample_list sample_ol [10; 30] 20); [|apply sample_repr| |lia|by vm_compute].
  - split; unfold by_value; intros; rewrite ?Z.ltb_lt, ?Z.ltb_ge in *; lia.
  - repeat constructor.
Defined.

Lemma Remove_deletes_witness :
  let r := Remove sample_list sample_ol (Z.of_nat 0) in
  ol_repr r.1 r.2 [30] ∧ Size r.2 = Z.of_nat 2 - 1 ∧
  ∀ j x, [30] !! j = Some x → GetItemAtIndex r.1 r.2 (Z.of_nat j) = x.
Proof. apply (Remove_deletes sample_list sample_ol [10; 30] 0); [apply sample_repr|cbn; lia]. Defined.

Lemma Insert_overflows_witness :
  Insert by_value sample_list sample_ol 40 = (st32 sample_list (0x100 + 4 * 2) 40, MkOrderedList 0x100 (2 ⊕ 1) 2).
Proof.
  apply (Insert_overflows by_value sample_list sample_ol [10; 30] 40); [apply sample_repr|done|].
  repeat constructor.
Defined.
