(* ===== verification/Machine.v ===== *)
(** * The kernel's state

    The memory, the C++ global variables of each source file, the CPU control
    registers the kernel writes, and the trace of its port writes; and the
    monad [K] in which the kernel's routines are written. *)
From S2P Require Import Prelude Memory LibString OrderedList.
Local Open Scope Z_scope.
Local Open Scope u32_scope.

(** ** Data of the components *)

(** [kernel/arch/i386/tty.cpp]: the cursor, the colour, the text buffer. *)
Record Tty := MkTty {
  terminal_row : Z;
  terminal_column : Z;
  terminal_color : Z;
  terminal_buffer : Z;
}.

(** [kernel/Heap.h]: [class Heap]. *)
Record Heap := MkHeap {
  m_index : OrderedList;
  m_startAddress : Z;
  m_endAddress : Z;
  m_maxAddress : Z;
  m_supervisor : bool;
  m_readonly : bool;
}.

(** [kernel/kmalloc.cpp]: the placement pointer, the pointer [kheap], and the
    object [*kheap] once the pointer is set. *)
Record Kmalloc := MkKmalloc {
  placement_address : Z;
  kheap : Z;
  kheap_object : Heap;
}.

(** [kernel/paging.cpp] and the control registers it writes. *)
Record Paging := MkPaging {
  nframes : Z;
  frames : Z;
  kernel_directory : Z;
  current_directory : Z;
  cr0 : Z;
  cr3 : Z;
}.

(** [InterruptDescriptorTable.cpp]: the handlers of the 16 hardware interrupts;
    [Timer.cpp]: the tick count. *)
Record Irq := MkIrq {
  irq_routines : list Z;
  ticks : Z;
}.

(** [kernel/Task.cpp]: pointers to tasks, the next process id, and the stack
    pointer at boot (of [kernel.cpp]). *)
Record Tasks := MkTasks {
  current_task : Z;
  ready_queue : Z;
  next_pid : Z;
  initial_esp : Z;
}.

(** [FIleSystem/initrd.cpp] and the root of [FileSystem.cpp]. *)
Record Initrd := MkInitrd {
  initrd_header : Z;
  file_headers : Z;
  initrd_root : Z;
  initrd_dev : Z;
  root_nodes : Z;
  nroot_nodes : Z;
  fs_root : Z;
}.

(** What the kernel asks of the hardware: a byte sent to or read from a port, a
    16-bit word read from one, a
    physical page copied (the assembly routine [copy_page_physical]), a
    descriptor table loaded ([lgdt], [lidt]), interrupts disabled or enabled,
    and the jump of [perform_task_switch]. *)
Inductive event :=
  | ev_outb (port value : Z)
  | ev_inb (port value : Z)
  | ev_inw (port value : Z)
  | ev_copy_page (src destination : Z)
  | ev_load_gdt (p : Z)
  | ev_load_idt (p : Z)
  | ev_cli
  | ev_sti
  | ev_switch (eip physical ebp esp : Z).
#[export] Instance event_eq_dec : EqDecision event.
Proof. solve_decision. Defined.

Record machine := MkMachine {
  mem : memory;
  tty : Tty;
  kmem : Kmalloc;
  pg : Paging;
  irq : Irq;
  tasks : Tasks;
  initrd : Initrd;
  trace : list event;  (* latest first *)
}.

(** ** Link-time constants

    Addresses the linker and the ABI choose; every theorem holds for all of
    them. [lit_no_free_frames] is the literal of [alloc_frame]'s panic, and
    [indeterminate] the content of an uninitialised automatic variable. *)
Class Image := {
  lit_no_free_frames : Z;
  indeterminate : Z;
}.

(** ** Updates *)
Definition set_mem (m : memory) (s : machine) : machine :=
  MkMachine m (tty s) (kmem s) (pg s) (irq s) (tasks s) (initrd s) (trace s).
Definition set_tty (t : Tty) (s : machine) : machine :=
  MkMachine (mem s) t (kmem s) (pg s) (irq s) (tasks s) (initrd s) (trace s).
Definition set_kmem (k : Kmalloc) (s : machine) : machine :=
  MkMachine (mem s) (tty s) k (pg s) (irq s) (tasks s) (initrd s) (trace s).
Definition set_pg (p : Paging) (s : machine) : machine :=
  MkMachine (mem s) (tty s) (kmem s) p (irq s) (tasks s) (initrd s) (trace s).
Definition set_irq (i : Irq) (s : machine) : machine :=
  MkMachine (mem s) (tty s) (kmem s) (pg s) i (tasks s) (initrd s) (trace s).
Definition set_tasks (t : Tasks) (s : machine) : machine :=
  MkMachine (mem s) (tty s) (kmem s) (pg s) (irq s) t (initrd s) (trace s).
Definition set_initrd (i : Initrd) (s : machine) : machine :=
  MkMachine (mem s) (tty s) (kmem s) (pg s) (irq s) (tasks s) i (trace s).
Definition add_event (e : event) (s : machine) : machine :=
  MkMachine (mem s) (tty s) (kmem s) (pg s) (irq s) (tasks s) (initrd s) (e :: trace s).

Definition set_placement_address (a : Z) (s : machine) : machine :=
  set_kmem (MkKmalloc a (kheap (kmem s)) (kheap_object (kmem s))) s.
Definition set_kheap (p : Z) (s : machine) : machine :=
  set_kmem (MkKmalloc (placement_address (kmem s)) p (kheap_object (kmem s))) s.
Definition set_kheap_object (h : Heap) (s : machine) : machine :=
  set_kmem (MkKmalloc (placement_address (kmem s)) (kheap (kmem s)) h) s.
Definition set_bitmap (n fr : Z) (s : machine) : machine :=
  set_pg (MkPaging n fr (kernel_directory (pg s)) (current_directory (pg s))
            (cr0 (pg s)) (cr3 (pg s))) s.
Definition set_kernel_directory (d : Z) (s : machine) : machine :=
  set_pg (MkPaging (nframes (pg s)) (frames (pg s)) d (current_directory (pg s))
            (cr0 (pg s)) (cr3 (pg s))) s.
Definition set_control (c0 c3 : Z) (s : machine) : machine :=
  set_pg (MkPaging (nframes (pg s)) (frames (pg s)) (kernel_directory (pg s))
            (current_directory (pg s)) c0 c3) s.
Definition set_current_directory (d : Z) (s : machine) : machine :=
  set_pg (MkPaging (nframes (pg s)) (frames (pg s)) (kernel_directory (pg s)) d
            (cr0 (pg s)) (cr3 (pg s))) s.
Definition set_index (ol : OrderedList) (h : Heap) : Heap :=
  MkHeap ol (m_startAddress h) (m_endAddress h) (m_maxAddress h) (m_supervisor h) (m_readonly h).
Definition set_endAddress (e : Z) (h : Heap) : Heap :=
  MkHeap (m_index h) (m_startAddress h) e (m_maxAddress h) (m_supervisor h) (m_readonly h).

(** ** The kernel monad *)
Abbreviation K := (kernel machine).

Definition gets {A} (f : machine → A) : K A := λ s, Done (f s) s.
Definition modify (f : machine → machine) : K unit := λ s, Done tt (f s).
Definition load8 (a : Z) : K Z := gets (λ s, ld8 (mem s) a).
Definition load32 (a : Z) : K Z := gets (λ s, ld32 (mem s) a).
Definition store8 (a v : Z) : K unit := modify (λ s, set_mem (st8 (mem s) a v) s).
Definition store16 (a v : Z) : K unit := modify (λ s, set_mem (st16 (mem s) a v) s).
Definition store32 (a v : Z) : K unit := modify (λ s, set_mem (st32 (mem s) a v) s).
(** A routine on the memory alone, as a kernel action. *)
Definition on_mem {A} (f : memory → memory * A) : K A :=
  λ s, let '(m, a) := f (mem s) in Done a (set_mem m s).
(** A fuelled computation, as a kernel action. *)
Definition fuelled {A} (f : machine → option A) : K A :=
  λ s, match f s with Some a => Done a s | None => OutOfFuel end.

(** ** Equations of the monad *)
Lemma bind_done {A B} (m : K A) (f : A → K B) s a s' :
  m s = Done a s' → (m ≫= f) s = f a s'.
Proof. intros H. unfold mbind, kernel_bind. by rewrite H. Qed.

Lemma bind_gets {A B} (g : machine → A) (f : A → K B) s : (gets g ≫= f) s = f (g s) s.
Proof. done. Qed.

Lemma bind_modify {B} (g : machine → machine) (f : unit → K B) s :
  (modify g ≫= f) s = f tt (g s).
Proof. done. Qed.

Lemma bind_ret {A B} (a : A) (f : A → K B) s : (mret a ≫= f) s = f a s.
Proof. done. Qed.

Lemma bind_on_mem {A B} (f : memory → memory * A) (g : A → K B) s m a :
  f (mem s) = (m, a) → (on_mem f ≫= g) s = g a (set_mem m s).
Proof. unfold on_mem, mbind, kernel_bind. by intros ->. Qed.

Lemma bind_memset {B} p v n (f : Z → K B) s :
  (on_mem (λ m, memset m p v n) ≫= f) s = f p (set_mem (memset (mem s) p v n).1 s).
Proof. unfold on_mem, mbind, kernel_bind. by rewrite memset_pair. Qed.

Lemma bind_assoc {A B C} (m : K A) (f : A → K B) (g : B → K C) s :
  ((m ≫= f) ≫= g) s = (m ≫= λ x, f x ≫= g) s.
Proof. unfold mbind, kernel_bind. by destruct (m s). Qed.

Lemma bind_done_inv {A B} (m : K A) (f : A → K B) s b s' :
  (m ≫= f) s = Done b s' → ∃ a s1, m s = Done a s1 ∧ f a s1 = Done b s'.
Proof. unfold mbind, kernel_bind. destruct (m s); naive_solver. Qed.

(** Runs of loads and stores. *)
Lemma bind_store32 {B} a v (f : unit → K B) s :
  (store32 a v ≫= f) s = f tt (set_mem (st32 (mem s) a v) s).
Proof. done. Qed.
Lemma bind_store16 {B} a v (f : unit → K B) s :
  (store16 a v ≫= f) s = f tt (set_mem (st16 (mem s) a v) s).
Proof. done. Qed.
Lemma bind_store8 {B} a v (f : unit → K B) s :
  (store8 a v ≫= f) s = f tt (set_mem (st8 (mem s) a v) s).
Proof. done. Qed.
Lemma bind_load32 {B} a (f : Z → K B) s : (load32 a ≫= f) s = f (ld32 (mem s) a) s.
Proof. done. Qed.
Lemma bind_load8 {B} a (f : Z → K B) s : (load8 a ≫= f) s = f (ld8 (mem s) a) s.
Proof. done. Qed.
Lemma mem_set_mem m s : mem (set_mem m s) = m.
Proof. done. Qed.
Lemma set_mem_twice m m' s : set_mem m (set_mem m' s) = set_mem m s.
Proof. done. Qed.

(** [kstore] runs one action at the head of a goal, [kstores] all of them. *)
Ltac kstore :=
  first [rewrite bind_store32 | rewrite bind_store16 | rewrite bind_store8
        | rewrite bind_load32 | rewrite bind_load8
        | rewrite bind_ret | rewrite bind_assoc | rewrite bind_gets];
  rewrite ?mem_set_mem, ?set_mem_twice; cbv beta.
Ltac kstores := repeat kstore.

(** [kstep] runs the memory actions at the head of a goal. *)
Ltac kstep :=
  repeat (rewrite bind_gets || rewrite bind_modify || rewrite bind_ret || rewrite bind_assoc); cbn beta.
Ltac kunfold := unfold load8, load32, store8, store32.

(** ** A small concrete machine, for the instances of the theorems *)
Definition sample_image : Image := {| lit_no_free_frames := 0x2000; indeterminate := 0xDEAD |}.
Definition sample_heap : Heap := MkHeap (MkOrderedList 0x8000 0 64) 0x10000 0x20000 0x30000 false false.
(** 64 frames, the bitmap at [0x1000], memory [m]. *)
Definition sample (m : memory) : machine :=
  MkMachine m (MkTty 0 0 7 0xB8000) (MkKmalloc 0x40000 0 sample_heap)
    (MkPaging 64 0x1000 0x50000 0x50000 0 0)
    (MkIrq (replicate 16 0) 0) (MkTasks 0 0 1 0) (MkInitrd 0 0 0 0 0 0 0) [].
