(* ===== verification/Console.v ===== *)
(** * kernel/arch/i386/vga.h and tty.cpp: the text console

    The screen is 25 rows of 80 two-byte cells at [0xB8000].  The invariant
    [tty_ok] keeps the cursor on the screen; writing [n] bytes moves the cursor
    [n] cells forward, wrapping from the last cell to the first. *)
From S2P Require Import Prelude Memory LibString OrderedList Machine.
Local Open Scope Z_scope.
Local Open Scope u32_scope.

Definition VGA_WIDTH : Z := 80.
Definition VGA_HEIGHT : Z := 25.
Definition VGA_MEMORY : Z := 0xB8000.

Inductive vga_color :=
  | VGA_COLOR_BLACK | VGA_COLOR_BLUE | VGA_COLOR_GREEN | VGA_COLOR_CYAN
  | VGA_COLOR_RED | VGA_COLOR_MAGENTA | VGA_COLOR_BROWN | VGA_COLOR_LIGHT_GREY
  | VGA_COLOR_DARK_GREY | VGA_COLOR_LIGHT_BLUE | VGA_COLOR_LIGHT_GREEN | VGA_COLOR_LIGHT_CYAN
  | VGA_COLOR_LIGHT_RED | VGA_COLOR_LIGHT_MAGENTA | VGA_COLOR_LIGHT_BROWN | VGA_COLOR_WHITE.
#[export] Instance vga_color_eq_dec : EqDecision vga_color.
Proof. solve_decision. Defined.

Definition color_code (c : vga_color) : Z :=
  match c with
  | VGA_COLOR_BLACK => 0 | VGA_COLOR_BLUE => 1 | VGA_COLOR_GREEN => 2 | VGA_COLOR_CYAN => 3
  | VGA_COLOR_RED => 4 | VGA_COLOR_MAGENTA => 5 | VGA_COLOR_BROWN => 6
  | VGA_COLOR_LIGHT_GREY => 7 | VGA_COLOR_DARK_GREY => 8 | VGA_COLOR_LIGHT_BLUE => 9
  | VGA_COLOR_LIGHT_GREEN => 10 | VGA_COLOR_LIGHT_CYAN => 11 | VGA_COLOR_LIGHT_RED => 12
  | VGA_COLOR_LIGHT_MAGENTA => 13 | VGA_COLOR_LIGHT_BROWN => 14 | VGA_COLOR_WHITE => 15
  end.

Definition vga_entry_color (fg bg : vga_color) : Z :=
  w8 (Z.lor (color_code fg) (Z.shiftl (color_code bg) 4)).
Definition vga_entry (uc color : Z) : Z := w16 (Z.lor uc (Z.shiftl color 8)).

Definition set_cursor (row column : Z) (s : machine) : machine :=
  set_tty (MkTty row column (terminal_color (tty s)) (terminal_buffer (tty s))) s.

(** [terminal_buffer[index] = entry]. *)
Definition put_cell (index entry : Z) (s : machine) : machine :=
  set_mem (st16 (mem s) (terminal_buffer (tty s) ⊕ 2 * index) entry) s.

Definition Initialise (s : machine) : machine :=
  let s := set_tty (MkTty 0 0 (vga_entry_color VGA_COLOR_LIGHT_GREY VGA_COLOR_BLACK) VGA_MEMORY) s in
  for_loop (Z.to_nat VGA_HEIGHT) 0 (λ y s,
    for_loop (Z.to_nat VGA_WIDTH) 0 (λ x s,
      put_cell (y * VGA_WIDTH + x) (vga_entry 32 (terminal_color (tty s))) s) s) s.

(** The constructor. *)
Definition TTY_new : machine → machine := Initialise.

Definition SetColor (color : Z) (s : machine) : machine :=
  set_tty (MkTty (terminal_row (tty s)) (terminal_column (tty s)) (w8 color)
             (terminal_buffer (tty s))) s.

Definition PutEntryAt (c color x y : Z) (s : machine) : machine :=
  put_cell (y ⊗ VGA_WIDTH ⊕ x) (vga_entry c color) s.

Definition PutChar (c : Z) (s : machine) : machine :=
  let uc := w8 c in
  let s := PutEntryAt uc (terminal_color (tty s)) (terminal_column (tty s))
             (terminal_row (tty s)) s in
  let column := terminal_column (tty s) ⊕ 1 in
  if column =? VGA_WIDTH then
    let row := terminal_row (tty s) ⊕ 1 in
    if row =? VGA_HEIGHT then set_cursor 0 0 s else set_cursor row 0 s
  else set_cursor (terminal_row (tty s)) column s.

(** [data] reads [data[i]] in the current state: the bytes may lie anywhere. *)
Definition Write (data : machine → Z → Z) (size : Z) (s : machine) : machine :=
  for_loop (Z.to_nat size) 0 (λ i s, PutChar (data s i) s) s.

Definition in_memory (p : Z) (s : machine) (i : Z) : Z := ld8 (mem s) (p ⊕ i).

Definition WriteString (fuel : nat) (data : Z) (s : machine) : option machine :=
  len ← strlen fuel (mem s) data; Some (Write (in_memory data) len s).

(** ** Specification *)

Definition tty_ok (s : machine) : Prop :=
  0 <= terminal_column (tty s) < VGA_WIDTH ∧ 0 <= terminal_row (tty s) < VGA_HEIGHT ∧
  terminal_buffer (tty s) = VGA_MEMORY.
(** The index of the cell under the cursor. *)
Definition cursor (s : machine) : Z :=
  terminal_row (tty s) * VGA_WIDTH + terminal_column (tty s).
(** The content of a cell of the screen. *)
Definition cell (s : machine) (index : Z) : Z := ld16 (mem s) (VGA_MEMORY + 2 * index).
Definition vga_range : Z → Prop := range VGA_MEMORY 4000.
(** Writing a list of bytes. *)
Definition put_list (l : list Z) (s : machine) : machine := foldl (λ s c, PutChar c s) s l.

(** Everything but the memory and the cursor is the same. *)
Definition same_but_screen (s s' : machine) : Prop :=
  (kmem s' = kmem s ∧ pg s' = pg s ∧ irq s' = irq s ∧ tasks s' = tasks s ∧ initrd s' = initrd s) ∧
  trace s' = trace s ∧ terminal_color (tty s') = terminal_color (tty s) ∧
  frame vga_range (mem s) (mem s').

(** ** Lemmas *)
Lemma color_code_range c : 0 <= color_code c < 16.
Proof. destruct c; simpl; lia. Qed.

Lemma vga_entry_val uc color :
  0 <= uc < 256 → 0 <= color < 256 → vga_entry uc color = uc + 256 * color.
Proof.
  intros. unfold vga_entry. rewrite lor_shift_add by lia. change (2 ^ 8) with 256.
  rewrite w16_small by lia. lia.
Qed.

Lemma vga_entry_color_val fg bg : vga_entry_color fg bg = color_code fg + 16 * color_code bg.
Proof.
  pose proof (color_code_range fg). pose proof (color_code_range bg).
  unfold vga_entry_color. rewrite lor_shift_add by (simpl; lia). change (2 ^ 4) with 16.
  rewrite w8_small by lia. lia.
Qed.

Lemma PutChar_spec c s :
  tty_ok s →
  let s' := PutChar c s in
  tty_ok s' ∧ cursor s' = (cursor s + 1) mod 2000 ∧ same_but_screen s s' ∧
  mem s' = st16 (mem s) (VGA_MEMORY + 2 * cursor s) (vga_entry (w8 c) (terminal_color (tty s))).
Proof.
  intros (Hc & Hr & Hb) s'. unfold s', PutChar, PutEntryAt, put_cell, VGA_WIDTH, VGA_HEIGHT, cursor in *.
  unfold VGA_WIDTH in *. cbn [tty set_mem]. rewrite Hb. unfold VGA_MEMORY in *.
  assert (∀ m v, frame vga_range m (st16 m (753664 + 2 * (terminal_row (tty s) * 80 + terminal_column (tty s))) v)) as Hf.
  { intros m v. unfold st16, vga_range, VGA_MEMORY.
    repeat (apply frame_st8; [|lia|unfold range; lia]). apply frame_refl. }
  w32_simpl.
  destruct (Z.eqb_spec (terminal_column (tty s) + 1) 80) as [E|E];
    [destruct (Z.eqb_spec (terminal_row (tty s) + 1) 25) as [E'|E']|];
    cbn; unfold tty_ok, same_but_screen, VGA_WIDTH, VGA_HEIGHT, VGA_MEMORY; cbn;
    (split_and!; [lia..|done| |done|done|done|done|done|done|done|apply Hf|by w32_simpl]).
  - replace (terminal_row (tty s) * 80 + terminal_column (tty s) + 1) with 2000 by lia. done.
  - rewrite Z.mod_small; lia.
  - rewrite Z.mod_small; lia.
Qed.

#[export] Instance same_but_screen_preorder : PreOrder same_but_screen.
Proof.
  split; [by intros s; split_and!; try apply frame_refl|].
  intros s1 s2 s3 ((? & ? & ? & ? & ?) & ? & ? & ?) ((? & ? & ? & ? & ?) & ? & ? & ?).
  split_and!; [congruence..|by eapply frame_trans].
Qed.

Lemma put_list_app l1 l2 s : put_list (l1 ++ l2) s = put_list l2 (put_list l1 s).
Proof. apply foldl_app. Qed.

Lemma cursor_range s : tty_ok s → 0 <= cursor s < 2000.
Proof. intros (? & ? & _). unfold cursor, VGA_WIDTH, VGA_HEIGHT in *. lia. Qed.

Lemma put_list_ok l s : tty_ok s → tty_ok (put_list l s) ∧ same_but_screen s (put_list l s).
Proof.
  revert s. induction l as [|c l IH]; intros s Hs; [done|].
  destruct (PutChar_spec c s Hs) as (Hs' & _ & Hsame & _).
  destruct (IH _ Hs') as [? ?]. split; [done|]. by etrans.
Qed.

Lemma put_list_cursor l s :
  tty_ok s → cursor (put_list l s) = (cursor s + Z.of_nat (length l)) mod 2000.
Proof.
  revert s. induction l as [|c l IH]; intros s Hs; simpl.
  - rewrite Z.add_0_r, Z.mod_small; [done|by apply cursor_range].
  - destruct (PutChar_spec c s Hs) as (Hs' & Hcur & _).
    rewrite IH, Hcur, Zplus_mod_idemp_l by done. f_equal. lia.
Qed.

(** Writing one cell leaves the other cells of the screen alone. *)
Lemma cell_put_ne m i j v :
  0 <= i < 2000 → 0 <= j < 2000 → i ≠ j →
  ld16 (st16 m (VGA_MEMORY + 2 * i) v) (VGA_MEMORY + 2 * j) = ld16 m (VGA_MEMORY + 2 * j).
Proof. intros. apply ld16_st16_near_ne. unfold VGA_MEMORY. lia. Qed.

Lemma mod_shift_inj a i j : 0 <= i < 2000 → 0 <= j < 2000 →
  (a + i) mod 2000 = (a + j) mod 2000 → i = j.
Proof.
  intros Hi Hj E.
  pose proof (Z.div_mod (a + i) 2000 ltac:(lia)). pose proof (Z.div_mod (a + j) 2000 ltac:(lia)).
  lia.
Qed.

Lemma put_list_cells l s :
  tty_ok s → (length l <= 2000)%nat →
  (∀ i c, l !! i = Some c →
     cell (put_list l s) ((cursor s + Z.of_nat i) mod 2000) = vga_entry (w8 c) (terminal_color (tty s))) ∧
  (∀ j, Z.of_nat (length l) <= j < 2000 →
     cell (put_list l s) ((cursor s + j) mod 2000) = cell s ((cursor s + j) mod 2000)).
Proof.
  intros Hs. induction l as [|c l IH] using rev_ind; intros Hlen; [done|].
  rewrite length_app in *. simpl in Hlen. destruct IH as [IH1 IH2]; [lia|].
  destruct (put_list_ok l s Hs) as [Hs1 (_ & _ & Hcol & _)].
  destruct (PutChar_spec c _ Hs1) as (_ & _ & _ & Hmem).
  rewrite put_list_cursor, Hcol in Hmem by done.
  rewrite put_list_app; simpl. unfold cell in *. rewrite Hmem.
  assert (∀ x, 0 <= x mod 2000 < 2000) as Hmod by (intros; apply Z.mod_pos_bound; lia).
  split.
  - intros i d Hi. apply lookup_app_Some in Hi as [Hi|[Hge Hi]].
    + apply lookup_lt_Some in Hi as ?. rewrite cell_put_ne; [by apply IH1|done..|].
      intros E. apply mod_shift_inj in E; lia.
    + apply list_lookup_singleton_Some in Hi as [Hi ->]. replace i with (length l) by lia.
      rewrite ld16_st16_eq. unfold w16, vga_entry, w16. by rewrite Z.mod_mod.
  - intros j Hj. simpl in Hj. rewrite cell_put_ne; [apply IH2; lia|done..|].
    intros E. apply mod_shift_inj in E; lia.
Qed.

(** ** Writing from memory *)
Lemma Write_const c s : Write (λ _ _, c) 1 s = PutChar c s.
Proof. done. Qed.

(** The bytes to print are not part of the screen. *)
Definition off_screen (p n : Z) : Prop :=
  0 <= p ∧ p + n <= 4294967296 ∧ (p + n <= VGA_MEMORY ∨ VGA_MEMORY + 4000 <= p).

Lemma Write_in_memory p n s :
  tty_ok s → 0 <= n → off_screen p n →
  Write (in_memory p) n s = put_list (bytes (mem s) p (Z.to_nat n)) s.
Proof.
  intros Hs Hn (Hp & Hpn & Hov). unfold Write.
  enough (∀ k i s', tty_ok s' → 0 <= i → i + Z.of_nat k = n →
    for_loop k i (λ i s, PutChar (in_memory p s i) s) s'
    = put_list (bytes (mem s') (p + i) k) s') as H.
  { rewrite (H _ 0) by (done || lia). by rewrite Z.add_0_r. }
  clear s Hs. induction k as [|k IH]; intros i s Hs Hi Hk; simpl; [done|].
  unfold in_memory at 2. rewrite ld8_w32.
  destruct (PutChar_spec (ld8 (mem s) (p + i)) s Hs) as (Hs' & _ & (_ & _ & _ & Hf) & _).
  rewrite IH by (done || lia). f_equal.
  replace (p + (i + 1)) with (p + i + 1) by lia. apply bytes_ext. intros j Hj.
  apply Hf; [lia|]. unfold vga_range, range, VGA_MEMORY in *. lia.
Qed.

(** ** What the console shows *)

(** C31. [WriteString] shows a string: each byte appears with the current
    colour on the cells from the cursor on, the screen wrapping from its last
    cell to its first; the other cells keep their content, the cursor ends
    after the last byte, still on the screen, and nothing but the screen
    changes.  The length of the string is fuel enough. *)
Theorem WriteString_shows fuel p l s :
  tty_ok s → cstr (mem s) p l → off_screen p (Z.of_nat (length l)) →
  (length l <= 2000)%nat → (length l <= fuel)%nat →
  ∃ s', WriteString fuel p s = Some s' ∧ tty_ok s' ∧ same_but_screen s s' ∧
    cursor s' = (cursor s + Z.of_nat (length l)) mod 2000 ∧
    (∀ i c, l !! i = Some c →
       cell s' ((cursor s + Z.of_nat i) mod 2000) = vga_entry (w8 c) (terminal_color (tty s))) ∧
    (∀ j, Z.of_nat (length l) <= j < 2000 →
       cell s' ((cursor s + j) mod 2000) = cell s ((cursor s + j) mod 2000)).
Proof.
  intros Hs Hl Hoff Hlen Hfuel. exists (put_list l s).
  destruct (put_list_ok l s Hs). destruct (put_list_cells l s Hs Hlen).
  split_and!; [|done|done|by apply put_list_cursor|done|done].
  unfold WriteString. rewrite (strlen_spec _ _ _ l) by (done || lia). cbn.
  rewrite Write_in_memory by (done || lia). rewrite Nat2Z.id. do 2 f_equal.
  revert p Hl Hoff. clear. induction l as [|c l IH]; intros p Hl Hoff; [done|].
  destruct Hl as (_ & Hc & Hl). cbn [length bytes]. rewrite Hc. f_equal.
  apply IH; [done|]. unfold off_screen in *. cbn [length] in *. lia.
Qed.

(** One row of blanks. *)
Lemma blank_cell_inv s0 k s' :
  0 <= k < 2000 → tty s' = MkTty 0 0 7 VGA_MEMORY → same_but_screen s0 s' →
  (∀ j, 0 <= j < k → cell s' j = vga_entry 32 7) →
  let s'' := put_cell k (vga_entry 32 (terminal_color (tty s'))) s' in
  tty s'' = MkTty 0 0 7 VGA_MEMORY ∧ same_but_screen s0 s'' ∧
  (∀ j, 0 <= j < k + 1 → cell s'' j = vga_entry 32 7).
Proof.
  intros Hk Ht (Hkm & Htr & Hcol & Hf) Hcells s''. split; [done|].
  assert (mem s'' = st16 (mem s') (VGA_MEMORY + 2 * k) (vga_entry 32 7)) as Hm.
  { unfold s'', put_cell. rewrite Ht. cbn. unfold VGA_MEMORY. by rewrite w32_small by lia. }
  split.
  - split_and!; [apply Hkm..|done|done|]. rewrite Hm. unfold st16, vga_range, VGA_MEMORY in *.
    repeat (apply frame_st8; [|lia|unfold range; lia]). done.
  - intros j Hj. unfold cell. rewrite Hm. destruct (decide (j = k)) as [->|].
    + rewrite ld16_st16_eq. done.
    + rewrite cell_put_ne by lia. apply Hcells. lia.
Qed.

(** [Initialise] blanks the screen: the cursor is at the top left, the
    colour is light grey on black, all 2000 cells are spaces in that colour,
    and nothing but the screen and the console's own variables changes. *)
Theorem Initialise_blanks s :
  let s' := Initialise s in
  tty_ok s' ∧ cursor s' = 0 ∧ terminal_color (tty s') = 7 ∧
  (∀ j, 0 <= j < 2000 → cell s' j = vga_entry 32 7) ∧
  kmem s' = kmem s ∧ pg s' = pg s ∧ irq s' = irq s ∧ tasks s' = tasks s ∧ initrd s' = initrd s ∧
  trace s' = trace s ∧ frame vga_range (mem s) (mem s').
Proof.
  intros s'. unfold Initialise in s'.
  change (vga_entry_color VGA_COLOR_LIGHT_GREY VGA_COLOR_BLACK) with 7 in s'.
  set (s0 := set_tty (MkTty 0 0 7 VGA_MEMORY) s) in s'.
  set (P := λ k s', tty s' = MkTty 0 0 7 VGA_MEMORY ∧ same_but_screen s0 s' ∧
    ∀ j, 0 <= j < k → cell s' j = vga_entry 32 7).
  assert (P 2000 s') as (Ht & ((? & ? & ? & ? & ?) & ? & _ & ?) & Hcells).
  { apply (for_loop_inv (λ y, P (y * 80)) _ (Z.to_nat VGA_HEIGHT) 0 s0).
    { split_and!; [done|done..|intros; lia]. }
    intros y s1 Hy HP1. change (0 + Z.of_nat (Z.to_nat VGA_HEIGHT)) with 25 in Hy.
    replace ((y + 1) * 80) with (y * 80 + (0 + Z.of_nat (Z.to_nat VGA_WIDTH)))
      by (change (0 + Z.of_nat (Z.to_nat VGA_WIDTH)) with 80; lia).
    apply (for_loop_inv (λ x, P (y * 80 + x))); [by rewrite Z.add_0_r|].
    intros x s2 Hx (Ht2 & Hs2 & Hc2). change (0 + Z.of_nat (Z.to_nat VGA_WIDTH)) with 80 in Hx.
    replace (y * 80 + (x + 1)) with (y * 80 + x + 1) by lia.
    unfold VGA_WIDTH. apply blank_cell_inv; [lia|done..]. }
  unfold tty_ok, cursor. rewrite Ht. split_and!; (done || lia || auto).
Qed.

(** An entry of the text buffer holds the character and the two colours
    unmixed: from the 16-bit entry built of them each can be read back. *)
Theorem vga_entry_fields uc fg bg :
  0 <= uc < 256 →
  let e := vga_entry uc (vga_entry_color fg bg) in
  e mod 256 = uc ∧ Z.land (Z.shiftr e 8) 15 = color_code fg ∧ Z.shiftr e 12 = color_code bg.
Proof.
  intros Huc e. pose proof (color_code_range fg). pose proof (color_code_range bg).
  assert (e = uc + 256 * (color_code fg + 16 * color_code bg)) as ->.
  { unfold e. rewrite vga_entry_color_val. apply vga_entry_val; lia. }
  change 15 with (Z.ones 4). rewrite Z.land_ones, !Z.shiftr_div_pow2 by lia.
  change (2 ^ 8) with 256. change (2 ^ 4) with 16. change (2 ^ 12) with 4096.
  split_and!; Z.to_euclidean_division_equations; lia.
Qed.

(** ** Instances *)
(** A screen with the cursor on its last cell, and "Hi" at [0x3000]. *)
Definition sample_screen : machine :=
  set_tty (MkTty 24 79 7 VGA_MEMORY) (sample (st8 (st8 ∅ 0x3000 72) 0x3001 105)).

Lemma WriteString_shows_witness :
  ∃ s', WriteString 2 0x3000 sample_screen = Some s' ∧ tty_ok s' ∧ same_but_screen sample_screen s' ∧
    cursor s' = (cursor sample_screen + 2) mod 2000 ∧
    (∀ i c, [72; 105] !! i = Some c →
       cell s' ((cursor sample_screen + Z.of_nat i) mod 2000)
       = vga_entry (w8 c) (terminal_color (tty sample_screen))) ∧
    (∀ j, 2 <= j < 2000 → cell s' ((cursor sample_screen + j) mod 2000)
       = cell sample_screen ((cursor sample_screen + j) mod 2000)).
Proof.
  apply (WriteString_shows 2 0x3000 [72; 105] sample_screen); [done|by vm_compute| |cbn; lia..].
  unfold off_screen, VGA_MEMORY; cbn; lia.
Defined.

Lemma vga_entry_fields_witness :
  let e := vga_entry 65 (vga_entry_color VGA_COLOR_WHITE VGA_COLOR_RED) in
  e mod 256 = 65 ∧ Z.land (Z.shiftr e 8) 15 = 15 ∧ Z.shiftr e 12 = 4.
Proof. apply (vga_entry_fields 65 VGA_COLOR_WHITE VGA_COLOR_RED). lia. Defined.
