(* ===== verification/Stdio.v ===== *)
(** * libc/stdio/stdio.cpp: putchar, printf, puts

    [printf] is modelled on the format and the arguments in memory; the
    reference [formatted] says which bytes a format and its arguments stand
    for, and [printf] is shown to put exactly those on the console.  The fuel
    bounds the iterations over the format and the length of every string. *)
From S2P Require Import Prelude Memory LibString OrderedList Machine Console.
Local Open Scope Z_scope.
Local Open Scope u32_scope.

Definition EOF : Z := -1.
Definition INT_MAX : Z := 2147483647.

Definition putchar (ic : Z) : K Z :=
  modify (Write (λ _ _, w8 ic) 1) ;; mret ic.

Fixpoint print_from (data : machine → Z → Z) (n : nat) (i : Z) : K bool :=
  match n with
  | O => mret true
  | S n' =>
      b ← gets (λ s, data s i);
      r ← putchar b;
      if r =? EOF then mret false else print_from data n' (i + 1)
  end.
Definition print (data : machine → Z → Z) (length : Z) : K bool :=
  print_from data (Z.to_nat length) 0.

(** One argument from the [va_list]; reading past the last is undefined. *)
Definition va_arg {A} (args : list Z) (k : Z → list Z → K A) : K A :=
  match args with [] => undefined | v :: args' => k v args' end.

(** The loop of [printf] from [format], [written] bytes being out already. *)
Fixpoint printf_loop (sfuel fuel : nat) (format written : Z) (args : list Z) : K Z :=
  c0 ← load8 format;
  if c0 =? 0 then mret written
  else
    match fuel with
    | O => out_of_fuel
    | S fuel' =>
        let maxrem := w32 (INT_MAX - written) in
        c1 ← load8 (format ⊕ 1);
        if negb (c0 =? 37 (* % *)) || (c1 =? 37) then
          let format := if c0 =? 37 then format ⊕ 1 else format in
          amount ← fuelled (λ s, while sfuel
            (λ amount, negb (ld8 (mem s) (format ⊕ amount) =? 0) &&
                       negb (ld8 (mem s) (format ⊕ amount) =? 37))
            (λ amount, amount ⊕ 1) 1);
          if maxrem <? amount then mret (-1)
          else
            ok ← print (in_memory format) amount;
            if negb ok then mret (-1)
            else printf_loop sfuel fuel' (format ⊕ amount) (s32 (written + amount)) args
        else
          let format_begun_at := format in
          let format := format ⊕ 1 in
          if c1 =? 99 (* c *) then
            let format := format ⊕ 1 in
            va_arg args (λ v args',
              let c := w8 v in
              if maxrem =? 0 then mret (-1)
              else
                ok ← print (λ _ _, c) 1;
                if negb ok then mret (-1)
                else printf_loop sfuel fuel' format (written + 1) args')
          else if c1 =? 115 (* s *) then
            let format := format ⊕ 1 in
            va_arg args (λ str args',
              len ← fuelled (λ s, strlen sfuel (mem s) str);
              if maxrem <? len then mret (-1)
              else
                ok ← print (in_memory str) len;
                if negb ok then mret (-1)
                else printf_loop sfuel fuel' format (s32 (written + len)) args')
          else
            let format := format_begun_at in
            len ← fuelled (λ s, strlen sfuel (mem s) format);
            if maxrem <? len then mret (-1)
            else
              ok ← print (in_memory format) len;
              if negb ok then mret (-1)
              else printf_loop sfuel fuel' (format ⊕ len) (s32 (written + len)) args
    end.

Definition printf (fuel : nat) (format : Z) (args : list Z) : K Z :=
  printf_loop fuel fuel format 0 args.

(** [puts]: [fmt] is the address of the literal ["%s\n"]. *)
Definition puts (fuel : nat) (fmt string : Z) : K Z := printf fuel fmt [string].

(** ** Specification *)

(** An argument: a number, or a pointer to a string. *)
Inductive arg := arg_int (v : Z) | arg_str (p : Z) (l : list Z).
Definition raw (a : arg) : Z := match a with arg_int v => v | arg_str p _ => p end.

(** The output a format and its arguments stand for; [None] when they do not
    match. *)
Fixpoint formatted (f : list Z) (args : list arg) : option (list Z) :=
  match f with
  | [] => Some []
  | c :: f' =>
      if c =? 37 then
        match f' with
        | [] => Some f
        | d :: f'' =>
            if d =? 37 then cons 37 <$> formatted f'' args
            else if d =? 99 then
              match args with
              | arg_int v :: args' => cons (w8 v) <$> formatted f'' args'
              | _ => None
              end
            else if d =? 115 then
              match args with
              | arg_str _ l :: args' => app l <$> formatted f'' args'
              | _ => None
              end
            else Some f
        end
      else cons c <$> formatted f' args
  end.

(** The string [l] at [p], off the screen. *)
Definition text_at (s : machine) (p : Z) (l : list Z) : Prop :=
  cstr (mem s) p l ∧ off_screen p (Z.of_nat (length l) + 1) ∧
  Z.of_nat (length l) < 2147483647.
Definition arg_ok (s : machine) (fuel : nat) (a : arg) : Prop :=
  match a with arg_int _ => True | arg_str p l => text_at s p l ∧ (length l <= fuel)%nat end.

(** ** Lemmas *)
Lemma text_at_put s p l out : tty_ok s → text_at s p l → text_at (put_list out s) p l.
Proof.
  intros Hs (Hc & (Hp & Hl & Ho) & Hlen). split_and!; [|done..].
  destruct (put_list_ok out s Hs) as (_ & _ & _ & _ & Hf).
  eapply cstr_frame; [done|lia..| |done].
  intros x Hx. unfold vga_range, range, VGA_MEMORY in *. lia.
Qed.
Lemma arg_ok_put s fuel out a : tty_ok s → arg_ok s fuel a → arg_ok (put_list out s) fuel a.
Proof. destruct a; simpl; intuition auto using text_at_put. Qed.

Lemma text_at_tail s p l1 l2 :
  text_at s p (l1 ++ l2) → text_at s (p + Z.of_nat (length l1)) l2.
Proof.
  intros (Hc & (Hp & Hl & Ho) & Hlen). rewrite length_app in *. unfold off_screen in *.
  split; [|unfold off_screen; lia]. clear Hl Ho Hlen Hp. revert p Hc.
  induction l1 as [|c l1 IH]; intros p Hc; simpl in *; [by rewrite Z.add_0_r|].
  destruct Hc as (_ & _ & Hc). replace (p + Z.of_nat (S (length l1))) with (p + 1 + Z.of_nat (length l1)) by lia.
  auto.
Qed.

Lemma text_at_bytes s p l1 l2 :
  text_at s p (l1 ++ l2) → bytes (mem s) p (length l1) = l1.
Proof.
  intros (Hc & _ & _). revert p Hc.
  induction l1 as [|c l1 IH]; intros p Hc; simpl in *; [done|].
  destruct Hc as (_ & Hc & Hr). by rewrite Hc, IH.
Qed.

Lemma putchar_eq b s : 0 <= b < 256 → putchar b s = Done b (PutChar b s).
Proof. intros. unfold putchar. rewrite bind_modify, Write_const, w8_small by done. done. Qed.

(** [print] never fails: [putchar] returns its argument, which is no [EOF]. *)
Lemma print_const c s : 0 <= c < 256 → print (λ _ _, c) 1 s = Done true (PutChar c s).
Proof.
  intros Hc. unfold print. change (Z.to_nat 1) with 1%nat. cbn [print_from].
  rewrite bind_gets, (bind_done _ _ _ _ _ (putchar_eq _ _ Hc)).
  destruct (Z.eqb_spec c EOF); [unfold EOF in *; lia|done].
Qed.

Lemma print_in_memory p n s :
  tty_ok s → 0 <= n → off_screen p n →
  print (in_memory p) n s = Done true (put_list (bytes (mem s) p (Z.to_nat n)) s).
Proof.
  intros Hs Hn Ho. rewrite <- (Write_in_memory p n s) by done. unfold print, Write.
  generalize 0 as i. generalize (Z.to_nat n) as k. clear Hn Ho Hs n. intros k. revert s.
  induction k as [|k IH]; intros s i; [done|]. cbn [print_from for_loop].
  rewrite bind_gets. assert (0 <= in_memory p s i < 256) as Hb by apply ld8_range.
  rewrite (bind_done _ _ _ _ _ (putchar_eq _ _ Hb)).
  destruct (Z.eqb_spec (in_memory p s i) EOF); [unfold EOF in *; lia|]. apply IH.
Qed.

Lemma print_text s p l1 l2 :
  tty_ok s → text_at s p (l1 ++ l2) →
  print (in_memory p) (Z.of_nat (length l1)) s = Done true (put_list l1 s).
Proof.
  intros Hs Ht. rewrite print_in_memory; [|done|lia|].
  - by rewrite Nat2Z.id, (text_at_bytes _ _ _ _ Ht).
  - destruct Ht as (_ & (? & ? & ?) & _). rewrite length_app in *.
    unfold off_screen, VGA_MEMORY in *. lia.
Qed.

Lemma plain_split (l : list Z) :
  ∃ run rest, l = run ++ rest ∧ Forall (λ c, c ≠ 37) run ∧ (rest = [] ∨ ∃ r, rest = 37 :: r).
Proof.
  induction l as [|c l (run & rest & -> & Hrun & Hrest)].
  - exists [], []. auto.
  - destruct (decide (c = 37)) as [->|Hc].
    + exists [], (37 :: run ++ rest). eauto.
    + exists (c :: run), rest. auto.
Qed.

Lemma formatted_plain run rest args :
  Forall (λ c, c ≠ 37) run → formatted (run ++ rest) args = app run <$> formatted rest args.
Proof.
  induction 1 as [|c run Hc _ IH]; simpl; [by destruct (formatted rest args)|].
  destruct (Z.eqb_spec c 37); [done|]. rewrite IH. by destruct (formatted rest args).
Qed.

Lemma text_at_bounds s p l :
  text_at s p l → 0 <= p ∧ p + Z.of_nat (length l) + 1 <= 4294967296 ∧ Z.of_nat (length l) < 2147483647.
Proof. intros (_ & (? & ? & _) & ?). lia. Qed.

(** The inner scan of [printf]: it stops at the end of a run without ['%']. *)
Lemma scan_plain sfuel s p k run rest :
  text_at s (p + k) (run ++ rest) → 0 <= p → 0 <= k → p + k < 4294967296 →
  Forall (λ c, c ≠ 37) run → (rest = [] ∨ ∃ r, rest = 37 :: r) → (length run <= sfuel)%nat →
  while sfuel
    (λ amount, negb (ld8 (mem s) (p ⊕ amount) =? 0) && negb (ld8 (mem s) (p ⊕ amount) =? 37))
    (λ amount, amount ⊕ 1) k = Some (k + Z.of_nat (length run)).
Proof.
  revert k sfuel. induction run as [|c run IH]; intros k sfuel Ht Hp Hk Hpk Hrun Hrest Hf.
  - destruct Ht as (Hc & _). rewrite Z.add_0_r.
    destruct Hrest as [->|[r ->]], sfuel; simpl in *; rewrite ld8_w32;
      (rewrite Hc || (destruct Hc as (_ & -> & _))); done.
  - destruct sfuel as [|sfuel]; simpl in Hf; [lia|]. inversion_clear Hrun.
    pose proof (text_at_bounds _ _ _ Ht) as Hb. simpl in Hb.
    pose proof (text_at_tail s (p + k) [c] (run ++ rest) Ht) as Ht'. simpl in Ht'.
    destruct Ht as ((Hc & Hld & _) & _). cbn [while]. rewrite ld8_w32, Hld.
    destruct (Z.eqb_spec c 0), (Z.eqb_spec c 37); try done. cbn [negb andb].
    rewrite length_app in Hb. w32_simpl.
    rewrite IH; [simpl length; f_equal; lia| |lia..|done|done|lia].
    by replace (p + (k + 1)) with (p + k + 1) by lia.
Qed.

Lemma printf_end sfuel fuel p w args s :
  ld8 (mem s) p = 0 → printf_loop sfuel fuel p w args s = Done w s.
Proof. intros H. destruct fuel; cbn [printf_loop]; unfold load8; by rewrite bind_gets, H. Qed.

Lemma fuelled_done {A B} (g : machine → option A) (f : A → K B) s a :
  g s = Some a → (fuelled g ≫= f) s = f a s.
Proof. intros H. apply bind_done. unfold fuelled. by rewrite H. Qed.

Lemma s32_small z : 0 <= z < 2147483648 → s32 z = z.
Proof. intros H. unfold s32. rewrite w32_small by lia. destruct (Z.ltb_spec z 2147483648); lia. Qed.

(** One pass of [printf] over a run of plain text, from the character [x]. *)
Lemma printf_run_step sfuel fuel' s p x run rest written args :
  tty_ok s → text_at s p (x :: run ++ rest) → Forall (λ c, c ≠ 37) run →
  (rest = [] ∨ ∃ r, rest = 37 :: r) → (length run <= sfuel)%nat →
  0 <= written → written + Z.of_nat (length (x :: run)) <= INT_MAX →
  (amount ← fuelled (λ s, while sfuel
      (λ amount, negb (ld8 (mem s) (p ⊕ amount) =? 0) && negb (ld8 (mem s) (p ⊕ amount) =? 37))
      (λ amount, amount ⊕ 1) 1);
   if w32 (INT_MAX - written) <? amount then mret (-1)
   else
     ok ← print (in_memory p) amount;
     if negb ok then mret (-1)
     else printf_loop sfuel fuel' (p ⊕ amount) (s32 (written + amount)) args) s
  = printf_loop sfuel fuel' (p + Z.of_nat (length (x :: run)))
      (written + Z.of_nat (length (x :: run))) args (put_list (x :: run) s).
Proof.
  intros Hs Ht Hrun Hrest Hf Hw Hmax. unfold INT_MAX in *.
  pose proof (text_at_bounds _ _ _ Ht) as Hb. cbn [length] in Hb, Hmax. rewrite length_app in Hb.
  erewrite fuelled_done; [|eapply scan_plain; [|lia..|done|done|done]];
    [|apply (text_at_tail s p [x] (run ++ rest) Ht)].
  cbv beta. replace (1 + Z.of_nat (length run)) with (Z.of_nat (length (x :: run))) by (simpl; lia).
  rewrite (w32_small (2147483647 - written)) by lia.
  destruct (Z.ltb_spec (2147483647 - written) (Z.of_nat (length (x :: run)))); [simpl in *; lia|].
  rewrite (bind_done _ _ _ _ _ (print_text s p (x :: run) rest Hs Ht)). cbn [negb].
  rewrite w32_small, s32_small by (simpl; lia). done.
Qed.

Lemma text_at_head s p c l : text_at s p (c :: l) → ld8 (mem s) p = c ∧ c ≠ 0.
Proof. intros ((? & ? & _) & _). done. Qed.

(** The character after the first one, or the terminator. *)
Lemma text_at_next s p c l :
  text_at s p (c :: l) → ld8 (mem s) (p ⊕ 1) = match l with [] => 0 | d :: _ => d end.
Proof.
  intros Ht. rewrite ld8_w32. pose proof (text_at_tail s p [c] l Ht) as (Hc & _).
  change (Z.of_nat (length [c])) with 1 in Hc. destruct l; simpl in *; [done|]. by destruct Hc as (_ & -> & _).
Qed.

(** The literal tail of the format, printed when the specifier is unknown. *)
Lemma printf_literal sfuel fuel' s p f written args :
  tty_ok s → text_at s p f → (length f <= sfuel)%nat →
  0 <= written → written + Z.of_nat (length f) <= INT_MAX →
  (len ← fuelled (λ s, strlen sfuel (mem s) p);
   if w32 (INT_MAX - written) <? len then mret (-1)
   else
     ok ← print (in_memory p) len;
     if negb ok then mret (-1)
     else printf_loop sfuel fuel' (p ⊕ len) (s32 (written + len)) args) s
  = Done (written + Z.of_nat (length f)) (put_list f s).
Proof.
  intros Hs Ht Hf Hw Hmax. unfold INT_MAX in *. pose proof (text_at_bounds _ _ _ Ht) as Hb.
  erewrite fuelled_done by (apply strlen_spec; [apply Ht|lia|done]). cbv beta.
  rewrite (w32_small (2147483647 - written)) by lia.
  destruct (Z.ltb_spec (2147483647 - written) (Z.of_nat (length f))); [lia|].
  assert (text_at s p (f ++ [])) as Ht' by (by rewrite app_nil_r).
  rewrite (bind_done _ _ _ _ _ (print_text s p f [] Hs Ht')). cbn [negb].
  rewrite w32_small, s32_small by lia. apply printf_end.
  apply (text_at_put _ _ _ f Hs), (text_at_tail _ _ f []) in Ht'. apply Ht'.
Qed.

(** A string argument. *)
Lemma printf_str sfuel s q l written (k : Z → K Z) :
  tty_ok s → text_at s q l → (length l <= sfuel)%nat →
  0 <= written → written + Z.of_nat (length l) <= INT_MAX →
  (len ← fuelled (λ s, strlen sfuel (mem s) q);
   if w32 (INT_MAX - written) <? len then mret (-1)
   else
     ok ← print (in_memory q) len;
     if negb ok then mret (-1) else k (s32 (written + len))) s
  = k (written + Z.of_nat (length l)) (put_list l s).
Proof.
  intros Hs Ht Hf Hw Hmax. unfold INT_MAX in *.
  erewrite fuelled_done by (apply strlen_spec; [apply Ht|lia|done]). cbv beta.
  rewrite (w32_small (2147483647 - written)) by lia.
  destruct (Z.ltb_spec (2147483647 - written) (Z.of_nat (length l))); [lia|].
  assert (text_at s q (l ++ [])) as Ht' by (by rewrite app_nil_r).
  rewrite (bind_done _ _ _ _ _ (print_text s q l [] Hs Ht')). cbn [negb].
  by rewrite s32_small by lia.
Qed.

(** What one call of the loop owes, as a statement about its fuel. *)
Definition printf_correct (sfuel fuel : nat) : Prop := ∀ f p written args s out,
  tty_ok s → text_at s p f → Forall (arg_ok s sfuel) args →
  (length f <= sfuel)%nat → (length f <= fuel)%nat →
  formatted f args = Some out → 0 <= written → written + Z.of_nat (length out) <= INT_MAX →
  printf_loop sfuel fuel p written (raw <$> args) s
  = Done (written + Z.of_nat (length out)) (put_list out s).

(** The loop after [done_] has been printed, [p'] being the rest of the format. *)
Lemma printf_continue sfuel fuel s done_ f p' written args out :
  printf_correct sfuel fuel →
  tty_ok s → text_at s p' f → Forall (arg_ok s sfuel) args →
  (length f <= sfuel)%nat → (length f <= fuel)%nat →
  formatted f args = Some out → 0 <= written →
  written + Z.of_nat (length done_) + Z.of_nat (length out) <= INT_MAX →
  printf_loop sfuel fuel p' (written + Z.of_nat (length done_)) (raw <$> args) (put_list done_ s)
  = Done (written + Z.of_nat (length (done_ ++ out))) (put_list (done_ ++ out) s).
Proof.
  intros IH Hs Ht Ha Hsf Hf Hfmt Hw Hmax. rewrite length_app, put_list_app.
  rewrite (IH f p' _ args _ out); [f_equal; lia| | | |done|done|done|lia|done].
  - by apply put_list_ok.
  - by apply text_at_put.
  - eapply Forall_impl; [done|]. intros a. by apply arg_ok_put.
Qed.

Lemma printf_plain_case sfuel fuel s x g p' w args o :
  printf_correct sfuel fuel →
  tty_ok s → text_at s p' (x :: g) → Forall (arg_ok s sfuel) args →
  (length (x :: g) <= sfuel)%nat → (length g <= fuel)%nat →
  formatted g args = Some o → 0 <= w → w + Z.of_nat (length (x :: o)) <= INT_MAX →
  (amount ← fuelled (λ s, while sfuel
      (λ amount, negb (ld8 (mem s) (p' ⊕ amount) =? 0) && negb (ld8 (mem s) (p' ⊕ amount) =? 37))
      (λ amount, amount ⊕ 1) 1);
   if w32 (INT_MAX - w) <? amount then mret (-1)
   else ok ← print (in_memory p') amount;
     if negb ok then mret (-1)
     else printf_loop sfuel fuel (p' ⊕ amount) (s32 (w + amount)) (raw <$> args)) s
  = Done (w + Z.of_nat (length (x :: o))) (put_list (x :: o) s).
Proof.
  intros IH Hs Ht Ha Hgs Hgf Hg Hw Hmax.
  destruct (plain_split g) as (run & rest & -> & Hrun & Hrest).
  rewrite formatted_plain in Hg by done. apply fmap_Some in Hg as (o' & Ho' & ->).
  simpl in Hgs, Hmax. rewrite length_app in Hgs, Hgf, Hmax.
  rewrite (printf_run_step _ _ _ _ x run rest) by (done || simpl; lia).
  apply (printf_continue _ _ _ (x :: run) rest); (done || (simpl; lia) || idtac).
  apply (text_at_tail _ _ (x :: run)). done.
Qed.

(** [printf] puts the formatted bytes on the console and returns their number. *)
Lemma printf_loop_spec sfuel fuel : printf_correct sfuel fuel.
Proof.
  induction fuel as [|fuel IH]; intros f p written args s out Hs Ht Hargs Hsf Hf Hfmt Hw Hmax.
  all: destruct f as [|c0 f']; [simpl in Hfmt; simplify_eq; change (Z.of_nat (length [])) with 0; rewrite Z.add_0_r;
    apply printf_end, Ht|]; simpl in Hf; try lia.
  destruct (text_at_head _ _ _ _ Ht) as [Hc0 Hnz].
  cbn [printf_loop]. unfold load8. rewrite bind_gets, Hc0.
  destruct (Z.eqb_spec c0 0) as [|_]; [done|]. rewrite bind_gets, (text_at_next _ _ _ _ Ht).
  cbn [formatted] in Hfmt. pose proof (text_at_bounds _ _ _ Ht) as Hb. simpl in Hb.
  destruct (Z.eqb_spec c0 37) as [->|Hne]; cbn [negb orb].
  2: { apply fmap_Some in Hfmt as (o & Ho & ->). apply (printf_plain_case _ _ _ c0 f'); (done || simpl in *; lia). }
  destruct f' as [|d f''].
  { simplify_eq. apply (printf_literal _ _ _ _ [37]); done. }
  pose proof (text_at_tail _ _ [37] _ Ht) as Ht1. pose proof (text_at_tail _ _ [37; d] _ Ht) as Ht2.
  change (Z.of_nat (length [37])) with 1 in Ht1. change (Z.of_nat (length [37; d])) with 2 in Ht2.
  replace (p + 2) with (p + 1 + 1) in Ht2 by lia. cbn [length] in Hb, Hsf, Hf.
  rewrite !(w32_small (p + 1)) by lia. rewrite (w32_small (p + 1 + 1)) by lia.
  destruct (Z.eqb_spec d 37) as [->|Hd37]; cbn [negb orb].
  { apply fmap_Some in Hfmt as (o & Ho & ->).
    apply (printf_plain_case _ _ _ 37 f''); (done || simpl in *; lia). }
  destruct (Z.eqb_spec d 99) as [->|Hd99].
  { destruct args as [|[v|] args]; [done| |done]. apply fmap_Some in Hfmt as (o & Ho & ->).
    apply Forall_cons in Hargs as [_ Hargs].
    cbn [va_arg fmap list_fmap raw length] in *. unfold INT_MAX in *.
    rewrite (w32_small (2147483647 - written)) by lia.
    destruct (Z.eqb_spec (2147483647 - written) 0); [lia|].
    rewrite (bind_done _ _ _ _ _ (print_const (w8 v) s (w8_range v))). cbn [negb].
    apply (printf_continue _ _ _ [w8 v] f''); (done || (simpl; unfold INT_MAX; lia)). }
  destruct (Z.eqb_spec d 115) as [->|Hd115].
  { destruct args as [|[|q l] args]; [done|done|]. apply fmap_Some in Hfmt as (o & Ho & ->).
    apply Forall_cons in Hargs as [[Hq Hql] Hargs]. cbn [va_arg fmap list_fmap raw].
    rewrite length_app in Hmax.
    rewrite (printf_str _ _ q l _ (λ w, printf_loop sfuel fuel _ w _)) by (done || lia).
    apply (printf_continue _ _ _ l f''); (done || lia). }
  simplify_eq. apply (printf_literal _ _ _ _ (37 :: d :: f'')); (done || simpl in *; lia).
Qed.

(** ** printf and puts *)

(** C30. [printf] prints its format: when the format and the strings it names
    are off the screen and the output fits an [int], it puts on the console
    exactly the bytes that format and arguments stand for ([%%], [%c], [%s],
    and, from an unknown specifier on, the rest of the format as it is), and
    returns their number.  A fuel above every length involved is enough. *)
Theorem printf_formats fuel f p args s out :
  tty_ok s → text_at s p f → Forall (arg_ok s fuel) args → (length f <= fuel)%nat →
  formatted f args = Some out → Z.of_nat (length out) <= INT_MAX →
  printf fuel p (raw <$> args) s = Done (Z.of_nat (length out)) (put_list out s).
Proof.
  intros Hs Hf Ha Hlen Hfmt Hmax. unfold printf.
  by rewrite (printf_loop_spec fuel fuel f p 0 args s out).
Qed.

(** [puts] prints its string and a newline byte, and returns the number of
    bytes.  (The console shows byte 10 as a character of the code page.) *)
Theorem puts_prints fuel fmt p l s :
  tty_ok s → text_at s fmt [37; 115; 10] → text_at s p l →
  (length l <= fuel)%nat → (3 <= fuel)%nat → Z.of_nat (length l) + 1 <= INT_MAX →
  puts fuel fmt p s = Done (Z.of_nat (length l) + 1) (put_list (l ++ [10]) s).
Proof.
  intros Hs Hfmt Hp Hl Hfuel Hmax. unfold puts, printf.
  change [p] with (raw <$> [arg_str p l]).
  rewrite (printf_loop_spec fuel fuel [37; 115; 10] fmt 0 [arg_str p l] s (l ++ [10]));
    rewrite ?length_app; try done; try (cbn [length]; lia).
  - f_equal. cbn [length]. lia.
  - by apply Forall_singleton.
Qed.

(** ** Instances *)
(** "x%c%s" at [0x3000], "Hi" at [0x3010], "%s\n" at [0x3020]. *)
Definition store_bytes (m : memory) (a : Z) (l : list Z) : memory :=
  (foldl (λ '(m, a) c, (st8 m a c, a + 1)) (m, a) l).1.
Definition sample_texts : machine :=
  set_tty (MkTty 0 0 7 VGA_MEMORY)
    (sample (store_bytes (store_bytes (store_bytes ∅ 0x3000 [120; 37; 99; 37; 115])
       0x3010 [72; 105]) 0x3020 [37; 115; 10])).

Lemma printf_formats_witness :
  formatted [120; 37; 99; 37; 115] [arg_int 65; arg_str 0x3010 [72; 105]] = Some [120; 65; 72; 105] ∧
  printf 5 0x3000 [65; 0x3010] sample_texts = Done 4 (put_list [120; 65; 72; 105] sample_texts).
Proof.
  split; [done|].
  apply (printf_formats 5 [120; 37; 99; 37; 115] 0x3000 [arg_int 65; arg_str 0x3010 [72; 105]]
           sample_texts [120; 65; 72; 105]); try done.
  - split_and!; [by vm_compute| |done]. unfold off_screen, VGA_MEMORY; cbn; lia.
  - repeat constructor; unfold VGA_MEMORY; cbn; try lia; by vm_compute.
Defined.

Lemma puts_prints_witness :
  puts 3 0x3020 0x3010 sample_texts = Done 3 (put_list ([72; 105] ++ [10]) sample_texts).
Proof.
  apply (puts_prints 3 0x3020 0x3010 [72; 105]); [done| | |cbn; lia..|by vm_compute].
  - split_and!; [by vm_compute| |done]. unfold off_screen, VGA_MEMORY; cbn; lia.
  - split_and!; [by vm_compute| |done]. unfold off_screen, VGA_MEMORY; cbn; lia.
Defined.
