(* ===== verification/Descriptors.v ===== *)
(** * kernel/arch/i386: descriptor tables, the interrupt controller, dispatch

    [GlobalDescriptorTable.cpp] and [InterruptDescriptorTable.cpp].  The two
    tables are bytes at link-time addresses, as the processor reads them: the
    reference notions [segment_of] and [gate_of] decode a descriptor the way
    the processor does, and the theorems say that the tables built decode to
    what was meant.  Port writes, [lgdt] and [lidt] are events of the trace. *)
From S2P Require Import Prelude Memory LibString OrderedList Machine Console Stdio.
Local Open Scope Z_scope.
Local Open Scope u32_scope.

(** ** Link-time addresses *)
Class Tables_image := {
  gdt_entries : Z;
  gtdPointer : Z;
  entries : Z;
  idtPointer : Z;
  isr : Z → Z;          (* the stubs [isr0] ... [isr31] *)
  irq_stub : Z → Z;     (* the stubs [irq32] ... [irq47] *)
  lit_received : Z;     (* the literal of [isr_handler] *)
}.

Definition outb (port value : Z) : K unit := modify (add_event (ev_outb port (w8 value))).

(** ** The global descriptor table *)
Definition GDT_NUM_ENTRIES : Z := 3.
Definition sizeof_GlobalDescriptorTableEntry : Z := 8.

Section tables.
Context `{Tables_image}.

(** The address of [gdt_entries[num]]; an index outside the array is undefined. *)
Definition CreateEntry (num base limit access gran : Z) : K unit :=
  if (0 <=? num) && (num <? GDT_NUM_ENTRIES) then
    let e := gdt_entries ⊕ 8 * num in
    store16 (e ⊕ 2) (Z.land base 0xFFFF) ;;
    store8 (e ⊕ 4) (Z.land (Z.shiftr base 16) 0xFF) ;;
    store8 (e ⊕ 7) (Z.land (Z.shiftr base 24) 0xFF) ;;
    store16 e (Z.land limit 0xFFFF) ;;
    store8 (e ⊕ 6) (Z.land (Z.shiftr limit 16) 0x0F) ;;
    g ← load8 (e ⊕ 6);
    store8 (e ⊕ 6) (Z.lor g (Z.land gran 0xF0)) ;;
    store8 (e ⊕ 5) access
  else undefined.

Definition InitGDT : K unit :=
  store16 gtdPointer (sizeof_GlobalDescriptorTableEntry * GDT_NUM_ENTRIES - 1) ;;
  store32 (gtdPointer ⊕ 2) gdt_entries ;;
  CreateEntry 0 0 0 0 0 ;;
  CreateEntry 1 0 0xFFFFFFFF 0x9A 0xCF ;;
  CreateEntry 2 0 0xFFFFFFFF 0x92 0xCF ;;
  modify (add_event (ev_load_gdt gtdPointer)).

(** ** The interrupt descriptor table *)
Definition IDT_NUM_ENTRIES : Z := 256.
Definition sizeof_IDTGate : Z := 8.

(** [num], [sel] and [flags] are bytes, so that [entries[num]] exists. *)
Definition CreateGate (num base sel flags : Z) : K unit :=
  let e := entries ⊕ 8 * w8 num in
  store16 e (Z.land base 0xFFFF) ;;
  store16 (e ⊕ 6) (Z.land (Z.shiftr base 16) 0xFFFF) ;;
  store16 (e ⊕ 2) (w8 sel) ;;
  store8 (e ⊕ 4) 0 ;;
  store8 (e ⊕ 5) (w8 flags).

Definition RemapPIC : K unit :=
  outb 0x20 0x11 ;;
  outb 0xA0 0x11 ;;
  outb 0x21 0x20 ;;
  outb 0xA1 0x28 ;;
  outb 0x21 0x04 ;;
  outb 0xA1 0x02 ;;
  outb 0x21 0x01 ;;
  outb 0xA1 0x01 ;;
  outb 0x21 0x0 ;;
  outb 0xA1 0x0.

(** The 32 and 16 calls of [CreateGate] the source writes out. *)
Definition Init_IDT : K unit :=
  on_mem (λ m, memset m entries 0x00 (IDT_NUM_ENTRIES * sizeof_IDTGate)) ;;
  store16 idtPointer (IDT_NUM_ENTRIES * sizeof_IDTGate - 1) ;;
  store32 (idtPointer ⊕ 2) entries ;;
  forM 32 0 (λ i, CreateGate i (isr i) 0x08 0x8E) ;;
  modify (add_event (ev_load_idt idtPointer)) ;;
  RemapPIC ;;
  forM 16 32 (λ i, CreateGate i (irq_stub i) 0x08 0x8E).

(** ** Interrupts *)
Definition isr_handler (fuel : nat) : K unit :=
  printf fuel lit_received [] ;; hang.
End tables.

(** [irq_routines[i]]; an index outside the 16 elements is undefined. *)
Definition irq_routine (i : Z) : K Z := λ s,
  match (if (0 <=? i) then irq_routines (irq s) !! Z.to_nat i else None) with
  | Some h => Done h s
  | None => Undefined
  end.
Definition set_irq_routine (i h : Z) : K unit := λ s,
  if (0 <=? i) && (i <? Z.of_nat (length (irq_routines (irq s)))) then
    Done tt (set_irq (MkIrq (<[Z.to_nat i := h]> (irq_routines (irq s))) (ticks (irq s))) s)
  else Undefined.

Definition InstallHandler (interruptNumber handler : Z) : K unit :=
  set_irq_routine interruptNumber handler.
Definition UninstallHandler (interruptNumber : Z) : K unit := set_irq_routine interruptNumber 0.

Section dispatch.
(** The call through a function pointer. *)
Variable call : Z → K unit.

Definition irq_handler (int_no : Z) : K unit :=
  handler ← irq_routine (int_no ⊖ 32);
  (if negb (handler =? 0) then call handler else mret tt) ;;
  (if 40 <=? int_no then outb 0xA0 0x20 else mret tt) ;;
  outb 0x20 0x20.
End dispatch.

(** ** Reference notions: descriptors as the processor reads them *)
Record segment := MkSegment {
  sg_base : Z;
  sg_limit : Z;
  sg_access : Z;
  sg_flags : Z;
}.
Definition segment_of (m : memory) (e : Z) : segment :=
  MkSegment (ld16 m (e + 2) + 65536 * ld8 m (e + 4) + 16777216 * ld8 m (e + 7))
    (ld16 m e + 65536 * (ld8 m (e + 6) mod 16)) (ld8 m (e + 5)) (ld8 m (e + 6) / 16).

Record gate := MkGate {
  gt_offset : Z;
  gt_selector : Z;
  gt_zero : Z;
  gt_config : Z;
}.
Definition gate_of (m : memory) (e : Z) : gate :=
  MkGate (ld16 m e + 65536 * ld16 m (e + 6)) (ld16 m (e + 2)) (ld8 m (e + 4)) (ld8 m (e + 5)).

(** A table register's operand: a 16-bit limit and a 32-bit base. *)
Definition table_at (m : memory) (p limit base : Z) : Prop := ld16 m p = limit ∧ ld32 m (p + 2) = base.

(** ** Lemmas *)
Lemma land_ones_mod a n : 0 <= n → Z.land a (Z.ones n) = a mod 2 ^ n.
Proof. apply Z.land_ones. Qed.
Lemma land_ff a : Z.land a 0xFF = a mod 256.
Proof. apply (land_ones_mod a 8). lia. Qed.
Lemma land_ffff a : Z.land a 0xFFFF = a mod 65536.
Proof. apply (land_ones_mod a 16). lia. Qed.
Lemma land_0f a : Z.land a 0x0F = a mod 16.
Proof. apply (land_ones_mod a 4). lia. Qed.
Lemma land_f0 a : 0 <= a < 256 → Z.land a 0xF0 = Z.shiftl (a / 16) 4.
Proof.
  intros Ha.
  assert (forallb (λ i, Z.land (Z.of_nat i) 0xF0 =? Z.shiftl (Z.of_nat i / 16) 4) (seq 0 256) = true)
    as H by (by vm_compute).
  rewrite forallb_forall in H. specialize (H (Z.to_nat a)). rewrite Z2Nat.id in H by lia.
  apply Z.eqb_eq, H, in_seq. lia.
Qed.
Lemma shiftr_16 a : Z.shiftr a 16 = a / 65536.
Proof. by rewrite Z.shiftr_div_pow2 by lia. Qed.
Lemma shiftr_24 a : Z.shiftr a 24 = a / 16777216.
Proof. by rewrite Z.shiftr_div_pow2 by lia. Qed.

(** Reading bytes and half-words through half-word stores. *)
Ltac half_simpl := unfold ld16, st16; mem_simpl; unfold w8; Z.to_euclidean_division_equations.

(** An 8-byte table entry, in range. *)
Definition entry_ok (e : Z) : Prop := 0 <= e ∧ e + 8 <= 4294967296.

Section table_lemmas.
Context `{Tables_image}.

Definition gdt_ok : Prop := 0 <= gdt_entries ∧ gdt_entries + 24 <= 4294967296.
Definition idt_ok : Prop := 0 <= entries ∧ entries + 2048 <= 4294967296.

Lemma CreateEntry_ok s num base limit access gran :
  gdt_ok → 0 <= num < 3 → 0 <= base < 4294967296 → 0 <= limit < 4294967296 →
  0 <= access < 256 → 0 <= gran < 256 →
  let e := gdt_entries + 8 * num in
  ∃ m', CreateEntry num base limit access gran s = Done tt (set_mem m' s) ∧
    segment_of m' e = MkSegment base (limit mod 1048576) access (gran / 16) ∧
    frame (range e 8) (mem s) m'.
Proof.
  intros [H0 H1] Hn Hb Hl Ha Hg e. unfold CreateEntry, GDT_NUM_ENTRIES.
  rewrite (proj2 (Z.leb_le 0 num)), (proj2 (Z.ltb_lt num 3)) by lia. cbn [andb].
  rewrite (w32_small (gdt_entries + 8 * num)) by lia. fold e.
  kstores. unfold store8, modify. eexists. split; [reflexivity|].
  rewrite mem_set_mem, !land_ff, !land_ffff, land_0f, land_f0, !shiftr_16, shiftr_24 by lia.
  w32_simpl. rewrite ld8_st8_eq, (w8_small ((limit / 65536) mod 16)) by (Z.to_euclidean_division_equations; lia).
  rewrite lor_shift_add by (Z.to_euclidean_division_equations; lia). change (2 ^ 4) with 16. split.
  - unfold segment_of. f_equal; half_simpl; lia.
  - unfold st16. repeat (apply frame_st8; [|lia|unfold range; lia]). apply frame_refl.
Qed.

Lemma CreateGate_ok s num base sel flags :
  idt_ok → 0 <= num < 256 → 0 <= base < 4294967296 → 0 <= sel < 256 → 0 <= flags < 256 →
  let e := entries + 8 * num in
  ∃ m', CreateGate num base sel flags s = Done tt (set_mem m' s) ∧
    gate_of m' e = MkGate base sel 0 flags ∧ frame (range e 8) (mem s) m'.
Proof.
  intros [H0 H1] Hn Hb Hs Hf e. unfold CreateGate. rewrite (w8_small num) by lia.
  rewrite (w32_small (entries + 8 * num)) by lia. fold e. kstores.
  unfold store8, modify. eexists. split; [reflexivity|].
  rewrite mem_set_mem, !land_ffff, shiftr_16. w32_simpl. rewrite (w8_small sel) by lia. split.
  - unfold gate_of. f_equal; half_simpl; lia.
  - unfold st16. repeat (apply frame_st8; [|lia|unfold range; lia]). apply frame_refl.
Qed.

(** Descriptors outside a frame keep their meaning. *)
Lemma segment_of_frame P m m' e :
  frame P m m' → entry_ok e → (∀ x, range e 8 x → ¬ P x) → segment_of m' e = segment_of m e.
Proof.
  intros Hf [? ?] HP. unfold range in HP. unfold segment_of, ld16.
  assert (∀ x, e <= x < e + 8 → ld8 m' x = ld8 m x) as Hx by (intros; apply Hf; [lia|apply HP; lia]).
  by rewrite !Hx by lia.
Qed.
Lemma gate_of_frame P m m' e :
  frame P m m' → entry_ok e → (∀ x, range e 8 x → ¬ P x) → gate_of m' e = gate_of m e.
Proof.
  intros Hf [? ?] HP. unfold range in HP. unfold gate_of, ld16.
  assert (∀ x, e <= x < e + 8 → ld8 m' x = ld8 m x) as Hx by (intros; apply Hf; [lia|apply HP; lia]).
  by rewrite !Hx by lia.
Qed.

Lemma table_at_written s p limit base :
  0 <= p → p + 6 <= 4294967296 → 0 <= limit < 65536 → 0 <= base < 4294967296 →
  let m' := st32 (st16 (mem s) p limit) (p ⊕ 2) base in
  table_at m' p limit base ∧ frame (range p 6) (mem s) m'.
Proof.
  intros H0 H1 Hl Hb m'. unfold m'. rewrite (w32_small (p + 2)) by lia. split; [split|].
  - half_simpl; lia.
  - rewrite ld32_st32_eq. by apply w32_small.
  - apply frame_st32; [|lia|lia|unfold range; lia]. unfold st16.
    repeat (apply frame_st8; [|lia|unfold range; lia]). apply frame_refl.
Qed.

Lemma table_at_frame P m m' p limit base :
  frame P m m' → 0 <= p → p + 6 <= 4294967296 → (∀ x, range p 6 x → ¬ P x) →
  table_at m p limit base → table_at m' p limit base.
Proof.
  intros Hf H0 H1 HP [Hl Hb]. unfold range in HP. split.
  - rewrite <- Hl. eapply frame_ld16; [exact Hf|lia..|]. intros; apply HP; lia.
  - rewrite <- Hb. eapply frame_ld32; [exact Hf|lia..|]. intros; apply HP; lia.
Qed.

(** ** A run of gates *)
(** [n] gates from number [i], with the addresses [f]. *)
Lemma create_gates_ok s n i (f : Z → Z) sel flags :
  idt_ok → 0 <= i → i + Z.of_nat n <= 256 → (∀ j, 0 <= f j < 4294967296) →
  0 <= sel < 256 → 0 <= flags < 256 →
  ∃ m', forM n i (λ j, CreateGate j (f j) sel flags) s = Done tt (set_mem m' s) ∧
    (∀ j, i <= j < i + Z.of_nat n → gate_of m' (entries + 8 * j) = MkGate (f j) sel 0 flags) ∧
    frame (range (entries + 8 * i) (8 * Z.of_nat n)) (mem s) m'.
Proof.
  intros Hidt Hi Hn Hf Hs Hfl. pose proof Hidt as [H0 H1].
  destruct (forM_inv (λ k t, ∃ m', t = set_mem m' s ∧
      (∀ j, i <= j < k → gate_of m' (entries + 8 * j) = MkGate (f j) sel 0 flags) ∧
      frame (range (entries + 8 * i) (8 * (k - i))) (mem s) m')
    (λ j, CreateGate j (f j) sel flags) n i s) as (s' & Hrun & m' & -> & Hg & Hfr).
  - exists (mem s). split_and!; [by destruct s|lia|apply frame_refl].
  - intros k t Hk (m1 & -> & Hg & Hfr).
    destruct (CreateGate_ok (set_mem m1 s) k (f k) sel flags) as (m2 & Hrun & Hg2 & Hf2);
      [done|lia|apply Hf|done|done|].
    exists (set_mem m2 s). split; [done|]. exists m2. rewrite mem_set_mem in Hf2. split_and!; [done| |].
    + intros j Hj. destruct (decide (j = k)) as [->|]; [done|].
      rewrite (gate_of_frame _ m1 m2 _ Hf2); [apply Hg; lia|split; lia|unfold range; lia].
    + eapply frame_trans; eapply frame_weaken; [exact Hfr| |exact Hf2|]; unfold range; lia.
  - exists m'. split_and!; [done..|]. eapply frame_weaken; [exact Hfr|]. unfold range. lia.
Qed.
End table_lemmas.

(** ** Properties *)
Section properties.
Context `{Tables_image}.

(** The operand of a table register lies apart from the table. *)
Definition apart (p n q k : Z) : Prop := p + n <= q ∨ q + k <= p.
Definition pointer_ok (p : Z) : Prop := 0 <= p ∧ p + 6 <= 4294967296.

Lemma InitGDT_run s :
  gdt_ok → pointer_ok gtdPointer → apart gdt_entries 24 gtdPointer 6 →
  ∃ m', InitGDT s = Done tt (add_event (ev_load_gdt gtdPointer) (set_mem m' s)) ∧
    table_at m' gtdPointer 23 gdt_entries ∧
    segment_of m' gdt_entries = MkSegment 0 0 0 0 ∧
    segment_of m' (gdt_entries + 8) = MkSegment 0 0xFFFFF 0x9A 0xC ∧
    segment_of m' (gdt_entries + 16) = MkSegment 0 0xFFFFF 0x92 0xC ∧
    frame (λ x, range gdt_entries 24 x ∨ range gtdPointer 6 x) (mem s) m'.
Proof.
  intros Hg [Hp0 Hp1] Hap. pose proof Hg as [Hg0 Hg1]. unfold apart in Hap.
  unfold InitGDT, sizeof_GlobalDescriptorTableEntry, GDT_NUM_ENTRIES. kstores.
  change (8 * 3 - 1) with 23.
  destruct (table_at_written s gtdPointer 23 gdt_entries) as [Ht Hf0]; [lia..|].
  set (m0 := st32 _ _ gdt_entries) in *. set (s0 := set_mem m0 s).
  destruct (CreateEntry_ok s0 0 0 0 0 0) as (m1 & E1 & D1 & F1); [done|lia..|].
  rewrite (bind_done _ _ _ _ _ E1). set (s1 := set_mem m1 s0).
  destruct (CreateEntry_ok s1 1 0 0xFFFFFFFF 0x9A 0xCF) as (m2 & E2 & D2 & F2); [done|lia..|].
  rewrite (bind_done _ _ _ _ _ E2). set (s2 := set_mem m2 s1).
  destruct (CreateEntry_ok s2 2 0 0xFFFFFFFF 0x92 0xCF) as (m3 & E3 & D3 & F3); [done|lia..|].
  rewrite (bind_done _ _ _ _ _ E3). exists m3. split; [done|].
  change (mem s0) with m0 in F1. change (mem s1) with m1 in F2. change (mem s2) with m2 in F3.
  split_and!.
  - repeat (eapply table_at_frame; [eassumption|lia|lia|unfold range; lia|]). done.
  - rewrite Z.mul_0_r, Z.add_0_r in D1.
    rewrite (segment_of_frame _ m2 m3 _ F3), (segment_of_frame _ m1 m2 _ F2);
      first [exact D1 | split; lia | unfold range; lia].
  - rewrite (segment_of_frame _ m2 m3 _ F3); [exact D2|split; lia|unfold range; lia].
  - exact D3.
  - repeat (eapply frame_trans; [|eapply frame_weaken; [eassumption|unfold range; lia]]).
    apply frame_refl.
Qed.

(** [InitGDT] builds a flat memory model: the processor is given a table of
    24 bytes whose first descriptor is null, whose second is the code segment
    and whose third is the data segment, both from address 0 up to the limit
    [0xFFFFF] pages; only the table and its pointer are written. *)
Theorem InitGDT_flat s :
  gdt_ok → pointer_ok gtdPointer → apart gdt_entries 24 gtdPointer 6 →
  ∃ m', InitGDT s = Done tt (add_event (ev_load_gdt gtdPointer) (set_mem m' s)) ∧
    table_at m' gtdPointer 23 gdt_entries ∧
    segment_of m' gdt_entries = MkSegment 0 0 0 0 ∧
    segment_of m' (gdt_entries + 8) = MkSegment 0 0xFFFFF 0x9A 0xC ∧
    segment_of m' (gdt_entries + 16) = MkSegment 0 0xFFFFF 0x92 0xC ∧
    frame (λ x, range gdt_entries 24 x ∨ range gtdPointer 6 x) (mem s) m'.
Proof. apply InitGDT_run. Qed.

(** The bytes sent to the two interrupt controllers, latest first. *)
Definition remap_trace : list event :=
  [ev_outb 0xA1 0x0; ev_outb 0x21 0x0; ev_outb 0xA1 0x01; ev_outb 0x21 0x01; ev_outb 0xA1 0x02;
   ev_outb 0x21 0x04; ev_outb 0xA1 0x28; ev_outb 0x21 0x20; ev_outb 0xA0 0x11; ev_outb 0x20 0x11].

Definition set_trace (t : list event) (s : machine) : machine :=
  MkMachine (mem s) (tty s) (kmem s) (pg s) (irq s) (tasks s) (initrd s) t.

Lemma RemapPIC_eq s : RemapPIC s = Done tt (set_trace (remap_trace ++ trace s) s).
Proof. done. Qed.

Lemma Init_IDT_run s :
  idt_ok → pointer_ok idtPointer → apart entries 2048 idtPointer 6 →
  (∀ i, 0 <= isr i < 4294967296) → (∀ i, 0 <= irq_stub i < 4294967296) →
  ∃ m', Init_IDT s =
      Done tt (set_trace (remap_trace ++ ev_load_idt idtPointer :: trace s) (set_mem m' s)) ∧
    table_at m' idtPointer 2047 entries ∧
    (∀ i, 0 <= i < 32 → gate_of m' (entries + 8 * i) = MkGate (isr i) 0x08 0 0x8E) ∧
    (∀ i, 32 <= i < 48 → gate_of m' (entries + 8 * i) = MkGate (irq_stub i) 0x08 0 0x8E) ∧
    (∀ i, 48 <= i < 256 → gate_of m' (entries + 8 * i) = MkGate 0 0 0 0) ∧
    frame (λ x, range entries 2048 x ∨ range idtPointer 6 x) (mem s) m'.
Proof.
  intros Hidt [Hp0 Hp1] Hap Hisr Hirq. pose proof Hidt as [H0 H1]. unfold apart in Hap.
  unfold Init_IDT, IDT_NUM_ENTRIES, sizeof_IDTGate. change (256 * 8) with 2048.
  rewrite bind_memset. destruct (memset_spec (mem s) entries 0 2048) as [Fz Dz]; [lia..|].
  set (m0 := (memset (mem s) entries 0 2048).1) in *. clearbody m0. kstores.
  change (2048 - 1) with 2047.
  destruct (table_at_written (set_mem m0 s) idtPointer 2047 entries) as [Ht Fp]; [lia..|].
  rewrite mem_set_mem in Ht, Fp. set (m1 := st32 _ _ entries) in *.
  destruct (create_gates_ok (set_mem m1 s) 32 0 isr 0x08 0x8E) as (m2 & E2 & D2 & F2); [done|lia..|done|lia|lia|].
  rewrite (bind_done _ _ _ _ _ E2), bind_modify.
  rewrite (bind_done _ _ _ _ _ (RemapPIC_eq _)). rewrite mem_set_mem in F2.
  match goal with |- context [forM 16 32 _ ?t] => set (s3 := t) end.
  destruct (create_gates_ok s3 16 32 irq_stub 0x08 0x8E) as (m3 & E3 & D3 & F3); [done|lia..|done|lia|lia|].
  change (mem s3) with m2 in F3. rewrite E3. exists m3. split; [done|].
  change (8 * Z.of_nat 32) with 256 in F2. change (8 * Z.of_nat 16) with 128 in F3.
  split_and!.
  - repeat (eapply table_at_frame; [eassumption|lia|lia|unfold range; lia|]). done.
  - intros i Hi. rewrite (gate_of_frame _ m2 m3 _ F3); [apply D2; lia|split; lia|unfold range; lia].
  - intros i Hi. apply D3. lia.
  - intros i Hi. rewrite (gate_of_frame _ m2 m3 _ F3), (gate_of_frame _ m1 m2 _ F2),
      (gate_of_frame _ m0 m1 _ Fp); try (split; lia); try (unfold range; lia).
    unfold gate_of, ld16. by rewrite !Dz by lia.
  - repeat (eapply frame_trans; [|eapply frame_weaken; [eassumption|unfold range; lia]]).
    apply frame_refl.
Qed.

(** C27. [Init_IDT] installs all gates: the 48 gates in use decode to their
    stubs, as ring-0 interrupt gates of the code segment, the other 208 are
    empty, the table register gets 256 gates, and the controllers are told to
    raise the hardware interrupts as numbers 32 to 47; nothing but the table
    and its pointer is written. *)
Theorem Init_IDT_gates s :
  idt_ok → pointer_ok idtPointer → apart entries 2048 idtPointer 6 →
  (∀ i, 0 <= isr i < 4294967296) → (∀ i, 0 <= irq_stub i < 4294967296) →
  ∃ m', Init_IDT s =
      Done tt (set_trace (remap_trace ++ ev_load_idt idtPointer :: trace s) (set_mem m' s)) ∧
    table_at m' idtPointer 2047 entries ∧
    (∀ i, 0 <= i < 32 → gate_of m' (entries + 8 * i) = MkGate (isr i) 0x08 0 0x8E) ∧
    (∀ i, 32 <= i < 48 → gate_of m' (entries + 8 * i) = MkGate (irq_stub i) 0x08 0 0x8E) ∧
    (∀ i, 48 <= i < 256 → gate_of m' (entries + 8 * i) = MkGate 0 0 0 0) ∧
    frame (λ x, range entries 2048 x ∨ range idtPointer 6 x) (mem s) m'.
Proof. apply Init_IDT_run. Qed.
End properties.

(** ** Dispatch *)

(** The acknowledgements of interrupt [n]: the slave controller first, when it
    raised the interrupt. *)
Definition acknowledged (n : Z) (s : machine) : machine :=
  set_trace (ev_outb 0x20 0x20 :: (if 40 <=? n then [ev_outb 0xA0 0x20] else []) ++ trace s) s.

Lemma irq_routine_lookup i h s :
  0 <= i → irq_routines (irq s) !! Z.to_nat i = Some h → irq_routine i s = Done h s.
Proof. intros Hi Hh. unfold irq_routine. by rewrite (proj2 (Z.leb_le 0 i)), Hh. Qed.

Lemma acknowledge_eq n s :
  ((if 40 <=? n then outb 0xA0 0x20 else mret tt) ;; outb 0x20 0x20) s = Done tt (acknowledged n s).
Proof. unfold acknowledged. by destruct (40 <=? n). Qed.

Lemma irq_handler_eq call n h s :
  32 <= n < 48 → irq_routines (irq s) !! Z.to_nat (n - 32) = Some h →
  irq_handler call n s =
    ((if negb (h =? 0) then call h else mret tt) ;;
     ((if 40 <=? n then outb 0xA0 0x20 else mret tt) ;; outb 0x20 0x20)) s.
Proof.
  intros Hn Hh. unfold irq_handler. rewrite (w32_small (n - 32)) by lia.
  rewrite (bind_done _ _ _ h s); [done|]. apply irq_routine_lookup; [lia|done].
Qed.

(** C28. [irq_handler] runs the handler installed for the interrupt, once, and
    acknowledges the interrupt after it has returned: to the master controller
    always, to the slave exactly for the interrupts from 40 on.  Without a
    handler it only acknowledges; a handler that does not return leaves the
    interrupt unacknowledged. *)
Theorem irq_handler_dispatches call n h s :
  32 <= n < 48 → irq_routines (irq s) !! Z.to_nat (n - 32) = Some h →
  (h = 0 → irq_handler call n s = Done tt (acknowledged n s)) ∧
  (h ≠ 0 → ∀ s1, call h s = Done tt s1 → irq_handler call n s = Done tt (acknowledged n s1)) ∧
  (h ≠ 0 → ∀ s1, call h s = Hang s1 → irq_handler call n s = Hang s1) ∧
  (h ≠ 0 → ∀ s1, call h s = Jump s1 → irq_handler call n s = Jump s1).
Proof.
  intros Hn Hh. rewrite (irq_handler_eq _ _ _ _ Hn Hh). split_and!.
  - intros ->. cbn [Z.eqb negb]. rewrite bind_ret. apply acknowledge_eq.
  - intros Hne s1 Hc. destruct (Z.eqb_spec h 0) as [|_]; [done|]. cbn [negb].
    rewrite (bind_done _ _ _ _ _ Hc). apply acknowledge_eq.
  - intros Hne s1 Hc. destruct (Z.eqb_spec h 0) as [|_]; [done|]. cbn [negb].
    unfold mbind at 1, kernel_bind. by rewrite Hc.
  - intros Hne s1 Hc. destruct (Z.eqb_spec h 0) as [|_]; [done|]. cbn [negb].
    unfold mbind at 1, kernel_bind. by rewrite Hc.
Qed.

Lemma set_irq_routine_ok i h s :
  length (irq_routines (irq s)) = 16%nat → 0 <= i < 16 →
  set_irq_routine i h s =
    Done tt (set_irq (MkIrq (<[Z.to_nat i := h]> (irq_routines (irq s))) (ticks (irq s))) s).
Proof.
  intros Hlen Hi. unfold set_irq_routine. rewrite Hlen. change (Z.of_nat 16) with 16.
  by destruct (Z.leb_spec 0 i), (Z.ltb_spec i 16); try lia.
Qed.

(** Installing a handler for line [i] makes interrupt [32 + i] run it and
    leaves the other lines alone; after uninstalling it the interrupt is only
    acknowledged.  A line outside 0 to 15 is undefined behaviour. *)
Theorem InstallHandler_roundtrip call i h s :
  length (irq_routines (irq s)) = 16%nat → h ≠ 0 →
  (0 <= i < 16 → ∃ s1 s2,
     InstallHandler i h s = Done tt s1 ∧ UninstallHandler i s1 = Done tt s2 ∧
     (∀ s', call h s1 = Done tt s' → irq_handler call (32 + i) s1 = Done tt (acknowledged (32 + i) s')) ∧
     irq_handler call (32 + i) s2 = Done tt (acknowledged (32 + i) s2) ∧
     (∀ j, j ≠ Z.to_nat i → irq_routines (irq s1) !! j = irq_routines (irq s) !! j) ∧
     mem s2 = mem s) ∧
  (i < 0 ∨ 16 <= i → InstallHandler i h s = Undefined).
Proof.
  intros Hlen Hh. split.
  - intros Hi. eexists _, _. split; [by apply set_irq_routine_ok|].
    split; [apply set_irq_routine_ok; [cbn; by rewrite length_insert|done]|].
    split_and!; [| |by intros; cbn; rewrite list_lookup_insert_ne|done].
    + intros s' Hc. rewrite (irq_handler_eq _ _ h) by
        (lia || (cbn; rewrite list_lookup_insert_eq; [done|lia]) ||
         (replace (32 + i - 32) with i by lia; cbn; rewrite list_lookup_insert_eq; [done|lia])).
      rewrite (proj2 (Z.eqb_neq h 0) Hh). cbn [negb].
      rewrite (bind_done _ _ _ _ _ Hc). apply acknowledge_eq.
    + rewrite (irq_handler_eq _ _ 0) by
        (lia || (replace (32 + i - 32) with i by lia; cbn; rewrite list_lookup_insert_eq;
                 [done|rewrite length_insert; lia])).
      apply acknowledge_eq.
  - intros Hi. unfold InstallHandler, set_irq_routine. rewrite Hlen.
    destruct (Z.leb_spec 0 i), (Z.ltb_spec i (Z.of_nat 16)); (done || lia).
Qed.

(** The text of [isr_handler]: "recieved interrupt". *)
Definition received_interrupt : list Z :=
  [114; 101; 99; 105; 101; 118; 101; 100; 32; 105; 110; 116; 101; 114; 114; 117; 112; 116].

(** A processor exception stops the kernel: [isr_handler] prints its
    message and never returns. *)
Theorem isr_handler_stops `{Tables_image} fuel s :
  tty_ok s → text_at s lit_received received_interrupt → (18 <= fuel)%nat →
  isr_handler fuel s = Hang (put_list received_interrupt s).
Proof.
  intros Hs Ht Hf. unfold isr_handler, printf.
  change (printf_loop fuel fuel lit_received 0 []) with
    (printf_loop fuel fuel lit_received 0 (raw <$> [])).
  rewrite (bind_done _ _ _ _ _ (printf_loop_spec fuel fuel received_interrupt lit_received 0 [] s
    received_interrupt Hs Ht ltac:(constructor) Hf Hf ltac:(done) ltac:(lia) ltac:(by vm_compute))).
  done.
Qed.

(** ** Instances *)
Definition sample_tables : Tables_image :=
  {| gdt_entries := 0x5000; gtdPointer := 0x5100; entries := 0x6000; idtPointer := 0x6800;
     isr i := 0x100000 + 16 * (i mod 64); irq_stub i := 0x100400 + 16 * (i mod 64);
     lit_received := 0x3000 |}.

Lemma InitGDT_flat_witness :
  ∃ m', @InitGDT sample_tables (sample ∅) = Done tt (add_event (ev_load_gdt 0x5100) (set_mem m' (sample ∅))) ∧
    table_at m' 0x5100 23 0x5000 ∧
    segment_of m' 0x5000 = MkSegment 0 0 0 0 ∧
    segment_of m' (0x5000 + 8) = MkSegment 0 0xFFFFF 0x9A 0xC ∧
    segment_of m' (0x5000 + 16) = MkSegment 0 0xFFFFF 0x92 0xC ∧
    frame (λ x, range 0x5000 24 x ∨ range 0x5100 6 x) (mem (sample ∅)) m'.
Proof.
  apply (@InitGDT_flat sample_tables (sample ∅)).
  - split; cbn; lia.
  - split; cbn; lia.
  - left; cbn; lia.
Defined.

Lemma Init_IDT_gates_witness :
  ∃ m', @Init_IDT sample_tables (sample ∅) =
      Done tt (set_trace (remap_trace ++ [ev_load_idt 0x6800]) (set_mem m' (sample ∅))) ∧
    table_at m' 0x6800 2047 0x6000 ∧
    (∀ i, 0 <= i < 32 → gate_of m' (0x6000 + 8 * i) = MkGate (0x100000 + 16 * (i mod 64)) 0x08 0 0x8E) ∧
    (∀ i, 32 <= i < 48 → gate_of m' (0x6000 + 8 * i) = MkGate (0x100400 + 16 * (i mod 64)) 0x08 0 0x8E) ∧
    (∀ i, 48 <= i < 256 → gate_of m' (0x6000 + 8 * i) = MkGate 0 0 0 0) ∧
    frame (λ x, range 0x6000 2048 x ∨ range 0x6800 6 x) (mem (sample ∅)) m'.
Proof.
  apply (@Init_IDT_gates sample_tables (sample ∅)).
  - split; cbn; lia.
  - split; cbn; lia.
  - left; cbn; lia.
  - intros i. pose proof (Z.mod_pos_bound i 64 ltac:(lia)). cbn; lia.
  - intros i. pose proof (Z.mod_pos_bound i 64 ltac:(lia)). cbn; lia.
Defined.

(** A handler that sends one byte. *)
Definition sample_call (h : Z) : K unit := outb 0x80 h.

Lemma irq_handler_dispatches_witness :
  irq_routines (irq (sample ∅)) !! Z.to_nat (40 - 32) = Some 0 ∧
  (0 = 0 → irq_handler sample_call 40 (sample ∅) = Done tt (acknowledged 40 (sample ∅))).
Proof.
  split; [done|].
  destruct (irq_handler_dispatches sample_call 40 0 (sample ∅)) as (H & _); [lia|done|exact H].
Defined.

Lemma InstallHandler_roundtrip_witness :
  (∃ s1 s2, InstallHandler 1 7 (sample ∅) = Done tt s1 ∧ UninstallHandler 1 s1 = Done tt s2 ∧
     (∀ s', sample_call 7 s1 = Done tt s' → irq_handler sample_call 33 s1 = Done tt (acknowledged 33 s')) ∧
     irq_handler sample_call 33 s2 = Done tt (acknowledged 33 s2) ∧
     (∀ j, j ≠ 1%nat → irq_routines (irq s1) !! j = irq_routines (irq (sample ∅)) !! j) ∧
     mem s2 = mem (sample ∅)) ∧
  InstallHandler 16 7 (sample ∅) = Undefined.
Proof.
  split.
  - apply (InstallHandler_roundtrip sample_call 1 7 (sample ∅)); [done|done|lia].
  - apply (InstallHandler_roundtrip sample_call 16 7 (sample ∅)); [done|done|lia].
Defined.

Lemma isr_handler_stops_witness :
  let s := set_tty (MkTty 0 0 7 VGA_MEMORY) (sample (store_bytes ∅ 0x3000 received_interrupt)) in
  @isr_handler sample_tables 18 s = Hang (put_list received_interrupt s).
Proof.
  apply (@isr_handler_stops sample_tables 18); [done| |lia].
  split_and!; [by vm_compute| |done]. unfold off_screen, VGA_MEMORY; cbn; lia.
Defined.
