(* ===== verification/Frames.v ===== *)
(** * kernel/paging.cpp: page-table entries and the frame bitmap

    [struct Page] with its bit-field layout, and the physical frame allocator
    ([set_frame] ... [free_frame]).  Abstractly the bitmap is the predicate
    [frame_used]; [first_frame] finds the least unused frame. *)
From S2P Require Import Prelude Memory LibString OrderedList Machine Console Stdio.
Local Open Scope Z_scope.
Local Open Scope u32_scope.

(** ** [struct Page]: seven bit-fields of one word, the first in bit 0 *)
Record Page := MkPage {
  Present : bool;
  ReadWrite : bool;
  User : bool;
  Accessed : bool;
  Dirty : bool;
  Unused : Z;
  Frame : Z;
}.
#[export] Instance Page_eq_dec : EqDecision Page.
Proof. solve_decision. Defined.

Definition page_of_word (w : Z) : Page :=
  MkPage (Z.testbit w 0) (Z.testbit w 1) (Z.testbit w 2) (Z.testbit w 3) (Z.testbit w 4)
    ((w / 32) mod 128) ((w / 4096) mod 1048576).
Definition word_of_page (p : Page) : Z :=
  Z.b2z (Present p) + 2 * Z.b2z (ReadWrite p) + 4 * Z.b2z (User p) + 8 * Z.b2z (Accessed p)
  + 16 * Z.b2z (Dirty p) + 32 * Unused p + 4096 * Frame p.

Definition read_page (m : memory) (page : Z) : Page := page_of_word (ld32 m page).
Definition write_page (m : memory) (page : Z) (p : Page) : memory := st32 m page (word_of_page p).
Definition load_page (page : Z) : K Page := gets (λ s, read_page (mem s) page).
Definition store_page (page : Z) (p : Page) : K unit :=
  modify (λ s, set_mem (write_page (mem s) page p) s).

(** ** The bitmap *)
Definition INDEX_FROM_BIT (a : Z) : Z := a / 32.
Definition OFFSET_FROM_BIT (a : Z) : Z := a mod 32.

(** The address of [frames[idx]]. *)
Definition frame_word (s : machine) (idx : Z) : Z := frames (pg s) ⊕ 4 * idx.

Definition set_frame (frame_addr : Z) (s : machine) : machine :=
  let frame := frame_addr / 0x1000 in
  let idx := INDEX_FROM_BIT frame in
  let off := OFFSET_FROM_BIT frame in
  let w := frame_word s idx in
  set_mem (st32 (mem s) w (Z.lor (ld32 (mem s) w) (w32 (Z.shiftl 1 off)))) s.

Definition clear_frame (frame_addr : Z) (s : machine) : machine :=
  let frame := frame_addr / 0x1000 in
  let idx := INDEX_FROM_BIT frame in
  let off := OFFSET_FROM_BIT frame in
  let w := frame_word s idx in
  set_mem (st32 (mem s) w (Z.land (ld32 (mem s) w) (w32 (Z.lnot (Z.shiftl 1 off))))) s.

Definition test_frame (frame_addr : Z) (s : machine) : Z :=
  let frame := frame_addr / 0x1000 in
  let idx := INDEX_FROM_BIT frame in
  let off := OFFSET_FROM_BIT frame in
  Z.land (ld32 (mem s) (frame_word s idx)) (w32 (Z.shiftl 1 off)).

(** The two loops of [first_frame].  [None] is the end of the function without
    a [return]. *)
Fixpoint first_clear_bit (w : Z) (n : nat) (j : Z) : option Z :=
  match n with
  | O => None
  | S n' =>
      let toTest := w32 (Z.shiftl 1 j) in
      if Z.land w toTest =? 0 then Some j else first_clear_bit w n' (j + 1)
  end.
Fixpoint first_frame_from (s : machine) (n : nat) (i : Z) : option Z :=
  match n with
  | O => None
  | S n' =>
      let w := ld32 (mem s) (frame_word s i) in
      if negb (w =? 0xFFFFFFFF) then
        match first_clear_bit w 32 0 with
        | Some j => Some (i ⊗ 4 ⊗ 8 ⊕ j)
        | None => first_frame_from s n' (i + 1)
        end
      else first_frame_from s n' (i + 1)
  end.
Definition first_frame (s : machine) : option Z :=
  first_frame_from s (Z.to_nat (INDEX_FROM_BIT (nframes (pg s)))) 0.

Section frames.
Context `{Image}.

Definition alloc_frame (page : Z) (isKernel isWritable : bool) : K unit :=
  p ← load_page page;
  if negb (Frame p =? 0) then mret tt
  else
    idx ← gets first_frame;
    match idx with
    | None => undefined
    | Some idx =>
        if idx =? w32 (-1) then
          printf 32 lit_no_free_frames [] ;; hang
        else
          modify (set_frame (idx ⊗ 0x1000)) ;;
          p ← load_page page;
          store_page page (MkPage true isWritable (negb isKernel) (Accessed p) (Dirty p)
                             (Unused p) (idx mod 1048576))
    end.

Definition free_frame (page : Z) : K unit :=
  p ← load_page page;
  let frame := Frame p in
  if frame =? 0 then mret tt
  else
    modify (clear_frame frame) ;;
    p ← load_page page;
    store_page page (MkPage (Present p) (ReadWrite p) (User p) (Accessed p) (Dirty p) (Unused p) 0).
End frames.

(** ** Specification *)
Definition page_wf (p : Page) : Prop := 0 <= Unused p < 128 ∧ 0 <= Frame p < 1048576.

(** Frame [f] is marked in the bitmap. *)
Definition frame_used (s : machine) (f : Z) : bool :=
  Z.testbit (ld32 (mem s) (frame_word s (f / 32))) (f mod 32).

(** The number of frames the bitmap describes: whole words only. *)
Definition frame_limit (s : machine) : Z := 32 * (nframes (pg s) / 32).

(** The bitmap lies below 2^32 and describes at most the 2^20 frames of the
    address space. *)
Definition bitmap_ok (s : machine) : Prop :=
  0 <= frames (pg s) ∧ frames (pg s) + 4 * (nframes (pg s) / 32) <= 4294967296 ∧
  0 <= nframes (pg s) <= 1048576.
Definition bitmap_range (s : machine) : Z → Prop :=
  range (frames (pg s)) (4 * (nframes (pg s) / 32)).

(** ** Lemmas: the entry *)
Lemma word_of_page_range p : page_wf p → 0 <= word_of_page p < 4294967296.
Proof.
  intros [? ?]. unfold word_of_page.
  destruct (Present p), (ReadWrite p), (User p), (Accessed p), (Dirty p); simpl; lia.
Qed.

Lemma page_of_word_wf w : page_wf (page_of_word w).
Proof. split; simpl; apply Z.mod_pos_bound; lia. Qed.

Lemma testbit_div w n : 0 <= n → Z.testbit w n = Z.odd (w / 2 ^ n).
Proof. intros. by rewrite Z.testbit_odd, Z.shiftr_div_pow2. Qed.

Lemma b2z_odd w : Z.b2z (Z.odd w) = w mod 2.
Proof. rewrite Zmod_odd. by destruct (Z.odd w). Qed.

Lemma word_of_page_of_word w : 0 <= w < 4294967296 → word_of_page (page_of_word w) = w.
Proof.
  intros Hw. unfold word_of_page, page_of_word; cbn [Present ReadWrite User Accessed Dirty Unused Frame].
  rewrite !testbit_div, !b2z_odd by lia. simpl (2 ^ _).
  Z.div_mod_to_equations. lia.
Qed.

Lemma odd_add_even a b : Z.odd (a + 2 * b) = Z.odd a.
Proof. apply Z.odd_add_mul_2. Qed.

Lemma odd_b2z b : Z.odd (Z.b2z b) = b.
Proof. by destruct b. Qed.

(** The flag [b] is the lowest bit of the quotient [b + 2 * e]. *)
Ltac odd_field b e :=
  rewrite <- (odd_b2z b) at 2;
  match goal with |- Z.odd ?x = _ =>
    replace x with (Z.b2z b + 2 * e) by (Z.div_mod_to_equations; lia) end;
  apply odd_add_even.

Lemma page_of_word_of_page p : page_wf p → page_of_word (word_of_page p) = p.
Proof.
  destruct p as [b0 b1 b2 b3 b4 u f]. intros [Hu Hf]; simpl in Hu, Hf.
  unfold page_of_word, word_of_page; cbn [Present ReadWrite User Accessed Dirty Unused Frame].
  assert (∀ b : bool, 0 <= Z.b2z b <= 1) as Hb by (by intros []).
  pose proof (Hb b0). pose proof (Hb b1). pose proof (Hb b2). pose proof (Hb b3). pose proof (Hb b4).
  rewrite !testbit_div by lia. simpl (2 ^ _).
  f_equal.
  - odd_field b0 (Z.b2z b1 + 2 * Z.b2z b2 + 4 * Z.b2z b3 + 8 * Z.b2z b4 + 16 * u + 2048 * f).
  - odd_field b1 (Z.b2z b2 + 2 * Z.b2z b3 + 4 * Z.b2z b4 + 8 * u + 1024 * f).
  - odd_field b2 (Z.b2z b3 + 2 * Z.b2z b4 + 4 * u + 512 * f).
  - odd_field b3 (Z.b2z b4 + 2 * u + 256 * f).
  - odd_field b4 (u + 128 * f).
  - Z.div_mod_to_equations. lia.
  - Z.div_mod_to_equations. lia.
Qed.

Lemma read_write_page m page p : page_wf p → read_page (write_page m page p) page = p.
Proof.
  intros Hp. unfold read_page, write_page. rewrite ld32_st32_eq, w32_small by (by apply word_of_page_range).
  by apply page_of_word_of_page.
Qed.

(** ** Lemmas: the bitmap *)
Lemma bit_mask_range off : 0 <= off < 32 → 0 < Z.shiftl 1 off < 4294967296.
Proof.
  intros. rewrite Z.shiftl_1_l. split; [apply Z.pow_pos_nonneg; lia|].
  apply (Z.pow_lt_mono_r 2 off 32); lia.
Qed.

Lemma w32_bits w i : 0 <= i < 32 → Z.testbit (w32 w) i = Z.testbit w i.
Proof. intros. unfold w32. apply (Z.mod_pow2_bits_low w 32 i). lia. Qed.

Lemma testbit_mask off i : 0 <= off < 32 → 0 <= i < 32 →
  Z.testbit (w32 (Z.shiftl 1 off)) i = (i =? off).
Proof.
  intros. rewrite w32_bits by done. rewrite Z.shiftl_1_l, Z.pow2_bits_eqb by lia. apply Z.eqb_sym.
Qed.

Lemma testbit_inv_mask off i : 0 <= off < 32 → 0 <= i < 32 →
  Z.testbit (w32 (Z.lnot (Z.shiftl 1 off))) i = negb (i =? off).
Proof.
  intros. rewrite w32_bits by done. rewrite Z.lnot_spec by lia. f_equal.
  rewrite <- testbit_mask by done. by rewrite w32_bits.
Qed.

(** A word and a one-bit mask meet exactly when the bit is set. *)
Lemma land_mask_zero w off : 0 <= off < 32 →
  (Z.land w (w32 (Z.shiftl 1 off)) =? 0) = negb (Z.testbit w off).
Proof.
  intros Ho. destruct (Z.testbit w off) eqn:E; simpl.
  - apply Z.eqb_neq. intros H0. apply (f_equal (λ z, Z.testbit z off)) in H0.
    rewrite Z.land_spec, E, testbit_mask, Z.eqb_refl, Z.bits_0 in H0 by done. done.
  - apply Z.eqb_eq. apply Z.bits_inj_iff. intros i. rewrite Z.land_spec, Z.bits_0.
    destruct (decide (0 <= i)); [|by rewrite Z.testbit_neg_r by lia].
    rewrite w32_small by (pose proof (bit_mask_range off Ho); lia).
    rewrite Z.shiftl_1_l, Z.pow2_bits_eqb by lia.
    destruct (Z.eqb_spec off i) as [<-|]; [by rewrite E|apply andb_false_r].
Qed.

Lemma all_ones w : 0 <= w < 4294967296 →
  (∀ i, 0 <= i < 32 → Z.testbit w i = true) → w = 4294967295.
Proof.
  intros Hw H. apply Z.bits_inj_iff. intros i.
  destruct (decide (0 <= i)) as [Hi|]; [|by rewrite !Z.testbit_neg_r by lia].
  destruct (decide (i < 32)).
  - rewrite H by lia. change 4294967295 with (Z.ones 32). by rewrite Z.ones_spec_low by lia.
  - change 4294967295 with (Z.ones 32). rewrite Z.ones_spec_high by lia.
    rewrite <- (Z.mod_small w (2 ^ 32)) by (change (2 ^ 32) with 4294967296; lia).
    apply Z.mod_pow2_bits_high. lia.
Qed.

Lemma frame_word_val s i :
  bitmap_ok s → 0 <= i < nframes (pg s) / 32 → frame_word s i = frames (pg s) + 4 * i.
Proof. intros (? & ? & ?) Hi. unfold frame_word. apply w32_small. lia. Qed.

(** Updating the word of frame [f] by [g] and reading the bit of frame [h]. *)
Lemma frame_used_update s v f h :
  bitmap_ok s → 0 <= f < frame_limit s → 0 <= h < frame_limit s →
  frame_used (set_mem (st32 (mem s) (frame_word s (f / 32)) v) s) h =
    if h / 32 =? f / 32 then Z.testbit v (h mod 32) else frame_used s h.
Proof.
  intros Hb Hf Hh. unfold frame_limit in *. unfold frame_used at 1. cbn [mem set_mem].
  change (frame_word (set_mem _ s)) with (frame_word s).
  assert (0 <= h mod 32 < 32) by (apply Z.mod_pos_bound; lia).
  rewrite !frame_word_val by (done || (Z.div_mod_to_equations; lia)).
  destruct (Z.eqb_spec (h / 32) (f / 32)) as [->|Hne].
  - rewrite ld32_st32_eq. by rewrite w32_bits.
  - destruct Hb as (? & ? & ?). rewrite ld32_st32_near_ne by (Z.div_mod_to_equations; lia).
    unfold frame_used. rewrite frame_word_val; [done|done|Z.div_mod_to_equations; lia].
Qed.

Lemma frame_eqb h f : (h / 32 =? f / 32) && (h mod 32 =? f mod 32) = (h =? f).
Proof.
  destruct (Z.eqb_spec h f) as [->|]; [by rewrite !Z.eqb_refl|].
  apply andb_false_iff. rewrite !Z.eqb_neq. Z.div_mod_to_equations. lia.
Qed.

Lemma set_frame_used s a h :
  bitmap_ok s → 0 <= a / 4096 < frame_limit s → 0 <= h < frame_limit s →
  frame_used (set_frame a s) h = (h =? a / 4096) || frame_used s h.
Proof.
  intros Hb Ha Hh. unfold set_frame, INDEX_FROM_BIT, OFFSET_FROM_BIT.
  rewrite frame_used_update by done. rewrite <- (frame_eqb h (a / 4096)).
  assert (∀ x, 0 <= x mod 32 < 32) by (intros; apply Z.mod_pos_bound; lia).
  rewrite Z.lor_spec, testbit_mask by done.
  destruct (Z.eqb_spec (h / 32) (a / 4096 / 32)) as [E|]; [|done].
  rewrite <- E. by rewrite orb_comm.
Qed.

Lemma clear_frame_used s a h :
  bitmap_ok s → 0 <= a / 4096 < frame_limit s → 0 <= h < frame_limit s →
  frame_used (clear_frame a s) h = negb (h =? a / 4096) && frame_used s h.
Proof.
  intros Hb Ha Hh. unfold clear_frame, INDEX_FROM_BIT, OFFSET_FROM_BIT.
  rewrite frame_used_update by done. rewrite <- (frame_eqb h (a / 4096)).
  assert (∀ x, 0 <= x mod 32 < 32) by (intros; apply Z.mod_pos_bound; lia).
  rewrite Z.land_spec, testbit_inv_mask by done.
  destruct (Z.eqb_spec (h / 32) (a / 4096 / 32)) as [E|]; [|done].
  rewrite <- E. by rewrite andb_comm.
Qed.

Lemma test_frame_used s a :
  (test_frame a s =? 0) = negb (frame_used s (a / 4096)).
Proof. apply land_mask_zero, Z.mod_pos_bound. lia. Qed.

Lemma set_frame_frame s a :
  bitmap_ok s → 0 <= a / 4096 < frame_limit s →
  frame (bitmap_range s) (mem s) (mem (set_frame a s)) ∧
  tty (set_frame a s) = tty s ∧ kmem (set_frame a s) = kmem s ∧ pg (set_frame a s) = pg s.
Proof.
  intros Hb Ha. unfold frame_limit in Ha. split_and!; [|done..].
  unfold set_frame, INDEX_FROM_BIT; cbn [mem set_mem].
  rewrite frame_word_val by (done || (Z.div_mod_to_equations; lia)). destruct Hb as (? & ? & ?).
  apply frame_st32; [apply frame_refl|Z.div_mod_to_equations; lia..|].
  unfold bitmap_range, range. intros x Hx. Z.div_mod_to_equations. lia.
Qed.

(** ** The search *)
Lemma first_clear_bit_spec w n j0 :
  0 <= j0 → j0 + Z.of_nat n <= 32 →
  match first_clear_bit w n j0 with
  | Some j => j0 <= j < j0 + Z.of_nat n ∧ Z.testbit w j = false ∧
              ∀ k, j0 <= k < j → Z.testbit w k = true
  | None => ∀ k, j0 <= k < j0 + Z.of_nat n → Z.testbit w k = true
  end.
Proof.
  revert j0. induction n as [|n IH]; intros j0 H0 Hn; simpl; [lia|].
  rewrite land_mask_zero by lia. destruct (Z.testbit w j0) eqn:E; simpl.
  - specialize (IH (j0 + 1) ltac:(lia) ltac:(lia)).
    destruct (first_clear_bit w n (j0 + 1)) as [j|].
    + destruct IH as (? & ? & IH). split_and!; [lia..|done|].
      intros k Hk. destruct (decide (k = j0)) as [->|]; [done|]. apply IH. lia.
    + intros k Hk. destruct (decide (k = j0)) as [->|]; [done|]. apply IH. lia.
  - split_and!; [lia..|done|lia].
Qed.

(** The frames of word [i] are the bits of that word. *)
Lemma frame_used_word s i j :
  0 <= j < 32 → frame_used s (32 * i + j) = Z.testbit (ld32 (mem s) (frame_word s i)) j.
Proof.
  intros Hj. unfold frame_used. replace ((32 * i + j) / 32) with i by (Z.div_mod_to_equations; lia).
  by replace ((32 * i + j) mod 32) with j by (Z.div_mod_to_equations; lia).
Qed.

Lemma frame_used_word_full s i f :
  ld32 (mem s) (frame_word s i) = 4294967295 → 32 * i <= f < 32 * (i + 1) → frame_used s f = true.
Proof.
  intros E Hf. replace f with (32 * i + (f - 32 * i)) by lia. rewrite frame_used_word by lia.
  rewrite E. change 4294967295 with (Z.ones 32). by rewrite Z.ones_spec_low by lia.
Qed.

Definition least_unused (s : machine) (lo hi : Z) (r : option Z) : Prop :=
  match r with
  | Some f => lo <= f < hi ∧ frame_used s f = false ∧ ∀ g, lo <= g < f → frame_used s g = true
  | None => ∀ g, lo <= g < hi → frame_used s g = true
  end.

Lemma least_unused_skip s lo mid hi r :
  lo <= mid → (∀ g, lo <= g < mid → frame_used s g = true) →
  least_unused s mid hi r → least_unused s lo hi r.
Proof.
  intros Hm Hlow. destruct r as [f|]; simpl.
  - intros (? & ? & Hg). split_and!; [lia..|done|]. intros g Hg'.
    destruct (decide (g < mid)); [apply Hlow|apply Hg]; lia.
  - intros Hg g Hg'. destruct (decide (g < mid)); [apply Hlow|apply Hg]; lia.
Qed.

Lemma first_frame_from_spec s n i :
  0 <= i → i + Z.of_nat n <= 32768 →
  least_unused s (32 * i) (32 * (i + Z.of_nat n)) (first_frame_from s n i).
Proof.
  revert i. induction n as [|n IH]; intros i Hi Hn; [simpl; lia|].
  cbn [first_frame_from]. specialize (IH (i + 1) ltac:(lia) ltac:(lia)).
  replace (i + 1 + Z.of_nat n) with (i + Z.of_nat (S n)) in IH by lia.
  pose proof (ld32_range (mem s) (frame_word s i)) as Hw.
  set (w := ld32 (mem s) (frame_word s i)) in *.
  destruct (Z.eqb_spec w 0xFFFFFFFF) as [E|Hne]; cbn [negb].
  { eapply least_unused_skip; [|intros g; apply (frame_used_word_full s i g E)|done]. lia. }
  pose proof (first_clear_bit_spec w 32 0 ltac:(lia) ltac:(lia)) as Hbit.
  destruct (first_clear_bit w 32 0) as [j|].
  - destruct Hbit as (Hj & Hoff & Hon). w32_simpl. replace (i * 4 * 8 + j) with (32 * i + j) by lia.
    split_and!; [lia..|by rewrite frame_used_word by lia|].
    intros g Hg. replace g with (32 * i + (g - 32 * i)) by lia. rewrite frame_used_word by lia.
    apply Hon. lia.
  - exfalso. apply Hne, all_ones; [done|]. intros k Hk. apply Hbit. lia.
Qed.

(** [first_frame] finds the least unused frame, if there is one. *)
Lemma first_frame_spec s :
  bitmap_ok s → least_unused s 0 (frame_limit s) (first_frame s).
Proof.
  intros (? & ? & ?). unfold first_frame, INDEX_FROM_BIT, frame_limit.
  pose proof (first_frame_from_spec s (Z.to_nat (nframes (pg s) / 32)) 0) as Hf.
  rewrite Z2Nat.id in Hf by (Z.div_mod_to_equations; lia). rewrite Z.add_0_l in Hf.
  apply Hf; [done|]. Z.div_mod_to_equations. lia.
Qed.

Lemma frame_limit_bounds s : bitmap_ok s → 0 <= frame_limit s <= 1048576.
Proof. intros (? & ? & ?). unfold frame_limit. Z.div_mod_to_equations. lia. Qed.

(** The bits only depend on the bitmap. *)
Lemma frame_used_frame P s s' f :
  frame P (mem s) (mem s') → pg s' = pg s → bitmap_ok s → 0 <= f < frame_limit s →
  (∀ x, bitmap_range s x → ¬ P x) → frame_used s' f = frame_used s f.
Proof.
  intros Hf Hpg Hb Hfl HP. unfold frame_used. f_equal.
  assert (0 <= f / 32 < nframes (pg s) / 32) as Hi
    by (unfold frame_limit in Hfl; Z.div_mod_to_equations; lia).
  assert (frame_word s' (f / 32) = frame_word s (f / 32)) as -> by (unfold frame_word; by rewrite Hpg).
  rewrite frame_word_val by done. destruct Hb as (? & ? & ?).
  eapply frame_ld32; [done|Z.div_mod_to_equations; lia..|].
  intros x Hx. apply HP. unfold bitmap_range, range. lia.
Qed.

(** ** alloc_frame and free_frame *)
(** The word of a page-table entry, aside from the bitmap. *)
Definition page_apart (s : machine) (page : Z) : Prop :=
  0 <= page ∧ page + 4 <= 4294967296 ∧ ∀ x, page <= x < page + 4 → ¬ bitmap_range s x.

Section alloc.
Context `{Image}.

Lemma alloc_frame_present s page isKernel isWritable :
  Frame (read_page (mem s) page) ≠ 0 → alloc_frame page isKernel isWritable s = Done tt s.
Proof.
  intros Hp. unfold alloc_frame, load_page. rewrite bind_gets.
  by destruct (Z.eqb_spec (Frame (read_page (mem s) page)) 0).
Qed.

(** The entry an allocation of frame [f] leaves. *)
Definition allocated (p : Page) (f : Z) (isKernel isWritable : bool) : Page :=
  MkPage true isWritable (negb isKernel) (Accessed p) (Dirty p) (Unused p) f.

Lemma alloc_frame_fresh s page isKernel isWritable f :
  bitmap_ok s → page_apart s page → Frame (read_page (mem s) page) = 0 →
  first_frame s = Some f →
  alloc_frame page isKernel isWritable s =
    Done tt (set_mem (write_page (mem (set_frame (f * 4096) s)) page
               (allocated (read_page (mem s) page) f isKernel isWritable)) s).
Proof.
  intros Hb (Hp0 & Hp1 & Hpa) Hp Hff. unfold alloc_frame, load_page, store_page.
  rewrite bind_gets, Hp. cbn [Z.eqb negb]. rewrite bind_gets, Hff.
  pose proof (first_frame_spec s Hb) as Hsp. rewrite Hff in Hsp. destruct Hsp as (Hf & _).
  pose proof (frame_limit_bounds s Hb).
  destruct (Z.eqb_spec f (w32 (-1))) as [->|_]; [change (w32 (-1)) with 4294967295 in *; lia|].
  rewrite bind_modify, bind_gets. w32_simpl. unfold modify.
  assert (0 <= f * 4096 / 4096 < frame_limit s) as Hf' by (rewrite Z.div_mul; lia).
  destruct (set_frame_frame s (f * 4096) Hb Hf') as (Hfr & _).
  assert (read_page (mem (set_frame (f * 4096) s)) page = read_page (mem s) page) as ->.
  { unfold read_page. f_equal. by eapply frame_ld32. }
  rewrite Z.mod_small by lia. done.
Qed.

(** Every frame in use: the code runs off the end of [first_frame]. *)
Lemma alloc_frame_exhausted s page isKernel isWritable :
  Frame (read_page (mem s) page) = 0 → first_frame s = None →
  alloc_frame page isKernel isWritable s = Undefined.
Proof.
  intros Hp Hff. unfold alloc_frame, load_page. rewrite bind_gets, Hp. cbn [Z.eqb negb].
  by rewrite bind_gets, Hff.
Qed.

Definition entry_or_bitmap (s : machine) (page : Z) : Z → Prop :=
  λ x, bitmap_range s x ∨ range page 4 x.

(** Everything an allocation that finds frame [f] does. *)
Record alloc_effect (s s' : machine) (page f : Z) (isKernel isWritable : bool) : Prop := {
  ae_pg : pg s' = pg s;
  ae_kmem : kmem s' = kmem s;
  ae_tty : tty s' = tty s;
  ae_page : read_page (mem s') page = allocated (read_page (mem s) page) f isKernel isWritable;
  ae_used : ∀ g, 0 <= g < frame_limit s → frame_used s' g = (g =? f) || frame_used s g;
  ae_frame : frame (entry_or_bitmap s page) (mem s) (mem s');
}.

Lemma read_page_wf m page : page_wf (read_page m page).
Proof. apply page_of_word_wf. Qed.

Lemma alloc_frame_effect s page isKernel isWritable f :
  bitmap_ok s → page_apart s page → Frame (read_page (mem s) page) = 0 →
  first_frame s = Some f →
  ∃ s', alloc_frame page isKernel isWritable s = Done tt s' ∧
    alloc_effect s s' page f isKernel isWritable.
Proof.
  intros Hb Hpa Hp Hff. eexists. split; [by apply alloc_frame_fresh|].
  pose proof (first_frame_spec s Hb) as Hsp. rewrite Hff in Hsp. destruct Hsp as (Hf & _).
  pose proof (frame_limit_bounds s Hb).
  assert (f * 4096 / 4096 = f) as Hdiv by (apply Z.div_mul; lia).
  destruct (set_frame_frame s (f * 4096) Hb) as (Hfr & _); [by rewrite Hdiv|].
  destruct Hpa as (Hp0 & Hp1 & Hpa).
  split; cbn [mem pg kmem tty set_mem]; try done.
  - apply read_write_page. split; [apply read_page_wf|cbn [Frame allocated]; lia].
  - intros g Hg.
    rewrite (frame_used_frame (range page 4) (set_frame (f * 4096) s)); [|apply frame_st32; [apply frame_refl|done|done|done]|done|done|done|].
    + by rewrite set_frame_used, Hdiv by (rewrite ?Hdiv; done).
    + intros x Hx Hx'. by apply (Hpa x Hx').
  - apply frame_st32; [|done|done|unfold entry_or_bitmap, range; lia].
    eapply frame_weaken; [done|]. intros x _ Hx. by left.
Qed.
End alloc.

(** ** Ownership: no frame backs two entries *)

(** [owned s ps]: the entries [ps] do not overlap, and their non-zero frames
    are marked in the bitmap and pairwise different. *)
Record owned (s : machine) (ps : list Z) : Prop := {
  ow_apart : ∀ p, p ∈ ps → page_apart s p;
  ow_disjoint : ∀ p q, p ∈ ps → q ∈ ps → p ≠ q → p + 4 <= q ∨ q + 4 <= p;
  ow_used : ∀ p, p ∈ ps → Frame (read_page (mem s) p) ≠ 0 →
    Frame (read_page (mem s) p) < frame_limit s ∧
    frame_used s (Frame (read_page (mem s) p)) = true;
  ow_inj : ∀ p q, p ∈ ps → q ∈ ps → p ≠ q →
    Frame (read_page (mem s) p) = Frame (read_page (mem s) q) → Frame (read_page (mem s) p) = 0;
}.

Lemma read_page_frame P s s' page :
  frame P (mem s) (mem s') → 0 <= page → page + 4 <= 4294967296 →
  (∀ x, page <= x < page + 4 → ¬ P x) → read_page (mem s') page = read_page (mem s) page.
Proof. intros. unfold read_page. f_equal. by eapply frame_ld32. Qed.

Section ownership.
Context `{Image}.

(** The other entries keep their contents. *)
Lemma alloc_effect_other s s' page f k w ps q :
  alloc_effect s s' page f k w → owned s ps → page ∈ ps → q ∈ ps → q ≠ page →
  read_page (mem s') q = read_page (mem s) q.
Proof.
  intros He Ho Hp Hq Hne. destruct (ow_apart _ _ Ho q Hq) as (? & ? & Hqa).
  eapply read_page_frame; [apply He|done|done|]. unfold entry_or_bitmap, range.
  intros x Hx [Hbx|Hpx]; [by apply (Hqa x)|].
  destruct (ow_disjoint _ _ Ho page q) as [?|?]; [done..|by apply not_eq_sym|lia|lia].
Qed.

Lemma alloc_effect_owned s s' page f k w ps :
  bitmap_ok s → owned s ps → page ∈ ps → first_frame s = Some f →
  alloc_effect s s' page f k w → owned s' ps.
Proof.
  intros Hb Ho Hp Hff He. pose proof (first_frame_spec s Hb) as Hsp. rewrite Hff in Hsp.
  destruct Hsp as (Hf & Hfree & _).
  assert (frame_limit s' = frame_limit s) as Hlim by (unfold frame_limit; by rewrite (ae_pg _ _ _ _ _ _ He)).
  assert (∀ q, q ∈ ps → Frame (read_page (mem s) q) ≠ 0 → Frame (read_page (mem s) q) ≠ f) as Hne.
  { intros q Hq H0 E. apply (ow_used _ _ Ho) in H0 as [_ H0]; [|done]. rewrite E in H0. congruence. }
  assert (Frame (read_page (mem s') page) = f) as Hpf by (by rewrite (ae_page _ _ _ _ _ _ He)).
  split.
  - intros p Hp'. destruct (ow_apart _ _ Ho p Hp') as (? & ? & Hx). split_and!; [done..|].
    unfold bitmap_range. by rewrite (ae_pg _ _ _ _ _ _ He).
  - apply Ho.
  - intros q Hq Hq0. rewrite Hlim. destruct (decide (q = page)) as [->|Hqp].
    + rewrite Hpf. split; [lia|]. by rewrite (ae_used _ _ _ _ _ _ He), Z.eqb_refl by lia.
    + rewrite (alloc_effect_other s s' page f k w ps q) in * by done.
      destruct (ow_used _ _ Ho q Hq Hq0) as [? Hu]. split; [done|].
      pose proof (read_page_wf (mem s) q) as [_ ?].
      rewrite (ae_used _ _ _ _ _ _ He), Hu by lia. apply orb_true_r.
  - intros q r Hq Hr Hqr E. destruct (decide (q = page)) as [->|Hqp], (decide (r = page)) as [->|Hrp];
      [done| | |].
    + rewrite (alloc_effect_other s s' page f k w ps r) in E by done. rewrite Hpf in *.
      destruct (decide (f = 0)); [done|]. exfalso. apply (Hne r Hr); congruence.
    + rewrite (alloc_effect_other s s' page f k w ps q) in * by done. rewrite Hpf in E.
      destruct (decide (Frame (read_page (mem s) q) = 0)); [done|]. exfalso. by apply (Hne q Hq).
    + rewrite (alloc_effect_other s s' page f k w ps q) in * by done.
      rewrite (alloc_effect_other s s' page f k w ps r) in E by done.
      by apply (ow_inj _ _ Ho q r).
Qed.
End ownership.

(** ** free_frame: the frame number is passed where an address is expected *)
Definition freed (p : Page) : Page :=
  MkPage (Present p) (ReadWrite p) (User p) (Accessed p) (Dirty p) (Unused p) 0.

Lemma clear_frame_frame s a :
  bitmap_ok s → 0 <= a / 4096 < frame_limit s →
  frame (bitmap_range s) (mem s) (mem (clear_frame a s)) ∧ pg (clear_frame a s) = pg s.
Proof.
  intros Hb Ha. unfold frame_limit in Ha. split_and!; [|done..].
  unfold clear_frame, INDEX_FROM_BIT; cbn [mem set_mem].
  rewrite frame_word_val by (done || (Z.div_mod_to_equations; lia)). destruct Hb as (? & ? & ?).
  apply frame_st32; [apply frame_refl|Z.div_mod_to_equations; lia..|].
  unfold bitmap_range, range. intros x Hx. Z.div_mod_to_equations. lia.
Qed.

Record free_effect (s s' : machine) (page : Z) : Prop := {
  fe_pg : pg s' = pg s;
  fe_page : read_page (mem s') page = freed (read_page (mem s) page);
  fe_used : ∀ g, 0 <= g < frame_limit s →
    frame_used s' g = negb (g =? Frame (read_page (mem s) page) / 4096) && frame_used s g;
  fe_frame : frame (λ x, bitmap_range s x ∨ range page 4 x) (mem s) (mem s');
}.

Lemma free_frame_effect s page :
  bitmap_ok s → page_apart s page → Frame (read_page (mem s) page) ≠ 0 →
  Frame (read_page (mem s) page) / 4096 < frame_limit s →
  ∃ s', free_frame page s = Done tt s' ∧ free_effect s s' page.
Proof.
  intros Hb (Hp0 & Hp1 & Hpa) Hf0 Hfl. pose proof (read_page_wf (mem s) page) as [Hu Hfr].
  set (f := Frame (read_page (mem s) page)) in *.
  assert (0 <= f / 4096 < frame_limit s) as Hq by (Z.div_mod_to_equations; lia).
  destruct (clear_frame_frame s f Hb Hq) as [Hfm Hpg].
  assert (read_page (mem (clear_frame f s)) page = read_page (mem s) page) as Hrp
    by (by eapply read_page_frame).
  eexists. split.
  { unfold free_frame, load_page, store_page. rewrite bind_gets. fold f.
    destruct (Z.eqb_spec f 0) as [|_]; [lia|]. rewrite bind_modify, bind_gets, Hrp. reflexivity. }
  split; cbn [mem pg set_mem]; [done| | |].
  - apply read_write_page. split; [apply Hu|simpl; lia].
  - intros g Hg. rewrite (frame_used_frame (range page 4) (clear_frame f s));
      [|apply frame_st32; [apply frame_refl|done|done|done]|done|done|done|].
    + by apply clear_frame_used.
    + intros x Hx Hx'. by apply (Hpa x Hx').
  - apply frame_st32; [|done|done|unfold range; lia].
    eapply frame_weaken; [done|]. intros x _ Hx. by left.
Qed.

Lemma free_frame_none s page :
  Frame (read_page (mem s) page) = 0 → free_frame page s = Done tt s.
Proof. intros E. unfold free_frame, load_page. by rewrite bind_gets, E. Qed.

(** ** Runs of the allocator *)
Section runs.
Context `{Image}.

(** One call of [alloc_frame] or [free_frame] on an entry of [ps]. *)
Inductive frame_step (ps : list Z) : machine → machine → Prop :=
  | step_alloc p isKernel isWritable s s' :
      p ∈ ps → alloc_frame p isKernel isWritable s = Done tt s' → frame_step ps s s'
  | step_free p s s' :
      p ∈ ps → free_frame p s = Done tt s' → frame_step ps s s'.

(** The allocator's state on a machine with at most 16 MB of frames. *)
Definition allocator_ok (ps : list Z) (s : machine) : Prop :=
  bitmap_ok s ∧ frame_limit s <= 4096 ∧ owned s ps.

Lemma free_effect_owned s s' page ps :
  allocator_ok ps s → page ∈ ps → Frame (read_page (mem s) page) ≠ 0 →
  free_effect s s' page → owned s' ps.
Proof.
  intros (Hb & Hl & Ho) Hp Hf0 He.
  assert (frame_limit s' = frame_limit s) as Hlim by (unfold frame_limit; by rewrite (fe_pg _ _ _ He)).
  pose proof (read_page_wf (mem s) page) as [_ Hfw].
  destruct (ow_used _ _ Ho page Hp Hf0) as [Hfl _].
  assert (Frame (read_page (mem s) page) / 4096 = 0) as Hz by (Z.div_mod_to_equations; lia).
  assert (∀ q, q ∈ ps → q ≠ page → read_page (mem s') q = read_page (mem s) q) as Hother.
  { intros q Hq Hne. destruct (ow_apart _ _ Ho q Hq) as (? & ? & Hqa).
    eapply read_page_frame; [apply He|done|done|]. unfold range.
    intros x Hx [Hbx|Hpx]; [by apply (Hqa x)|].
    destruct (ow_disjoint _ _ Ho page q) as [?|?]; [done..|by apply not_eq_sym|lia|lia]. }
  assert (Frame (read_page (mem s') page) = 0) as Hp0 by (by rewrite (fe_page _ _ _ He)).
  split.
  - intros p Hp'. destruct (ow_apart _ _ Ho p Hp') as (? & ? & Hx). split_and!; [done..|].
    unfold bitmap_range. by rewrite (fe_pg _ _ _ He).
  - apply Ho.
  - intros q Hq Hq0. destruct (decide (q = page)) as [->|Hqp]; [done|].
    rewrite Hother, Hlim in * by done. destruct (ow_used _ _ Ho q Hq Hq0) as [? Huq].
    pose proof (read_page_wf (mem s) q) as [_ ?]. split; [done|].
    rewrite (fe_used _ _ _ He), Huq, Hz by lia.
    by destruct (Z.eqb_spec (Frame (read_page (mem s) q)) 0).
  - intros q r Hq Hr Hqr E. destruct (decide (q = page)) as [->|Hqp]; [done|].
    rewrite (Hother q) in * by done. destruct (decide (r = page)) as [->|Hrp]; [congruence|].
    rewrite (Hother r) in E by done. by apply (ow_inj _ _ Ho q r).
Qed.

Lemma frame_step_inv ps s s' :
  allocator_ok ps s → frame_step ps s s' →
  allocator_ok ps s' ∧ pg s' = pg s ∧
  ∀ g, 0 < g < frame_limit s → frame_used s g = true → frame_used s' g = true.
Proof.
  intros (Hb & Hl & Ho) Hstep.
  destruct Hstep as [p k w s s' Hp Hrun|p s s' Hp Hrun]; pose proof (ow_apart _ _ Ho p Hp) as Hpa.
  - destruct (decide (Frame (read_page (mem s) p) = 0)) as [Hf|Hf].
    + destruct (first_frame s) as [f|] eqn:Hff; [|by rewrite alloc_frame_exhausted in Hrun].
      destruct (alloc_frame_effect s p k w f Hb Hpa Hf Hff) as (s1 & Hrun' & He).
      rewrite Hrun in Hrun'. simplify_eq. pose proof (ae_pg _ _ _ _ _ _ He) as Hpg.
      unfold allocator_ok, bitmap_ok, frame_limit in *. rewrite Hpg. split_and!; try tauto.
      * eapply alloc_effect_owned; eauto.
      * intros g Hg Hu. rewrite (ae_used _ _ _ _ _ _ He), Hu by (unfold frame_limit; lia).
        apply orb_true_r.
    + rewrite alloc_frame_present in Hrun by done. by simplify_eq.
  - destruct (decide (Frame (read_page (mem s) p) = 0)) as [Hf|Hf].
    + rewrite free_frame_none in Hrun by done. by simplify_eq.
    + destruct (ow_used _ _ Ho p Hp Hf) as [Hfl _].
      pose proof (read_page_wf (mem s) p) as [_ Hfw0].
      destruct (free_frame_effect s p Hb Hpa Hf) as (s1 & Hrun' & He); [Z.div_mod_to_equations; lia|].
      rewrite Hrun in Hrun'. simplify_eq. pose proof (fe_pg _ _ _ He) as Hpg.
      pose proof (free_effect_owned s s1 p ps) as Ho'.
      pose proof (read_page_wf (mem s) p) as [_ Hfw].
      unfold allocator_ok, bitmap_ok, frame_limit in *. rewrite Hpg. split_and!; try tauto.
      intros g Hg Hu. rewrite (fe_used _ _ _ He), Hu by (unfold frame_limit; lia).
      replace (Frame (read_page (mem s) p) / 4096) with 0 by (Z.div_mod_to_equations; lia).
      by destruct (Z.eqb_spec g 0); [lia|].
Qed.

Lemma frame_steps_inv ps s s' :
  allocator_ok ps s → rtc (frame_step ps) s s' →
  allocator_ok ps s' ∧ pg s' = pg s ∧
  ∀ g, 0 < g < frame_limit s → frame_used s g = true → frame_used s' g = true.
Proof.
  intros Hok Hrtc. induction Hrtc as [s|s s1 s2 Hstep _ IH]; [done|].
  destruct (frame_step_inv _ _ _ Hok Hstep) as (Hok1 & Hpg1 & Hu1).
  destruct (IH Hok1) as (Hok2 & Hpg2 & Hu2). split_and!; [done|congruence|].
  intros g Hg Hu. apply Hu2; [|by apply Hu1]. unfold frame_limit in *. by rewrite Hpg1.
Qed.
End runs.

(** ** Properties *)

(** A page-table entry survives the round trip through its word, in both
    directions: the bit-field layout loses nothing. *)
Theorem page_entry_roundtrip w p :
  0 <= w < 4294967296 → page_wf p →
  word_of_page (page_of_word w) = w ∧ page_of_word (word_of_page p) = p.
Proof. intros. split; [by apply word_of_page_of_word|by apply page_of_word_of_page]. Qed.
Lemma page_entry_roundtrip_witness :
  word_of_page (page_of_word 0x12345067) = 0x12345067 ∧
  page_of_word (word_of_page (MkPage true false true false true 3 0xABCDE))
  = MkPage true false true false true 3 0xABCDE.
Proof. apply page_entry_roundtrip; [lia|split; simpl; lia]. Defined.

(** Entries that map nothing yet own nothing. *)
Lemma owned_fresh s ps :
  (∀ p, p ∈ ps → page_apart s p ∧ Frame (read_page (mem s) p) = 0) →
  (∀ p q, p ∈ ps → q ∈ ps → p ≠ q → p + 4 <= q ∨ q + 4 <= p) → owned s ps.
Proof.
  intros Hp Hd. split; [by intros p ?; apply Hp|done| |].
  - intros p ? Hf. by destruct (Hp p).
  - intros p q ? ? ? _. by apply Hp.
Qed.

Lemma sample_apart m p : 0x1008 <= p → p + 4 <= 4294967296 → page_apart (sample m) p.
Proof.
  intros. split_and!; [lia..|]. intros x Hx. unfold bitmap_range, range.
  change (4 * (nframes (pg (sample m)) / 32)) with 8. simpl. lia.
Qed.

Lemma sample_allocator_ok : allocator_ok [0x5000; 0x5004] (sample ∅).
Proof.
  split_and!; [zdecide|zdecide|].
  apply owned_fresh.
  - intros p Hp. apply elem_of_cons in Hp as [->|Hp]; [|apply list_elem_of_singleton in Hp as ->];
      (split; [apply sample_apart; lia|vm_compute; reflexivity]).
  - intros p q Hp Hq. rewrite elem_of_cons, list_elem_of_singleton in Hp, Hq. lia.
Qed.

(** C26. [first_frame] is a search for the least unused frame of the bitmap: it
    returns that frame, and runs off its end exactly when every frame of the
    bitmap is in use. *)
Theorem first_frame_least s :
  bitmap_ok s →
  match first_frame s with
  | Some f => 0 <= f < frame_limit s ∧ frame_used s f = false ∧
              ∀ g, 0 <= g < f → frame_used s g = true
  | None => ∀ g, 0 <= g < frame_limit s → frame_used s g = true
  end.
Proof. apply first_frame_spec. Qed.
Lemma first_frame_least_witness :
  first_frame (set_frame 0x1000 (set_frame 0 (sample ∅))) = Some 2 ∧
  ∀ g, 0 <= g < 2 → frame_used (set_frame 0x1000 (set_frame 0 (sample ∅))) g = true.
Proof.
  set (s := set_frame 0x1000 (set_frame 0 (sample ∅))).
  assert (first_frame s = Some 2) as E by (vm_compute; reflexivity).
  pose proof (first_frame_least s) as H. rewrite E in H.
  split; [done|]. apply H. zdecide.
Defined.

(** C22. [alloc_frame] in full: an entry that has a frame is left alone;
    otherwise the least unused frame is marked used, no other mark changes,
    the entry becomes present with the requested permissions and that frame,
    and no other byte of memory changes; with no frame left the C++ code has
    no defined behaviour. *)
Theorem alloc_frame_behaviour `{Image} s page isKernel isWritable :
  bitmap_ok s → page_apart s page →
  if Frame (read_page (mem s) page) =? 0 then
    match first_frame s with
    | Some f => ∃ s', alloc_frame page isKernel isWritable s = Done tt s' ∧
                      alloc_effect s s' page f isKernel isWritable
    | None => alloc_frame page isKernel isWritable s = Undefined
    end
  else alloc_frame page isKernel isWritable s = Done tt s.
Proof.
  intros Hb Hp. destruct (Z.eqb_spec (Frame (read_page (mem s) page)) 0) as [E|E].
  - destruct (first_frame s) eqn:Hf; [by apply alloc_frame_effect|by apply alloc_frame_exhausted].
  - by apply alloc_frame_present.
Qed.
Lemma alloc_frame_behaviour_witness :
  ∃ s', @alloc_frame sample_image 0x5000 false true (sample ∅) = Done tt s' ∧
        frame_used s' 0 = true ∧ Present (read_page (mem s') 0x5000) = true.
Proof.
  pose proof (@alloc_frame_behaviour sample_image (sample ∅) 0x5000 false true) as H.
  replace (Frame (read_page (mem (sample ∅)) 0x5000) =? 0) with true in H by (vm_compute; reflexivity).
  replace (first_frame (sample ∅)) with (Some 0) in H by (vm_compute; reflexivity).
  destruct H as (s' & Hrun & He).
  - zdecide.
  - apply sample_apart; lia.
  - exists s'. split; [done|]. split.
    + rewrite (ae_used _ _ _ _ _ _ He); [done|]. zdecide.
    + by rewrite (ae_page _ _ _ _ _ _ He).
Defined.

(** C18. No frame but frame 0 is ever shared.  Whatever calls of [alloc_frame]
    and [free_frame] are made on a set of page-table entries, on a machine with
    at most 4096 frames (the 16 MB of [initialise_paging]) and from a state with
    that property: two entries with the same frame number other than 0 are the
    same entry, and the frame is marked in the bitmap.  Frame 0 is outside of
    this: the code takes an entry with frame number 0 for one without a frame,
    [free_frame] clears the mark of frame 0, and [alloc_frame] then hands it out
    although entries are on it ([free_then_alloc_shares_frame_zero]). *)
Theorem frames_never_shared `{Image} ps s s' :
  allocator_ok ps s → rtc (frame_step ps) s s' →
  allocator_ok ps s' ∧
  ∀ p q, p ∈ ps → q ∈ ps → Frame (read_page (mem s') p) = Frame (read_page (mem s') q) →
    Frame (read_page (mem s') p) ≠ 0 → p = q ∧ frame_used s' (Frame (read_page (mem s') p)) = true.
Proof.
  intros Hok Hrun. destruct (frame_steps_inv ps s s' Hok Hrun) as [Hok' _]. split; [done|].
  destruct Hok' as (_ & _ & Ho). intros p q Hp Hq E Hnz. split; [|by apply (ow_used _ _ Ho)].
  destruct (decide (p = q)) as [|Hne]; [done|]. by destruct Hnz; apply (ow_inj _ _ Ho p q).
Qed.
Lemma frames_never_shared_witness :
  ∃ s', rtc (@frame_step sample_image [0x5000; 0x5004]) (sample ∅) s' ∧
    allocator_ok [0x5000; 0x5004] s' ∧ Frame (read_page (mem s') 0x5004) = 1.
Proof.
  set (s1 := set_mem (write_page (mem (set_frame 0 (sample ∅))) 0x5000
    (MkPage true true true false false 0 0)) (sample ∅)).
  set (s2 := set_mem (write_page (mem (set_frame 0x1000 s1)) 0x5004
    (MkPage true true true false false 0 1)) s1).
  assert (rtc (@frame_step sample_image [0x5000; 0x5004]) (sample ∅) s2) as Hrun.
  { apply rtc_l with s1; [|apply rtc_l with s2; [|done]].
    - apply (step_alloc _ 0x5000 false true); [by repeat constructor|vm_compute; reflexivity].
    - apply (step_alloc _ 0x5004 false true); [by repeat constructor|vm_compute; reflexivity]. }
  exists s2. split; [done|]. split; [|vm_compute; reflexivity].
  destruct (@frames_never_shared sample_image [0x5000; 0x5004] (sample ∅) s2) as [Hok _];
    [apply sample_allocator_ok|done|]. exact Hok.
Defined.

(** C39. Giving a page back and taking one puts two pages on frame 0.  While one
    entry, such as that of the kernel's first page, is on frame 0, another
    page's frame, below 4096, is given back: the mark that is cleared is that of
    frame 0, so that the next allocation for that entry gets frame 0 too, and
    both entries are present on the same physical page. *)
Theorem free_then_alloc_shares_frame_zero `{Image} s p q isKernel isWritable :
  bitmap_ok s → page_apart s p → page_apart s q → p + 4 <= q ∨ q + 4 <= p →
  Present (read_page (mem s) p) = true → Frame (read_page (mem s) p) = 0 →
  0 < Frame (read_page (mem s) q) < Z.min 4096 (frame_limit s) →
  ∃ s', (free_frame q ;; alloc_frame q isKernel isWritable) s = Done tt s' ∧
    (Present (read_page (mem s') p) = true ∧ Frame (read_page (mem s') p) = 0) ∧
    Present (read_page (mem s') q) = true ∧ Frame (read_page (mem s') q) = 0.
Proof.
  intros Hb Hp Hq Hpq Hpp Hpf Hf. pose proof (frame_limit_bounds s Hb).
  assert (Frame (read_page (mem s) q) / 4096 = 0) as Hz by (apply Z.div_small; lia).
  pose proof Hp as (Hp0 & Hp1 & Hpa). pose proof Hq as (Hq0 & Hq1 & Hqa).
  destruct (free_frame_effect s q Hb Hq) as (s1 & Hrun1 & He1); [lia|lia|].
  pose proof (fe_pg _ _ _ He1) as Hpg.
  assert (bitmap_range s1 = bitmap_range s) as Hbr by (unfold bitmap_range; by rewrite Hpg).
  assert (bitmap_ok s1) as Hb1 by (unfold bitmap_ok; by rewrite Hpg).
  assert (page_apart s1 q) as Hq' by (unfold page_apart; by rewrite Hbr).
  assert (first_frame s1 = Some 0) as Hff.
  { pose proof (first_frame_spec s1 Hb1) as Hsp.
    assert (frame_limit s1 = frame_limit s) as Hl by (unfold frame_limit; by rewrite Hpg).
    assert (frame_used s1 0 = false) as Hu by (by rewrite (fe_used _ _ _ He1), Hz by lia).
    destruct (first_frame s1) as [f|]; cbn in Hsp.
    - destruct Hsp as (Hf0 & _ & Hbelow). f_equal. destruct (Z.le_gt_cases f 0) as [|Hgt]; [lia|].
      by rewrite Hbelow in Hu by lia.
    - by rewrite Hsp in Hu by lia. }
  destruct (alloc_frame_effect s1 q isKernel isWritable 0 Hb1 Hq') as (s' & Hrun2 & He2);
    [by rewrite (fe_page _ _ _ He1)|done|].
  exists s'. split; [by rewrite (bind_done _ _ _ _ _ Hrun1)|]. split; [|by rewrite (ae_page _ _ _ _ _ _ He2)].
  assert (read_page (mem s') p = read_page (mem s) p) as ->; [|done].
  transitivity (read_page (mem s1) p).
  - eapply read_page_frame; [apply He2|done|done|]. unfold entry_or_bitmap, range. rewrite Hbr.
    intros x Hx [Hx'|Hx']; [by apply (Hpa x)|lia].
  - eapply read_page_frame; [apply He1|done|done|]. unfold range.
    intros x Hx [Hx'|Hx']; [by apply (Hpa x)|lia].
Qed.
Lemma free_then_alloc_shares_frame_zero_witness :
  let s := set_mem (st32 (st32 (st32 ∅ 0x1000 0xFF) 0x5000 0x7) 0x5004 0x7007) (sample ∅) in
  ∃ s', (@free_frame 0x5004 ;; @alloc_frame sample_image 0x5004 false true) s = Done tt s' ∧
    Frame (read_page (mem s') 0x5000) = 0 ∧ Frame (read_page (mem s') 0x5004) = 0.
Proof.
  intros s. destruct (@free_then_alloc_shares_frame_zero sample_image s 0x5000 0x5004 false true)
    as (s' & Hrun & [_ Hp] & _ & Hq);
    [zdecide|apply sample_apart; lia|apply sample_apart; lia|lia|by vm_compute|by vm_compute|zdecide|].
  exists s'. split; [exact Hrun|]. split; [exact Hp|exact Hq].
Defined.

(** C40. [free_frame] passes a frame number to [clear_frame], which expects an
    address: the entry is emptied, but the frame it had stays marked in use,
    and it is frame [f / 4096] that is marked free. *)
Theorem free_frame_leaks s page :
  bitmap_ok s → page_apart s page →
  let f := Frame (read_page (mem s) page) in
  0 < f < frame_limit s → frame_used s f = true →
  ∃ s', free_frame page s = Done tt s' ∧ Frame (read_page (mem s') page) = 0 ∧
    frame_used s' f = true ∧ frame_used s' (f / 4096) = false.
Proof.
  intros Hb Hp f Hf Hu. assert (0 <= f / 4096 < f) by (Z.div_mod_to_equations; lia).
  destruct (free_frame_effect s page Hb Hp) as (s' & Hrun & He); [unfold f in *; lia..|].
  exists s'. split_and!; [done|by rewrite (fe_page _ _ _ He)|..];
    rewrite (fe_used _ _ _ He) by lia; fold f.
  - rewrite Hu. destruct (Z.eqb_spec f (f / 4096)); [lia|done].
  - by rewrite Z.eqb_refl.
Qed.
Lemma free_frame_leaks_witness :
  ∃ s', free_frame 0x5000 (set_mem (st32 (st32 ∅ 0x1000 0xFF) 0x5000 0x7007) (sample ∅)) = Done tt s' ∧
    frame_used s' 7 = true ∧ frame_used s' 0 = false.
Proof.
  set (s := set_mem (st32 (st32 ∅ 0x1000 0xFF) 0x5000 0x7007) (sample ∅)).
  assert (Frame (read_page (mem s) 0x5000) = 7) as E by (vm_compute; reflexivity).
  pose proof (free_frame_leaks s 0x5000) as H. cbv zeta in H. rewrite E in H.
  destruct H as (s' & Hrun & _ & Hu & Hz).
  - zdecide.
  - apply sample_apart; lia.
  - zdecide.
  - vm_compute. reflexivity.
  - by exists s'.
Defined.
