(* ===== verification/PageFrames.v ===== *)
(** * kernel/PageFrameAllocator.cpp: the second frame allocator

    The file repeats the frame routines of paging.cpp over globals of its own,
    [frames] and [nframes], which no code assigns; it is not part of the build.
    Its routines have the prefix [pfa_] here. *)
From S2P Require Import Prelude Memory LibString OrderedList Machine Console Stdio Frames.
Local Open Scope Z_scope.
Local Open Scope u32_scope.

(** The two globals.  The routines only read them. *)
Record frame_globals := MkFrameGlobals {
  pfa_frames : Z;
  pfa_nframes : Z;
}.

Section allocator.
Context `{Image}.
Variable g : frame_globals.

(** The address of [frames[idx]]. *)
Definition pfa_word (idx : Z) : Z := pfa_frames g ⊕ 4 * idx.

Definition pfa_set_frame (frame_addr : Z) (s : machine) : machine :=
  let frame := frame_addr / 0x1000 in
  let w := pfa_word (INDEX_FROM_BIT frame) in
  set_mem (st32 (mem s) w (Z.lor (ld32 (mem s) w) (w32 (Z.shiftl 1 (OFFSET_FROM_BIT frame))))) s.

Definition pfa_clear_frame (frame_addr : Z) (s : machine) : machine :=
  let frame := frame_addr / 0x1000 in
  let w := pfa_word (INDEX_FROM_BIT frame) in
  set_mem (st32 (mem s) w (Z.land (ld32 (mem s) w) (w32 (Z.lnot (Z.shiftl 1 (OFFSET_FROM_BIT frame)))))) s.

Definition pfa_test_frame (frame_addr : Z) (s : machine) : Z :=
  let frame := frame_addr / 0x1000 in
  Z.land (ld32 (mem s) (pfa_word (INDEX_FROM_BIT frame))) (w32 (Z.shiftl 1 (OFFSET_FROM_BIT frame))).

(** The loop over the bits of a word, and the loop over the words; [None] is
    the end of the function without a [return]. *)
Fixpoint pfa_first_bit (w : Z) (n : nat) (j : Z) : option Z :=
  match n with
  | O => None
  | S n' => if Z.land w (w32 (Z.shiftl 1 j)) =? 0 then Some j else pfa_first_bit w n' (j + 1)
  end.
Fixpoint pfa_first_frame_from (m : memory) (n : nat) (i : Z) : option Z :=
  match n with
  | O => None
  | S n' =>
      match (if negb (ld32 m (pfa_word i) =? 0xFFFFFFFF) then pfa_first_bit (ld32 m (pfa_word i)) 32 0 else None) with
      | Some j => Some (i ⊗ 4 ⊗ 8 ⊕ j)
      | None => pfa_first_frame_from m n' (i + 1)
      end
  end.
Definition pfa_first_frame (s : machine) : option Z :=
  pfa_first_frame_from (mem s) (Z.to_nat (INDEX_FROM_BIT (pfa_nframes g))) 0.

Definition pfa_alloc_frame (page : Z) (isKernel isWritable : bool) : K unit :=
  p ← load_page page;
  if negb (Frame p =? 0) then mret tt
  else
    idx ← gets pfa_first_frame;
    match idx with
    | None => undefined
    | Some idx =>
        if idx =? w32 (-1) then
          printf 32 lit_no_free_frames [] ;; hang
        else
          modify (pfa_set_frame (idx ⊗ 0x1000)) ;;
          p ← load_page page;
          store_page page (MkPage true isWritable (negb isKernel) (Accessed p) (Dirty p)
                             (Unused p) (idx mod 1048576))
    end.

Definition pfa_free_frame (page : Z) : K unit :=
  p ← load_page page;
  let frame := Frame p in
  if frame =? 0 then mret tt
  else
    modify (pfa_clear_frame frame) ;;
    p ← load_page page;
    store_page page (MkPage (Present p) (ReadWrite p) (User p) (Accessed p) (Dirty p) (Unused p) 0).
End allocator.

(** ** The two allocators *)

(** The globals hold the bitmap of paging.cpp. *)
Definition same_bitmap (g : frame_globals) (s : machine) : Prop :=
  pfa_frames g = frames (pg s) ∧ pfa_nframes g = nframes (pg s).

Lemma pfa_first_bit_eq w n j : pfa_first_bit w n j = first_clear_bit w n j.
Proof. revert j. induction n as [|n IH]; intros j; [done|]. cbn. by rewrite IH. Qed.

Section equivalence.
Context `{Image}.
Variables (g : frame_globals) (s : machine).
Hypothesis Hg : same_bitmap g s.

Lemma pfa_word_eq idx : pfa_word g idx = frame_word s idx.
Proof. unfold pfa_word, frame_word. by destruct Hg as [-> _]. Qed.

Lemma pfa_first_frame_eq : pfa_first_frame g s = first_frame s.
Proof.
  unfold pfa_first_frame, first_frame. destruct Hg as [_ ->].
  generalize (Z.to_nat (INDEX_FROM_BIT (nframes (pg s)))) as n, 0 as i.
  induction n as [|n IH]; intros i; [done|]. cbn [pfa_first_frame_from first_frame_from].
  rewrite !pfa_word_eq, pfa_first_bit_eq, IH.
  by destruct (negb _).
Qed.

Lemma pfa_set_frame_eq a : pfa_set_frame g a s = set_frame a s.
Proof. unfold pfa_set_frame, set_frame. by rewrite pfa_word_eq. Qed.
Lemma pfa_clear_frame_eq a : pfa_clear_frame g a s = clear_frame a s.
Proof. unfold pfa_clear_frame, clear_frame. by rewrite pfa_word_eq. Qed.

(** With the bitmap of paging.cpp behind its globals, the copy is paging.cpp's
    allocator: the theorems of [Frames] hold for it as well. *)
Theorem page_frame_allocators_agree page a isKernel isWritable :
  pfa_alloc_frame g page isKernel isWritable s = alloc_frame page isKernel isWritable s ∧
  pfa_free_frame g page s = free_frame page s ∧ pfa_test_frame g a s = test_frame a s.
Proof.
  split; [|split].
  - unfold pfa_alloc_frame, alloc_frame, load_page. rewrite !bind_gets.
    destruct (negb _); [done|]. rewrite !bind_gets, pfa_first_frame_eq.
    destruct (first_frame s) as [idx|]; [|done]. destruct (idx =? _); [done|].
    by rewrite !bind_modify, pfa_set_frame_eq.
  - unfold pfa_free_frame, free_frame, load_page. rewrite !bind_gets. cbv zeta.
    destruct (_ =? 0); [done|]. by rewrite !bind_modify, pfa_clear_frame_eq.
  - unfold pfa_test_frame, test_frame. by rewrite pfa_word_eq.
Qed.
End equivalence.

(** As the file stands, its globals are zero: an allocation for an entry without
    a frame runs off the end of [first_frame]. *)
Theorem page_frame_allocator_unset `{Image} page isKernel isWritable s :
  Frame (read_page (mem s) page) = 0 →
  pfa_alloc_frame (MkFrameGlobals 0 0) page isKernel isWritable s = Undefined.
Proof. intros Hp. unfold pfa_alloc_frame, load_page. by rewrite bind_gets, Hp. Qed.
