(* ===== verification/Kmalloc.v ===== *)
(** * kernel/kmalloc.cpp: the placement allocator, and the allocator interface

    [kmalloc] hands out memory from [placement_address] until [kheap] is set,
    and from the heap afterwards; the heap's [Alloc] and [Free] are arguments,
    since they call [kmalloc] themselves.  The class [Allocator] is what the
    paging code needs of it, [AllocatorLaws] what that code may rely on; the
    placement allocator is shown to keep the laws. *)
From S2P Require Import Prelude Memory LibString OrderedList Machine.
Local Open Scope Z_scope.
Local Open Scope u32_scope.

(** ** The routines *)
Section kmalloc.
(** [Heap::Alloc] and [Heap::Free] of [*kheap]. *)
Variable heap_alloc : Z → bool → K Z.
Variable heap_free : Z → K unit.

(** [phys] is [None] for a null pointer and otherwise the content of the
    variable it points to; the result carries the content afterwards. *)
Definition kmalloc (size : Z) (align : bool) (phys : option Z) : K (Z * option Z) :=
  kh ← gets (λ s, kheap (kmem s));
  if negb (kh =? 0) then
    p ← heap_alloc size align;
    mret (p, phys)
  else
    pa ← gets (λ s, placement_address (kmem s));
    (if align && negb (Z.land pa 0xFFFFF000 =? 0) then
       modify (set_placement_address (Z.land pa 0xFFFFF000 ⊕ 0x1000))
     else mret tt) ;;
    pa ← gets (λ s, placement_address (kmem s));
    let phys' := match phys with Some _ => Some pa | None => None end in
    let tmp := pa in
    modify (set_placement_address (pa ⊕ size)) ;;
    mret (tmp, phys').

Definition kfree (ptr : Z) : K unit :=
  kh ← gets (λ s, kheap (kmem s));
  if negb (kh =? 0) then heap_free ptr else mret tt.

Definition kmalloc_a (size : Z) : K Z := r ← kmalloc size true None; mret r.1.
Definition kmalloc_p (size : Z) (phys : Z) : K (Z * option Z) := kmalloc size false (Some phys).
Definition kmalloc_ap (size : Z) (phys : Z) : K (Z * option Z) := kmalloc size true (Some phys).

(** The other constructor of [OrderedList]: the array comes from [kmalloc]. *)
Definition OrderedList_new (max_size : Z) : K OrderedList :=
  r ← kmalloc (max_size ⊗ 4) false None;
  on_mem (λ m, ((memset m r.1 0 (max_size ⊗ 4)).1, tt)) ;;
  mret (MkOrderedList r.1 0 max_size).
End kmalloc.

Definition SetPlacementAddress (address : Z) (s : machine) : machine :=
  set_placement_address address s.

(** ** The interface *)

(** The operation. *)
Class Allocator := allocate : Z → bool → option Z → K (Z * option Z).

(** What its states mean. *)
Class AllocatorSpec `{Allocator} := {
  (** the states in which the allocator may be called *)
  alloc_inv : machine → Prop;
  (** the bytes already handed out, or never to be handed out *)
  reserved : machine → Z → Prop;
  (** the requests of the list, each of some bytes and aligned to a page or
      not, can be served one after the other *)
  room : machine → list (Z * bool) → Prop;
  (** what [*phys] holds after the address [p] was returned *)
  report : Z → option Z → option Z;
}.

(** What changes in the state outside the memory: the allocator's own part. *)
Definition same_but_kmem (s s' : machine) : Prop :=
  pg s' = pg s ∧ tty s' = tty s ∧ irq s' = irq s ∧ tasks s' = tasks s ∧ initrd s' = initrd s ∧
  trace s' = trace s.

(** What an allocation of [size] bytes at [p] promises; the requests that were
    to follow can still be served. *)
Record allocated_at `{AllocatorSpec} (s s' : machine) (size p : Z) (align : bool) : Prop := {
  al_inv : alloc_inv s';
  al_range : 0 < p ∧ p + size <= 4294967296;
  al_aligned : align = true → p mod 4096 = 0;
  al_fresh : ∀ x, range p size x → ¬ reserved s x;
  al_reserved : ∀ x, range p size x ∨ reserved s x → reserved s' x;
  al_frame : frame (λ x, ¬ reserved s x) (mem s) (mem s');
  al_rest : same_but_kmem s s';
  al_room l : room s ((size, align) :: l) → room s' l;
}.

Class AllocatorLaws `{AS : AllocatorSpec} : Prop := {
  allocate_ok s size align phys l :
    alloc_inv s → 0 <= size → room s ((size, align) :: l) →
    ∃ p s', allocate size align phys s = Done (p, report p phys) s' ∧
      allocated_at s s' size p align;
  (** nothing the allocator knows is lost by writes to memory that was handed
      out, nor by changes outside the allocator's own variables *)
  alloc_inv_stable s s' :
    alloc_inv s → kmem s' = kmem s → frame (reserved s) (mem s) (mem s') → alloc_inv s';
  reserved_stable s s' :
    alloc_inv s → kmem s' = kmem s → frame (reserved s) (mem s) (mem s') →
    ∀ x, reserved s x → reserved s' x;
  room_stable s s' :
    alloc_inv s → kmem s' = kmem s → frame (reserved s) (mem s) (mem s') →
    ∀ l, room s l → room s' l;
}.

(** ** The placement allocator *)
Definition no_heap (size : Z) (align : bool) : K Z := λ _, Undefined.

(** [kmalloc] while [kheap] is null, whatever the heap will be. *)
Definition early_allocator (ha : Z → bool → K Z) : Allocator := kmalloc ha.
Definition placement_allocator : Allocator := early_allocator no_heap.

(** What a list of requests takes at most: a page more than its bytes for each. *)
Definition demand (l : list (Z * bool)) : Z := foldr (λ r k, 4096 + Z.max 0 r.1 + k) 0 l.

Lemma demand_cons n a l : demand ((n, a) :: l) = 4096 + Z.max 0 n + demand l.
Proof. done. Qed.
Lemma demand_nonneg l : 0 <= demand l.
Proof. induction l as [|r l IH]; cbn; [lia|]. unfold demand in IH. lia. Qed.

#[export] Instance early_spec ha : @AllocatorSpec (early_allocator ha) := {|
  alloc_inv s := kheap (kmem s) = 0 ∧ 4096 <= placement_address (kmem s) < 4294967296;
  reserved s x := x < placement_address (kmem s);
  room s l := placement_address (kmem s) + demand l < 4294967296;
  report p phys := match phys with Some _ => Some p | None => None end;
|}.

(** The address the placement allocator returns. *)
Definition placement (pa : Z) (align : bool) : Z :=
  if align then (pa / 4096 + 1) * 4096 else pa.

Lemma land_page pa : 0 <= pa < 4294967296 → Z.land pa 0xFFFFF000 = pa / 4096 * 4096.
Proof.
  intros Hpa. change 0xFFFFF000 with (Z.shiftl (Z.ones 20) 12).
  change 4096 with (2 ^ 12) at 1 2. rewrite <- Z.shiftr_div_pow2, <- Z.shiftl_mul_pow2 by lia.
  apply Z.bits_inj_iff. intros i. rewrite Z.land_spec.
  destruct (decide (i < 0)); [by rewrite !Z.testbit_neg_r by lia|].
  rewrite !Z.shiftl_spec by lia. destruct (decide (i < 12)).
  - rewrite !(Z.testbit_neg_r _ (i - 12)) by lia. by rewrite andb_false_r.
  - rewrite Z.shiftr_spec by lia. replace (i - 12 + 12) with i by lia.
    destruct (decide (i < 32)).
    + rewrite Z.ones_spec_low by lia. by rewrite andb_true_r.
    + rewrite Z.ones_spec_high by lia. rewrite <- (Z.mod_small pa (2 ^ 32)) by exact Hpa.
      by rewrite Z.mod_pow2_bits_high by lia.
Qed.

Lemma placement_kmalloc_eq ha s size align phys :
  kheap (kmem s) = 0 → 4096 <= placement_address (kmem s) →
  placement_address (kmem s) + 4096 + size < 4294967296 → 0 <= size →
  let p := placement (placement_address (kmem s)) align in
  kmalloc ha size align phys s =
    Done (p, match phys with Some _ => Some p | None => None end)
         (set_placement_address (p + size) s).
Proof.
  intros Hk Hpa Hroom Hsz p. unfold kmalloc. rewrite bind_gets, Hk. cbn [Z.eqb negb].
  rewrite bind_gets, land_page by lia. unfold p, placement.
  assert (1 <= placement_address (kmem s) / 4096) by (Z.div_mod_to_equations; lia).
  destruct align; cbn [andb].
  - destruct (Z.eqb_spec (placement_address (kmem s) / 4096 * 4096) 0); [lia|cbn [negb]].
    rewrite bind_modify, bind_gets, bind_modify. cbn.
    assert (placement_address (kmem s) / 4096 * 4096 <= placement_address (kmem s))
      by (Z.div_mod_to_equations; lia).
    w32_simpl. replace (placement_address (kmem s) / 4096 * 4096 + 4096)
      with ((placement_address (kmem s) / 4096 + 1) * 4096) by lia. done.
  - rewrite bind_ret, bind_gets, bind_modify. w32_simpl. done.
Qed.

Lemma placement_bounds pa align :
  0 <= pa → pa <= placement pa align <= pa + 4096 ∧ (align = true → placement pa align mod 4096 = 0).
Proof.
  intros. unfold placement. destruct align; [|split; [lia|done]].
  split; [Z.div_mod_to_equations; lia|]. intros _. apply Z.mod_mul. lia.
Qed.

(** The placement allocator keeps the laws of the interface. *)
#[export] Instance early_allocator_laws ha : @AllocatorLaws (early_allocator ha) (early_spec ha).
Proof.
  split.
  - intros s size align phys l [Hk Hpa] Hsz Hroom. simpl in Hroom.
    pose proof (demand_nonneg l).
    destruct (placement_bounds (placement_address (kmem s)) align) as [Hb Hal]; [lia|].
    eexists _, _. split; [apply placement_kmalloc_eq; (done || lia)|].
    split; simpl; unfold range; (lia || done || apply frame_refl).
  - intros s s' [? ?] Hk _. simpl. by rewrite Hk.
  - intros s s' _ Hk _ x. simpl. by rewrite Hk.
  - intros s s' _ Hk _ l. simpl. by rewrite Hk.
Qed.

Definition placement_spec : @AllocatorSpec placement_allocator := early_spec no_heap.
#[export] Existing Instance placement_spec.
Definition placement_allocator_laws : @AllocatorLaws placement_allocator placement_spec :=
  early_allocator_laws no_heap.
#[export] Existing Instance placement_allocator_laws.

(** ** Properties *)

(** Early allocations are disjoint, aligned when asked, report their
    address as the physical one, and never touch memory: two consecutive
    calls of [kmalloc] before the heap exists return regions one after the
    other, above everything handed out before. *)
Theorem placement_kmalloc_disjoint ha s size1 align1 phys1 size2 align2 phys2 :
  kheap (kmem s) = 0 → 4096 <= placement_address (kmem s) → 0 <= size1 → 0 <= size2 →
  placement_address (kmem s) + size1 + size2 + 8192 < 4294967296 →
  ∃ p1 p2 r1 r2 s1 s2,
    kmalloc ha size1 align1 phys1 s = Done (p1, r1) s1 ∧
    kmalloc ha size2 align2 phys2 s1 = Done (p2, r2) s2 ∧
    placement_address (kmem s) <= p1 ∧ p1 + size1 <= p2 ∧
    (align1 = true → p1 mod 4096 = 0) ∧ (align2 = true → p2 mod 4096 = 0) ∧
    (is_Some phys1 → r1 = Some p1) ∧ (is_Some phys2 → r2 = Some p2) ∧ mem s2 = mem s.
Proof.
  intros Hk Hpa H1 H2 Hroom.
  destruct (placement_bounds (placement_address (kmem s)) align1) as [Hb1 Ha1]; [lia|].
  set (p1 := placement (placement_address (kmem s)) align1) in *.
  set (s1 := set_placement_address (p1 + size1) s).
  destruct (placement_bounds (placement_address (kmem s1)) align2) as [Hb2 Ha2]; [simpl; lia|].
  eexists p1, _, _, _, s1, _.
  split_and!; [apply placement_kmalloc_eq; (done || lia)|apply placement_kmalloc_eq; (done || simpl; lia)|..];
    try done.
  - lia.
  - simpl in Hb2 |- *. lia.
  - by intros [? ->].
  - by intros [? ->].
Qed.
Lemma placement_kmalloc_disjoint_witness :
  ∃ p1 p2 r1 r2 s1 s2,
    kmalloc no_heap 100 false None (sample ∅) = Done (p1, r1) s1 ∧
    kmalloc no_heap 4096 true (Some 0) s1 = Done (p2, r2) s2 ∧
    p1 + 100 <= p2 ∧ p2 mod 4096 = 0 ∧ r2 = Some p2.
Proof.
  destruct (placement_kmalloc_disjoint no_heap (sample ∅) 100 false None 4096 true (Some 0))
    as (p1 & p2 & r1 & r2 & s1 & s2 & H1 & H2 & _ & H3 & _ & H4 & _ & H5 & _); [zdecide..|].
  exists p1, p2, r1, r2, s1, s2. split_and!; [done..|by apply H4|apply H5; by eexists].
Defined.
