(* ===== verification/Initrd.v ===== *)
(** * kernel/FIleSystem: the file-system interface and the initial ramdisk

    [FileSystem.cpp] calls a node's operations through function pointers: the
    class [Fs_calls] is what such a call does, and [initrd_calls] the calls to
    the operations of [initrd.cpp].  Nodes, directory entries and file headers
    are structures in memory.  The fuel bounds the length of the names. *)
From S2P Require Import Prelude Memory LibString OrderedList Machine Console Stdio Kmalloc.
Local Open Scope Z_scope.
Local Open Scope u32_scope.

(** ** [struct fs_node], [struct dirent] *)
Definition FS_FILE : Z := 0x01.
Definition FS_DIRECTORY : Z := 0x02.

Definition sizeof_fs_node : Z := 184.
Definition n_name (n : Z) : Z := n.
Definition n_mask (n : Z) : Z := n ⊕ 128.
Definition n_uid (n : Z) : Z := n ⊕ 132.
Definition n_gid (n : Z) : Z := n ⊕ 136.
Definition n_flags (n : Z) : Z := n ⊕ 140.
Definition n_inode (n : Z) : Z := n ⊕ 144.
Definition n_length (n : Z) : Z := n ⊕ 148.
Definition n_impl (n : Z) : Z := n ⊕ 152.
Definition n_read (n : Z) : Z := n ⊕ 156.
Definition n_write (n : Z) : Z := n ⊕ 160.
Definition n_open (n : Z) : Z := n ⊕ 164.
Definition n_close (n : Z) : Z := n ⊕ 168.
Definition n_readdir (n : Z) : Z := n ⊕ 172.
Definition n_finddir (n : Z) : Z := n ⊕ 176.
Definition n_ptr (n : Z) : Z := n ⊕ 180.

Definition d_name (d : Z) : Z := d.
Definition d_ino (d : Z) : Z := d ⊕ 128.

(** ** FileSystem.cpp *)

(** Calls through the function pointers of a node. *)
Class Fs_calls := {
  call_read : Z → Z → Z → Z → Z → K Z;      (* pointer, node, offset, size, buffer *)
  call_write : Z → Z → Z → Z → Z → K Z;
  call_open : Z → Z → K unit;
  call_close : Z → Z → K unit;
  call_readdir : Z → Z → Z → K Z;           (* pointer, node, index *)
  call_finddir : Z → Z → Z → K Z;           (* pointer, node, name *)
}.

Section vfs.
Context `{Fs_calls}.

Definition read_fs (node offset size buffer : Z) : K Z :=
  p ← load32 (n_read node);
  if negb (p =? 0) then call_read p node offset size buffer else mret 0.

Definition write_fs (node offset size buffer : Z) : K Z :=
  p ← load32 (n_write node);
  if negb (p =? 0) then call_write p node offset size buffer else mret 0.

Definition close_fs (node offset size buffer : Z) : K unit :=
  p ← load32 (n_close node);
  if negb (p =? 0) then call_close p node else mret tt.

Definition open_fs (node offset size buffer : Z) : K unit :=
  p ← load32 (n_open node);
  if negb (p =? 0) then call_open p node else mret tt.

Definition readdir_fs (node index : Z) : K Z :=
  f ← load32 (n_flags node);
  p ← load32 (n_readdir node);
  if negb (Z.land f 0x7 =? FS_DIRECTORY) || (p =? 0) then mret 0
  else if negb (p =? 0) then call_readdir p node index else mret 0.

(** The first test looks at [readdir], as in the source. *)
Definition finddir_fs (node name : Z) : K Z :=
  f ← load32 (n_flags node);
  r ← load32 (n_readdir node);
  if negb (Z.land f 0x7 =? FS_DIRECTORY) || (r =? 0) then mret 0
  else
    p ← load32 (n_finddir node);
    if negb (p =? 0) then call_finddir p node name else mret 0.
End vfs.

(** ** initrd.cpp *)

(** [initrd_file_header_t]: a byte, 64 bytes of name, three of padding, the
    offset and the length. *)
Definition sizeof_initrd_header : Z := 4.
Definition sizeof_file_header : Z := 76.
Definition nfiles_ (h : Z) : Z := h.
Definition f_name (f : Z) : Z := f ⊕ 1.
Definition f_offset (f : Z) : Z := f ⊕ 68.
Definition f_length (f : Z) : Z := f ⊕ 72.

(** Link-time addresses: the operations, the static [direntry], the literals. *)
Class Initrd_image := {
  initrd_read_address : Z;
  initrd_readdir_address : Z;
  initrd_finddir_address : Z;
  direntry : Z;
  lit_dev : Z;
  lit_initrd : Z;
}.

(** [&file_headers[i]] and [&root_nodes[i]]. *)
Definition file_header (s : machine) (i : Z) : Z := file_headers (initrd s) ⊕ sizeof_file_header * i.
Definition root_node (s : machine) (i : Z) : Z := root_nodes (initrd s) ⊕ sizeof_fs_node * i.

(** [strcpy] as a statement. *)
Definition strcpy_ (fuel : nat) (destination source : Z) : K unit := λ s,
  match strcpy fuel (mem s) destination source with
  | Some (m, _) => Done tt (set_mem m s)
  | None => OutOfFuel
  end.

Definition initrd_read (node offset size buffer : Z) : K Z :=
  inode ← load32 (n_inode node);
  h ← gets (λ s, file_header s inode);
  h_offset ← load32 (f_offset h);
  h_length ← load32 (f_length h);
  if h_length <? offset then mret 0
  else
    let size := if h_length <? offset ⊕ size then h_length ⊖ offset else size in
    on_mem (λ m, memcpy m buffer (h_offset ⊕ offset) size) ;;
    mret size.

Section initrd.
Context `{Initrd_image}.
Variable fuel : nat.

(** [nroot_nodes] is an [int], compared as an unsigned number. *)
Definition initrd_readdir (node index : Z) : K Z :=
  root ← gets (λ s, initrd_root (initrd s));
  if (node =? root) && (index =? 0) then
    strcpy_ fuel (d_name direntry) lit_dev ;;
    store8 (d_name direntry ⊕ 3) 0 ;;
    store32 (d_ino direntry) 0 ;;
    mret direntry
  else
    n ← gets (λ s, nroot_nodes (initrd s));
    if w32 n <=? index ⊖ 1 then mret 0
    else
      r ← gets (λ s, root_node s (index ⊖ 1));
      strcpy_ fuel (d_name direntry) (n_name r) ;;
      len ← fuelled (λ s, strlen fuel (mem s) (n_name r));
      store8 (d_name direntry ⊕ len) 0 ;;
      ino ← load32 (n_inode r);
      store32 (d_ino direntry) ino ;;
      mret direntry.

Fixpoint find_from (name : Z) (n : nat) (i : Z) : K Z :=
  match n with
  | O => mret 0
  | S n' =>
      r ← gets (λ s, root_node s i);
      c ← fuelled (λ s, strcmp fuel (mem s) name (n_name r));
      if c =? 0 then mret r else find_from name n' (i + 1)
  end.

Definition initrd_finddir (node name : Z) : K Z :=
  root ← gets (λ s, initrd_root (initrd s));
  is_dev ← (if node =? root then
              c ← fuelled (λ s, strcmp fuel (mem s) name lit_dev); mret (c =? 0)
            else mret false);
  if (is_dev : bool) then gets (λ s, initrd_dev (initrd s))
  else
    n ← gets (λ s, nroot_nodes (initrd s));
    find_from name (Z.to_nat n) 0.

(** A directory node, as both directories are filled in. *)
Definition fill_directory (n name : Z) : K unit :=
  strcpy_ fuel (n_name n) name ;;
  store32 (n_length n) 0 ;;
  store32 (n_inode n) 0 ;;
  store32 (n_gid n) 0 ;;
  store32 (n_uid n) 0 ;;
  store32 (n_mask n) 0 ;;
  store32 (n_flags n) FS_DIRECTORY ;;
  store32 (n_read n) 0 ;;
  store32 (n_write n) 0 ;;
  store32 (n_open n) 0 ;;
  store32 (n_close n) 0 ;;
  store32 (n_readdir n) initrd_readdir_address ;;
  store32 (n_finddir n) initrd_finddir_address ;;
  store32 (n_ptr n) 0 ;;
  store32 (n_impl n) 0.

(** One file: its header's offset made absolute, its node filled in. *)
Definition fill_file (location i : Z) : K unit :=
  f ← gets (λ s, file_header s i);
  o ← load32 (f_offset f);
  store32 (f_offset f) (o ⊕ location) ;;
  n ← gets (λ s, root_node s i);
  strcpy_ fuel (n_name n) (f_name f) ;;
  store32 (n_gid n) 0 ;;
  store32 (n_uid n) 0 ;;
  store32 (n_mask n) 0 ;;
  l ← load32 (f_length f);
  store32 (n_length n) l ;;
  store32 (n_inode n) i ;;
  store32 (n_flags n) FS_FILE ;;
  store32 (n_read n) initrd_read_address ;;
  store32 (n_write n) 0 ;;
  store32 (n_readdir n) 0 ;;
  store32 (n_finddir n) 0 ;;
  store32 (n_open n) 0 ;;
  store32 (n_close n) 0 ;;
  store32 (n_impl n) 0.

Definition set_headers (h f : Z) (s : machine) : machine :=
  let r := initrd s in
  set_initrd (MkInitrd h f (initrd_root r) (initrd_dev r) (root_nodes r) (nroot_nodes r) (fs_root r)) s.
Definition set_initrd_root (n : Z) (s : machine) : machine :=
  let r := initrd s in
  set_initrd (MkInitrd (initrd_header r) (file_headers r) n (initrd_dev r) (root_nodes r) (nroot_nodes r) (fs_root r)) s.
Definition set_initrd_dev (n : Z) (s : machine) : machine :=
  let r := initrd s in
  set_initrd (MkInitrd (initrd_header r) (file_headers r) (initrd_root r) n (root_nodes r) (nroot_nodes r) (fs_root r)) s.
Definition set_root_nodes (a n : Z) (s : machine) : machine :=
  let r := initrd s in
  set_initrd (MkInitrd (initrd_header r) (file_headers r) (initrd_root r) (initrd_dev r) a n (fs_root r)) s.

Section initialise.
Context `{Allocator}.

(** The loop reads the number of files anew each time; its first value is fuel
    enough. *)
Definition initialise_initrd (location : Z) : K Z :=
  modify (set_headers location (location ⊕ sizeof_initrd_header)) ;;
  r ← allocate sizeof_fs_node false None;
  modify (set_initrd_root r.1) ;;
  fill_directory r.1 lit_initrd ;;
  d ← allocate sizeof_fs_node false None;
  modify (set_initrd_dev d.1) ;;
  fill_directory d.1 lit_dev ;;
  h ← gets (λ s, initrd_header (initrd s));
  k ← load32 (nfiles_ h);
  a ← allocate (sizeof_fs_node ⊗ k) false None;
  n ← gets (λ s, nroot_nodes (initrd s));
  modify (set_root_nodes a.1 n) ;;
  k ← load32 (nfiles_ h);
  modify (set_root_nodes a.1 (s32 k)) ;;
  whileM (Z.to_nat k) (λ i s, i <? ld32 (mem s) (nfiles_ (initrd_header (initrd s))))
    (λ i, fill_file location i ;; mret (i + 1)) 0 ;;
  gets (λ s, initrd_root (initrd s)).
End initialise.

(** The calls through the pointers the ramdisk installs. *)
Definition initrd_calls : Fs_calls := {|
  call_read p node offset size buffer :=
    if p =? initrd_read_address then initrd_read node offset size buffer else undefined;
  call_write p node offset size buffer := undefined;
  call_open p node := undefined;
  call_close p node := undefined;
  call_readdir p node index :=
    if p =? initrd_readdir_address then initrd_readdir node index else undefined;
  call_finddir p node name :=
    if p =? initrd_finddir_address then initrd_finddir node name else undefined;
|}.
End initrd.

(** ** Lemmas: reading and looking up *)
Lemma strcmp_zero fuel m X Y l1 l2 :
  cstr m X l1 → cstr m Y l2 → (length l1 <= fuel)%nat →
  ∃ r, strcmp fuel m X Y = Some r ∧ (r =? 0) = bool_decide (l1 = l2).
Proof.
  intros H1 H2 Hf. destruct (strcmp_spec fuel m X Y l1 l2 H1 H2 Hf) as (r & Hr & Hc).
  exists r. split; [done|]. destruct (Z.eqb_spec r 0) as [->|Hne].
  - symmetry. apply bool_decide_eq_true. by apply lex_eq.
  - symmetry. apply bool_decide_eq_false. intros Heq. apply lex_eq in Heq. rewrite Heq in Hc.
    by apply Z.compare_eq in Hc.
Qed.

(** The names of the file nodes. *)
Definition names_at (s : machine) (names : list (list Z)) : Prop :=
  nroot_nodes (initrd s) = Z.of_nat (length names) ∧
  ∀ i l, names !! i = Some l → cstr (mem s) (root_node s (Z.of_nat i)) l.

Lemma find_from_eq fuel s name l names i :
  cstr (mem s) name l → (length l <= fuel)%nat →
  (∀ j k, names !! j = Some k → cstr (mem s) (root_node s (i + Z.of_nat j)) k) →
  find_from fuel name (length names) i s =
    Done match list_find (λ k, l = k) names with
         | Some (j, _) => root_node s (i + Z.of_nat j)
         | None => 0 end s.
Proof.
  intros Hl Hf. revert i. induction names as [|k names IH]; intros i Hn; [done|].
  cbn [length find_from]. rewrite bind_gets. unfold n_name.
  pose proof (Hn 0%nat k eq_refl) as Hk. rewrite Z.add_0_r in Hk.
  destruct (strcmp_zero fuel (mem s) name (root_node s i) l k Hl Hk Hf) as (r & Hr & Hz).
  rewrite (fuelled_done _ _ _ _ Hr), Hz. cbn [list_find]. destruct (decide (l = k)) as [Heq|Hne].
  - rewrite bool_decide_eq_true_2, Z.add_0_r by done. done.
  - rewrite bool_decide_eq_false_2 by done. rewrite IH.
    + destruct (list_find (λ k0, l = k0) names) as [[j ?]|]; cbn; [|done]. do 2 f_equal. lia.
    + intros j k' Hj. replace (i + 1 + Z.of_nat j) with (i + Z.of_nat (S j)) by lia. by apply Hn.
Qed.

Definition dev : list Z := [100; 101; 118].

Lemma initrd_finddir_eq `{Initrd_image} fuel s node name l names :
  names_at s names → cstr (mem s) lit_dev dev → cstr (mem s) name l → (length l <= fuel)%nat →
  initrd_finddir fuel node name s =
    Done (if bool_decide (node = initrd_root (initrd s) ∧ l = dev) then initrd_dev (initrd s)
          else match list_find (λ k, l = k) names with
               | Some (i, _) => root_node s (Z.of_nat i)
               | None => 0 end) s.
Proof.
  intros [Hn Hnames] Hdev Hl Hf. unfold initrd_finddir. rewrite bind_gets.
  pose proof (find_from_eq fuel s name l names 0 Hl Hf Hnames) as Hfind.
  destruct (strcmp_zero fuel (mem s) name lit_dev l dev Hl Hdev Hf) as (r & Hr & Hz).
  destruct (Z.eqb_spec node (initrd_root (initrd s))) as [->|Hne].
  - rewrite bind_assoc, (fuelled_done _ _ _ _ Hr), bind_ret, Hz.
    destruct (decide (l = dev)) as [->|Hl'].
    + rewrite !bool_decide_eq_true_2 by done. done.
    + rewrite !bool_decide_eq_false_2 by tauto. by rewrite bind_gets, Hn, Nat2Z.id, Hfind.
  - rewrite bind_ret, bool_decide_eq_false_2 by tauto. by rewrite bind_gets, Hn, Nat2Z.id, Hfind.
Qed.

(** The end of [initrd_read]: [size'] bytes are copied. *)
Lemma initrd_read_eq node offset size buffer s :
  let h := file_header s (ld32 (mem s) (n_inode node)) in
  let o := ld32 (mem s) (f_offset h) in
  let l := ld32 (mem s) (f_length h) in
  initrd_read node offset size buffer s =
    if l <? offset then Done 0 s
    else let size' := if l <? offset ⊕ size then l ⊖ offset else size in
         Done size' (set_mem (memcpy (mem s) buffer (o ⊕ offset) size').1 s).
Proof.
  intros h o l. unfold initrd_read. rewrite bind_load32, bind_gets, !bind_load32. fold h o l.
  destruct (l <? offset); [done|].
  rewrite (bind_on_mem _ _ _ (memcpy (mem s) buffer (o ⊕ offset)
    (if l <? offset ⊕ size then l ⊖ offset else size)).1 buffer) by done.
  done.
Qed.

(** Reading from inside the file. *)
Lemma initrd_read_inside node offset size buffer s :
  let h := file_header s (ld32 (mem s) (n_inode node)) in
  let o := ld32 (mem s) (f_offset h) in
  let l := ld32 (mem s) (f_length h) in
  0 <= offset → 0 <= size → offset + size < 4294967296 → o + l <= 4294967296 →
  0 <= buffer → buffer + size <= 4294967296 → buffer + size <= o ∨ o + l <= buffer → offset <= l →
  ∃ m', initrd_read node offset size buffer s = Done (Z.min size (l - offset)) (set_mem m' s) ∧
    copied (mem s) buffer (o + offset) (Z.min size (l - offset)) m'.
Proof.
  intros h o l Hoff Hsz Hsum Hend Hb0 Hb1 Hdis Hlo. rewrite initrd_read_eq. fold h o l.
  destruct (Z.ltb_spec l offset); [lia|]. pose proof (ld32_range (mem s) (f_length h)) as Hl.
  pose proof (ld32_range (mem s) (f_offset h)) as Ho. fold l in Hl. fold o in Ho.
  rewrite (w32_small (offset + size)), (w32_small (l - offset)) by lia.
  assert ((if l <? offset + size then l - offset else size) = Z.min size (l - offset)) as ->.
  { destruct (Z.ltb_spec l (offset + size)); lia. }
  destruct (decide (o + offset = 4294967296)) as [Htop|Htop].
  - replace (Z.min size (l - offset)) with 0 by lia. eexists. split; [reflexivity|].
    split; [|intros; lia]. apply frame_refl.
  - rewrite (w32_small (o + offset)) by lia. eexists. split; [reflexivity|].
    apply memcpy_spec; lia.
Qed.

(** ** A small ramdisk, for the instances of the theorems

    One file "a" of two bytes, at [0x20050]; its node at [0x41000]. *)
#[local] Instance sample_initrd_image : Initrd_image := {|
  initrd_read_address := 0x200000;
  initrd_readdir_address := 0x200100;
  initrd_finddir_address := 0x200200;
  direntry := 0x5000;
  lit_dev := 0x6000;
  lit_initrd := 0x6010;
|}.
Definition sample_disk (file_offset : Z) : memory :=
  let m := store_bytes (store_bytes ∅ 0x6000 dev) 0x6010 [105; 110; 105; 116; 114; 100] in
  let m := st8 (st32 m 0x20000 1) 0x20005 97 in
  let m := st32 (st32 m (0x20004 + 68) file_offset) (0x20004 + 72) 2 in
  store_bytes m 0x20050 [7; 8].
Definition sample_mounted : machine :=
  set_initrd (MkInitrd 0x20000 0x20004 0x40000 0x40100 0x41000 1 0)
    (sample (st8 (st8 (sample_disk 0x20050) 0x41000 97) 0x7000 97)).
Lemma sample_names : names_at sample_mounted [[97]].
Proof.
  split; [done|]. intros i l Hi. apply list_lookup_singleton_Some in Hi as [-> <-].
  by vm_compute.
Qed.

(** ** Properties: reading and looking up *)

(** C33. [initrd_read], in every case.  Past the end of the file it returns 0 and
    changes nothing.  From inside the file it returns [size], or as much as the
    file still has; and where the file does not reach past the end of the
    address space and the buffer neither does nor overlaps the file, the bytes
    of the file from [offset] on, as many as it returns, are now in the buffer
    and no other byte has changed.  But when [offset + size] does not fit in 32
    bits, the sum that is compared with the length has wrapped around, and
    [size] is returned as it is, which is more than the file has. *)
Theorem initrd_read_copies node offset size buffer s :
  let h := file_header s (ld32 (mem s) (n_inode node)) in
  let o := ld32 (mem s) (f_offset h) in
  let l := ld32 (mem s) (f_length h) in
  0 <= offset < 4294967296 → 0 <= size < 4294967296 → 0 <= buffer →
  (l < offset → initrd_read node offset size buffer s = Done 0 s) ∧
  (offset <= l → offset + size < 4294967296 → ∃ m',
     initrd_read node offset size buffer s = Done (Z.min size (l - offset)) (set_mem m' s) ∧
     (o + l <= 4294967296 → buffer + size <= 4294967296 → buffer + size <= o ∨ o + l <= buffer →
        copied (mem s) buffer (o + offset) (Z.min size (l - offset)) m')) ∧
  (offset <= l → 4294967296 <= offset + size → ∃ m',
     initrd_read node offset size buffer s = Done size (set_mem m' s) ∧ l - offset < size).
Proof.
  intros h o l Hoff Hsz Hb. pose proof (initrd_read_eq node offset size buffer s) as Hrun. cbv zeta in Hrun.
  fold h o l in Hrun. pose proof (ld32_range (mem s) (f_length h)) as Hl. fold l in Hl.
  split; [|split]; intros Hlo; destruct (Z.ltb_spec l offset); try lia; [done|..]; intros Hsum.
  - rewrite (w32_small (offset + size)), (w32_small (l - offset)) in Hrun by lia.
    assert ((if l <? offset + size then l - offset else size) = Z.min size (l - offset)) as E.
    { destruct (Z.ltb_spec l (offset + size)); lia. }
    rewrite E in Hrun. eexists. split; [exact Hrun|]. intros Hend Hbend Hdis.
    destruct (initrd_read_inside node offset size buffer s) as (m' & Hrun' & Hc);
      [lia|lia|lia|exact Hend|lia|exact Hbend|exact Hdis|exact Hlo|].
    fold h o l in Hrun', Hc. rewrite Hrun in Hrun'. by injection Hrun' as <-.
  - assert (offset ⊕ size = offset + size - 4294967296) as E.
    { rewrite <- (w32_period (offset + size) (-1)). rewrite w32_small by lia. lia. }
    rewrite E in Hrun. destruct (Z.ltb_spec l (offset + size - 4294967296)); [lia|].
    eexists. split; [exact Hrun|]. lia.
Qed.

Lemma initrd_read_copies_witness :
  (∃ m', initrd_read 0x41000 1 10 0x50000 sample_mounted = Done 1 (set_mem m' sample_mounted) ∧
     ld8 m' 0x50000 = 8) ∧
  ∃ m', initrd_read 0x41000 2 0xFFFFFFFE 0x50000 sample_mounted = Done 0xFFFFFFFE (set_mem m' sample_mounted).
Proof.
  split.
  - destruct (initrd_read_copies 0x41000 1 10 0x50000 sample_mounted) as (_ & H & _); [lia|lia|lia|].
    destruct H as (m' & Hrun & Hc); [by vm_compute|lia|]. exists m'. split; [exact Hrun|].
    destruct Hc as [_ Hc]; [by vm_compute|lia|right; by vm_compute|].
    refine (eq_trans (Hc 0 _) _); [zdecide|vm_compute; reflexivity].
  - destruct (initrd_read_copies 0x41000 2 0xFFFFFFFE 0x50000 sample_mounted) as (_ & _ & H); [lia|lia|lia|].
    destruct H as (m' & Hrun & _); [by vm_compute|lia|]. by exists m'.
Defined.

(** [initrd_finddir] finds a file by name: in the root directory "dev" is the
    device directory; otherwise the first node with exactly the given name is
    returned, and a null pointer when there is none; nothing changes. *)
Theorem initrd_finddir_finds `{Initrd_image} fuel s node name l names :
  names_at s names → cstr (mem s) lit_dev dev → cstr (mem s) name l → (length l <= fuel)%nat →
  ∃ r, initrd_finddir fuel node name s = Done r s ∧
    (node = initrd_root (initrd s) ∧ l = dev → r = initrd_dev (initrd s)) ∧
    (¬ (node = initrd_root (initrd s) ∧ l = dev) →
      (l ∉ names → r = 0) ∧
      ∀ i, names !! i = Some l → (∀ j, (j < i)%nat → names !! j ≠ Some l) →
        r = root_node s (Z.of_nat i)).
Proof.
  intros Hn Hd Hl Hf. eexists. split; [by eapply initrd_finddir_eq|]. split.
  - intros Hdev. by rewrite bool_decide_eq_true_2.
  - intros Hdev. rewrite bool_decide_eq_false_2 by done. split.
    + intros Hnot. destruct (list_find (λ k, l = k) names) as [[i k]|] eqn:E; [|done].
      apply list_find_Some in E as (Hi & -> & _). exfalso. apply Hnot. by eapply list_elem_of_lookup_2.
    + intros i Hi Hfirst.
      assert (list_find (λ k, l = k) names = Some (i, l)) as ->; [|done].
      apply list_find_Some. split_and!; [done|done|]. intros j k Hj Hlt ->. by eapply Hfirst.
Qed.

Lemma initrd_finddir_finds_witness :
  initrd_finddir 4 0x40000 0x7000 sample_mounted = Done 0x41000 sample_mounted ∧
  initrd_finddir 4 0x40000 0x6000 sample_mounted = Done 0x40100 sample_mounted.
Proof.
  split.
  - destruct (initrd_finddir_finds 4 sample_mounted 0x40000 0x7000 [97] [[97]]) as (r & Hrun & _ & Hf);
      [apply sample_names|by vm_compute|by vm_compute|cbn; lia|].
    rewrite Hrun. f_equal. apply (Hf ltac:(intros [_ ?]; done)) with (i := 0%nat); [done|lia].
  - destruct (initrd_finddir_finds 4 sample_mounted 0x40000 0x6000 dev [[97]]) as (r & Hrun & Hd & _);
      [apply sample_names|by vm_compute|by vm_compute|cbn; lia|].
    rewrite Hrun. f_equal. apply Hd. split; by vm_compute.
Defined.

(** ** Listing a directory *)
Section readdir.
Context `{Initrd_image}.

Definition direntry_range : Z → Prop := range direntry 132.

(** A name that may be copied into the directory entry. *)
Definition name_ok (m : memory) (p : Z) (l : list Z) : Prop :=
  cstr m p l ∧ 0 <= p ∧ p + Z.of_nat (length l) < 4294967296 ∧ (length l < 128)%nat ∧
  (p + Z.of_nat (length l) < direntry ∨ direntry + 132 <= p).

(** A name, terminated once more, and an inode number. *)
Lemma direntry_filled fuel s p l ino :
  0 < direntry → direntry + 132 <= 4294967296 → name_ok (mem s) p l → (length l <= fuel)%nat →
  0 <= ino < 4294967296 →
  ∃ m1, strcpy_ fuel (d_name direntry) p s = Done tt (set_mem m1 s) ∧
    frame direntry_range (mem s) m1 ∧
    let m2 := st32 (st8 m1 (d_name direntry ⊕ Z.of_nat (length l)) 0) (d_ino direntry) ino in
    cstr m2 direntry l ∧ ld32 m2 (d_ino direntry) = ino ∧ frame direntry_range (mem s) m2.
Proof.
  intros Hd0 Hd1 (Hc & Hp0 & Hp1 & Hlen & Hap) Hf Hino.
  destruct (strcpy_spec fuel (mem s) direntry p l) as (m1 & Hrun & Hc1 & Hf1); [done|lia..|].
  assert (frame direntry_range (mem s) m1) as Hf1'.
  { eapply frame_weaken; [exact Hf1|]. unfold direntry_range, range. lia. }
  exists m1. split; [unfold strcpy_, d_name; by rewrite Hrun|]. split; [done|].
  unfold d_name, d_ino. rewrite !w32_small by lia. split_and!.
  - apply cstr_intro.
    + intros i c Hi. destruct (cstr_lookup _ _ _ _ _ Hc1 Hi) as [Hi1 Hi2]. split; [done|].
      apply lookup_lt_Some in Hi. by mem_simpl.
    + by mem_simpl.
  - rewrite ld32_st32_eq. by apply w32_small.
  - apply frame_st32; [|lia|lia|unfold direntry_range, range; lia].
    apply frame_st8; [done|lia|unfold direntry_range, range; lia].
Qed.

(** C32. [readdir] enumerates the root directory: index 0 is "dev", index [i + 1]
    is the [i]-th file with its inode number, and past the last file there is
    nothing; the name returned is terminated, and only the static directory
    entry is written. *)
Theorem initrd_readdir_enumerates fuel s names :
  0 < direntry → direntry + 132 <= 4294967296 → names_at s names →
  Z.of_nat (length names) < 2147483648 → (∀ i l, names !! i = Some l → (length l <= fuel)%nat) →
  (3 <= fuel)%nat → name_ok (mem s) lit_dev dev →
  (∀ i l, names !! i = Some l → name_ok (mem s) (root_node s (Z.of_nat i)) l ∧
     let a := n_inode (root_node s (Z.of_nat i)) in a + 4 <= direntry ∨ direntry + 132 <= a ∧ a + 4 <= 4294967296) →
  let root := initrd_root (initrd s) in
  (∃ m', initrd_readdir fuel root 0 s = Done direntry (set_mem m' s) ∧
     cstr m' direntry dev ∧ ld32 m' (d_ino direntry) = 0 ∧ frame direntry_range (mem s) m') ∧
  (∀ i l, names !! i = Some l →
     ∃ m', initrd_readdir fuel root (Z.of_nat i + 1) s = Done direntry (set_mem m' s) ∧
       cstr m' direntry l ∧ frame direntry_range (mem s) m' ∧
       ld32 m' (d_ino direntry) = ld32 (mem s) (n_inode (root_node s (Z.of_nat i)))) ∧
  (∀ i, Z.of_nat (length names) < i < 4294967296 → initrd_readdir fuel root i s = Done 0 s).
Proof.
  intros Hd0 Hd1 [Hn Hnames] Hlen Hfuel Hf3 Hdev Hok root. split_and!.
  - destruct (direntry_filled fuel s lit_dev dev 0) as (m1 & Hrun & _ & Hc & Hi & Hf); [done..|lia|].
    eexists. split; [|by split_and!]. unfold initrd_readdir. rewrite bind_gets.
    fold root. rewrite !Z.eqb_refl. cbn [andb]. rewrite (bind_done _ _ _ _ _ Hrun). kstores. done.
  - intros i l Hi. destruct (Hok i l Hi) as [Hname Hino]. pose proof (lookup_lt_Some _ _ _ Hi) as Hlt.
    set (r := root_node s (Z.of_nat i)) in *.
    pose proof (ld32_range (mem s) (n_inode r)) as Hir.
    destruct (direntry_filled fuel s r l (ld32 (mem s) (n_inode r)))
      as (m1 & Hrun & Hf1 & Hc & Hi2 & Hf); [done..|by eapply Hfuel|done|].
    eexists. split; [|by split_and!]. unfold initrd_readdir. rewrite bind_gets. fold root.
    rewrite (proj2 (Z.eqb_neq (Z.of_nat i + 1) 0)) by lia. rewrite andb_false_r, bind_gets.
    rewrite Hn, (w32_small (Z.of_nat (length names))), (w32_small (Z.of_nat i + 1 - 1)) by lia.
    replace (Z.of_nat i + 1 - 1) with (Z.of_nat i) by lia.
    destruct (Z.leb_spec (Z.of_nat (length names)) (Z.of_nat i)); [lia|]. rewrite bind_gets.
    fold r. unfold n_name. rewrite (bind_done _ _ _ _ _ Hrun).
    destruct Hname as (Hcs & Hp0 & Hp1 & Hl128 & Hap).
    assert (cstr m1 r l) as Hcs1.
    { eapply cstr_frame; [exact Hf1|lia|lia| |done]. unfold direntry_range, range. lia. }
    rewrite (fuelled_done _ _ _ (Z.of_nat (length l)))
      by (rewrite mem_set_mem; apply strlen_spec; [done|lia|by eapply Hfuel]).
    kstores.
    assert (ld32 (st8 m1 (d_name direntry ⊕ Z.of_nat (length l)) 0) (n_inode r) = ld32 (mem s) (n_inode r)) as ->; [|done].
    unfold d_name. rewrite w32_small by lia. cbv zeta in Hino.
    assert (0 <= n_inode r) by apply w32_range.
    eapply (frame_ld32 direntry_range); [|lia|lia|unfold direntry_range, range; lia].
    apply frame_st8; [done|lia|unfold direntry_range, range; lia].
  - intros i Hi. unfold initrd_readdir. rewrite bind_gets.
    rewrite (proj2 (Z.eqb_neq i 0)) by lia. rewrite andb_false_r, bind_gets.
    rewrite Hn, (w32_small (Z.of_nat (length names))), (w32_small (i - 1)) by lia.
    by destruct (Z.leb_spec (Z.of_nat (length names)) (i - 1)); [|lia].
Qed.
End readdir.
Lemma initrd_readdir_enumerates_witness :
  ∃ m', initrd_readdir 4 0x40000 1 sample_mounted = Done 0x5000 (set_mem m' sample_mounted) ∧ cstr m' 0x5000 [97].
Proof.
  destruct (initrd_readdir_enumerates 4 sample_mounted [[97]]) as (_ & Hf & _).
  - done.
  - done.
  - apply sample_names.
  - done.
  - intros i l Hi. apply list_lookup_singleton_Some in Hi as [-> <-]. cbn. lia.
  - lia.
  - split; [by vm_compute|zdecide || (split_and!; [done|done|cbn; lia|right; done])].
  - intros i l Hi. apply list_lookup_singleton_Some in Hi as [-> <-]. split.
    + split; [by vm_compute|]. split_and!; [done|done|cbn; lia|right; done].
    + right. split; by vm_compute.
  - destruct (Hf 0%nat [97] eq_refl) as (m' & Hrun & Hc & _). by exists m'.
Defined.
