(* ===== verification/Mount.v ===== *)
(** * kernel/FIleSystem/initrd.cpp: mounting the ramdisk

    What [initialise_initrd] builds, against the [Allocator] interface; and the
    path of a client: mount, look a file up in the root, read it, through the
    calls of [FileSystem.cpp]. *)
From S2P Require Import Prelude Memory LibString OrderedList Machine Console Stdio Kmalloc Initrd.
Local Open Scope Z_scope.
Local Open Scope u32_scope.

(** ** The structures built by [initialise_initrd] *)

(** A file of the ramdisk, its offset relative to the ramdisk. *)
Record file := MkFile {
  fl_name : list Z;
  fl_offset : Z;
  fl_length : Z;
}.

(** The header of file [i] of the ramdisk at [location]. *)
Definition header_of (location i : Z) : Z := location + 4 + 76 * i.
Definition header_at (m : memory) (h : Z) (f : file) : Prop :=
  cstr m (h + 1) (fl_name f) ∧ ld32 m (h + 68) = fl_offset f ∧ ld32 m (h + 72) = fl_length f.

(** The words of a structure, by offset. *)
Definition fields_at (m : memory) (n : Z) (l : list (Z * Z)) : Prop :=
  Forall (λ '(o, v), ld32 m (n + o) = v) l.

Section mount.
Context `{Initrd_image}.

Definition file_fields (f : file) (i : Z) : list (Z * Z) :=
  [(128, 0); (132, 0); (136, 0); (140, FS_FILE); (144, i); (148, fl_length f); (152, 0);
   (156, initrd_read_address); (160, 0); (164, 0); (168, 0); (172, 0); (176, 0)].
Definition directory_fields : list (Z * Z) :=
  [(128, 0); (132, 0); (136, 0); (140, FS_DIRECTORY); (144, 0); (148, 0); (152, 0); (156, 0);
   (160, 0); (164, 0); (168, 0); (172, initrd_readdir_address); (176, initrd_finddir_address); (180, 0)].
Definition file_node (m : memory) (n : Z) (f : file) (i : Z) : Prop :=
  cstr m n (fl_name f) ∧ fields_at m n (file_fields f i).
Definition directory_node (m : memory) (n : Z) (name : list Z) : Prop :=
  cstr m n name ∧ fields_at m n directory_fields.

Definition addresses_ok : Prop :=
  0 <= initrd_read_address < 4294967296 ∧ 0 <= initrd_readdir_address < 4294967296 ∧
  0 <= initrd_finddir_address < 4294967296.

Lemma fields_at_frame P m m' n l :
  frame P m m' → 0 <= n → n + 184 <= 4294967296 → (∀ x, range n 184 x → ¬ P x) →
  Forall (λ '(o, _), 0 <= o <= 180) l → fields_at m n l → fields_at m' n l.
Proof.
  intros Hf H0 H1 HP Hl Hm. unfold fields_at in *. rewrite Forall_forall in Hl, Hm |- *.
  intros [o v] Hov. specialize (Hl _ Hov). specialize (Hm _ Hov). cbn in *. rewrite <- Hm.
  eapply frame_ld32; [exact Hf|lia|lia|]. intros x Hx. apply HP. unfold range. lia.
Qed.

Lemma cstr_name_frame P m m' n l :
  frame P m m' → 0 <= n → n + 184 <= 4294967296 → (length l < 128)%nat →
  (∀ x, range n 184 x → ¬ P x) → cstr m n l → cstr m' n l.
Proof.
  intros Hf H0 H1 Hl HP. eapply cstr_frame; [exact Hf|lia|lia|]. intros x Hx. apply HP. unfold range. lia.
Qed.

Lemma file_node_frame P m m' n f i :
  frame P m m' → 0 <= n → n + 184 <= 4294967296 → (length (fl_name f) < 64)%nat →
  (∀ x, range n 184 x → ¬ P x) → file_node m n f i → file_node m' n f i.
Proof.
  intros Hf H0 H1 Hl HP [Hc Hfields]. split.
  - eapply cstr_name_frame; [exact Hf|done|done|lia|done|done].
  - eapply fields_at_frame; [exact Hf|done|done|done| |done]. repeat constructor; lia.
Qed.

Lemma directory_node_frame P m m' n l :
  frame P m m' → 0 <= n → n + 184 <= 4294967296 → (length l < 128)%nat →
  (∀ x, range n 184 x → ¬ P x) → directory_node m n l → directory_node m' n l.
Proof.
  intros Hf H0 H1 Hl HP [Hc Hfields]. split.
  - eapply cstr_name_frame; [exact Hf|done..].
  - eapply fields_at_frame; [exact Hf|done|done|done| |done]. repeat constructor; lia.
Qed.

Lemma header_at_frame P m m' h f :
  frame P m m' → 0 <= h → h + 76 <= 4294967296 → (length (fl_name f) < 64)%nat →
  (∀ x, range h 76 x → ¬ P x) → header_at m h f → header_at m' h f.
Proof.
  intros Hf H0 H1 Hl HP (Hc & Ho & Hln). unfold range in HP. split_and!.
  - eapply cstr_frame; [exact Hf|lia|lia| |done]. intros x Hx. apply HP. lia.
  - rewrite <- Ho. eapply frame_ld32; [exact Hf|lia|lia|]. intros x Hx. apply HP. lia.
  - rewrite <- Hln. eapply frame_ld32; [exact Hf|lia|lia|]. intros x Hx. apply HP. lia.
Qed.

(** Stores into a node above its name. *)
Ltac node_stores := repeat (apply frame_st32; [|lia|lia|unfold range; lia]).

Lemma strcpy_run fuel s dst src l :
  cstr (mem s) src l → 0 < dst → dst + 128 <= 4294967296 → 0 <= src →
  src + Z.of_nat (length l) < 4294967296 → (length l < 128)%nat →
  dst + 128 <= src ∨ src + Z.of_nat (length l) < dst → (length l <= fuel)%nat →
  ∃ m', strcpy_ fuel dst src s = Done tt (set_mem m' s) ∧ cstr m' dst l ∧ frame (range dst 128) (mem s) m'.
Proof.
  intros Hc Hd0 Hd1 Hs0 Hs1 Hl Hap Hf.
  destruct (strcpy_spec fuel (mem s) dst src l) as (m' & Hrun & Hc' & Hf'); [done|lia..|].
  exists m'. unfold strcpy_. rewrite Hrun. split_and!; [done..|].
  eapply frame_weaken; [exact Hf'|]. unfold range. lia.
Qed.

Lemma fill_directory_ok fuel s n p l :
  addresses_ok → 0 < n → n + 184 <= 4294967296 → cstr (mem s) p l → 0 <= p →
  p + Z.of_nat (length l) < 4294967296 → (length l < 128)%nat →
  n + 128 <= p ∨ p + Z.of_nat (length l) < n → (length l <= fuel)%nat →
  ∃ m', fill_directory fuel n p s = Done tt (set_mem m' s) ∧ directory_node m' n l ∧
    frame (range n 184) (mem s) m'.
Proof.
  intros (Ha1 & Ha2 & Ha3) H0 H1 Hc Hp0 Hp1 Hl Hap Hf.
  destruct (strcpy_run fuel s n p l) as (m1 & Hrun & Hc1 & Hf1); [done|lia..|].
  unfold fill_directory, n_name, FS_DIRECTORY. rewrite (bind_done _ _ _ _ _ Hrun). kstores.
  unfold store32, modify. eexists. split; [reflexivity|]. rewrite mem_set_mem.
  unfold n_mask, n_uid, n_gid, n_flags, n_inode, n_length, n_impl, n_read, n_write, n_open, n_close,
    n_readdir, n_finddir, n_ptr. w32_simpl. split; [split|].
  - eapply (cstr_frame (range (n + 128) 56)); [node_stores; apply frame_refl|lia|lia|unfold range; lia|done].
  - unfold fields_at, directory_fields, FS_DIRECTORY.
    repeat (apply Forall_cons; split; [mem_simpl; by rewrite ?w32_small by lia|]). constructor.
  - node_stores. eapply frame_weaken; [exact Hf1|]. unfold range. lia.
Qed.

Lemma fill_file_ok fuel location s i n f :
  addresses_ok → 0 <= i < 2147483648 → file_header s i = header_of location i → root_node s i = n →
  0 <= location → header_of location i + 76 <= 4294967296 → 0 < n → n + 184 <= 4294967296 →
  n + 184 <= header_of location i ∨ header_of location i + 76 <= n →
  header_at (mem s) (header_of location i) f → (length (fl_name f) < 64)%nat →
  (length (fl_name f) <= fuel)%nat →
  ∃ m', fill_file fuel location i s = Done tt (set_mem m' s) ∧ file_node m' n f i ∧
    header_at m' (header_of location i) (MkFile (fl_name f) (fl_offset f ⊕ location) (fl_length f)) ∧
    frame (λ x, range (header_of location i + 68) 4 x ∨ range n 184 x) (mem s) m'.
Proof.
  intros (Ha1 & Ha2 & Ha3) Hi Hh Hn Hloc Hh1 H0 H1 Hap (Hc & Ho & Hln) Hl Hf.
  set (h := header_of location i) in *. assert (0 <= h) as Hh0 by (unfold h, header_of; lia).
  set (m0 := st32 (mem s) (h + 68) (fl_offset f ⊕ location)).
  assert (frame (range (h + 68) 4) (mem s) m0) as Hf0.
  { apply frame_st32; [apply frame_refl|lia|lia|unfold range; lia]. }
  assert (cstr m0 (h + 1) (fl_name f)) as Hc0.
  { eapply cstr_frame; [exact Hf0|lia|lia|unfold range; lia|done]. }
  destruct (strcpy_run fuel (set_mem m0 s) n (h + 1) (fl_name f)) as (m1 & Hrun & Hc1 & Hf1); [done|lia..|].
  rewrite mem_set_mem in Hf1.
  assert (ld32 m1 (h + 72) = fl_length f) as Hl1.
  { rewrite (frame_ld32 _ _ _ _ Hf1); [|lia|lia|unfold range; lia]. unfold m0. by mem_simpl. }
  assert (frame (λ x, range (h + 68) 4 x ∨ range n 184 x) (mem s) m1) as Hf01.
  { apply (frame_trans _ _ m0); (eapply frame_weaken; [eassumption|]); unfold range; lia. }
  assert (header_at m1 h (MkFile (fl_name f) (fl_offset f ⊕ location) (fl_length f))) as Hhdr.
  { unfold header_at. cbn [fl_name fl_offset fl_length]. split_and!; [| |done].
    - eapply cstr_frame; [exact Hf1|lia|lia|unfold range; lia|done].
    - rewrite (frame_ld32 _ _ _ _ Hf1); [|lia|lia|unfold range; lia]. unfold m0.
      rewrite ld32_st32_eq. apply w32_w32. }
  unfold fill_file. rewrite bind_gets, Hh. unfold f_offset, f_name, f_length. w32_simpl.
  rewrite bind_load32, Ho, bind_store32. fold m0. rewrite bind_gets.
  change (root_node (set_mem m0 s) i) with (root_node s i). rewrite Hn. unfold n_name at 1.
  rewrite (bind_done _ _ _ _ _ Hrun). unfold n_mask, n_uid, n_gid, n_flags, n_inode, n_length, n_impl,
    n_read, n_write, n_open, n_close, n_readdir, n_finddir. w32_simpl. kstores.
  unfold store32, modify. rewrite mem_set_mem. unfold FS_FILE.
  replace (ld32 (st32 (st32 (st32 m1 (n + 136) 0) (n + 132) 0) (n + 128) 0) (h + 72)) with (fl_length f)
    by (by mem_simpl).
  pose proof (ld32_range m1 (h + 72)) as Hlr. rewrite Hl1 in Hlr.
  match goal with |- ∃ m', Done tt (set_mem ?m _) = _ ∧ _ => set (m2 := m) end.
  assert (frame (range (n + 128) 56) m1 m2) as Hf2 by (unfold m2; node_stores; apply frame_refl).
  exists m2. split; [done|]. split; [split|split].
  - eapply (cstr_frame (range (n + 128) 56)); [exact Hf2|lia|lia|unfold range; lia|done].
  - unfold fields_at, file_fields, FS_FILE, m2.
    repeat (apply Forall_cons; split; [mem_simpl; by rewrite ?w32_small by lia|]). constructor.
  - eapply header_at_frame; [exact Hf2|lia|lia|done|unfold range; lia|done].
  - eapply frame_trans; [exact Hf01|]. eapply frame_weaken; [exact Hf2|]. unfold range. lia.
Qed.

(** The loop over the files. *)
Definition nodes_done (m : memory) (location base : Z) (files : list file) (k : Z) : Prop :=
  ∀ i f, files !! i = Some f →
    let h := header_of location (Z.of_nat i) in
    if Z.of_nat i <? k then
      file_node m (base + 184 * Z.of_nat i) f (Z.of_nat i) ∧
      header_at m h (MkFile (fl_name f) (fl_offset f ⊕ location) (fl_length f))
    else header_at m h f.

Definition names_fit (fuel : nat) (files : list file) : Prop :=
  Forall (λ f, (length (fl_name f) < 64)%nat ∧ (length (fl_name f) <= fuel)%nat) files.

Lemma fill_files_ok fuel location base s files :
  let n := Z.of_nat (length files) in
  addresses_ok → names_fit fuel files → 0 <= location → header_of location n <= 4294967296 →
  0 < base → base + 184 * n <= 4294967296 → n < 2147483648 →
  n = 0 ∨ base + 184 * n <= location ∨ header_of location n <= base →
  initrd_header (initrd s) = location → file_headers (initrd s) = location ⊕ 4 → root_nodes (initrd s) = base →
  ld32 (mem s) location = n → nodes_done (mem s) location base files 0 →
  ∃ i m', whileM (Z.to_nat n) (λ i s, i <? ld32 (mem s) (nfiles_ (initrd_header (initrd s))))
      (λ i, fill_file fuel location i ;; mret (i + 1)) 0 s = Done i (set_mem m' s) ∧
    nodes_done m' location base files n ∧
    frame (λ x, range (location + 4) (76 * n) x ∨ range base (184 * n) x) (mem s) m'.
Proof.
  intros n Haddr Hfit Hloc Hhn Hb0 Hb1 Hn Hap Eh Ef Er En Hinit.
  set (P := λ x, range (location + 4) (76 * n) x ∨ range base (184 * n) x).
  set (I := λ i t, ∃ m, t = set_mem m s ∧ 0 <= i <= n ∧ nodes_done m location base files i ∧ frame P (mem s) m).
  assert (∀ m, frame P (mem s) m → ld32 m location = n) as Hcount.
  { intros m Hm. rewrite (frame_ld32 _ _ _ _ Hm); [done|lia|unfold header_of in *; lia|].
    unfold P, range, header_of in *. lia. }
  destruct (whileM_total I (λ i _, Z.to_nat (n - i))
    (λ i s, i <? ld32 (mem s) (nfiles_ (initrd_header (initrd s))))
    (λ i, fill_file fuel location i ;; mret (i + 1)) (Z.to_nat n) 0 s) as (k & s' & Hrun & HI & Hexit).
  - exists (mem s). split_and!; [by destruct s|lia|lia|done|apply frame_refl].
  - lia.
  - intros i t (m & -> & Hi & Hdone & Hf) Hcond. cbn [initrd set_mem mem] in Hcond. rewrite Eh in Hcond.
    unfold nfiles_ in Hcond. rewrite (Hcount m Hf) in Hcond. apply Z.ltb_lt in Hcond.
    destruct (lookup_lt_is_Some_2 files (Z.to_nat i)) as [f Hfi]; [lia|].
    pose proof (Hdone _ _ Hfi) as Hhdr. cbv zeta in Hhdr. rewrite Z2Nat.id in Hhdr by lia.
    destruct (Z.ltb_spec i i) as [|_]; [lia|].
    pose proof Hfit as Hfit'. unfold names_fit in Hfit'. rewrite Forall_lookup in Hfit'. destruct (Hfit' _ _ Hfi) as [Hl1 Hl2].
    destruct (fill_file_ok fuel location (set_mem m s) i (base + 184 * i) f) as (m' & Hrun & Hnode & Hhdr' & Hf');
      [done|lia| | |done|unfold header_of in *; lia|lia|lia|unfold header_of in *; lia|done|done|done|].
    { unfold file_header, sizeof_file_header. cbn [initrd set_mem]. rewrite Ef. unfold header_of in *.
      rewrite w32_add_l. apply w32_small. lia. }
    { unfold root_node, sizeof_fs_node. cbn [initrd set_mem]. rewrite Er. apply w32_small. lia. }
    rewrite mem_set_mem in Hf'.
    exists (i + 1), (set_mem m' s). split; [by rewrite (bind_done _ _ _ _ _ Hrun)|]. split; [|lia].
    exists m'. split; [done|]. split; [lia|]. split.
    + intros j g Hj. apply lookup_lt_Some in Hj as Hjl. pose proof (Hdone _ _ Hj) as Hold. cbv zeta in *.
      destruct (Hfit' _ _ Hj) as [Hg1 Hg2]. unfold header_of in *.
      destruct (Z.ltb_spec (Z.of_nat j) (i + 1)) as [Hlt|Hge].
      * destruct (decide (Z.of_nat j = i)) as [E|E].
        { rewrite E. replace (Z.to_nat i) with j in Hfi by lia. assert (g = f) as -> by congruence. done. }
        destruct (Z.ltb_spec (Z.of_nat j) i) as [_|]; [|lia]. destruct Hold as [Hold1 Hold2]. split.
        { eapply file_node_frame; [exact Hf'|lia|lia|done|unfold range; lia|done]. }
        { eapply header_at_frame; [exact Hf'|lia|lia|done|unfold range; lia|done]. }
      * destruct (Z.ltb_spec (Z.of_nat j) i) as [|_]; [lia|].
        eapply header_at_frame; [exact Hf'|lia|lia|done|unfold range; lia|done].
    + eapply frame_trans; [exact Hf|]. eapply frame_weaken; [exact Hf'|].
      unfold P, header_of, range in *. lia.
  - destruct HI as (m' & -> & Hk & Hdone & Hf). cbn [initrd set_mem mem] in Hexit. rewrite Eh in Hexit.
    unfold nfiles_ in Hexit. rewrite (Hcount m' Hf) in Hexit. apply Z.ltb_ge in Hexit.
    assert (k = n) as -> by lia. exists n, m'. split_and!; done.
Qed.

(** ** The whole of [initialise_initrd] *)
Context `{AS : AllocatorSpec} `{!AllocatorLaws}.

Lemma range_apart a n b m :
  0 < n → 0 < m → (∀ x, range a n x → ¬ range b m x) → a + n <= b ∨ b + m <= a.
Proof.
  unfold range. intros Hn Hm Hx.
  destruct (decide (a + n <= b)); [lia|]. destruct (decide (b + m <= a)); [lia|].
  exfalso. destruct (decide (a <= b)); [apply (Hx b)|apply (Hx a)]; lia.
Qed.

(** A terminated string in reserved memory. *)
Definition literal (s : machine) (p : Z) (l : list Z) : Prop :=
  cstr (mem s) p l ∧ 0 <= p ∧ p + Z.of_nat (length l) < 4294967296 ∧ (length l < 128)%nat ∧
  ∀ x, range p (Z.of_nat (length l) + 1) x → reserved s x.

(** [s'] has all that [s] had reserved, unchanged, and is the same outside the
    allocator and the ramdisk's variables. *)
Definition extends (s s' : machine) : Prop :=
  frame (λ x, ¬ reserved s x) (mem s) (mem s') ∧ (∀ x, reserved s x → reserved s' x) ∧
  pg s' = pg s ∧ tty s' = tty s ∧ irq s' = irq s ∧ tasks s' = tasks s ∧ trace s' = trace s.

Lemma extends_trans s1 s2 s3 : extends s1 s2 → extends s2 s3 → extends s1 s3.
Proof.
  intros (Hf & Hr & Hs1) (Hf' & Hr' & Hs2). split_and!; [| |intuition congruence..].
  - eapply frame_trans; [exact Hf|]. eapply frame_weaken; [exact Hf'|]. intros x _ Hx Hn. by apply Hx, Hr.
  - auto.
Qed.

Lemma literal_extends s s' p l : extends s s' → literal s p l → literal s' p l.
Proof.
  intros (Hf & Hr & _) (Hc & Hp0 & Hp1 & Hl & Hres). split_and!; [|done..|by intros x Hx; apply Hr, Hres].
  eapply cstr_frame; [exact Hf|done|done| |done]. intros x Hx Hn. apply Hn, Hres. unfold range. lia.
Qed.

Lemma directory_node_extends s s' n l :
  extends s s' → 0 <= n → n + 184 <= 4294967296 → (length l < 128)%nat →
  (∀ x, range n 184 x → reserved s x) → directory_node (mem s) n l → directory_node (mem s') n l.
Proof.
  intros (Hf & _) Hn0 Hn1 Hl Hres. eapply directory_node_frame; [exact Hf|done..|].
  intros x Hx Hn. by apply Hn, Hres.
Qed.

(** Changes of the ramdisk's variables only. *)
Definition only_initrd (g : machine → machine) : Prop := ∀ s, ∃ i, g s = set_initrd i s.

(** One directory: allocated, recorded, filled. *)
Lemma make_directory_ok fuel s (g : Z → machine → machine) p l more :
  addresses_ok → alloc_inv s → room s ((sizeof_fs_node, false) :: more) → literal s p l →
  (length l <= fuel)%nat → (∀ a, only_initrd (g a)) →
  ∃ n s1 s',
    allocate sizeof_fs_node false None s = Done (n, report n None) s1 ∧
    fill_directory fuel n p (g n s1) = Done tt s' ∧ initrd s1 = initrd s ∧ initrd s' = initrd (g n s1) ∧
    extends s s' ∧ directory_node (mem s') n l ∧ 0 < n ∧ n + 184 <= 4294967296 ∧
    (∀ x, range n 184 x → reserved s' x) ∧ (∀ x, range n 184 x → ¬ reserved s x) ∧
    alloc_inv s' ∧ room s' more.
Proof.
  intros Haddr Hinv Hroom Hlit Hfuel Hg.
  destruct (allocate_ok s sizeof_fs_node false None more) as (n & s1 & Hrun & Hat); [done..|].
  destruct Hat as [Hinv1 [Hn0 Hn1] _ Hfresh Hres1 Hf1 Hrest1 Hroom1]. unfold sizeof_fs_node in *.
  destruct (Hg n s1) as [i Hgi].
  pose proof Hlit as (Hc & Hp0 & Hp1 & Hl & Hpr).
  assert (cstr (mem s1) p l) as Hc1.
  { eapply cstr_frame; [exact Hf1|done|done| |done]. intros x Hx Hn. apply Hn, Hpr. unfold range. lia. }
  assert (n + 184 <= p ∨ p + (Z.of_nat (length l) + 1) <= n) as Hap.
  { apply range_apart; [lia|lia|]. intros x Hx Hx'. by eapply Hfresh, Hpr. }
  destruct (fill_directory_ok fuel (set_initrd i s1) n p l) as (m' & Hfill & Hnode & Hf'); [done..|lia|done|].
  cbn [mem set_initrd] in Hf'.
  assert (frame (reserved s1) (mem s1) m') as Hfr.
  { eapply frame_weaken; [exact Hf'|]. intros x _ Hx. apply Hres1. by left. }
  exists n, s1, (set_mem m' (set_initrd i s1)). split_and!; try done.
  - by rewrite Hgi.
  - apply Hrest1.
  - by rewrite Hgi.
  - destruct Hrest1 as (R1 & R2 & R3 & R4 & R5 & R6). split_and!; [|intros x Hx|done..].
    + eapply frame_trans; [exact Hf1|]. eapply frame_weaken; [exact Hf'|]. intros x _ Hx. by apply Hfresh.
    + apply (reserved_stable s1); [done..|]. apply Hres1. by right.
  - intros x Hx. apply (reserved_stable s1); [done..|]. apply Hres1. by left.
  - by apply (alloc_inv_stable s1).
  - by apply (room_stable s1); [..|apply Hroom1].
Qed.

Definition initrd_name : list Z := [105; 110; 105; 116; 114; 100].

(** A ramdisk of [files] at [location]: the count, then the headers. *)
Definition ramdisk_at (m : memory) (location : Z) (files : list file) : Prop :=
  ld32 m location = Z.of_nat (length files) ∧
  ∀ i f, files !! i = Some f → header_at m (header_of location (Z.of_nat i)) f.

(** The bytes of the count and of the headers. *)
Definition headers (location : Z) (files : list file) : Z → Prop :=
  range location (4 + 76 * Z.of_nat (length files)).

(** The ramdisk is where its variables say, with absolute offsets; the two
    directories and the nodes of the files are filled in; of what was reserved
    only the headers changed. *)
Record mounted (s s' : machine) (location : Z) (files : list file) : Prop := {
  mt_root : directory_node (mem s') (initrd_root (initrd s')) initrd_name;
  mt_dev : directory_node (mem s') (initrd_dev (initrd s')) dev;
  mt_count : nroot_nodes (initrd s') = Z.of_nat (length files);
  mt_files i f : files !! i = Some f →
    file_node (mem s') (root_node s' (Z.of_nat i)) f (Z.of_nat i) ∧
    header_at (mem s') (file_header s' (Z.of_nat i)) (MkFile (fl_name f) (fl_offset f ⊕ location) (fl_length f));
  mt_nodes : 0 < root_nodes (initrd s') ∧
    root_nodes (initrd s') + 184 * Z.of_nat (length files) <= 4294967296;
  mt_frame : frame (λ x, ¬ reserved s x ∨ headers location files x) (mem s) (mem s');
  mt_dirs : 0 < initrd_root (initrd s') ∧ initrd_root (initrd s') + 184 <= 4294967296 ∧
    0 < initrd_dev (initrd s') ∧ initrd_dev (initrd s') + 184 <= 4294967296;
  mt_reserved x : reserved s x → reserved s' x;
  mt_inv : alloc_inv s';
  mt_rest : pg s' = pg s ∧ tty s' = tty s ∧ irq s' = irq s ∧ tasks s' = tasks s ∧ trace s' = trace s;
}.

(** The loop, from the state after the allocations. *)
Lemma fill_files_mount fuel s s' location base files :
  let n := Z.of_nat (length files) in
  addresses_ok → names_fit fuel files → 0 <= location → header_of location n <= 4294967296 → 184 * n < 4294967296 →
  extends s s' → ramdisk_at (mem s) location files → (∀ x, headers location files x → reserved s x) →
  0 < base → base + 184 * n <= 4294967296 → (∀ x, range base (184 * n) x → ¬ reserved s x) →
  initrd_header (initrd s') = location → file_headers (initrd s') = location ⊕ 4 → root_nodes (initrd s') = base →
  ∃ i m', whileM (Z.to_nat n) (λ i s, i <? ld32 (mem s) (nfiles_ (initrd_header (initrd s))))
      (λ i, fill_file fuel location i ;; mret (i + 1)) 0 s' = Done i (set_mem m' s') ∧
    nodes_done m' location base files n ∧
    frame (λ x, headers location files x ∨ range base (184 * n) x) (mem s') m'.
Proof.
  intros n Haddr Hfit Hl0 Hl1 Hn (Hf & _) [Hcount Hhdr] Hres Hb0 Hb1 Hfresh Eh Ef Er.
  unfold header_of in Hl1. unfold headers, range in Hres.
  assert (ld32 (mem s') location = n) as Hcount'.
  { rewrite (frame_ld32 _ _ _ _ Hf); [done|lia|lia|]. intros x Hx Hx'. apply Hx', Hres. lia. }
  destruct (fill_files_ok fuel location base s' files) as (i & m' & Hrun & Hdone & Hf'); try done.
  - lia.
  - destruct (decide (n = 0)) as [|Hn0]; [by left|right]. unfold header_of.
    destruct (range_apart base (184 * n) location (4 + 76 * n)); [lia|lia| |lia..].
    intros x Hx Hx'. apply (Hfresh x Hx), Hres. unfold range in Hx'. fold n. lia.
  - intros i f Hi. pose proof (lookup_lt_Some _ _ _ Hi). cbv zeta. destruct (Z.ltb_spec (Z.of_nat i) 0); [lia|].
    unfold names_fit in Hfit. rewrite Forall_lookup in Hfit. destruct (Hfit _ _ Hi) as [Hlen _].
    eapply header_at_frame; [exact Hf|unfold header_of; lia|unfold header_of; lia|done| |by apply Hhdr].
    intros x Hx Hx'. apply Hx', Hres. unfold header_of, range in Hx. lia.
  - exists i, m'. split_and!; [done..|]. eapply frame_weaken; [exact Hf'|].
    unfold headers, range. fold n. intros. lia.
Qed.

Lemma extends_refl s : extends s s.
Proof. split_and!; [apply frame_refl|done..]. Qed.
Lemma extends_initrd s i : alloc_inv s → extends s (set_initrd i s).
Proof.
  intros Hi. split_and!; [apply frame_refl|by apply reserved_stable; [..|apply frame_refl]|done..].
Qed.
Lemma stable_initrd s i l :
  alloc_inv s ∧ room s l → alloc_inv (set_initrd i s) ∧ room (set_initrd i s) l.
Proof.
  intros [Hi Hr]. split.
  - by apply (alloc_inv_stable s); [|done|apply frame_refl].
  - by apply (room_stable s); [done|done|apply frame_refl|].
Qed.

(** What follows the two directories. *)
Definition mount_files (fuel : nat) (location : Z) : K Z :=
  h ← gets (λ s, initrd_header (initrd s));
  k ← load32 (nfiles_ h);
  a ← allocate (sizeof_fs_node ⊗ k) false None;
  n ← gets (λ s, nroot_nodes (initrd s));
  modify (set_root_nodes a.1 n) ;;
  k ← load32 (nfiles_ h);
  modify (set_root_nodes a.1 (s32 k)) ;;
  whileM (Z.to_nat k) (λ i s, i <? ld32 (mem s) (nfiles_ (initrd_header (initrd s))))
    (λ i, fill_file fuel location i ;; mret (i + 1)) 0 ;;
  gets (λ s, initrd_root (initrd s)).

(** The state after the two directories. *)
Record directories_made (s s' : machine) (location : Z) (more : list (Z * bool)) : Prop := {
  dm_extends : extends s s';
  dm_inv : alloc_inv s' ∧ room s' more;
  dm_header : initrd_header (initrd s') = location;
  dm_headers : file_headers (initrd s') = location ⊕ 4;
  dm_root : directory_node (mem s') (initrd_root (initrd s')) initrd_name;
  dm_dev : directory_node (mem s') (initrd_dev (initrd s')) dev;
  dm_dirs : 0 < initrd_root (initrd s') ∧ initrd_root (initrd s') + 184 <= 4294967296 ∧
    0 < initrd_dev (initrd s') ∧ initrd_dev (initrd s') + 184 <= 4294967296;
  dm_own x : range (initrd_root (initrd s')) 184 x ∨ range (initrd_dev (initrd s')) 184 x → reserved s' x;
  dm_new x : range (initrd_root (initrd s')) 184 x ∨ range (initrd_dev (initrd s')) 184 x → ¬ reserved s x;
}.

Lemma make_directories fuel s location more :
  addresses_ok → alloc_inv s → room s ((sizeof_fs_node, false) :: (sizeof_fs_node, false) :: more) →
  literal s lit_initrd initrd_name → literal s lit_dev dev → (6 <= fuel)%nat →
  ∃ s', initialise_initrd fuel location s = mount_files fuel location s' ∧ directories_made s s' location more.
Proof.
  intros Haddr Hinv Hroom Hlit1 Hlit2 Hfuel.
  unfold initialise_initrd. rewrite bind_modify.
  set (s0 := set_headers location (location ⊕ sizeof_initrd_header) s).
  pose proof (extends_initrd s (initrd s0) Hinv) as Hext0. change (set_initrd (initrd s0) s) with s0 in Hext0.
  destruct (stable_initrd s (initrd s0) ((sizeof_fs_node, false) :: (sizeof_fs_node, false) :: more)) as [Hi0 Hr0]; [done|].
  change (set_initrd (initrd s0) s) with s0 in Hi0, Hr0.
  destruct (make_directory_ok fuel s0 set_initrd_root lit_initrd initrd_name ((sizeof_fs_node, false) :: more))
    as (p1 & t1 & s1 & Hrun1 & Hfill1 & Et1 & Es1 & Hext1 & Hnode1 & Hp10 & Hp11 & Hown1 & Hnew1 & Hinv1 & Hroom1);
    [done|done|done|by eapply literal_extends|done|by intros a t; by eexists|].
  destruct (make_directory_ok fuel s1 set_initrd_dev lit_dev dev more)
    as (p2 & t2 & s2 & Hrun2 & Hfill2 & Et2 & Es2 & Hext2 & Hnode2 & Hp20 & Hp21 & Hown2 & Hnew2 & Hinv2 & Hroom2);
    [done|done|done|eapply literal_extends; [exact Hext1|by eapply literal_extends]|cbn; lia|by intros a t; by eexists|].
  exists s2. split.
  - rewrite (bind_done _ _ _ _ _ Hrun1). cbn [fst]. rewrite bind_modify, (bind_done _ _ _ _ _ Hfill1).
    rewrite (bind_done _ _ _ _ _ Hrun2). cbn [fst]. by rewrite bind_modify, (bind_done _ _ _ _ _ Hfill2).
  - assert (initrd_root (initrd s2) = p1) as Er by (rewrite Es2; cbn; by rewrite Et2, Es1).
    assert (initrd_dev (initrd s2) = p2) as Ed by (by rewrite Es2).
    split; rewrite ?Er, ?Ed; try done.
    + eapply extends_trans; [exact Hext0|]. by eapply extends_trans.
    + rewrite Es2; cbn; by rewrite Et2, Es1; cbn; rewrite Et1.
    + rewrite Es2; cbn; by rewrite Et2, Es1; cbn; rewrite Et1.
    + eapply directory_node_extends; [exact Hext2|lia|done|cbn; lia|done|done].
    + intros x [Hx|Hx]; [apply Hext2|]; auto.
    + intros x [Hx|Hx] Hres.
      * apply (Hnew1 x Hx). by apply Hext0.
      * apply (Hnew2 x Hx). by apply Hext1, Hext0.
Qed.

Lemma allocate_extends s size align phys more :
  alloc_inv s → 0 <= size → room s ((size, align) :: more) →
  ∃ p s', allocate size align phys s = Done (p, report p phys) s' ∧ allocated_at s s' size p align ∧
    extends s s' ∧ initrd s' = initrd s.
Proof.
  intros Hi Hs Hr. destruct (allocate_ok s size align phys more Hi Hs Hr) as (p & s' & Hrun & Hat).
  exists p, s'. split; [done|]. split; [done|].
  destruct Hat as [_ _ _ _ Hres Hf (R1 & R2 & R3 & R4 & R5 & R6) _].
  split; [|done]. split_and!; [done| |done..]. intros x Hx. apply Hres. by right.
Qed.

(** The state after the loop, from the state [t] after the last allocation. *)
Lemma mounted_filled s s2 t more location base k m' files :
  let n := Z.of_nat (length files) in
  let s4 := set_root_nodes base n (set_root_nodes base k t) in
  directories_made s s2 location more → allocated_at s2 t (184 * n) base false →
  extends s2 t → initrd t = initrd s2 → 0 <= location → header_of location n <= 4294967296 →
  (∀ x, headers location files x → reserved s x) → nodes_done m' location base files n →
  frame (λ x, headers location files x ∨ range base (184 * n) x) (mem t) m' →
  mounted s (set_mem m' s4) location files.
Proof.
  intros n s4 [Hext _ Eh Ef Hroot Hdev Hdirs Hown Hnew] [Hinv3 [Hb0 Hb1] _ Hfresh Hres3 _ _ _] Hext3 Et
    Hl0 Hl1 Hres Hdone Hf.
  assert (initrd_root (initrd s4) = initrd_root (initrd s2)) as Er by (cbn; by rewrite Et).
  assert (initrd_dev (initrd s4) = initrd_dev (initrd s2)) as Ed by (cbn; by rewrite Et).
  assert (∀ d l, directory_node (mem s2) d l → 0 < d → d + 184 <= 4294967296 → (length l < 128)%nat →
    (∀ x, range d 184 x → reserved s2 x ∧ ¬ reserved s x) → directory_node m' d l) as Hdir.
  { intros d l Hd Hd0 Hd1 Hl Hx. eapply (directory_node_frame _ (mem t)); [exact Hf|lia|done|done| |].
    - intros x Hx1 [Hx2|Hx2]; [by eapply Hx, Hres|by eapply Hfresh; [exact Hx2|apply Hx]].
    - by eapply (directory_node_extends s2 t); [|lia|done|done|intros x Hx1; apply Hx|]. }
  assert (frame (reserved t) (mem t) m') as Hft.
  { eapply frame_weaken; [exact Hf|]. intros y _ [Hy|Hy]; apply Hres3; [right; by apply Hext, Hres|by left]. }
  split.
  - change (initrd (set_mem m' s4)) with (initrd s4). rewrite Er. apply Hdir; [done|lia|lia|cbn; lia|]. auto.
  - change (initrd (set_mem m' s4)) with (initrd s4). rewrite Ed. apply Hdir; [done|lia|lia|cbn; lia|]. auto.
  - done.
  - intros j f Hj. pose proof (lookup_lt_Some _ _ _ Hj) as Hjl.
    pose proof (Hdone j f Hj) as Hd. cbv zeta in Hd. fold n in Hd. destruct (Z.ltb_spec (Z.of_nat j) n); [|lia].
    unfold root_node, file_header, sizeof_fs_node, sizeof_file_header.
    cbn [initrd set_mem s4 set_root_nodes set_initrd file_headers root_nodes mem]. rewrite Et, Ef.
    unfold header_of in *. rewrite w32_add_l, !w32_small by lia. exact Hd.
  - cbn. lia.
  - apply (frame_trans _ _ (mem t)).
    + eapply frame_weaken; [eapply extends_trans; [exact Hext|exact Hext3]|]. intros x _ Hx. by left.
    + eapply frame_weaken; [exact Hf|]. intros x _ [Hx|Hx]; [by right|left].
      intros Hs. apply (Hfresh x Hx). by apply Hext.
  - change (initrd (set_mem m' s4)) with (initrd s4). rewrite Er, Ed. done.
  - intros x Hx. apply (reserved_stable t); [done|done|exact Hft|by apply Hext3, Hext].
  - by apply (alloc_inv_stable t).
  - destruct (extends_trans _ _ _ Hext Hext3) as (_ & _ & Hsame). exact Hsame.
Qed.

Lemma mount_files_ok fuel s s2 location files :
  let n := Z.of_nat (length files) in
  directories_made s s2 location [(sizeof_fs_node * n, false)] → n < 2147483648 → 184 * n < 4294967296 →
  addresses_ok → names_fit fuel files →
  0 <= location → header_of location n <= 4294967296 →
  ramdisk_at (mem s) location files → (∀ x, headers location files x → reserved s x) →
  ∃ s', mount_files fuel location s2 = Done (initrd_root (initrd s')) s' ∧ mounted s s' location files.
Proof.
  intros n Hdm Hn31 Hn Haddr Hfit Hl0 Hl1 Hdisk Hres. pose proof Hdm as [Hext [Hi Hr] Eh Ef _ _ _ _ _].
  assert (Hcount : ∀ t, extends s t → ld32 (mem t) location = n).
  { intros t (Hf & _). destruct Hdisk as [Hc _]. unfold n. rewrite <- Hc. unfold header_of in Hl1.
    eapply frame_ld32; [exact Hf|lia|lia|]. intros x Hx Hx'. apply Hx', Hres. unfold headers, range. lia. }
  destruct (allocate_extends s2 (184 * n) false None []) as (base & t & Hrun & Hat & Hext3 & Et);
    [done|lia|exact Hr|].
  pose proof Hat as [Hinv3 [Hb0 Hb1] _ Hfresh _ _ _ _].
  unfold mount_files. rewrite bind_gets, Eh. unfold nfiles_. rewrite bind_load32, (Hcount _ Hext).
  unfold sizeof_fs_node at 1. rewrite (w32_small (184 * n)) by lia. rewrite (bind_done _ _ _ _ _ Hrun). cbn [fst].
  rewrite bind_gets, bind_modify, bind_load32.
  set (s3 := set_root_nodes base (nroot_nodes (initrd t)) t).
  assert (extends s s3) as Hexts3.
  { eapply extends_trans; [exact Hext|]. eapply extends_trans; [exact Hext3|]. by apply extends_initrd. }
  rewrite (Hcount _ Hexts3), bind_modify, s32_small by lia. set (s4 := set_root_nodes base n s3).
  pose proof (extends_initrd t (initrd s4) Hinv3) as Hext4.
  change (set_initrd (initrd s4) t) with s4 in Hext4.
  destruct (fill_files_mount fuel s s4 location base files)
    as (i & m' & Hloop & Hdone & Hf); try done.
  - eapply extends_trans; [exact Hext|]. by eapply extends_trans.
  - intros x Hx Hx'. apply (Hfresh x Hx). by apply Hext.
  - cbn. by rewrite Et, Eh.
  - cbn. by rewrite Et, Ef.
  - rewrite (bind_done _ _ _ _ _ Hloop). exists (set_mem m' s4). split; [done|].
    by eapply mounted_filled.
Qed.

(** What the mount allocates: two directories and the nodes of [n] files. *)
Definition mount_requests (n : Z) : list (Z * bool) :=
  [(sizeof_fs_node, false); (sizeof_fs_node, false); (sizeof_fs_node * n, false)].

(** What the loader and the allocator provide. *)
Record mountable (fuel : nat) (s : machine) (location : Z) (files : list file) : Prop := {
  mo_addresses : addresses_ok;
  mo_inv : alloc_inv s;
  mo_room : room s (mount_requests (Z.of_nat (length files)));
  mo_lit_initrd : literal s lit_initrd initrd_name;
  mo_lit_dev : literal s lit_dev dev;
  mo_fuel : (6 <= fuel)%nat;
  mo_names : names_fit fuel files;
  mo_location : 0 <= location ∧ header_of location (Z.of_nat (length files)) <= 4294967296;
  mo_count : 184 * Z.of_nat (length files) < 4294967296;
  mo_disk : ramdisk_at (mem s) location files;
  mo_reserved x : headers location files x → reserved s x;
  mo_apart x : range lit_dev 4 x → ¬ headers location files x;
}.

Lemma initialise_initrd_ok fuel s location files :
  mountable fuel s location files →
  ∃ s', initialise_initrd fuel location s = Done (initrd_root (initrd s')) s' ∧ mounted s s' location files.
Proof.
  intros []. set (n := Z.of_nat (length files)) in *.
  destruct (make_directories fuel s location [(sizeof_fs_node * n, false)]) as (s2 & -> & Hd); try done.
  eapply mount_files_ok; [exact Hd|lia|done|done|done|apply mo_location0|apply mo_location0|done|done].
Qed.

(** ** A mounted ramdisk, seen through the calls *)
Lemma mounted_names s s' location files :
  mounted s s' location files → names_at s' (fl_name <$> files).
Proof.
  intros Hm. split; [rewrite length_fmap; by apply Hm|].
  intros i l Hi. apply list_lookup_fmap_Some in Hi as (f & -> & Hf). by apply (mt_files _ _ _ _ Hm).
Qed.

Lemma field_of m n l o v : fields_at m n l → (o, v) ∈ l → ld32 m (n + o) = v.
Proof. unfold fields_at. rewrite Forall_forall. intros Hl Hov. by apply (Hl _ Hov). Qed.

Ltac field := eapply field_of; [eassumption|]; unfold file_fields, directory_fields; set_solver.

Lemma directory_fields_of m n l :
  0 <= n → n + 184 <= 4294967296 → directory_node m n l →
  ld32 m (n_flags n) = FS_DIRECTORY ∧ ld32 m (n_readdir n) = initrd_readdir_address ∧
  ld32 m (n_finddir n) = initrd_finddir_address.
Proof.
  intros Hn0 Hn1 [_ Hf]. unfold n_flags, n_readdir, n_finddir. rewrite !w32_small by lia.
  split_and!; field.
Qed.

Lemma file_fields_of m n f i :
  0 <= n → n + 184 <= 4294967296 → file_node m n f i →
  ld32 m (n_inode n) = i ∧ ld32 m (n_read n) = initrd_read_address.
Proof.
  intros Hn0 Hn1 [_ Hf]. unfold n_inode, n_read. rewrite !w32_small by lia. split; field.
Qed.

(** The root is looked up through [finddir_fs], a file read through [read_fs]. *)
Lemma finddir_fs_mounted fuel s s' location files i f name :
  mounted s s' location files → addresses_ok → initrd_readdir_address ≠ 0 → initrd_finddir_address ≠ 0 →
  cstr (mem s') lit_dev dev → cstr (mem s') name (fl_name f) → (length (fl_name f) <= fuel)%nat →
  files !! i = Some f → fl_name f ≠ dev → (∀ j g, (j < i)%nat → files !! j = Some g → fl_name g ≠ fl_name f) →
  @finddir_fs (initrd_calls fuel) (initrd_root (initrd s')) name s' = Done (root_node s' (Z.of_nat i)) s'.
Proof.
  intros Hm _ Hr Hd Hdev Hname Hfuel Hi Hne Hfirst.
  destruct (directory_fields_of (mem s') (initrd_root (initrd s')) initrd_name) as (H2 & H3 & H4);
    [apply Z.lt_le_incl, Hm|apply Hm|apply Hm|].
  unfold finddir_fs. rewrite !bind_load32, H2, H3. rewrite (proj2 (Z.eqb_neq _ 0) Hr).
  change (negb (Z.land FS_DIRECTORY 7 =? FS_DIRECTORY) || false) with false. cbv iota.
  rewrite bind_load32, H4, (proj2 (Z.eqb_neq _ 0) Hd). cbn [negb call_finddir initrd_calls].
  rewrite Z.eqb_refl.
  rewrite (initrd_finddir_eq fuel s' _ name (fl_name f) (fl_name <$> files)); [|by eapply mounted_names|done..].
  rewrite bool_decide_eq_false_2 by tauto.
  assert (list_find (λ k, fl_name f = k) (fl_name <$> files) = Some (i, fl_name f)) as ->; [|done].
  apply list_find_Some. split_and!; [by rewrite list_lookup_fmap, Hi|done|].
  intros j k Hj Hlt Heq. apply list_lookup_fmap_Some in Hj as (g & -> & Hg). by eapply Hfirst.
Qed.

(** The node of a file leads to its header. *)
Lemma mounted_file s s' location files i f :
  mounted s s' location files → files !! i = Some f →
  let node := root_node s' (Z.of_nat i) in
  ld32 (mem s') (n_read node) = initrd_read_address ∧
  file_header s' (ld32 (mem s') (n_inode node)) = file_header s' (Z.of_nat i).
Proof.
  intros Hm Hi node. destruct (mt_files _ _ _ _ Hm i f Hi) as [Hnode _].
  apply lookup_lt_Some in Hi as Hlt. pose proof (mt_nodes _ _ _ _ Hm) as [Hn0 Hn1].
  assert (node = root_nodes (initrd s') + 184 * Z.of_nat i) as En
    by (apply w32_small; unfold sizeof_fs_node; lia).
  destruct (file_fields_of (mem s') node f (Z.of_nat i)) as [H2 H3]; [lia|lia|exact Hnode|].
  by rewrite H2, H3.
Qed.

Lemma mounted_lit_dev fuel s s' location files :
  mounted s s' location files → mountable fuel s location files → cstr (mem s') lit_dev dev.
Proof.
  intros Hm Hmo. destruct (mo_lit_dev _ _ _ _ Hmo) as (Hc & Hp0 & Hp1 & _ & Hres).
  eapply cstr_frame; [apply Hm|done|done| |exact Hc]. cbn [length dev] in *.
  intros x Hx [Hx'|Hx']; [apply Hx', Hres|eapply (mo_apart _ _ _ _ Hmo); [|exact Hx']];
    unfold range; cbn in *; lia.
Qed.

(** The header of a mounted file. *)
Lemma file_offset_of fuel s s' location files i f :
  mounted s s' location files → mountable fuel s location files → files !! i = Some f →
  location + fl_offset f + fl_length f < 4294967296 →
  ld32 (mem s') (f_offset (file_header s' (Z.of_nat i))) = location + fl_offset f ∧
  ld32 (mem s') (f_length (file_header s' (Z.of_nat i))) = fl_length f ∧ 0 <= fl_offset f.
Proof.
  intros Hm Hmo Hi Ha. destruct (mt_files _ _ _ _ Hm i f Hi) as (_ & _ & Ho & Hl).
  cbn [fl_offset fl_length] in *. unfold f_offset, f_length.
  pose proof (mo_disk _ _ _ _ Hmo) as [_ Hhdr]. destruct (Hhdr i f Hi) as (_ & Ho' & Hl').
  pose proof (ld32_range (mem s) (header_of location (Z.of_nat i) + 68)) as R1. rewrite Ho' in R1.
  pose proof (ld32_range (mem s) (header_of location (Z.of_nat i) + 72)) as R2. rewrite Hl' in R2.
  pose proof (mo_location _ _ _ _ Hmo) as [Hloc _].
  rewrite !ld32_w32, Ho, Hl, w32_small by lia. split_and!; [lia|done|lia].
Qed.

(** Looking a file up and reading it, once the ramdisk is mounted. *)
Lemma mounted_reads fuel s s' location files i f :
  mounted s s' location files → mountable fuel s location files → files !! i = Some f → fl_name f ≠ dev →
  (∀ j g, (j < i)%nat → files !! j = Some g → fl_name g ≠ fl_name f) →
  initrd_read_address ≠ 0 → initrd_readdir_address ≠ 0 → initrd_finddir_address ≠ 0 →
  let a := location + fl_offset f in
  a + fl_length f < 4294967296 →
  (∀ x, range a (fl_length f) x → reserved s x ∧ ¬ headers location files x) →
  ∀ name offset size buffer,
    cstr (mem s') name (fl_name f) → 0 <= offset <= fl_length f → 0 <= size → offset + size < 4294967296 →
    0 <= buffer → buffer + size <= 4294967296 → buffer + size <= a ∨ a + fl_length f <= buffer →
    ∃ node m', @finddir_fs (initrd_calls fuel) (initrd_root (initrd s')) name s' = Done node s' ∧
      @read_fs (initrd_calls fuel) node offset size buffer s'
        = Done (Z.min size (fl_length f - offset)) (set_mem m' s') ∧
      ∀ k, 0 <= k < Z.min size (fl_length f - offset) → ld8 m' (buffer + k) = ld8 (mem s) (a + offset + k).
Proof.
  intros Hm Hmo Hi Hdev Hfirst Hra Hrd Hfd a Ha Hcontent name offset size buffer Hname Hoff Hsz Hsum Hb0 Hb1 Hap.
  pose proof (mo_names _ _ _ _ Hmo) as Hfit. unfold names_fit in Hfit. rewrite Forall_lookup in Hfit.
  destruct (mounted_file _ _ _ _ i f Hm Hi) as [Hread Hheader].
  set (node := root_node s' (Z.of_nat i)) in *.
  destruct (file_offset_of _ _ _ _ _ i f Hm Hmo Hi Ha) as (Ho & Hl & Ho0).
  destruct (initrd_read_inside node offset size buffer s') as (m' & Hrd' & Hcopy);
    rewrite ?Hheader, ?Ho, ?Hl in *; [lia..|].
  exists node, m'. split; [|split].
  - eapply finddir_fs_mounted; try done; [apply Hmo|by eapply mounted_lit_dev|by eapply Hfit].
  - unfold read_fs. rewrite bind_load32, Hread, (proj2 (Z.eqb_neq _ 0) Hra). cbn [negb call_read initrd_calls].
    by rewrite Z.eqb_refl.
  - intros k Hk. destruct Hcopy as [_ ->]; [|done]. pose proof (mo_location _ _ _ _ Hmo) as [Hloc _].
    fold a. assert (0 <= a) by (unfold a; lia).
    rewrite (frame_ld8 _ _ _ _ (mt_frame _ _ _ _ Hm)); [done|lia|].
    intros [Hx|Hx]; [apply Hx|]; eapply Hcontent; try exact Hx; unfold range; lia.
Qed.

(** What the file-system calls see does not depend on [fs_root]. *)
Lemma mounted_initrd s s' location files g :
  (∀ i, initrd_root (g i) = initrd_root i ∧ initrd_dev (g i) = initrd_dev i ∧ nroot_nodes (g i) = nroot_nodes i ∧
    file_headers (g i) = file_headers i ∧ root_nodes (g i) = root_nodes i) →
  mounted s s' location files → mounted s (set_initrd (g (initrd s')) s') location files.
Proof.
  intros Hg [M1 M2 M3 M4 M5 M6 M7 M8 M9 M10].
  destruct (Hg (initrd s')) as (E1 & E2 & E3 & E4 & E5).
  split; cbn [initrd set_initrd mem]; rewrite ?E1, ?E2, ?E3, ?E5; try done.
  - intros i f Hi. destruct (M4 i f Hi) as [Hn Hh]. unfold root_node, file_header in *.
    cbn [initrd set_initrd]. by rewrite E4, E5.
  - intros x Hx. by apply (reserved_stable s'); [done|done|apply frame_refl|apply M8].
  - by apply (alloc_inv_stable s'); [done|done|apply frame_refl].
Qed.
End mount.

(** The ramdisk of [Initrd.v], not yet mounted, and the placement allocator. *)
#[local] Existing Instance sample_initrd_image.
#[local] Existing Instance placement_allocator.
Definition sample_file : file := MkFile [97] 0x50 2.
Definition sample_unmounted : machine := sample (sample_disk 0x50).

Lemma sample_mountable : mountable 6 sample_unmounted 0x20000 [sample_file].
Proof.
  split.
  - zdecide.
  - split; [done|zdecide].
  - by vm_compute.
  - split; [by vm_compute|]. split_and!; [done|done|cbn; lia|].
    intros x Hx. unfold range in Hx. cbn in *. lia.
  - split; [by vm_compute|]. split_and!; [done|done|cbn; lia|].
    intros x Hx. unfold range in Hx. cbn in *. lia.
  - done.
  - apply Forall_singleton. cbn. lia.
  - by vm_compute.
  - done.
  - split; [by vm_compute|]. intros i f Hi. apply list_lookup_singleton_Some in Hi as [-> <-].
    by vm_compute.
  - intros x Hx. unfold headers, range in Hx. cbn in *. lia.
  - intros x Hx Hx'. unfold headers, range in *. cbn in *. lia.
Qed.

(** ** Properties *)



(** C12. Mount, look up, read: after [initialise_initrd], [finddir_fs] on the root
    finds a file by its name, and [read_fs] on the node it returns, from
    [offset] within the file, copies the bytes that the ramdisk held at the
    file's offset before it was mounted, as many as asked for or as the file
    has left.  This is so for a file that can be found, that is one not named
    "dev", which is the directory's name, and without an earlier file of the
    same name; whose content lies in memory in use, apart from the ramdisk's
    headers, below the end of the address space; for a buffer apart from the
    content; and for a request with [offset + size < 2^32], since from there on
    the length is not respected ([initrd_read_copies]). *)
Theorem mounted_files_read_back `{Initrd_image} `{AS : AllocatorSpec} `{!AllocatorLaws} fuel s location files i f :
  mountable fuel s location files → files !! i = Some f → fl_name f ≠ dev →
  (∀ j g, (j < i)%nat → files !! j = Some g → fl_name g ≠ fl_name f) →
  initrd_read_address ≠ 0 → initrd_readdir_address ≠ 0 → initrd_finddir_address ≠ 0 →
  let a := location + fl_offset f in
  a + fl_length f < 4294967296 →
  (∀ x, range a (fl_length f) x → reserved s x ∧ ¬ headers location files x) →
  ∃ s', initialise_initrd fuel location s = Done (initrd_root (initrd s')) s' ∧
    ∀ name offset size buffer,
      cstr (mem s') name (fl_name f) → 0 <= offset <= fl_length f → 0 <= size → offset + size < 4294967296 →
      0 <= buffer → buffer + size <= 4294967296 → buffer + size <= a ∨ a + fl_length f <= buffer →
      ∃ node m', @finddir_fs (initrd_calls fuel) (initrd_root (initrd s')) name s' = Done node s' ∧
        @read_fs (initrd_calls fuel) node offset size buffer s'
          = Done (Z.min size (fl_length f - offset)) (set_mem m' s') ∧
        ∀ k, 0 <= k < Z.min size (fl_length f - offset) → ld8 m' (buffer + k) = ld8 (mem s) (a + offset + k).
Proof.
  intros Hmo Hi Hdev Hfirst Hra Hrd Hfd a Ha Hcontent.
  destruct (initialise_initrd_ok fuel s location files Hmo) as (s' & Hrun & Hm).
  exists s'. split; [exact Hrun|]. by eapply mounted_reads.
Qed.
Lemma mounted_files_read_back_witness :
  ∃ s', initialise_initrd 6 0x20000 sample_unmounted = Done (initrd_root (initrd s')) s' ∧
    ∀ name, cstr (mem s') name [97] →
      ∃ node m', @read_fs (initrd_calls 6) node 1 5 0x60000 s' = Done 1 (set_mem m' s') ∧ ld8 m' 0x60000 = 8.
Proof.
  destruct (mounted_files_read_back 6 sample_unmounted 0x20000 [sample_file] 0 sample_file sample_mountable)
    as (s' & Hrun & Hread); [done|done|intros; lia|done..|cbn; lia| |].
  { intros x Hx. unfold headers, range in *. cbn in *. lia. }
  exists s'. split; [exact Hrun|]. intros name Hname.
  destruct (Hread name 1 5 0x60000 Hname) as (node & m' & _ & Hrd & Hc); [cbn; lia|lia|lia|lia|lia|cbn; lia|].
  exists node, m'. split; [exact Hrd|]. refine (eq_trans (Hc 0 _) _).
  - zdecide.
  - vm_compute. reflexivity.
Defined.
