(* ===== verification/Paging.v ===== *)
(** * kernel/paging.cpp: page directories and tables

    [get_page], [switch_page_directory], [clone_table] and [clone_directory],
    written against the [Allocator] interface.  A page directory is 1024 table
    pointers, the 1024 physical addresses of the tables with their flags, and
    its own physical address (offsets 0, 4096 and 8192). *)
From S2P Require Import Prelude Memory LibString OrderedList Machine Console Stdio Frames Kmalloc.
Local Open Scope Z_scope.
Local Open Scope u32_scope.

Definition sizeof_PageTable : Z := 4096.
Definition sizeof_PageDirectory : Z := 8196.

(** [&dir->Tables[i]], [&dir->TablesPhysical[i]], [&dir->PhysicalAddress] and
    [&table->Pages[i]]. *)
Definition Tables (dir i : Z) : Z := dir ⊕ 4 * i.
Definition TablesPhysical (dir i : Z) : Z := dir ⊕ (4096 + 4 * i).
Definition PhysicalAddress (dir : Z) : Z := dir ⊕ 8192.
Definition Pages (table i : Z) : Z := table ⊕ 4 * i.

Definition switch_page_directory (dir : Z) (s : machine) : machine :=
  let s := set_current_directory dir s in
  set_control (Z.lor (cr0 (pg s)) 0x80000000) (ld32 (mem s) (PhysicalAddress dir)) s.

(** [if (src->F) table->F = 1;] *)
Definition copy_flag (src dst : Z) (flag : Page → bool) (set : Page → Page) : K unit :=
  p ← load_page src;
  if flag p then q ← load_page dst; store_page dst (set q) else mret tt.
Definition set_Present (p : Page) : Page :=
  MkPage true (ReadWrite p) (User p) (Accessed p) (Dirty p) (Unused p) (Frame p).
Definition set_ReadWrite (p : Page) : Page :=
  MkPage (Present p) true (User p) (Accessed p) (Dirty p) (Unused p) (Frame p).
Definition set_User (p : Page) : Page :=
  MkPage (Present p) (ReadWrite p) true (Accessed p) (Dirty p) (Unused p) (Frame p).
Definition set_Accessed (p : Page) : Page :=
  MkPage (Present p) (ReadWrite p) (User p) true (Dirty p) (Unused p) (Frame p).
Definition set_Dirty (p : Page) : Page :=
  MkPage (Present p) (ReadWrite p) (User p) (Accessed p) true (Unused p) (Frame p).

Section paging.
Context `{Image} `{Allocator}.

(** [kmalloc_ap(size, &tmp)] with [tmp] uninitialised: the pointer, and the
    content of [tmp] afterwards. *)
Definition kmalloc_ap_tmp (size tmp : Z) : K (Z * Z) :=
  r ← allocate size true (Some tmp);
  mret (r.1, default tmp r.2).

Definition get_page (address : Z) (make : bool) (dir : Z) : K Z :=
  let address := address / 0x1000 in
  let table_idx := address / 1024 in
  t ← load32 (Tables dir table_idx);
  if negb (t =? 0) then mret (Pages t (address mod 1024))
  else if make then
    r ← kmalloc_ap_tmp sizeof_PageTable indeterminate;
    let '(p, tmp) := r in
    store32 (Tables dir table_idx) p ;;
    t ← load32 (Tables dir table_idx);
    on_mem (λ m, memset m t 0 0x1000) ;;
    store32 (TablesPhysical dir table_idx) (Z.lor tmp 0x7) ;;
    t ← load32 (Tables dir table_idx);
    mret (Pages t (address mod 1024))
  else mret 0.

(** One entry of [clone_table]. *)
Definition clone_entry (src table i : Z) : K unit :=
  p ← load_page (Pages src i);
  if Frame p =? 0 then mret tt
  else
    alloc_frame (Pages table i) false false ;;
    copy_flag (Pages src i) (Pages table i) Present set_Present ;;
    copy_flag (Pages src i) (Pages table i) ReadWrite set_ReadWrite ;;
    copy_flag (Pages src i) (Pages table i) User set_User ;;
    copy_flag (Pages src i) (Pages table i) Accessed set_Accessed ;;
    copy_flag (Pages src i) (Pages table i) Dirty set_Dirty ;;
    p ← load_page (Pages src i);
    q ← load_page (Pages table i);
    modify (add_event (ev_copy_page (Frame p ⊗ 0x1000) (Frame q ⊗ 0x1000))).

(** The table, and the content of [*physAddr] afterwards.  The size given to
    [memset] is the source's: that of a directory. *)
Definition clone_table (src physAddr : Z) : K (Z * Z) :=
  r ← kmalloc_ap_tmp sizeof_PageTable physAddr;
  let '(table, physAddr) := r in
  on_mem (λ m, memset m table 0 sizeof_PageDirectory) ;;
  forM 1024 0 (clone_entry src table) ;;
  mret (table, physAddr).

(** One table of [clone_directory]. *)
Definition clone_slot (src dir i : Z) : K unit :=
  t ← load32 (Tables src i);
  if t =? 0 then mret tt
  else
    kd ← gets (λ s, kernel_directory (pg s));
    kt ← load32 (Tables kd i);
    if kt =? t then
      store32 (Tables dir i) t ;;
      ph ← load32 (TablesPhysical src i);
      store32 (TablesPhysical dir i) ph
    else
      r ← clone_table t indeterminate;
      store32 (Tables dir i) r.1 ;;
      store32 (TablesPhysical dir i) (Z.lor r.2 0x07).

Definition clone_directory (src : Z) : K Z :=
  r ← kmalloc_ap_tmp sizeof_PageDirectory indeterminate;
  let '(dir, phys) := r in
  on_mem (λ m, memset m dir 0 sizeof_PageDirectory) ;;
  let offset := TablesPhysical dir 0 ⊖ dir in
  store32 (PhysicalAddress dir) (phys ⊕ offset) ;;
  forM 1024 0 (clone_slot src dir) ;;
  mret dir.
End paging.

(** ** Lemmas: the slots of a directory *)
Definition dir_range (dir : Z) : Z → Prop := range dir sizeof_PageDirectory.
Definition dir_ok (dir : Z) : Prop := 0 < dir ∧ dir + sizeof_PageDirectory <= 4294967296.

Lemma Tables_val dir i : dir_ok dir → 0 <= i < 1024 → Tables dir i = dir + 4 * i.
Proof. intros [? ?] ?. unfold Tables, sizeof_PageDirectory in *. apply w32_small. lia. Qed.
Lemma TablesPhysical_val dir i :
  dir_ok dir → 0 <= i < 1024 → TablesPhysical dir i = dir + 4096 + 4 * i.
Proof. intros [? ?] ?. unfold TablesPhysical, sizeof_PageDirectory in *. rewrite w32_small; lia. Qed.
Lemma PhysicalAddress_val dir : dir_ok dir → PhysicalAddress dir = dir + 8192.
Proof. intros [? ?]. unfold PhysicalAddress, sizeof_PageDirectory in *. apply w32_small. lia. Qed.

(** The indices an address selects. *)
Lemma address_index a : 0 <= a < 4294967296 → 0 <= a / 4096 / 1024 < 1024.
Proof. intros. Z.div_mod_to_equations. lia. Qed.

Definition directory_of (s : machine) (dir : Z) (address : Z) : Z :=
  ld32 (mem s) (Tables dir (address / 4096 / 1024)).

Section get_page.
Context `{Image} `{AS : AllocatorSpec} `{!AllocatorLaws}.

Lemma get_page_present s address make dir :
  directory_of s dir address ≠ 0 →
  get_page address make dir s =
    Done (Pages (directory_of s dir address) (address / 4096 mod 1024)) s.
Proof.
  intros Ht. unfold get_page, load32, directory_of in *. rewrite bind_gets.
  destruct (Z.eqb_spec (ld32 (mem s) (Tables dir (address / 4096 / 1024))) 0); done.
Qed.

Lemma get_page_absent s address dir :
  directory_of s dir address = 0 → get_page address false dir s = Done 0 s.
Proof. intros Ht. unfold get_page, load32, directory_of in *. by rewrite bind_gets, Ht. Qed.

(** The content of a variable that held [tmp], after [kmalloc_ap] returned [p]. *)
Definition reported (p tmp : Z) : Z := default tmp (report p (Some tmp)).

Lemma kmalloc_ap_tmp_ok s size tmp l :
  alloc_inv s → 0 <= size → room s ((size, true) :: l) →
  ∃ p s', kmalloc_ap_tmp size tmp s = Done (p, reported p tmp) s' ∧ allocated_at s s' size p true.
Proof.
  intros Hi Hsz Hr. destruct (allocate_ok s size true (Some tmp) l Hi Hsz Hr) as (p & s' & Hal & Hat).
  exists p, s'. split; [|done].
  unfold kmalloc_ap_tmp. by rewrite (bind_done _ _ _ _ _ Hal).
Qed.

(** The two words of the directory that [get_page] writes. *)
Definition slot_words (dir i : Z) : Z → Prop :=
  λ x, range (dir + 4 * i) 4 x ∨ range (dir + 4096 + 4 * i) 4 x.

(** What creating a table does. *)
Record table_made (s s' : machine) (dir i t : Z) : Prop := {
  tm_table : 0 < t ∧ t + 4096 <= 4294967296 ∧ t mod 4096 = 0;
  tm_slot : ld32 (mem s') (Tables dir i) = t;
  tm_zero : ∀ x, range t 4096 x → ld8 (mem s') x = 0;
  tm_inv : alloc_inv s';
  tm_reserved : ∀ x, range t 4096 x ∨ reserved s x → reserved s' x;
  tm_fresh : ∀ x, range t 4096 x → ¬ reserved s x;
  tm_frame : frame (λ x, ¬ reserved s x ∨ slot_words dir i x) (mem s) (mem s');
  tm_rest : same_but_kmem s s';
}.

(** The physical word written with the table: present, writable, user. *)
Definition flagged_physical (s' : machine) (dir i t : Z) : Prop :=
  ld32 (mem s') (TablesPhysical dir i) = w32 (Z.lor (reported t indeterminate) 7).

(** A block from the allocator is clear of a directory that was reserved. *)
Lemma fresh_outside s s' size p align d :
  allocated_at s s' size p align → (∀ x, dir_range d x → reserved s x) → 0 < size →
  d + sizeof_PageDirectory <= p ∨ p + size <= d.
Proof.
  intros Hat Hres Hsz. pose proof (al_fresh _ _ _ _ _ Hat) as Hfr.
  unfold dir_range, range, sizeof_PageDirectory in *.
  destruct (decide (d + 8196 <= p)); [by left|]. destruct (decide (p + size <= d)); [by right|].
  exfalso. apply (Hfr (Z.max p d)); [lia|]. apply Hres. lia.
Qed.

(** The memory in which [get_page] has cleared the table at [t] and stored its
    two addresses. *)
Definition with_table (m : memory) (dir i t v : Z) : memory :=
  st32 (memset (st32 m (Tables dir i) t) t 0 4096).1 (TablesPhysical dir i) v.

Lemma with_table_spec m dir i t v :
  dir_ok dir → 0 <= i < 1024 → 0 < t → t + 4096 <= 4294967296 →
  dir + sizeof_PageDirectory <= t ∨ t + 4096 <= dir →
  ld32 (with_table m dir i t v) (Tables dir i) = t ∧
  ld32 (with_table m dir i t v) (TablesPhysical dir i) = w32 v ∧
  (∀ x, range t 4096 x → ld8 (with_table m dir i t v) x = 0) ∧
  frame (λ x, range t 4096 x ∨ slot_words dir i x) m (with_table m dir i t v).
Proof.
  intros Hd Hi Ht0 Ht1 Hap. pose proof Hd as [Hd0 Hd1]. unfold sizeof_PageDirectory in *.
  unfold with_table. rewrite Tables_val, TablesPhysical_val by done.
  pose proof (memset_spec (st32 m (dir + 4 * i) t) t 0 4096) as [Hmf Hmz]; [lia..|].
  set (m3 := (memset _ t 0 4096).1) in *. split_and!.
  - rewrite ld32_st32_near_ne by lia.
    rewrite (frame_ld32 _ _ _ _ Hmf) by (unfold range; lia). by rewrite ld32_st32_eq, w32_small by lia.
  - by rewrite ld32_st32_eq.
  - intros x Hx. transitivity (ld8 m3 x); [|by rewrite (Hmz x Hx)]. unfold range in Hx.
    apply (frame_st32 (range (dir + 4096 + 4 * i) 4)); [apply frame_refl|unfold range; lia..].
  - apply frame_st32; [|unfold slot_words, range; lia..].
    eapply frame_trans; [|eapply frame_weaken; [apply Hmf|by left]].
    apply frame_st32; [apply frame_refl|unfold slot_words, range; lia..].
Qed.

Lemma get_page_make_from s address dir t s1 :
  allocate sizeof_PageTable true (Some indeterminate) s = Done (t, report t (Some indeterminate)) s1 →
  allocated_at s s1 sizeof_PageTable t true →
  dir_ok dir → (∀ x, dir_range dir x → reserved s x) →
  0 <= address < 4294967296 → directory_of s dir address = 0 →
  ∃ s', get_page address true dir s = Done (Pages t (address / 4096 mod 1024)) s' ∧
    table_made s s' dir (address / 4096 / 1024) t ∧
    flagged_physical s' dir (address / 4096 / 1024) t ∧ kmem s' = kmem s1.
Proof.
  intros Halloc Hat Hd Hres Ha Ht. pose proof (address_index address Ha) as Hidx.
  set (i := address / 4096 / 1024) in *. unfold directory_of in Ht. fold i in Ht.
  assert (kmalloc_ap_tmp sizeof_PageTable indeterminate s = Done (t, reported t indeterminate) s1) as Hal
    by (unfold kmalloc_ap_tmp; by rewrite (bind_done _ _ _ _ _ Halloc)).
  set (tmp := reported t indeterminate) in *.
  destruct (al_range _ _ _ _ _ Hat) as [Ht0 Ht1]. pose proof (al_fresh _ _ _ _ _ Hat) as Hfr.
  pose proof (fresh_outside _ _ _ _ _ dir Hat Hres ltac:(done)) as Hap.
  destruct (with_table_spec (mem s1) dir i t (Z.lor tmp 7)) as (Hslot & Hphys & Hzero & Hf1); [done..|].
  assert (Hf1' : frame (reserved s1) (mem s1) (with_table (mem s1) dir i t (Z.lor tmp 7))).
  { eapply frame_weaken; [exact Hf1|].
    intros x _ [Hx|Hx]; apply (al_reserved _ _ _ _ _ Hat); [by left|right; apply Hres].
    unfold slot_words, range, dir_range, range, sizeof_PageDirectory in *. lia. }
  exists (set_mem (with_table (mem s1) dir i t (Z.lor tmp 7)) s1). split; [|split; [|split; [|done]]].
  - unfold get_page. fold i. unfold load32, store32. rewrite bind_gets, Ht. cbn [Z.eqb negb].
    rewrite (bind_done _ _ _ _ _ Hal). cbv beta iota. rewrite bind_modify, bind_gets, bind_memset.
    cbn [mem set_mem]. rewrite ld32_st32_eq, w32_small by (unfold sizeof_PageTable in *; lia).
    rewrite bind_modify, bind_gets. cbn [mem set_mem]. fold (with_table (mem s1) dir i t (Z.lor tmp 7)).
    by rewrite Hslot.
  - split; cbn [mem set_mem]; [|done|done| | |done| |apply Hat].
    + split_and!; [done..|by apply (al_aligned _ _ _ _ _ Hat)].
    + by apply (alloc_inv_stable s1); [apply Hat|done|].
    + intros x Hx. apply (reserved_stable s1); [apply Hat|done..|]. by apply (al_reserved _ _ _ _ _ Hat).
    + eapply frame_trans; [eapply frame_weaken; [apply Hat|by left]|].
      eapply frame_weaken; [exact Hf1|]. intros x _ [Hx|Hx]; [left; by apply Hfr|by right].
  - done.
Qed.

Lemma get_page_make s address dir :
  alloc_inv s → room s [(sizeof_PageTable, true)] → dir_ok dir → (∀ x, dir_range dir x → reserved s x) →
  0 <= address < 4294967296 → directory_of s dir address = 0 →
  ∃ t s', get_page address true dir s = Done (Pages t (address / 4096 mod 1024)) s' ∧
    table_made s s' dir (address / 4096 / 1024) t ∧
    flagged_physical s' dir (address / 4096 / 1024) t.
Proof.
  intros Hi Hr Hd Hres Ha Ht.
  destruct (allocate_ok s sizeof_PageTable true (Some indeterminate) [] Hi ltac:(done) Hr) as (t & s1 & Hal & Hat).
  destruct (get_page_make_from s address dir t s1) as (s' & Hrun & Hmade & Hflag & _); [done..|].
  by exists t, s'.
Qed.

(** ** Cloning a directory whose tables are all the kernel's *)

(** After [j] iterations the first [j] slots of [dir] are those of [src] and
    the others are zero. *)
Definition cloned (m m' : memory) (src dir j : Z) : Prop :=
  frame (range dir 8192) m m' ∧
  ∀ i, 0 <= i < 1024 →
    let t := ld32 m (Tables src i) in
    ld32 m' (Tables dir i) = (if i <? j then t else 0) ∧
    ld32 m' (TablesPhysical dir i) =
      (if (i <? j) && negb (t =? 0) then ld32 m (TablesPhysical src i) else 0).

Definition shares_kernel_tables (s : machine) (src : Z) : Prop :=
  ∀ i, 0 <= i < 1024 → ld32 (mem s) (Tables src i) = 0 ∨
    ld32 (mem s) (Tables (kernel_directory (pg s)) i) = ld32 (mem s) (Tables src i).

Definition dirs_apart (d1 d2 : Z) : Prop :=
  d1 + sizeof_PageDirectory <= d2 ∨ d2 + sizeof_PageDirectory <= d1.

(** The slots of a directory outlive writes elsewhere. *)
Lemma slots_frame Q m m' d i :
  frame Q m m' → dir_ok d → (∀ x, dir_range d x → ¬ Q x) → 0 <= i < 1024 →
  ld32 m' (Tables d i) = ld32 m (Tables d i) ∧
  ld32 m' (TablesPhysical d i) = ld32 m (TablesPhysical d i).
Proof.
  intros Hf Hd HQ Hi. rewrite Tables_val, TablesPhysical_val by done.
  destruct Hd. unfold dir_range, range, sizeof_PageDirectory in *.
  split; (eapply frame_ld32; [exact Hf|lia..|intros x Hx; apply HQ; lia]).
Qed.

(** The directory [d] is untouched by writes to [dir]. *)
Lemma dir_frame m m' d dir i :
  frame (range dir 8192) m m' → dir_ok d → dirs_apart d dir → 0 <= i < 1024 →
  ld32 m' (Tables d i) = ld32 m (Tables d i) ∧
  ld32 m' (TablesPhysical d i) = ld32 m (TablesPhysical d i).
Proof.
  intros Hf Hd Ha. eapply slots_frame; [exact Hf|done|].
  unfold dirs_apart, dir_range, range, sizeof_PageDirectory in *. lia.
Qed.

Lemma clone_slot_step s0 s src dir j :
  dir_ok src → dir_ok dir → dir_ok (kernel_directory (pg s0)) →
  dirs_apart src dir → dirs_apart (kernel_directory (pg s0)) dir →
  shares_kernel_tables s0 src → 0 <= j < 1024 →
  pg s = pg s0 → cloned (mem s0) (mem s) src dir j →
  ∃ m', clone_slot src dir j s = Done tt (set_mem m' s) ∧ cloned (mem s0) m' src dir (j + 1).
Proof.
  intros Hsrc Hdir Hkd Ha Hka Hsh Hj Hpg [Hf Hc].
  destruct (dir_frame _ _ src dir j Hf Hsrc Ha Hj) as [Et Ep].
  destruct (dir_frame _ _ _ dir j Hf Hkd Hka Hj) as [Ek _].
  unfold clone_slot, load32, store32. rewrite bind_gets, Et.
  set (t := ld32 (mem s0) (Tables src j)) in *.
  destruct (Z.eqb_spec t 0) as [Ht|Ht].
  { exists (mem s). split; [by destruct s|]. split; [done|]. intros i Hi. specialize (Hc i Hi).
    destruct (decide (i = j)) as [->|Hne].
    - fold t in Hc |- *. rewrite Ht in *. rewrite Z.ltb_irrefl in Hc.
      rewrite (proj2 (Z.ltb_lt j (j + 1))) by lia. by simpl in *.
    - by destruct (Z.ltb_spec i j), (Z.ltb_spec i (j + 1)); try lia. }
  rewrite !bind_gets, Hpg, Ek. destruct (Hsh j Hj) as [Hz|Hk]; [by fold t in Hz|].
  fold t in Hk. rewrite Hk, Z.eqb_refl, bind_modify, bind_gets. cbn [mem set_mem].
  rewrite ld32_st32_near_ne, Ep by (rewrite Tables_val, TablesPhysical_val by done;
    destruct Hdir, Hsrc; unfold dirs_apart, sizeof_PageDirectory in *; lia).
  eexists; split; [reflexivity|]. cbn [mem set_mem]. pose proof Hdir as [? ?].
  unfold sizeof_PageDirectory in *. split.
  - repeat (apply frame_st32; [|rewrite ?Tables_val, ?TablesPhysical_val by done; unfold range; lia..]).
    done.
  - intros i Hi. specialize (Hc i Hi). cbv zeta in *. destruct (decide (i = j)) as [->|Hne].
    + fold t. rewrite (proj2 (Z.ltb_lt j (j + 1))) by lia.
      rewrite (proj2 (Z.eqb_neq t 0)) by done. cbn [negb andb].
      rewrite ld32_st32_near_ne by (rewrite Tables_val, TablesPhysical_val by done; lia).
      rewrite !ld32_st32_eq, !w32_small by apply ld32_range. done.
    + destruct Hc as [Hc1 Hc2].
      rewrite !ld32_st32_near_ne by (rewrite ?Tables_val, ?TablesPhysical_val by done; lia).
      rewrite Hc1, Hc2. by destruct (Z.ltb_spec i j), (Z.ltb_spec i (j + 1)); try lia.
Qed.

(** What [clone_directory] leaves at [dir]. *)
Record directory_clone (s s' : machine) (src dir : Z) : Prop := {
  dc_dir : dir_ok dir ∧ dir mod 4096 = 0;
  dc_tables : ∀ i, 0 <= i < 1024 → ld32 (mem s') (Tables dir i) = ld32 (mem s) (Tables src i);
  dc_physical : ∀ i, 0 <= i < 1024 → ld32 (mem s') (TablesPhysical dir i) =
    if ld32 (mem s) (Tables src i) =? 0 then 0 else ld32 (mem s) (TablesPhysical src i);
  dc_address : ld32 (mem s') (PhysicalAddress dir) = w32 (reported dir indeterminate + 4096);
  dc_frame : frame (λ x, ¬ reserved s x) (mem s) (mem s');
  dc_inv : alloc_inv s';
  dc_reserved : ∀ x, dir_range dir x ∨ reserved s x → reserved s' x;
  dc_fresh : ∀ x, dir_range dir x → ¬ reserved s x;
  dc_rest : same_but_kmem s s';
  dc_room l : room s ((sizeof_PageDirectory, true) :: l) → room s' l;
}.

(** The loop of [clone_directory] over a blank [dir]. *)
Lemma clone_loop s src dir :
  dir_ok src → dir_ok dir → dir_ok (kernel_directory (pg s)) →
  dirs_apart src dir → dirs_apart (kernel_directory (pg s)) dir →
  shares_kernel_tables s src → (∀ x, range dir 8192 x → ld8 (mem s) x = 0) →
  ∃ m', forM 1024 0 (clone_slot src dir) s = Done tt (set_mem m' s) ∧
    cloned (mem s) m' src dir 1024.
Proof.
  intros Hsrc Hdir Hkd Ha Hka Hsh Hz.
  destruct (forM_inv (λ j t, ∃ m', t = set_mem m' s ∧ cloned (mem s) m' src dir j)
    (clone_slot src dir) 1024 0 s) as (s' & Hrun & m' & -> & Hc).
  - exists (mem s). split; [by destruct s|]. split; [apply frame_refl|]. intros i Hi. cbv zeta.
    destruct (Z.ltb_spec i 0); [lia|]. cbn [andb].
    rewrite Tables_val, TablesPhysical_val by done. unfold ld32, range in *.
    by rewrite !Hz by lia.
  - intros j t Hj (m & -> & Hc). simpl in Hj.
    destruct (clone_slot_step s (set_mem m s) src dir j) as (m' & Hrun & Hc'); try done.
    exists (set_mem m' s). split; [done|by exists m'].
  - by exists m'.
Qed.

(** Clearing a new directory and setting its own address. *)
Definition blank_directory (m : memory) (dir v : Z) : memory :=
  st32 (memset m dir 0 sizeof_PageDirectory).1 (PhysicalAddress dir) v.

Lemma blank_directory_spec m dir v :
  dir_ok dir → let m' := blank_directory m dir v in
  frame (dir_range dir) m m' ∧ (∀ x, range dir 8192 x → ld8 m' x = 0) ∧
  ld32 m' (PhysicalAddress dir) = w32 v.
Proof.
  intros Hd. pose proof Hd as [Hd0 Hd1]. unfold blank_directory, sizeof_PageDirectory in *.
  rewrite PhysicalAddress_val by done.
  pose proof (memset_spec m dir 0 8196) as [Hmf Hmz]; [lia..|]. set (m2 := (memset m dir 0 8196).1) in *.
  split_and!.
  - apply frame_st32; [exact Hmf|unfold dir_range, range, sizeof_PageDirectory; lia..].
  - intros x Hx. unfold range in Hx. transitivity (ld8 m2 x); [|apply Hmz; lia].
    apply (frame_st32 (range (dir + 8192) 4)); [apply frame_refl|unfold range; lia..].
  - by rewrite ld32_st32_eq.
Qed.

(** The slots of a reserved directory outlive writes to what is not reserved. *)
Lemma reserved_slots s m d i :
  frame (λ x, ¬ reserved s x) (mem s) m → dir_ok d → (∀ x, dir_range d x → reserved s x) → 0 <= i < 1024 →
  ld32 m (Tables d i) = ld32 (mem s) (Tables d i) ∧
  ld32 m (TablesPhysical d i) = ld32 (mem s) (TablesPhysical d i).
Proof.
  intros Hf Hd Hres. eapply slots_frame; [exact Hf|done|]. auto.
Qed.

Lemma clone_directory_shared s src l :
  alloc_inv s → room s ((sizeof_PageDirectory, true) :: l) → dir_ok src → dir_ok (kernel_directory (pg s)) →
  (∀ x, dir_range src x → reserved s x) →
  (∀ x, dir_range (kernel_directory (pg s)) x → reserved s x) →
  shares_kernel_tables s src →
  ∃ dir s', clone_directory src s = Done dir s' ∧ directory_clone s s' src dir.
Proof.
  intros Hi Hr Hsrc Hkd Hrs Hrk Hsh.
  destruct (kmalloc_ap_tmp_ok s sizeof_PageDirectory indeterminate l Hi ltac:(done) Hr)
    as (dir & s1 & Hal & Hat).
  assert (dir_ok dir) as Hdir by apply Hat. pose proof (al_rest _ _ _ _ _ Hat) as [Hpg _].
  pose proof (fresh_outside _ _ _ _ _ src Hat Hrs ltac:(done)) as Ha.
  pose proof (fresh_outside _ _ _ _ _ _ Hat Hrk ltac:(done)) as Hka.
  destruct (blank_directory_spec (mem s1) dir (reported dir indeterminate ⊕ (TablesPhysical dir 0 ⊖ dir)) Hdir)
    as (Hf3 & Hz3 & Hp3).
  set (m3 := blank_directory _ _ _) in *.
  assert (Hf03 : frame (λ x, ¬ reserved s x) (mem s) m3).
  { eapply frame_trans; [apply Hat|]. eapply frame_weaken; [exact Hf3|].
    intros x _ Hx. by apply (al_fresh _ _ _ _ _ Hat). }
  assert (Hk' : kernel_directory (pg (set_mem m3 s1)) = kernel_directory (pg s))
    by (cbn [pg set_mem]; by rewrite Hpg).
  destruct (clone_loop (set_mem m3 s1) src dir Hsrc Hdir) as (m' & Hrun & Hf' & Hc);
    [rewrite Hk'; exact Hkd|exact Ha|rewrite Hk'; exact Hka| |exact Hz3|].
  { intros i Hi'. rewrite Hk'. cbn [pg mem set_mem].
    destruct (reserved_slots s m3 src i Hf03 Hsrc Hrs Hi') as [-> _].
    destruct (reserved_slots s m3 _ i Hf03 Hkd Hrk Hi') as [-> _]. by apply Hsh. }
  cbn [mem set_mem] in Hf', Hc. exists dir, (set_mem m' s1). split.
  { unfold clone_directory, store32. rewrite (bind_done _ _ _ _ _ Hal). cbv beta iota.
    by rewrite bind_memset, bind_modify, (bind_done _ _ _ _ _ Hrun). }
  assert (∀ x, range dir 8192 x → dir_range dir x) as Hin
    by (unfold dir_range, range, sizeof_PageDirectory; lia).
  assert (Hfr : frame (reserved s1) (mem s1) m').
  { apply (frame_trans _ _ m3); (eapply frame_weaken; [eassumption|]); intros x _ Hx;
      apply (al_reserved _ _ _ _ _ Hat); left; [exact Hx|by apply Hin]. }
  split; cbn [mem set_mem].
  - split; [done|by apply (al_aligned _ _ _ _ _ Hat)].
  - intros i Hi'. destruct (Hc i Hi') as [-> _]. destruct (Z.ltb_spec i 1024); [|lia].
    by apply reserved_slots.
  - intros i Hi'. destruct (Hc i Hi') as [_ ->]. destruct (Z.ltb_spec i 1024); [|lia].
    destruct (reserved_slots s m3 src i) as [-> ->]; [done..|]. by destruct (_ =? 0).
  - clearbody m3. rewrite (frame_ld32 _ _ _ _ Hf') by (rewrite PhysicalAddress_val by exact Hdir;
      destruct Hdir; unfold range, sizeof_PageDirectory in *; lia).
    rewrite Hp3, w32_w32, TablesPhysical_val, w32_add_r by (exact Hdir || lia). f_equal. lia.
  - eapply frame_trans; [exact Hf03|]. eapply frame_weaken; [exact Hf'|].
    intros x _ Hx. by apply (al_fresh _ _ _ _ _ Hat), Hin.
  - by eapply alloc_inv_stable; [apply Hat|done|].
  - intros x Hx. by eapply reserved_stable; [apply Hat|done| |apply (al_reserved _ _ _ _ _ Hat x Hx)].
  - apply (al_fresh _ _ _ _ _ Hat).
  - apply Hat.
  - intros l' Hroom. eapply room_stable; [apply Hat|done|done|]. by apply (al_room _ _ _ _ _ Hat).
Qed.
End get_page.

(** ** Properties *)

(** C15. [get_page] in full, for any allocator that keeps its laws: it finds the
    entry of a mapped table without changing anything; without [make] an
    unmapped address gives a null pointer; with [make] it installs a fresh,
    page-aligned, zeroed table, flags it present, writable and user, changes
    no other reserved byte, and every later call finds the same entry. *)
Theorem get_page_correct `{Image} `{AS : AllocatorSpec} `{!AllocatorLaws} s address dir :
  alloc_inv s → room s [(sizeof_PageTable, true)] → dir_ok dir → (∀ x, dir_range dir x → reserved s x) →
  0 <= address < 4294967296 →
  let i := address / 4096 / 1024 in
  let j := address / 4096 mod 1024 in
  if directory_of s dir address =? 0 then
    get_page address false dir s = Done 0 s ∧
    ∃ t s', get_page address true dir s = Done (Pages t j) s' ∧
      table_made s s' dir i t ∧ flagged_physical s' dir i t ∧
      ∀ make, get_page address make dir s' = Done (Pages t j) s'
  else ∀ make, get_page address make dir s = Done (Pages (directory_of s dir address) j) s.
Proof.
  intros Hi Hr Hd Hres Ha. cbv zeta.
  destruct (Z.eqb_spec (directory_of s dir address) 0) as [Ht|Ht].
  - split; [by apply get_page_absent|].
    destruct (get_page_make s address dir Hi Hr Hd Hres Ha Ht) as (t & s' & Hrun & Hmade & Hph).
    exists t, s'. split_and!; [done..|]. intros make.
    assert (directory_of s' dir address = t) as Hslot by apply (tm_slot _ _ _ _ _ Hmade).
    pose proof (tm_table _ _ _ _ _ Hmade). rewrite get_page_present; rewrite Hslot; [done|lia].
  - intros make. by apply get_page_present.
Qed.
Lemma get_page_correct_witness :
  ∃ t s', @get_page sample_image placement_allocator 0xC0001234 true 0x10000 (sample ∅)
          = Done (Pages t 1) s' ∧ t mod 4096 = 0.
Proof.
  pose proof (@get_page_correct sample_image placement_allocator placement_spec _
    (sample ∅) 0xC0001234 0x10000) as H. cbv zeta in H.
  replace (directory_of (sample ∅) 0x10000 0xC0001234 =? 0) with true in H by (vm_compute; reflexivity).
  destruct H as (_ & t & s' & Hrun & Hmade & _).
  - split; [reflexivity|zdecide].
  - zdecide.
  - zdecide.
  - intros x Hx. unfold dir_range, range, sizeof_PageDirectory in Hx. simpl. lia.
  - lia.
  - exists t, s'. split; [exact Hrun|]. by destruct (tm_table _ _ _ _ _ Hmade) as (_ & _ & ?).
Defined.

(** C23. Cloning a directory that maps only kernel tables yields a fresh,
    page-aligned directory with the same tables and physical entries, whose
    physical address is that of its [TablesPhysical] array as reported by the
    allocator; nothing that was reserved changes. *)
Theorem clone_directory_shares_kernel `{Image} `{AS : AllocatorSpec} `{!AllocatorLaws} s src :
  alloc_inv s → room s [(sizeof_PageDirectory, true)] → dir_ok src → dir_ok (kernel_directory (pg s)) →
  (∀ x, dir_range src x → reserved s x) →
  (∀ x, dir_range (kernel_directory (pg s)) x → reserved s x) →
  shares_kernel_tables s src →
  ∃ dir s', clone_directory src s = Done dir s' ∧ directory_clone s s' src dir.
Proof. apply clone_directory_shared. Qed.
Lemma clone_directory_shares_kernel_witness :
  ∃ dir s', @clone_directory sample_image placement_allocator 0x10000
      (set_kernel_directory 0x10000 (sample (st32 ∅ 0x10C00 0x20000))) = Done dir s' ∧
    ld32 (mem s') (Tables dir 768) = 0x20000.
Proof.
  set (s := set_kernel_directory 0x10000 (sample (st32 ∅ 0x10C00 0x20000))).
  assert (Hres : ∀ x, dir_range 0x10000 x → @reserved placement_allocator placement_spec s x).
  { intros x Hx. unfold dir_range, range, sizeof_PageDirectory in Hx. simpl. lia. }
  destruct (@clone_directory_shares_kernel sample_image placement_allocator placement_spec _ s 0x10000)
    as (dir & s' & Hrun & Hc).
  - split; [reflexivity|zdecide].
  - zdecide.
  - zdecide.
  - zdecide.
  - exact Hres.
  - exact Hres.
  - intros i Hi. by right.
  - exists dir, s'. split; [exact Hrun|]. rewrite (dc_tables _ _ _ _ Hc) by lia.
    vm_compute. reflexivity.
Defined.
