(* ===== verification/MapPages.v ===== *)
(** * Runs of page allocations

    What the loops that call [alloc_frame] on one page after the other have in
    common: those of [initialise_paging] and that of [Heap::Expand].  While the
    frames in use are the lowest ones, [n] blank entries of a table get the
    next [n] frames. *)
From S2P Require Import Prelude Memory LibString OrderedList Machine Console Stdio Frames Kmalloc Paging.
Local Open Scope Z_scope.
Local Open Scope u32_scope.

Lemma ld32_zero m a : (∀ x, a <= x < a + 4 → ld8 m x = 0) → ld32 m a = 0.
Proof. intros Hz. unfold ld32. by rewrite !Hz by lia. Qed.

(** A bounded property of the numbers below [n], by evaluation. *)
Lemma forall_below (n : nat) (P : Z → bool) :
  forallb (λ i, P (Z.of_nat i)) (seq 0 n) = true → ∀ q, 0 <= q < Z.of_nat n → P q = true.
Proof.
  intros HP q Hq. rewrite forallb_forall in HP. rewrite <- (Z2Nat.id q) by lia. apply HP, in_seq. lia.
Qed.

(** Among the first [lim] frames those below [n] are in use. *)
Definition used_below (s : machine) (lim n : Z) : Prop :=
  ∀ g, 0 <= g < lim → frame_used s g = (g <? n).

Lemma first_frame_used s lim n :
  bitmap_ok s → lim <= frame_limit s → used_below s lim n → 0 <= n < lim → first_frame s = Some n.
Proof.
  intros Hb Hlim Hu Hn. pose proof (first_frame_spec s Hb) as Hsp.
  assert (frame_used s n = false) as Hfree by (rewrite Hu by lia; by rewrite Z.ltb_irrefl).
  destruct (first_frame s) as [f|]; cbn in Hsp.
  - destruct Hsp as (Hf & Hff & Hbelow). f_equal.
    destruct (Z.lt_trichotomy f n) as [Hlt|[|Hlt]]; [|done|].
    + rewrite Hu in Hff by lia. lia.
    + rewrite Hbelow in Hfree by lia. done.
  - rewrite Hsp in Hfree by lia. done.
Qed.

Lemma used_below_frame P s s' lim n :
  bitmap_ok s → lim <= frame_limit s → pg s' = pg s → frame P (mem s) (mem s') →
  (∀ x, bitmap_range s x → ¬ P x) → used_below s lim n → used_below s' lim n.
Proof.
  intros Hb Hlim Hpg Hf HP Hu g Hg. rewrite <- Hu by done.
  eapply frame_used_frame; [exact Hf|done|done|lia|done].
Qed.

Definition blank_page : Page := page_of_word 0.

(** [k] pages are mapped, from entry [j] of the table [t] and frame [f] on. *)
Definition pages_mapped (isKernel isWritable : bool) (m : memory) (t j f k : Z) : Prop :=
  ∀ q, 0 <= q < k → read_page m (t + 4 * (j + q)) = allocated blank_page (f + q) isKernel isWritable.

(** The bytes that mapping [n] entries of [t] from [j] on may change. *)
Definition entries_or_bitmap (s : machine) (t j n : Z) (x : Z) : Prop :=
  bitmap_range s x ∨ range (t + 4 * j) (4 * n) x.

Lemma page_index a k :
  0 <= a → 0 <= k → a / 4096 mod 1024 + k < 1024 →
  (a + 4096 * k) / 4096 mod 1024 = a / 4096 mod 1024 + k ∧
  (a + 4096 * k) / 4096 / 1024 = a / 4096 / 1024.
Proof.
  intros Ha Hk Hj. replace (a + 4096 * k) with (a + k * 4096) by lia.
  rewrite Z.div_add by lia. Z.div_mod_to_equations. lia.
Qed.

Section map_pages.
Context `{Image}.
Variables (isKernel isWritable : bool).

(** One blank entry. *)
Lemma alloc_blank s e lim n :
  bitmap_ok s → lim <= frame_limit s → page_apart s e → ld32 (mem s) e = 0 →
  used_below s lim n → 0 <= n < lim →
  ∃ m, alloc_frame e isKernel isWritable s = Done tt (set_mem m s) ∧
    read_page m e = allocated blank_page n isKernel isWritable ∧
    used_below (set_mem m s) lim (n + 1) ∧ frame (entry_or_bitmap s e) (mem s) m.
Proof.
  intros Hb Hlim Hap Hz Hu Hn. pose proof (first_frame_used s lim n Hb Hlim Hu Hn) as Hff.
  assert (read_page (mem s) e = blank_page) as Hblank by (unfold read_page; by rewrite Hz).
  assert (Frame (read_page (mem s) e) = 0) as Hf0 by (by rewrite Hblank).
  pose proof (alloc_frame_fresh s e isKernel isWritable n Hb Hap Hf0 Hff) as Hrun.
  destruct (alloc_frame_effect s e isKernel isWritable n Hb Hap Hf0 Hff) as (s' & Hrun' & Heff).
  rewrite Hrun in Hrun'. injection Hrun' as <-. destruct Heff as [_ _ _ Hp Hused Hf].
  set (m := write_page _ _ _) in Hrun, Hp, Hused, Hf. clearbody m.
  exists m. split; [exact Hrun|]. rewrite Hblank in Hp. split; [exact Hp|]. split; [|exact Hf].
  intros g Hg. rewrite Hused by lia. rewrite Hu by lia.
  destruct (Z.eqb_spec g n), (Z.ltb_spec g n), (Z.ltb_spec g (n + 1)); lia || done.
Qed.

(** A loop whose step [k] allocates entry [j + k] of the table [t]. *)
Lemma map_pages_run s lim a t j f n fuel cond (step : Z → K Z) :
  bitmap_ok s → lim <= frame_limit s → 0 < t → t + 4096 <= 4294967296 →
  (∀ x, range t 4096 x → ¬ bitmap_range s x) →
  0 <= a → a + 4096 * n < 4294967296 → 0 <= n → 0 <= j → j + n <= 1024 →
  (∀ q, 0 <= q < n → ld32 (mem s) (t + 4 * (j + q)) = 0) →
  used_below s lim f → 0 <= f → f + n <= lim →
  (∀ m k, 0 <= k < n → frame (entries_or_bitmap s t j n) (mem s) m →
     step (a + 4096 * k) (set_mem m s) =
       (alloc_frame (t + 4 * (j + k)) isKernel isWritable ;; mret (a + 4096 * k ⊕ 0x1000)) (set_mem m s)) →
  (∀ m k, 0 <= k <= n → cond (a + 4096 * k) (set_mem m s) = (k <? n)) → (Z.to_nat n <= fuel)%nat →
  ∃ m, whileM fuel cond step a s = Done (a + 4096 * n) (set_mem m s) ∧
    pages_mapped isKernel isWritable m t j f n ∧ used_below (set_mem m s) lim (f + n) ∧
    frame (entries_or_bitmap s t j n) (mem s) m.
Proof.
  intros Hb Hlim Ht0 Ht1 Hta Ha0 Ha1 Hn Hj0 Hj Hz Hu Hf0 Hf1 Hstep Hcond Hfuel.
  set (I := λ i s', ∃ m k, s' = set_mem m s ∧ i = a + 4096 * k ∧ 0 <= k <= n ∧
    pages_mapped isKernel isWritable m t j f k ∧ (∀ q, k <= q < n → ld32 m (t + 4 * (j + q)) = 0) ∧
    used_below (set_mem m s) lim (f + k) ∧ frame (entries_or_bitmap s t j n) (mem s) m).
  destruct (whileM_total I (λ i _, Z.to_nat (n - (i - a) / 4096)) cond step fuel a s)
    as (i & s' & Hrun & (m & k & -> & -> & Hk & Hmap & _ & Hused & Hfr) & Hstop).
  - exists (mem s), 0. rewrite !Z.add_0_r.
    split_and!; [by destruct s|lia..| |done|by destruct s|apply frame_refl]. intros q Hq. lia.
  - rewrite Z.sub_diag. change (0 / 4096) with 0. lia.
  - intros i s1 (m & k & -> & -> & Hk & Hmap & Hzero & Hused & Hfr) Hc. rewrite Hcond in Hc by done.
    apply Z.ltb_lt in Hc. unfold range in Hta.
    destruct (alloc_blank (set_mem m s) (t + 4 * (j + k)) lim (f + k)) as (m' & Hrun & Hp & Hu' & Hfr');
      [done|done|split_and!; [cbn; lia|lia|]; intros x Hx; apply Hta; lia|apply Hzero; lia|done|lia|].
    rewrite mem_set_mem in Hfr'. eexists _, _.
    split; [rewrite Hstep by (done || lia); by rewrite (bind_done _ _ _ _ _ Hrun), set_mem_twice|].
    assert (∀ q, 0 <= q < n → q ≠ k → ld32 m' (t + 4 * (j + q)) = ld32 m (t + 4 * (j + q))) as Hother.
    { intros q Hq Hne. eapply frame_ld32; [exact Hfr'|lia..|]. intros x Hx [Hx'|Hx'];
        [by apply (Hta x); [lia|]|unfold range in Hx'; lia]. }
    rewrite w32_small by lia. split; [|Z.div_mod_to_equations; lia].
    exists m', (k + 1). rewrite Z.add_assoc. split_and!; [done|lia|lia|lia| | |done|].
    + intros q Hq. destruct (decide (q = k)) as [->|]; [done|]. rewrite <- Hmap by lia.
      unfold read_page. f_equal. apply Hother; lia.
    + intros q Hq. rewrite Hother by lia. apply Hzero. lia.
    + eapply frame_trans; [exact Hfr|]. eapply frame_weaken; [exact Hfr'|].
      unfold entry_or_bitmap, entries_or_bitmap, range. intros x _ [?|?]; [by left|right; lia].
  - rewrite Hcond in Hstop by done. apply Z.ltb_ge in Hstop. assert (k = n) as -> by lia.
    exists m. by split_and!.
Qed.
End map_pages.
