(* ===== verification/CloneTable.v ===== *)
(** * kernel/paging.cpp: clone_table

    The copy of a page table: every mapped page gets a frame of its own, into
    which its content is copied. *)
From S2P Require Import Prelude Memory LibString OrderedList Machine Console Stdio Descriptors Frames Kmalloc Paging MapPages.
Local Open Scope Z_scope.
Local Open Scope u32_scope.

(** ** Specification *)

(** The entry of the copy, for the entry [p] and the new frame [f]: it is
    present and open to user mode whatever [p] is. *)
Definition cloned_page (p : Page) (f : Z) : Page := MkPage true (ReadWrite p) true (Accessed p) (Dirty p) 0 f.

(** Entry [i] of the table at [src]. *)
Definition entry (m : memory) (src i : Z) : Page := read_page m (src + 4 * i).
Definition is_mapped (p : Page) : bool := negb (Frame p =? 0).

(** The number of mapped entries among the first [n]. *)
Fixpoint mapped_before (m : memory) (src : Z) (n : nat) : Z :=
  match n with
  | O => 0
  | S n' => mapped_before m src n' + Z.b2z (is_mapped (entry m src (Z.of_nat n')))
  end.

(** The copies of the first [n] entries, latest first; the new frames are
    numbered from [f] on. *)
Fixpoint copies (m : memory) (src f : Z) (n : nat) : list event :=
  match n with
  | O => []
  | S n' =>
      let p := entry m src (Z.of_nat n') in
      if is_mapped p then
        ev_copy_page (Frame p ⊗ 0x1000) ((f + mapped_before m src n') ⊗ 0x1000) :: copies m src f n'
      else copies m src f n'
  end.

(** The table at [t] is the copy of the first [n] entries of [src]. *)
Definition cloned_entries (m m' : memory) (src t f : Z) (n : nat) : Prop :=
  ∀ q, (q < n)%nat → entry m' t (Z.of_nat q) =
    let p := entry m src (Z.of_nat q) in
    if is_mapped p then cloned_page p (f + mapped_before m src q) else blank_page.

Lemma mapped_before_mono m src n k :
  (n <= k)%nat → 0 <= mapped_before m src n <= mapped_before m src k.
Proof.
  intros Hnk. assert (∀ j, 0 <= mapped_before m src j) as H0.
  { induction j as [|j IH]; cbn; [lia|]. destruct (is_mapped _); cbn; lia. }
  split; [done|]. induction Hnk as [|k Hnk IH]; [lia|]. cbn [mapped_before].
  destruct (is_mapped _); cbn [Z.b2z]; lia.
Qed.

(** ** One entry *)
Lemma copy_flag_ok s src dst p q flag set :
  read_page (mem s) src = p → read_page (mem s) dst = q → page_wf (set q) →
  0 <= dst → dst + 4 <= 4294967296 →
  ∃ m, copy_flag src dst flag set s = Done tt (set_mem m s) ∧
    read_page m dst = (if flag p then set q else q) ∧ frame (range dst 4) (mem s) m.
Proof.
  intros Hp Hq Hwf H0 H1. unfold copy_flag, load_page, store_page. rewrite bind_gets, Hp.
  destruct (flag p).
  - rewrite bind_gets, Hq. eexists. split; [reflexivity|]. split; [by apply read_write_page|].
    apply frame_st32; [apply frame_refl|done..].
  - exists (mem s). split; [by destruct s|]. split; [done|apply frame_refl].
Qed.

(** The page with the flags of [p] that [clone_entry] copies. *)
Lemma copy_flags_ok s src dst p q :
  read_page (mem s) src = p → read_page (mem s) dst = q → page_wf q →
  0 <= src → src + 4 <= 4294967296 → 0 <= dst → dst + 4 <= 4294967296 → dst + 4 <= src ∨ src + 4 <= dst →
  ∃ m, (∀ A (k : K A),
      (copy_flag src dst Present set_Present ;; copy_flag src dst ReadWrite set_ReadWrite ;;
       copy_flag src dst User set_User ;; copy_flag src dst Accessed set_Accessed ;;
       copy_flag src dst Dirty set_Dirty ;; k) s = k (set_mem m s)) ∧
    read_page m dst = MkPage (Present p || Present q) (ReadWrite p || ReadWrite q) (User p || User q)
      (Accessed p || Accessed q) (Dirty p || Dirty q) (Unused q) (Frame q) ∧
    frame (range dst 4) (mem s) m.
Proof.
  intros Hp Hq Hwf Hs0 Hs1 H0 H1 Hap.
  assert (∀ m fl st q', frame (range dst 4) (mem s) m → read_page m dst = q' → page_wf (st q') →
    ∃ m', copy_flag src dst fl st (set_mem m s) = Done tt (set_mem m' s) ∧
      read_page m' dst = (if fl p then st q' else q') ∧ frame (range dst 4) (mem s) m') as Hcf.
  { intros m fl st q' Hfr Hq' Hwf'.
    destruct (copy_flag_ok (set_mem m s) src dst p q' fl st) as (m' & Hrun & Hr & Hfr'); [|done..|].
    - cbn. rewrite <- Hp. unfold read_page. f_equal. eapply frame_ld32; [exact Hfr|unfold range; lia..].
    - exists m'. split; [exact Hrun|]. split; [exact Hr|]. by eapply frame_trans. }
  edestruct (Hcf (mem s) Present set_Present) as (m1 & Hrun1 & Hp1 & Hf1); [apply frame_refl|exact Hq|exact Hwf|].
  edestruct (Hcf m1 ReadWrite set_ReadWrite) as (m2 & Hrun2 & Hp2 & Hf2); [exact Hf1|exact Hp1|by destruct (Present p)|].
  edestruct (Hcf m2 User set_User) as (m3 & Hrun3 & Hp3 & Hf3);
    [exact Hf2|exact Hp2|by destruct (Present p), (ReadWrite p)|].
  edestruct (Hcf m3 Accessed set_Accessed) as (m4 & Hrun4 & Hp4 & Hf4);
    [exact Hf3|exact Hp3|by destruct (Present p), (ReadWrite p), (User p)|].
  edestruct (Hcf m4 Dirty set_Dirty) as (m5 & Hrun5 & Hp5 & Hf5);
    [exact Hf4|exact Hp4|by destruct (Present p), (ReadWrite p), (User p), (Accessed p)|].
  exists m5. split; [|split; [|exact Hf5]].
  - intros A k. assert (set_mem (mem s) s = s) as Es by (by destruct s). rewrite Es in Hrun1.
    by rewrite (bind_done _ _ _ _ _ Hrun1), (bind_done _ _ _ _ _ Hrun2), (bind_done _ _ _ _ _ Hrun3),
      (bind_done _ _ _ _ _ Hrun4), (bind_done _ _ _ _ _ Hrun5).
  - rewrite Hp5. by destruct (Present p), (ReadWrite p), (User p), (Accessed p), (Dirty p), q.
Qed.

Section clone.
Context `{Image}.

(** The source, the copy and the bitmap do not overlap. *)
Record clone_place (s : machine) (src t : Z) : Prop := {
  cp_src : 0 < src ∧ src + 4096 <= 4294967296;
  cp_table : 0 < t ∧ t + 4096 <= 4294967296;
  cp_apart : ∀ x, ¬ (range src 4096 x ∧ range t 4096 x) ∧
    ¬ ((range src 4096 x ∨ range t 4096 x) ∧ bitmap_range s x);
}.

Lemma clone_entry_unmapped s src t i :
  clone_place s src t → 0 <= i < 1024 → is_mapped (entry (mem s) src i) = false →
  clone_entry src t i s = Done tt s.
Proof.
  intros [[? ?] _ _] Hi Hp. unfold clone_entry, load_page. rewrite bind_gets.
  unfold Pages. rewrite w32_small by lia. apply negb_false_iff in Hp. unfold entry in Hp. by rewrite Hp.
Qed.

Lemma clone_entry_mapped s src t i lim f :
  clone_place s src t → bitmap_ok s → lim <= frame_limit s → used_below s lim f → 0 <= f < lim →
  0 <= i < 1024 → ld32 (mem s) (t + 4 * i) = 0 →
  let p := entry (mem s) src i in
  is_mapped p = true →
  ∃ m, clone_entry src t i s =
      Done tt (add_event (ev_copy_page (Frame p ⊗ 0x1000) (f ⊗ 0x1000)) (set_mem m s)) ∧
    entry m t i = cloned_page p f ∧ used_below (set_mem m s) lim (f + 1) ∧
    frame (entry_or_bitmap s (t + 4 * i)) (mem s) m.
Proof.
  intros [[Hs0 Hs1] [Ht0 Ht1] Hap] Hb Hlim Hu Hf Hi Hz p Hp. unfold range in Hap.
  pose proof (frame_limit_bounds s Hb) as Hfl.
  set (a := src + 4 * i) in *. set (d := t + 4 * i) in *. unfold entry in *. fold a in p. fold d.
  assert (∀ x, d <= x < d + 4 → ¬ bitmap_range s x) as Hdb.
  { intros x Hx Hx'. apply (proj2 (Hap x)). split; [lia|done]. }
  assert (d + 4 <= a ∨ a + 4 <= d) as Had.
  { destruct (decide (d + 4 <= a)); [by left|]. destruct (decide (a + 4 <= d)); [by right|].
    exfalso. apply (proj1 (Hap (Z.max a d))). lia. }
  assert (∀ m, frame (entry_or_bitmap s d) (mem s) m → read_page m a = p) as Hsrc.
  { intros m Hfr. unfold p, read_page. f_equal. eapply frame_ld32; [exact Hfr|lia..|].
    intros x Hx [Hx'|Hx']; [apply (proj2 (Hap x)); split; [lia|done]|unfold range in Hx'; lia]. }
  destruct (alloc_blank false false s d lim f Hb Hlim) as (m0 & Hrun0 & Hp0 & Hu0 & Hf0);
    [split_and!; [lia|lia|exact Hdb]|exact Hz|exact Hu|lia|].
  destruct (copy_flags_ok (set_mem m0 s) a d p _ (Hsrc _ Hf0) Hp0) as (m & Hrun & Hpage & Hfr);
    [split; [by vm_compute|cbn; lia]|lia..|exact Had|].
  assert (frame (entry_or_bitmap s d) (mem s) m) as Hf1
    by (eapply frame_trans; [exact Hf0|eapply frame_weaken; [exact Hfr|by right]]).
  assert (read_page m d = cloned_page p f) as Hq.
  { rewrite Hpage. unfold cloned_page; cbn. by rewrite !orb_true_r, !orb_false_r. }
  exists m. split; [|split; [exact Hq|split; [|exact Hf1]]].
  - unfold clone_entry, load_page, Pages. fold a d. rewrite !(w32_small a), !(w32_small d) by lia.
    rewrite bind_gets. fold p. apply negb_true_iff in Hp. rewrite Hp, (bind_done _ _ _ _ _ Hrun0).
    rewrite Hrun, !bind_gets.
    change (mem (set_mem _ _)) with m. by rewrite (Hsrc _ Hf1), Hq.
  - eapply (used_below_frame (range d 4) (set_mem m0 s)); [done|done|done|exact Hfr| |exact Hu0].
    intros x Hx Hx'. by apply (Hdb x).
Qed.

(** ** The loop *)
Lemma entry_frame P m m' t q :
  frame P m m' → 0 <= t + 4 * q → t + 4 * q + 4 <= 4294967296 →
  (∀ x, t + 4 * q <= x < t + 4 * q + 4 → ¬ P x) → entry m' t q = entry m t q.
Proof. intros. unfold entry, read_page. f_equal. by eapply frame_ld32. Qed.

(** After [n] iterations, with [m] for the memory. *)
Definition copied_entries (s : machine) (m : memory) (src t lim f : Z) (n : nat) : Prop :=
  cloned_entries (mem s) m src t f n ∧
  used_below (set_mem m s) lim (f + mapped_before (mem s) src n) ∧
  frame (λ x, range t (4 * Z.of_nat n) x ∨ bitmap_range s x) (mem s) m.

(** The entries still to be made are blank, those of the source unchanged. *)
Lemma copied_entries_next s m src t lim f k :
  clone_place s src t → (∀ x, range t 4096 x → ld8 (mem s) x = 0) → (k < 1024)%nat →
  copied_entries s m src t lim f k →
  ld32 m (t + 4 * Z.of_nat k) = 0 ∧ entry m t (Z.of_nat k) = blank_page ∧
  entry m src (Z.of_nat k) = entry (mem s) src (Z.of_nat k).
Proof.
  intros [[? ?] [? ?] Hap] Hz Hk (_ & _ & Hfr).
  assert (ld32 m (t + 4 * Z.of_nat k) = 0) as E.
  { apply ld32_zero. intros x Hx. rewrite (frame_ld8 _ _ _ _ Hfr); [apply Hz; unfold range; lia|lia|].
    unfold range. intros [Hx'|Hx']; [lia|]. apply (proj2 (Hap x)). split; [right; unfold range; lia|done]. }
  split; [exact E|]. split; [unfold entry, read_page; by rewrite E|].
  eapply entry_frame; [exact Hfr|lia|lia|]. unfold range. intros x Hx [Hx'|Hx'].
  - apply (proj1 (Hap x)). unfold range. lia.
  - apply (proj2 (Hap x)). split; [left; unfold range; lia|done].
Qed.

Lemma clone_entries_step s m src t lim f k :
  clone_place s src t → bitmap_ok s → lim <= frame_limit s → 0 <= f →
  (∀ x, range t 4096 x → ld8 (mem s) x = 0) → (k < 1024)%nat → f + mapped_before (mem s) src (S k) <= lim →
  copied_entries s m src t lim f k →
  ∃ m', clone_entry src t (Z.of_nat k) (set_trace (copies (mem s) src f k ++ trace s) (set_mem m s)) =
      Done tt (set_trace (copies (mem s) src f (S k) ++ trace s) (set_mem m' s)) ∧
    copied_entries s m' src t lim f (S k).
Proof.
  intros Hcp Hb Hlim Hf Hz Hk Hroom Hc. pose proof Hcp as [[? ?] [? ?] Hap].
  destruct (copied_entries_next _ _ _ _ _ _ _ Hcp Hz Hk Hc) as (Hzk & Hblank & Hsrc).
  destruct Hc as (Hcl & Hus & Hfr). set (s1 := set_trace _ _).
  pose proof (mapped_before_mono (mem s) src k k ltac:(lia)) as Hmono.
  unfold copied_entries. cbn [mapped_before copies] in *.
  destruct (is_mapped (entry (mem s) src (Z.of_nat k))) eqn:Hmap; cbn [Z.b2z] in *.
  - destruct (clone_entry_mapped s1 src t (Z.of_nat k) lim (f + mapped_before (mem s) src k))
      as (m' & Hrun & Hnew & Hu' & Hfr'); [done|done|done|exact Hus|lia|lia|exact Hzk|by change (mem s1) with m; rewrite Hsrc|].
    change (mem s1) with m in *. rewrite Hsrc in Hrun, Hnew. exists m'. split; [exact Hrun|].
    split_and!; [|by rewrite Z.add_assoc|].
    + intros q Hq. destruct (decide (q = k)) as [->|]; [cbv zeta; by rewrite Hmap|].
      rewrite <- Hcl by lia.
      eapply entry_frame; [exact Hfr'|lia|lia|]. unfold entry_or_bitmap, range. intros x Hx [Hx'|Hx']; [|lia].
      apply (proj2 (Hap x)). split; [right; unfold range; lia|exact Hx'].
    + eapply frame_trans; (eapply frame_weaken; [eassumption|]); unfold entry_or_bitmap, range; intros x _ [?|?];
        (by right) || (left; lia).
  - exists m. split; [apply (clone_entry_unmapped s1); [done|lia|by change (mem s1) with m; rewrite Hsrc]|].
    rewrite Z.add_0_r. split_and!; [|done|].
    + intros q Hq. destruct (decide (q = k)) as [->|]; [cbv zeta; by rewrite Hmap|]. apply Hcl. lia.
    + eapply frame_weaken; [exact Hfr|]. unfold range. intros x _ [?|?]; [left; lia|by right].
Qed.

Lemma clone_entries_ok s src t lim f n :
  clone_place s src t → bitmap_ok s → lim <= frame_limit s → used_below s lim f → 0 <= f →
  (∀ x, range t 4096 x → ld8 (mem s) x = 0) → (n <= 1024)%nat → f + mapped_before (mem s) src n <= lim →
  ∃ m, forM n 0 (clone_entry src t) s = Done tt (set_trace (copies (mem s) src f n ++ trace s) (set_mem m s)) ∧
    copied_entries s m src t lim f n.
Proof.
  intros Hcp Hb Hlim Hu Hf Hz Hn Hroom.
  destruct (forM_inv (λ j s', ∃ m, let k := Z.to_nat j in
      s' = set_trace (copies (mem s) src f k ++ trace s) (set_mem m s) ∧ copied_entries s m src t lim f k)
    (clone_entry src t) n 0 s) as (s' & Hrun & m & -> & Hc).
  - exists (mem s). split; [by destruct s|]. unfold copied_entries. cbn. rewrite Z.add_0_r.
    split_and!; [intros q Hq; lia|by destruct s|apply frame_refl].
  - intros j s' Hj (m & -> & Hc). cbv zeta in *. rewrite Z2Nat.inj_add by lia.
    change (Z.to_nat 1) with 1%nat. rewrite Nat.add_1_r. set (k := Z.to_nat j) in *.
    assert (Z.of_nat k = j) as Hkj by lia. clearbody k. subst j.
    pose proof (mapped_before_mono (mem s) src (S k) n ltac:(lia)) as Hmono.
    destruct (clone_entries_step s m src t lim f k) as (m' & Hrun & Hc'); [done..|lia|lia|done|].
    eexists. split; [exact Hrun|by exists m'].
  - rewrite Z.add_0_l, Nat2Z.id in *. by exists m.
Qed.
End clone.

(** The specification reads the source only. *)
Lemma source_same P m m' src f :
  frame P m m' → 0 <= src → src + 4096 <= 4294967296 → (∀ x, range src 4096 x → ¬ P x) →
  (∀ q, 0 <= q < 1024 → entry m' src q = entry m src q) ∧
  ∀ n, (n <= 1024)%nat →
    mapped_before m' src n = mapped_before m src n ∧ copies m' src f n = copies m src f n.
Proof.
  intros Hf H0 H1 HP. assert (∀ q, 0 <= q < 1024 → entry m' src q = entry m src q) as Hsrc.
  { intros q Hq. eapply entry_frame; [exact Hf|lia|lia|]. intros x Hx. apply HP. unfold range. lia. }
  split; [exact Hsrc|]. induction n as [|n IH]; intros Hn; [done|]. destruct IH as [E1 E2]; [lia|].
  cbn [mapped_before copies]. by rewrite E1, E2, Hsrc by lia.
Qed.

(** ** Properties *)

(** C17. [clone_table] clones the entries of a page table.  Before the heap
    exists, and while the frames in use are the lowest ones, the call returns a
    new page-aligned table and its physical address: every mapped entry has a
    frame of its own, the next free one, with the source's writable, accessed
    and dirty flags, but present and open to user mode whatever the source says;
    the other entries are blank.  For every mapped entry [copy_page_physical] is
    called with the old frame's address and the new one's, in the order of the
    entries; what that routine does is not part of this theorem, which
    takes it to return (see [copy_page_physical_runs]: with paging on it ends in
    a page fault, and with paging off it need not copy a page).  Apart from it, the source and everything else keep their bytes, but for the bitmap
    and the 4100 bytes behind the new table: the call clears as many bytes as a
    directory has, and the allocator counts them as free. *)
Theorem clone_table_entries `{Image} ha s src phys lim f :
  let pa := placement_address (kmem s) in
  let t := placement pa true in
  kheap (kmem s) = 0 → 4096 <= pa → pa + 0x4000 < 4294967296 → 0 < src → src + 4096 <= pa →
  bitmap_ok s → (∀ x, bitmap_range s x → x < pa ∧ ¬ range src 4096 x) →
  lim <= frame_limit s → used_below s lim f → 0 <= f → f + mapped_before (mem s) src 1024 <= lim →
  ∃ s', @clone_table _ (early_allocator ha) src phys s = Done (t, t) s' ∧ t mod 4096 = 0 ∧
    cloned_entries (mem s) (mem s') src t f 1024 ∧
    trace s' = copies (mem s) src f 1024 ++ trace s ∧
    frame (λ x, range t 8196 x ∨ bitmap_range s x) (mem s) (mem s') ∧
    (∀ x, range (t + 4096) 4100 x → ld8 (mem s') x = 0) ∧
    placement_address (kmem s') = t + 4096.
Proof.
  intros pa t Hkh Hpa Htop Hs0 Hs1 Hb Hbm Hlim Hu Hf Hroom.
  destruct (placement_bounds pa true) as [Ht Hal]; [lia|]. fold t in Ht, Hal. specialize (Hal eq_refl).
  pose proof (placement_kmalloc_eq ha s sizeof_PageTable true (Some phys) Hkh Hpa) as Hkm. cbv zeta in Hkm.
  fold pa in Hkm. fold t in Hkm.
  specialize (Hkm ltac:(unfold sizeof_PageTable; lia) ltac:(done)). clearbody t.
  destruct (memset_spec (mem s) t 0 8196) as [Hf0 Hz0]; [lia..|]. unfold range in *.
  set (m0 := (memset (mem s) t 0 8196).1) in *.
  set (s1 := set_mem m0 (set_placement_address (t + sizeof_PageTable) s)).
  assert (frame (λ x, pa <= x) (mem s) m0) as Hf1 by (eapply frame_weaken; [exact Hf0|cbv beta; lia]).
  destruct (source_same (λ x, pa <= x) (mem s) m0 src f Hf1) as (Hsrc & Hspec); [lia|lia|unfold range; cbn; lia|].
  destruct (Hspec 1024%nat) as [Em Ec]; [lia|].
  destruct (clone_entries_ok s1 src t lim f 1024) as (m & Hrun & Hcl & _ & Hfr).
  - split; [unfold range; lia|lia|]. intros x. change (bitmap_range s1 x) with (bitmap_range s x). unfold range.
    split; [lia|]. intros [Hx Hx']. destruct (Hbm x Hx'). lia.
  - done.
  - done.
  - eapply (used_below_frame (λ x, pa <= x) s); [done|done|done|exact Hf1| |exact Hu].
    intros x Hx. destruct (Hbm x Hx). lia.
  - done.
  - intros x Hx. apply Hz0. unfold range in Hx. lia.
  - lia.
  - change (mem s1) with m0. by rewrite Em.
  - change (mem s1) with m0 in *. rewrite Ec in Hrun.
    exists (set_trace (copies (mem s) src f 1024 ++ trace s) (set_mem m s1)). split_and!.
    + unfold clone_table, kmalloc_ap_tmp. rewrite bind_assoc.
      rewrite (bind_done (@allocate (early_allocator ha) _ _ _) _ _ _ _ Hkm), bind_ret. cbv beta iota.
      cbn [fst snd default from_option]. rewrite bind_memset. unfold sizeof_PageDirectory.
      change (set_mem _ (set_placement_address (t + sizeof_PageTable) s)) with s1. by rewrite (bind_done _ _ _ _ _ Hrun).
    + exact Hal.
    + intros q Hq. specialize (Hcl q Hq). cbv zeta in Hcl |- *.
      rewrite Hsrc, (proj1 (Hspec q ltac:(lia))) in Hcl by lia. exact Hcl.
    + done.
    + eapply frame_trans; [eapply frame_weaken; [exact Hf0|cbn; auto]|]. eapply frame_weaken; [exact Hfr|].
      unfold range. intros x _ [?|?]; [left; lia|by right].
    + intros x Hx. cbn [mem set_trace set_mem]. rewrite (frame_ld8 _ _ _ _ Hfr); [apply Hz0; lia|lia|].
      unfold range. intros [?|Hx']; [lia|]. destruct (Hbm x Hx'). lia.
    + done.
Qed.

(** A table at [0x10000] with two mapped entries. *)
Definition sample_table : machine :=
  sample (st32 (st32 (st32 ∅ 0x1000 1) 0x10000 0x7003) 0x10008 0x901F).

Lemma clone_table_entries_witness :
  ∃ s', @clone_table sample_image placement_allocator 0x10000 0 sample_table = Done (0x41000, 0x41000) s' ∧
    entry (mem s') 0x41000 2 = MkPage true true true true true 0 2 ∧
    trace s' = [ev_copy_page 0x9000 0x2000; ev_copy_page 0x7000 0x1000].
Proof.
  destruct (@clone_table_entries sample_image no_heap sample_table 0x10000 0 64 1)
    as (s' & Hrun & _ & Hcl & Htr & _); [done|done|done|done|done|zdecide| |done| |done| |].
  - intros x Hx. change (0x1000 <= x < 0x1008) in Hx. change (x < 0x40000 ∧ ¬ (0x10000 <= x < 0x11000)). lia.
  - intros g Hg. apply eqb_prop.
    apply (forall_below 64 (λ g, eqb (frame_used sample_table g) (g <? 1))); [by vm_compute|lia].
  - by vm_compute.
  - exists s'. split; [exact Hrun|]. split; [|rewrite Htr; by vm_compute].
    refine (eq_trans (Hcl 2%nat ltac:(lia)) _). by vm_compute.
Defined.
