(* ===== verification/Task.v ===== *)
(** * kernel/Task.cpp: processes and the round-robin scheduler

    Tasks are 24-byte structures linked into the ready queue.  [read_eip] and
    the [mov] instructions that read ESP and EBP are assembly: the values they
    yield are arguments.  [perform_task_switch] is assembly as well: its
    arguments are an event of the trace and its write to CR3 is in the state. *)
From S2P Require Import Prelude Memory LibString OrderedList Machine Console Stdio Frames Kmalloc Paging.
Local Open Scope Z_scope.
Local Open Scope u32_scope.

(** ** [struct Task] *)
Definition sizeof_Task : Z := 24.
Definition id_ (t : Z) : Z := t.
Definition esp_ (t : Z) : Z := t ⊕ 4.
Definition ebp_ (t : Z) : Z := t ⊕ 8.
Definition eip_ (t : Z) : Z := t ⊕ 12.
Definition page_directory_ (t : Z) : Z := t ⊕ 16.
Definition next_ (t : Z) : Z := t ⊕ 20.

Definition set_current_task (t : Z) (s : machine) : machine :=
  set_tasks (MkTasks t (ready_queue (tasks s)) (next_pid (tasks s)) (initial_esp (tasks s))) s.
Definition set_ready_queue (t : Z) (s : machine) : machine :=
  set_tasks (MkTasks (current_task (tasks s)) t (next_pid (tasks s)) (initial_esp (tasks s))) s.
Definition set_next_pid (n : Z) (s : machine) : machine :=
  set_tasks (MkTasks (current_task (tasks s)) (ready_queue (tasks s)) n (initial_esp (tasks s))) s.

Definition cli : K unit := modify (add_event ev_cli).
Definition sti : K unit := modify (add_event ev_sti).

(** The registers [esp], [ebp] and the value of [read_eip]. *)
Record context := MkContext {
  x_eip : Z;
  x_esp : Z;
  x_ebp : Z;
}.

(** [next_pid++] *)
Definition take_pid : K Z :=
  n ← gets (λ s, next_pid (tasks s));
  modify (set_next_pid (n ⊕ 1)) ;;
  mret n.

Section tasks.
Context `{Image} `{Allocator}.

Definition initialise_tasking : K unit :=
  cli ;;
  r ← allocate sizeof_Task false None;
  modify (set_ready_queue r.1) ;;
  modify (set_current_task r.1) ;;
  t ← gets (λ s, current_task (tasks s));
  n ← take_pid;
  store32 (id_ t) n ;;
  store32 (ebp_ t) 0 ;;
  store32 (esp_ t) 0 ;;
  store32 (eip_ t) 0 ;;
  d ← gets (λ s, current_directory (pg s));
  store32 (page_directory_ t) d ;;
  store32 (next_ t) 0 ;;
  sti.

(** Reading through a null [current_task] is undefined. *)
Definition getpid : K Z :=
  t ← gets (λ s, current_task (tasks s));
  if t =? 0 then undefined
  else n ← load32 (id_ t); mret (s32 n).

(** What follows [read_eip] in [fork], in the parent and in the child.  Both
    arguments are locals of [fork].  The parent has them; the child is resumed
    on the same stack, for the cloned directory shares every table of the
    kernel, in a frame that the parent has left long before, and finds in them
    whatever is there by then. *)
Definition fork_after (parent_task new_task : Z) (x : context) : K Z :=
  t ← gets (λ s, current_task (tasks s));
  if t =? parent_task then
    store32 (esp_ new_task) (x_esp x) ;;
    store32 (ebp_ new_task) (x_ebp x) ;;
    store32 (eip_ new_task) (x_eip x) ;;
    sti ;;
    n ← load32 (id_ new_task);
    mret (s32 n)
  else mret 0.

(** The fuel bounds the length of the ready queue. *)
Definition fork (fuel : nat) (x : context) : K Z :=
  cli ;;
  parent_task ← gets (λ s, current_task (tasks s));
  cd ← gets (λ s, current_directory (pg s));
  directory ← clone_directory cd;
  r ← allocate sizeof_Task false None;
  let new_task := r.1 in
  n ← take_pid;
  store32 (id_ new_task) n ;;
  store32 (ebp_ new_task) 0 ;;
  store32 (esp_ new_task) 0 ;;
  store32 (eip_ new_task) 0 ;;
  store32 (page_directory_ new_task) directory ;;
  store32 (next_ new_task) 0 ;;
  q ← gets (λ s, ready_queue (tasks s));
  tmp_task ← whileM fuel (λ t s, negb (ld32 (mem s) (next_ t) =? 0)) (λ t, load32 (next_ t)) q;
  store32 (next_ tmp_task) new_task ;;
  fork_after parent_task new_task x.

(** [perform_task_switch(eip, physical, ebp, esp)] does not return. *)
Definition perform_task_switch (eip physical ebp esp : Z) : K unit := λ s,
  Jump (set_control (cr0 (pg s)) physical (add_event (ev_switch eip physical ebp esp) s)).

(** [switch_task] from where [read_eip] has returned: [x_eip] is what it
    returned, the other registers are the locals [esp] and [ebp]. *)
Definition switch_from (x : context) : K unit :=
  t ← gets (λ s, current_task (tasks s));
  store32 (eip_ t) (x_eip x) ;;
  store32 (esp_ t) (x_esp x) ;;
  store32 (ebp_ t) (x_ebp x) ;;
  n ← load32 (next_ t);
  modify (set_current_task n) ;;
  t ← gets (λ s, current_task (tasks s));
  (if t =? 0 then q ← gets (λ s, ready_queue (tasks s)); modify (set_current_task q) else mret tt) ;;
  t ← gets (λ s, current_task (tasks s));
  eip ← load32 (eip_ t);
  esp ← load32 (esp_ t);
  ebp ← load32 (ebp_ t);
  d ← load32 (page_directory_ t);
  modify (set_current_directory d) ;;
  physical ← load32 (PhysicalAddress d);
  perform_task_switch eip physical ebp esp.

Definition switch_task (x : context) : K unit :=
  t ← gets (λ s, current_task (tasks s));
  if t =? 0 then mret tt else switch_from x.

(** [switch_task] in a task that is resumed there.  The jump leads behind the
    call of [read_eip] a second time.  [perform_task_switch] has moved the
    physical address of the directory through EAX into CR3, and the line that
    loads [0x12345] into EAX is commented out (PagingAssembly.S:38-43): EAX,
    the result [read_eip] seems to have, is what CR3 holds.  [esp] and [ebp]
    are what the two locals hold by then. *)
Definition switch_task_resumed (esp ebp : Z) : K unit :=
  eip ← gets (λ s, cr3 (pg s));
  switch_from (MkContext eip esp ebp).

(** One round of its loop over the new stack. *)
Definition move_word (old_stack_pointer initial offset i : Z) : K Z :=
  tmp ← load32 i;
  (if (old_stack_pointer <? tmp) && (tmp <? initial) then store32 i (tmp ⊕ offset) else mret tt) ;;
  mret (i ⊖ 4).

(** The end of [move_stack]: it copies the stack, moves the base pointers in
    the copy, and loads ESP and EBP with what it returns here. *)
Definition copy_stack (fuel : nat) (new_stack_start size : Z) (x : context) : K (Z * Z) :=
  initial ← gets (λ s, initial_esp (tasks s));
  let old_stack_pointer := x_esp x in
  let offset := new_stack_start ⊖ initial in
  let new_stack_pointer := old_stack_pointer ⊕ offset in
  let new_base_pointer := x_ebp x ⊕ offset in
  on_mem (λ m, memcpy m new_stack_pointer old_stack_pointer (initial ⊖ old_stack_pointer)) ;;
  whileM fuel (λ i _, (new_stack_start ⊖ size) <? i)
    (move_word old_stack_pointer initial offset) new_stack_start ;;
  mret (new_stack_pointer, new_base_pointer).

(** The literal "test" is at [lit]; [x] holds ESP and EBP.  The debugging loop
    [while (true)] stands between the mapping of the new stack and the copy. *)
Definition move_stack (fuel : nat) (lit new_stack_start size : Z) (x : context) : K (Z * Z) :=
  whileM fuel (λ i _, (new_stack_start ⊖ size) <=? i)
    (λ i,
      d ← gets (λ s, current_directory (pg s));
      page ← get_page i true d;
      alloc_frame page false true ;;
      mret (i ⊖ 0x1000)) new_stack_start ;;
  modify (λ s, set_control (cr0 (pg s)) (cr3 (pg s)) s) ;;
  printf fuel lit [] ;;
  (hang : K unit) ;;
  copy_stack fuel new_stack_start size x.
End tasks.

(** ** The ready queue *)
Record task := MkTask {
  t_addr : Z;
  t_id : Z;
  t_context : context;
  t_directory : Z;
}.

Definition head_addr (q : list task) : Z := match q with [] => 0 | t :: _ => t_addr t end.

(** The structure of one task, [n] being its [next]. *)
Definition task_at (m : memory) (t : task) (n : Z) : Prop :=
  ld32 m (t_addr t) = t_id t ∧ ld32 m (t_addr t + 4) = x_esp (t_context t) ∧
  ld32 m (t_addr t + 8) = x_ebp (t_context t) ∧ ld32 m (t_addr t + 12) = x_eip (t_context t) ∧
  ld32 m (t_addr t + 16) = t_directory t ∧ ld32 m (t_addr t + 20) = n.

Definition task_range (t : task) : Z → Prop := range (t_addr t) sizeof_Task.
Definition task_ok (t : task) : Prop := 0 < t_addr t ∧ t_addr t + sizeof_Task <= 4294967296.
Definition tasks_apart (t u : task) : Prop :=
  t_addr t + sizeof_Task <= t_addr u ∨ t_addr u + sizeof_Task <= t_addr t.

(** The linked list [q]; its structures do not overlap. *)
Fixpoint queue_at (m : memory) (q : list task) : Prop :=
  match q with
  | [] => True
  | t :: q' => task_ok t ∧ task_at m t (head_addr q') ∧ Forall (tasks_apart t) q' ∧ queue_at m q'
  end.

(** ** The abstract scheduler: the queue and the position of the running task *)
Definition save (x : context) (t : task) : task := MkTask (t_addr t) (t_id t) x (t_directory t).
Definition next_index (n k : nat) : nat := if decide (S k = n) then 0%nat else S k.
Definition sched_step (x : context) (qk : list task * nat) : list task * nat :=
  (alter (save x) qk.2 qk.1, next_index (length qk.1) qk.2).

(** The concrete state holds the queue [q] and runs its [k]-th task. *)
Definition scheduling (s : machine) (q : list task) (k : nat) : Prop :=
  queue_at (mem s) q ∧ ready_queue (tasks s) = head_addr q ∧
  ∃ t, q !! k = Some t ∧ current_task (tasks s) = t_addr t.

Definition context_ok (x : context) : Prop :=
  0 <= x_eip x < 4294967296 ∧ 0 <= x_esp x < 4294967296 ∧ 0 <= x_ebp x < 4294967296.

(** ** Lemmas on the queue *)
Lemma task_at_frame P m m' t n :
  frame P m m' → task_ok t → (∀ x, task_range t x → ¬ P x) → task_at m t n → task_at m' t n.
Proof.
  intros Hf [H0 H1] HP (A & B & C & D & E & F). unfold task_range, range, sizeof_Task in *.
  assert (∀ i, 0 <= i <= 20 → ld32 m' (t_addr t + i) = ld32 m (t_addr t + i)) as Hx.
  { intros i Hi. eapply frame_ld32; [exact Hf|lia..|]. intros y Hy. apply HP. lia. }
  split_and!; rewrite ?Hx by lia; try done. rewrite <- (Z.add_0_r (t_addr t)), Hx by lia.
  by rewrite Z.add_0_r.
Qed.

Lemma queue_at_frame P m m' q :
  frame P m m' → (∀ t x, t ∈ q → task_range t x → ¬ P x) → queue_at m q → queue_at m' q.
Proof.
  intros Hf. induction q as [|t q IH]; intros HP; [done|]. cbn. intros (Ht & Hat & Hap & Hq).
  split_and!; [done| |done|].
  - eapply task_at_frame; [done|done| |done]. intros x. apply HP. by left.
  - apply IH; [|done]. intros u x Hu. apply HP. by right.
Qed.

Lemma scheduling_frame P s s' q k :
  frame P (mem s) (mem s') → tasks s' = tasks s → (∀ t x, t ∈ q → task_range t x → ¬ P x) →
  scheduling s q k → scheduling s' q k.
Proof. intros Hf Ht HP (Hq & ? & ?). unfold scheduling. rewrite Ht. split; [by eapply queue_at_frame|done]. Qed.

Lemma head_addr_alter x k q : head_addr (alter (save x) k q) = head_addr q.
Proof. by destruct q, k. Qed.

Lemma Forall_apart_alter t x k q : Forall (tasks_apart t) q → Forall (tasks_apart t) (alter (save x) k q).
Proof.
  revert k. induction q as [|u q IH]; intros k H; [by destruct k|].
  inversion_clear H. destruct k; constructor; auto.
Qed.

(** The address of the task after the [k]-th, 0 at the end. *)
Definition after (q : list task) (k : nat) : Z := head_addr (drop (S k) q).

Lemma queue_lookup m q k t : queue_at m q → q !! k = Some t → task_ok t ∧ task_at m t (after q k).
Proof.
  revert k. induction q as [|u q IH]; intros [|k] Hq Hk; simplify_eq/=.
  - destruct Hq as (? & ? & _). unfold after. cbn. by rewrite drop_0.
  - apply IH; [apply Hq|done].
Qed.

(** Rewriting the saved context of one task. *)
Lemma queue_save m m' q k t x :
  queue_at m q → q !! k = Some t → frame (task_range t) m m' →
  task_at m' (save x t) (after q k) → queue_at m' (alter (save x) k q).
Proof.
  intros Hq Hk Hf Hat. revert k Hq Hk Hat.
  induction q as [|u q IH]; intros [|k] Hq Hk Hat; simplify_eq/=;
    destruct Hq as (Hu & Huat & Hap & Hq).
  - unfold after in Hat. cbn in Hat. rewrite drop_0 in Hat. split_and!; [done|done|done|].
    eapply queue_at_frame; [exact Hf| |done]. intros v y Hv Hy Hy'.
    rewrite Forall_forall in Hap. specialize (Hap v Hv).
    unfold tasks_apart, task_range, range in *. lia.
  - rewrite head_addr_alter. split_and!; [done| | |].
    + eapply task_at_frame; [exact Hf|done| |done]. intros y Hy Hy'.
      rewrite Forall_forall in Hap. specialize (Hap t (list_elem_of_lookup_2 _ _ _ Hk)).
      unfold tasks_apart, task_range, range in *. lia.
    + by apply Forall_apart_alter.
    + apply IH; [done|done|]. exact Hat.
Qed.

Lemma save_stores m t x n :
  task_ok t → context_ok x → task_at m t n →
  let m' := st32 (st32 (st32 m (t_addr t + 12) (x_eip x)) (t_addr t + 4) (x_esp x)) (t_addr t + 8) (x_ebp x) in
  task_at m' (save x t) n ∧ frame (task_range t) m m'.
Proof.
  intros [H0 H1] (He & Hs & Hb) (A & B & C & D & E & F) m'. unfold sizeof_Task in H1. split.
  - unfold m', task_at; cbn. split_and!; mem_simpl; rewrite ?w32_small by lia; done.
  - unfold m'. repeat (apply frame_st32; [|lia|lia|unfold task_range, range, sizeof_Task; lia]).
    apply frame_refl.
Qed.

(** The task that runs next. *)
Lemma next_task m q k t :
  queue_at m q → q !! k = Some t →
  ∃ u, q !! next_index (length q) k = Some u ∧
    t_addr u = (if after q k =? 0 then head_addr q else after q k).
Proof.
  intros Hq Hk. apply lookup_lt_Some in Hk as Hlt. unfold next_index, after.
  destruct (decide (S k = length q)) as [E|E].
  - rewrite drop_ge by lia. destruct q as [|u q]; [simpl in Hlt; lia|]. by exists u.
  - destruct (lookup_lt_is_Some_2 q (S k)) as [u Hu]; [lia|].
    rewrite (drop_S _ u) by done. cbn [head_addr]. exists u. split; [done|].
    destruct (queue_lookup _ _ _ _ Hq Hu) as [[Hpos _] _].
    by destruct (Z.eqb_spec (t_addr u) 0); [lia|].
Qed.

Section scheduler.
Context `{Image} `{Allocator}.

(** The jump to task [u] in state [s]. *)
Definition switch_event (s : machine) (u : task) : event :=
  let x := t_context u in
  ev_switch (x_eip x) (ld32 (mem s) (PhysicalAddress (t_directory u))) (x_ebp x) (x_esp x).

(** What one switch does: the abstract step, and the jump to the next task. *)
Definition switched (s s' : machine) (x : context) (q : list task) (k : nat) : Prop :=
  let '(q', k') := sched_step x (q, k) in
  scheduling s' q' k' ∧
  ∃ u, q' !! k' = Some u ∧ trace s' = switch_event s' u :: trace s ∧
    current_directory (pg s') = t_directory u ∧
    cr3 (pg s') = ld32 (mem s') (PhysicalAddress (t_directory u)).

Lemma switch_task_refines s q k x :
  scheduling s q k → context_ok x →
  ∃ s', switch_task x s = Jump s' ∧ switched s s' x q k ∧
    (∀ t, q !! k = Some t → frame (task_range t) (mem s) (mem s')) ∧ irq s' = irq s.
Proof.
  intros (Hq & Hready & t & Hk & Hcur) Hx.
  destruct (queue_lookup _ _ _ _ Hq Hk) as [Ht Hat]. pose proof Ht as [Ht0 Ht1].
  unfold sizeof_Task in Ht1.
  destruct (save_stores (mem s) t x (after q k) Ht Hx Hat) as [Hsave Hf].
  set (m' := st32 _ _ (x_ebp x)) in Hsave, Hf.
  pose proof (queue_save _ _ _ _ _ _ Hq Hk Hf Hsave) as Hq'.
  set (q' := alter (save x) k q) in Hq'.
  assert (q' !! k = Some (save x t)) as Hk' by (unfold q'; by rewrite list_lookup_alter_eq, Hk).
  assert (length q' = length q) as Hlen by apply length_alter.
  destruct (next_task _ _ _ _ Hq' Hk') as (u & Hu & Hua). rewrite Hlen in Hu.
  assert (head_addr q' = head_addr q) as Hhead by apply head_addr_alter.
  assert (ld32 m' (t_addr t + 20) = after q' k) as Hnext.
  { destruct (queue_lookup _ _ _ _ Hq' Hk') as [_ (_ & _ & _ & _ & _ & E)]. exact E. }
  destruct (queue_lookup _ _ _ _ Hq' Hu) as [[Hu0 Hu1] (_ & Uesp & Uebp & Ueip & Udir & _)].
  unfold sizeof_Task in Hu1.
  assert (∃ s1, switch_task x s =
      (eip ← load32 (eip_ (t_addr u)); esp ← load32 (esp_ (t_addr u));
       ebp ← load32 (ebp_ (t_addr u)); d ← load32 (page_directory_ (t_addr u));
       modify (set_current_directory d) ;; physical ← load32 (PhysicalAddress d);
       perform_task_switch eip physical ebp esp) s1 ∧ s1 = set_current_task (t_addr u) (set_mem m' s))
    as (s1 & Hrun & Hs1).
  { eexists. split; [|reflexivity]. unfold switch_task, switch_from. rewrite bind_gets, Hcur.
    rewrite (proj2 (Z.eqb_neq (t_addr t) 0)), bind_gets, Hcur by lia. kstores.
    unfold eip_, esp_, ebp_, next_ at 1. w32_simpl. fold m'. rewrite bind_modify. kstores.
    rewrite Hnext. cbn [current_task tasks set_current_task set_tasks].
    destruct (Z.eqb_spec (after q' k) 0) as [E|E]; cbv iota.
    - kstores. cbn [tasks set_current_task set_tasks ready_queue]. rewrite bind_modify.
      kstores. cbn [current_task tasks set_current_task set_tasks set_mem].
      rewrite Hready, <- Hhead, <- Hua. w32_simpl. done.
    - rewrite bind_ret, bind_gets. cbn [current_task tasks set_current_task set_tasks].
      rewrite <- Hua. unfold eip_, esp_, ebp_. w32_simpl. done. }
  rewrite Hrun, Hs1. kstores. cbn [mem set_current_task set_tasks set_mem].
  unfold eip_, esp_, ebp_, page_directory_. w32_simpl. rewrite Uesp, Uebp, Ueip, Udir.
  rewrite bind_modify. kstores. unfold perform_task_switch.
  eexists. split; [reflexivity|]. split; [|split; [|done]].
  - unfold switched, sched_step. cbn [fst snd]. fold q'. split.
    + split; [exact Hq'|]. split; [by rewrite Hhead|]. by exists u.
    + exists u. split; [done|]. split; [|done]. done.
  - intros t' Ht'. assert (t' = t) as -> by congruence. exact Hf.
Qed.

(** ** Runs of switches *)

(** The states reached by switching again and again, the running task being
    interrupted with the contexts [cs] in turn. *)
Fixpoint switches (cs : list context) (s : machine) : option machine :=
  match cs with
  | [] => Some s
  | x :: cs' => match switch_task x s with Jump s' => switches cs' s' | _ => None end
  end.
Definition sched_run (cs : list context) (qk : list task * nat) : list task * nat :=
  foldl (λ qk x, sched_step x qk) qk cs.

Lemma switches_snoc cs x s s1 s2 :
  switches cs s = Some s1 → switch_task x s1 = Jump s2 → switches (cs ++ [x]) s = Some s2.
Proof.
  revert s. induction cs as [|y cs IH]; intros s; cbn [app switches].
  - by intros [= ->] ->.
  - destruct (switch_task y s); [done|done|apply IH|done..].
Qed.

Lemma sched_run_snoc cs x qk : sched_run (cs ++ [x]) qk = sched_step x (sched_run cs qk).
Proof. unfold sched_run. by rewrite foldl_app. Qed.

Lemma next_index_mod n k : (k < n)%nat → next_index n k = ((k + 1) mod n)%nat.
Proof.
  intros Hk. unfold next_index. destruct (decide (S k = n)) as [<-|].
  - replace (k + 1)%nat with (S k) by lia. by rewrite Nat.Div0.mod_same.
  - rewrite Nat.mod_small; lia.
Qed.

Lemma mod_add_inj n k i j :
  (i < n)%nat → (j < n)%nat → ((k + i) mod n = (k + j) mod n)%nat → i = j.
Proof.
  intros Hi Hj E. pose proof (Nat.div_mod (k + i) n ltac:(lia)). pose proof (Nat.div_mod (k + j) n ltac:(lia)).
  assert ((k + i) / n = (k + j) / n)%nat; [|nia].
  pose proof (Nat.mod_upper_bound (k + i) n ltac:(lia)). nia.
Qed.

(** Each of the first switches saves its context in another task. *)
Lemma sched_run_spec q k cs :
  (k < length q)%nat → (length cs <= length q)%nat →
  let n := length q in
  let '(q', k') := sched_run cs (q, k) in
  length q' = n ∧ k' = ((k + length cs) mod n)%nat ∧
  (∀ i x, cs !! i = Some x → ∃ t, q !! ((k + i) mod n)%nat = Some t ∧
    q' !! ((k + i) mod n)%nat = Some (save x t)) ∧
  (∀ i, (length cs <= i < n)%nat → q' !! ((k + i) mod n)%nat = q !! ((k + i) mod n)%nat).
Proof.
  intros Hk. induction cs as [|x cs IH] using rev_ind; intros Hlen n.
  - cbn. rewrite Nat.add_0_r, Nat.mod_small by done. done.
  - rewrite length_app in Hlen. cbn in Hlen.
    rewrite sched_run_snoc. destruct (sched_run cs (q, k)) as [q1 k1].
    destruct IH as (Hl & -> & Hsaved & Hrest); [lia|]. fold n in Hl, Hsaved, Hrest.
    unfold sched_step; cbn [fst snd]. rewrite length_alter, length_app, Hl. cbn [length].
    assert (∀ j, ((k + j) mod n < n)%nat) as Hmod by (intros; apply Nat.mod_upper_bound; lia).
    split_and!; [done| | |].
    + rewrite next_index_mod by done. rewrite Nat.Div0.add_mod_idemp_l. f_equal. lia.
    + intros i y Hy. apply lookup_app_Some in Hy as [Hy|[Hge Hy]].
      * destruct (Hsaved i y Hy) as (t & Ht & Ht'). exists t. split; [done|].
        apply lookup_lt_Some in Hy. rewrite list_lookup_alter_ne; [done|].
        intros E. apply mod_add_inj in E; lia.
      * apply list_lookup_singleton_Some in Hy as [Hi ->]. replace i with (length cs) by lia.
        rewrite list_lookup_alter_eq, Hrest by lia.
        destruct (lookup_lt_is_Some_2 q _ (Hmod (length cs))) as [t Ht].
        exists t. by rewrite Ht.
    + intros i Hi. rewrite list_lookup_alter_ne; [apply Hrest; lia|].
      intros E. apply mod_add_inj in E; lia.
Qed.

(** The concrete scheduler follows the abstract one. *)
Lemma switches_refine s q k cs :
  scheduling s q k → Forall context_ok cs →
  ∃ s', switches cs s = Some s' ∧
    let '(q', k') := sched_run cs (q, k) in scheduling s' q' k' ∧
    (cs ≠ [] → ∃ u evs, q' !! k' = Some u ∧ trace s' = switch_event s' u :: evs).
Proof.
  intros Hs. induction cs as [|x cs IH] using rev_ind; intros Hcs.
  - exists s. by split.
  - apply Forall_app in Hcs as [Hcs [Hx _]%Forall_cons]. destruct (IH Hcs) as (s1 & Hrun & H1).
    rewrite sched_run_snoc. destruct (sched_run cs (q, k)) as [q1 k1]. destruct H1 as [Hs1 _].
    destruct (switch_task_refines s1 q1 k1 x Hs1 Hx) as (s2 & Hrun2 & Hsw & _).
    exists s2. split; [by eapply switches_snoc|].
    unfold switched in Hsw. destruct (sched_step x (q1, k1)) as [q2 k2].
    destruct Hsw as (Hs2 & u & Hu & Htr & _). split; [done|]. intros _. by eexists u, _.
Qed.

(** A full round leads back to the task it started from. *)
Lemma switches_round s q k t x cs :
  scheduling s q k → q !! k = Some t → Forall context_ok (x :: cs) → length (x :: cs) = length q →
  ∃ s' q' evs, switches (x :: cs) s = Some s' ∧ scheduling s' q' k ∧ q' !! k = Some (save x t) ∧
    trace s' = switch_event s' (save x t) :: evs ∧
    ∀ i y, (x :: cs) !! i = Some y → ∃ u, q !! ((k + i) mod length q)%nat = Some u ∧
      q' !! ((k + i) mod length q)%nat = Some (save y u).
Proof.
  intros Hs Ht Hcs Hlen. apply lookup_lt_Some in Ht as Hk.
  pose proof (sched_run_spec q k (x :: cs) Hk ltac:(lia)) as Hrun. cbv zeta in Hrun.
  destruct (switches_refine s q k (x :: cs) Hs Hcs) as (s' & Hsw & Href).
  destruct (sched_run (x :: cs) (q, k)) as [q' k'].
  destruct Hrun as (Hl & Hk' & Hsaved & _). destruct Href as [Hq' Hev]. rewrite Hlen in Hk'.
  assert (k' = k) as ->.
  { rewrite Hk'. replace (k + length q)%nat with (k + 1 * length q)%nat by lia.
    rewrite Nat.Div0.mod_add. by apply Nat.mod_small. }
  destruct (Hsaved 0%nat x eq_refl) as (t' & Ht' & Hst). rewrite Nat.add_0_r, Nat.mod_small in Ht', Hst by done.
  assert (t' = t) as -> by congruence.
  destruct (Hev ltac:(done)) as (u & evs & Hu & Htr). assert (u = save x t) as -> by congruence.
  by exists s', q', evs.
Qed.

Lemma getpid_ok s q k t :
  scheduling s q k → q !! k = Some t → 0 <= t_id t < 2147483648 → getpid s = Done (t_id t) s.
Proof.
  intros (Hq & _ & u & Hu & Hcur) Ht Hid. assert (u = t) as -> by congruence.
  destruct (queue_lookup _ _ _ _ Hq Ht) as [[Ht0 _] (Hpid & _)].
  unfold getpid, id_. rewrite bind_gets, Hcur, (proj2 (Z.eqb_neq _ _)) by lia.
  by rewrite bind_load32, Hpid, s32_small by lia.
Qed.
End scheduler.

(** ** Creating tasks *)
Section creation.
Context `{Image} `{AS : AllocatorSpec} `{!AllocatorLaws}.

(** The walk to the end of the ready queue. *)
Lemma queue_tail s q t fuel :
  queue_at (mem s) (q ++ [t]) → (length q <= fuel)%nat →
  whileM fuel (λ t s, negb (ld32 (mem s) (next_ t) =? 0)) (λ t, load32 (next_ t))
    (head_addr (q ++ [t])) s = Done (t_addr t) s.
Proof.
  revert fuel. induction q as [|u q IH]; intros fuel Hq Hf; cbn [app head_addr].
  - destruct Hq as ([? ?] & (_ & _ & _ & _ & _ & Hn) & _). unfold sizeof_Task in *.
    rewrite <- ld32_w32 in Hn. change (w32 (t_addr t + 20)) with (next_ (t_addr t)) in Hn.
    destruct fuel; cbn [whileM]; cbv beta; by rewrite Hn.
  - destruct fuel as [|fuel]; [simpl in Hf; lia|]. cbn in Hq.
    destruct Hq as ([? ?] & (_ & _ & _ & _ & _ & Hn) & _ & Hq). unfold sizeof_Task in *.
    rewrite <- ld32_w32 in Hn. change (w32 (t_addr u + 20)) with (next_ (t_addr u)) in Hn.
    cbn [whileM]. cbv beta. rewrite Hn.
    assert (0 < head_addr (q ++ [t])) as Hpos by (destruct q; apply Hq).
    rewrite (proj2 (Z.eqb_neq (head_addr (q ++ [t])) 0)) by lia. cbn [negb].
    rewrite bind_load32, Hn. apply IH; [done|simpl in Hf; lia].
Qed.

(** Linking a new task behind the last one. *)
Lemma queue_link m q t n :
  queue_at m (q ++ [t]) → task_ok n → task_at m n 0 → Forall (λ u, tasks_apart u n) (q ++ [t]) →
  queue_at (st32 m (t_addr t + 20) (t_addr n)) (q ++ [t; n]).
Proof.
  intros Hq Hn Hat Hap.
  assert (task_ok t) as Ht.
  { assert ((q ++ [t]) !! length q = Some t) as Hk by by apply list_lookup_middle.
    by apply (queue_lookup _ _ _ _ Hq Hk). }
  pose proof Ht as [Ht0 Ht1]. pose proof Hn as [Hn0 Hn1]. unfold sizeof_Task in *.
  assert (frame (task_range t) m (st32 m (t_addr t + 20) (t_addr n))) as Hf.
  { apply frame_st32; [apply frame_refl|lia|lia|unfold task_range, range, sizeof_Task; lia]. }
  induction q as [|u q IH].
  - destruct Hq as (_ & (A & B & C & D & E & F) & _). cbn in Hap. rewrite Forall_singleton in Hap.
    cbn. refine (conj Ht (conj _ (conj _ (conj Hn (conj _ (conj _ I)))))); [| | |by constructor].
    + unfold task_at. split_and!; mem_simpl; rewrite ?w32_small by lia; done.
    + by apply Forall_singleton.
    + eapply task_at_frame; [exact Hf|done| |done].
      unfold tasks_apart, task_range, range, sizeof_Task in *. lia.
  - cbn in Hq, Hap |- *. destruct Hq as (Hu & Huat & Huap & Hq). apply Forall_cons in Hap as [Hun Hap].
    assert (tasks_apart u t) as Hut by (rewrite Forall_app, Forall_singleton in Huap; apply Huap).
    refine (conj Hu (conj _ (conj _ _))); [| |apply IH; auto].
    + replace (head_addr (q ++ [t; n])) with (head_addr (q ++ [t])) by by destruct q.
      eapply task_at_frame; [exact Hf|done| |done]. destruct Hu.
      unfold tasks_apart, task_range, range, sizeof_Task in *. lia.
    + rewrite Forall_app in Huap |- *. destruct Huap as [? _]. split; [done|]. rewrite !Forall_cons. by split_and!.
Qed.

(** The fields of a new task, before its context is known. *)
Definition blank_task (m : memory) (t pid dir : Z) : memory :=
  st32 (st32 (st32 (st32 (st32 (st32 m t pid) (t + 8) 0) (t + 4) 0) (t + 12) 0) (t + 16) dir) (t + 20) 0.

Lemma blank_task_at m t pid dir :
  0 < t → t + 24 <= 4294967296 → 0 <= pid < 4294967296 → 0 <= dir < 4294967296 →
  task_at (blank_task m t pid dir) (MkTask t pid (MkContext 0 0 0) dir) 0 ∧
  frame (range t 24) m (blank_task m t pid dir).
Proof.
  intros Hlo Hhi Hp Hd. split.
  - unfold task_at, blank_task; cbn. split_and!; mem_simpl; rewrite ?w32_small by lia; done.
  - unfold blank_task. repeat (apply frame_st32; [|lia|lia|unfold range; lia]). apply frame_refl.
Qed.

Lemma alloc_inv_event s e : alloc_inv s → alloc_inv (add_event e s).
Proof. intros Hi. eapply alloc_inv_stable; [exact Hi|done|apply frame_refl]. Qed.
Lemma reserved_event s e x : alloc_inv s → reserved s x → reserved (add_event e s) x.
Proof. intros Hi. by apply reserved_stable; [..|apply frame_refl]. Qed.

Lemma room_event s e l : alloc_inv s → room s l → room (add_event e s) l.
Proof. intros Hi. by apply room_stable; [..|apply frame_refl]. Qed.

(** What [initialise_tasking] does. *)
Record tasking_started (s s' : machine) (t : Z) : Prop := {
  tg_queue : scheduling s' [MkTask t (next_pid (tasks s)) (MkContext 0 0 0) (current_directory (pg s))] 0;
  tg_pid : next_pid (tasks s') = next_pid (tasks s) + 1;
  tg_trace : trace s' = ev_sti :: ev_cli :: trace s;
  tg_frame : frame (λ x, ¬ reserved s x) (mem s) (mem s');
  tg_rest : pg s' = pg s ∧ irq s' = irq s ∧ tty s' = tty s ∧ initrd s' = initrd s;
  tg_inv : alloc_inv s';
  tg_fresh x : range t sizeof_Task x → ¬ reserved s x;
  tg_reserved x : range t sizeof_Task x ∨ reserved s x → reserved s' x;
  tg_room l : room s ((sizeof_Task, false) :: l) → room s' l;
}.

Lemma initialise_tasking_ok s l :
  alloc_inv s → room s ((sizeof_Task, false) :: l) → 0 <= next_pid (tasks s) < 2147483647 →
  0 <= current_directory (pg s) < 4294967296 →
  ∃ s' t, initialise_tasking s = Done tt s' ∧ tasking_started s s' t.
Proof.
  intros Hi Hr Hpid Hdir. pose proof (λ x, reserved_event s ev_cli x Hi) as Hev. set (s0 := add_event ev_cli s) in *.
  destruct (allocate_ok s0 sizeof_Task false None l (alloc_inv_event _ _ Hi) ltac:(done))
    as (t & s1 & Hal & Hat); [by apply room_event|].
  destruct (al_range _ _ _ _ _ Hat) as [Ht0 Ht1]. unfold sizeof_Task in Ht1.
  pose proof (al_rest _ _ _ _ _ Hat) as (Hpg & Htty & Hirq & Htasks & Hrd & Htr).
  change (tasks s0) with (tasks s) in Htasks. change (pg s0) with (pg s) in Hpg.
  destruct (blank_task_at (mem s1) t (next_pid (tasks s)) (current_directory (pg s))) as [Hb Hf]; [lia..|].
  set (s2 := set_tasks (MkTasks t t (next_pid (tasks s) + 1) (initial_esp (tasks s))) s1).
  set (s' := add_event ev_sti (set_mem (blank_task (mem s1) t (next_pid (tasks s)) (current_directory (pg s))) s2)).
  assert (frame (reserved s1) (mem s1) (mem s')) as Hf1.
  { eapply frame_weaken; [exact Hf|]. intros x _ Hx. apply (al_reserved _ _ _ _ _ Hat). by left. }
  exists s', t. split.
  - unfold initialise_tasking, cli, take_pid. rewrite bind_modify. fold s0.
    rewrite (bind_done _ _ _ _ _ Hal), !bind_modify. cbn [fst]. kstores.
    cbn [current_task next_pid tasks set_current_task set_ready_queue set_tasks]. rewrite bind_modify.
    kstores. cbn [mem pg set_next_pid set_current_task set_ready_queue set_tasks].
    unfold s', s2, sti, modify, id_, ebp_, esp_, eip_, page_directory_, next_.
    rewrite (w32_small (next_pid (tasks s1) + 1)) by (rewrite Htasks; lia). w32_simpl.
    by rewrite <- Htasks, <- Hpg.
  - split; [|done|cbn; by rewrite Htr| |done| | | |].
    + split; [|split; [done|by eexists]]. split_and!; [split; unfold sizeof_Task; cbn; lia|exact Hb|constructor|done].
    + apply (frame_trans _ _ (mem s1)); (eapply frame_weaken; [first [apply Hat|exact Hf]|]); intros x _ Hx Hn.
      * by apply Hx, Hev.
      * by apply (al_fresh _ _ _ _ _ Hat x Hx), Hev.
    + by apply (alloc_inv_stable s1); [apply Hat|..].
    + intros x Hx Hn. by apply (al_fresh _ _ _ _ _ Hat x Hx), Hev.
    + intros x Hx. apply (reserved_stable s1); [apply Hat|done|exact Hf1|]. apply Hat.
      destruct Hx; [by left|right; by apply Hev].
    + intros l' Hl. apply (room_stable s1); [apply Hat|done|exact Hf1|]. by apply Hat, room_event.
Qed.

Lemma queue_reserved_frame s m' q :
  (∀ t x, t ∈ q → task_range t x → reserved s x) → frame (λ x, ¬ reserved s x) (mem s) m' →
  queue_at (mem s) q → queue_at m' q.
Proof. intros Hres Hf. eapply queue_at_frame; [exact Hf|]. intros t x Ht Hx Hn. by eapply Hn, Hres. Qed.

(** The part of [fork] that runs after [read_eip] in the parent. *)
Lemma fork_after_parent s t x pid :
  task_ok t → context_ok x → task_at (mem s) t 0 → 0 <= pid < 2147483648 → t_id t = pid →
  ∃ m', fork_after (current_task (tasks s)) (t_addr t) x s = Done pid (add_event ev_sti (set_mem m' s)) ∧
    task_at m' (save x t) 0 ∧ frame (task_range t) (mem s) m'.
Proof.
  intros [Ht0 Ht1] (Xe & Xs & Xb) (A & B & C & D & E & F) Hpid Hid. unfold sizeof_Task in Ht1.
  set (m' := st32 (st32 (st32 (mem s) (t_addr t + 4) (x_esp x)) (t_addr t + 8) (x_ebp x)) (t_addr t + 12) (x_eip x)).
  exists m'. split_and!.
  - unfold fork_after, sti. rewrite bind_gets, Z.eqb_refl. kstores. rewrite bind_modify. kstores.
    unfold esp_, ebp_, eip_, id_. w32_simpl. fold m'. cbn [mem add_event set_mem].
    unfold mret, kernel_ret. f_equal. unfold m'. mem_simpl. rewrite A, Hid. by apply s32_small.
  - unfold m', task_at; cbn. split_and!; mem_simpl; rewrite ?w32_small by lia; done.
  - unfold m'. repeat (apply frame_st32; [|lia|lia|unfold task_range, range, sizeof_Task; lia]).
    apply frame_refl.
Qed.

(** [fork] from the allocation of the new structure on. *)
Definition fork_rest (fuel : nat) (parent_task directory new_task : Z) (x : context) : K Z :=
  n ← take_pid;
  store32 (id_ new_task) n ;;
  store32 (ebp_ new_task) 0 ;;
  store32 (esp_ new_task) 0 ;;
  store32 (eip_ new_task) 0 ;;
  store32 (page_directory_ new_task) directory ;;
  store32 (next_ new_task) 0 ;;
  q ← gets (λ s, ready_queue (tasks s));
  tmp_task ← whileM fuel (λ t s, negb (ld32 (mem s) (next_ t) =? 0)) (λ t, load32 (next_ t)) q;
  store32 (next_ tmp_task) new_task ;;
  fork_after parent_task new_task x.

Lemma fork_link fuel s q l nt dir x :
  let pid := next_pid (tasks s) in
  queue_at (mem s) (q ++ [l]) → ready_queue (tasks s) = head_addr (q ++ [l]) →
  0 < nt → nt + 24 <= 4294967296 → 0 <= pid < 2147483647 → 0 <= dir < 4294967296 → context_ok x →
  Forall (λ u, tasks_apart u (MkTask nt pid x dir)) (q ++ [l]) → (length q <= fuel)%nat →
  ∃ m', fork_rest fuel (current_task (tasks s)) dir nt x s =
      Done pid (add_event ev_sti (set_mem m' (set_next_pid (pid + 1) s))) ∧
    queue_at m' (q ++ [l; MkTask nt pid x dir]) ∧
    frame (λ y, range nt 24 y ∨ task_range l y) (mem s) m'.
Proof.
  intros pid Hq Hready Hn0 Hn1 Hpid Hdir Hx Hap Hfuel.
  assert (task_ok l) as [Hl0 Hl1].
  { assert ((q ++ [l]) !! length q = Some l) as Hk by by apply list_lookup_middle.
    apply (queue_lookup _ _ _ _ Hq Hk). }
  unfold sizeof_Task in Hl1.
  destruct (blank_task_at (mem s) nt pid dir) as [Hb Hf]; [lia..|].
  set (n := MkTask nt pid (MkContext 0 0 0) dir) in *. set (m1 := blank_task (mem s) nt pid dir) in *.
  assert (task_ok n) as Hn by (split; unfold sizeof_Task; cbn; lia).
  assert (Forall (λ u, tasks_apart u n) (q ++ [l])) as Hap' by exact Hap.
  assert (queue_at m1 (q ++ [l])) as Hq1.
  { eapply queue_at_frame; [exact Hf| |done]. intros t y Ht Hy Hy'.
    rewrite Forall_forall in Hap'. specialize (Hap' t Ht).
    unfold tasks_apart, task_range, range, sizeof_Task in *. cbn in Hap'. lia. }
  pose proof (queue_link m1 q l n Hq1 Hn Hb Hap') as Hq2. cbn [t_addr n] in Hq2.
  assert ((q ++ [l; n]) !! S (length q) = Some n) as Hidx.
  { rewrite lookup_app_r by lia. by replace (S (length q) - length q)%nat with 1%nat by lia. }
  destruct (queue_lookup _ _ _ _ Hq2 Hidx) as [_ Hn2].
  assert (after (q ++ [l; n]) (S (length q)) = 0) as Ha.
  { unfold after. by rewrite drop_ge by (rewrite length_app; cbn; lia). }
  rewrite Ha in Hn2. set (m2 := st32 m1 (t_addr l + 20) nt) in *.
  set (s2 := set_mem m2 (set_next_pid (pid + 1) s)).
  destruct (fork_after_parent s2 n x pid Hn Hx Hn2 ltac:(lia) eq_refl) as (m' & Hrun & Hn3 & Hf3).
  exists m'. split; [|split].
  - unfold fork_rest, take_pid. kstores. rewrite bind_modify. kstores.
    unfold id_, ebp_, esp_, eip_, page_directory_.
    fold pid. rewrite (w32_small (pid + 1)) by lia.
    change (mem (set_next_pid (pid + 1) s)) with (mem s).
    change (ready_queue (tasks (set_mem ?m (set_next_pid (pid + 1) s)))) with (ready_queue (tasks s)).
    change (next_ nt) with (nt ⊕ 20). rewrite !(w32_small (nt + _)) by lia.
    match goal with |- (_ ≫= _) (set_mem ?m _) = _ => change m with m1 end.
    rewrite Hready, (bind_done _ _ _ _ _ (queue_tail (set_mem m1 (set_next_pid (pid + 1) s)) q l fuel Hq1 Hfuel)).
    kstores. change (next_ (t_addr l)) with (w32 (t_addr l + 20)). rewrite w32_small by lia. exact Hrun.
  - replace (q ++ [l; MkTask nt pid x dir]) with (alter (save x) (S (length q)) (q ++ [l; n])).
    + eapply queue_save; [exact Hq2|exact Hidx|exact Hf3|]. by rewrite Ha.
    + rewrite alter_app_r_alt by lia. by replace (S (length q) - length q)%nat with 1%nat by lia.
  - eapply frame_trans; [eapply frame_weaken; [exact Hf|by left]|].
    apply (frame_trans _ _ m2).
    + apply frame_st32; [apply frame_refl|lia|lia|]. unfold task_range, range, sizeof_Task. lia.
    + eapply frame_weaken; [exact Hf3|]. intros y _ Hy. by left.
Qed.

Lemma fresh_apart_tasks t n :
  (∀ y, range (t_addr n) 24 y → ¬ task_range t y) → tasks_apart t n.
Proof.
  intros Hfr. unfold tasks_apart, task_range, range, sizeof_Task in *.
  destruct (decide (t_addr t + 24 <= t_addr n)); [by left|]. destruct (decide (t_addr n + 24 <= t_addr t)); [by right|].
  exfalso. apply (Hfr (Z.max (t_addr t) (t_addr n))); lia.
Qed.

(** What [fork] allocates: a directory, then the child's structure. *)
Definition fork_requests : list (Z * bool) := [(sizeof_PageDirectory, true); (sizeof_Task, false)].

Record fork_space (s s2 : machine) (dir nt : Z) : Prop := {
  sp_dir : dir_ok dir ∧ dir mod 4096 = 0;
  sp_task : 0 < nt ∧ nt + 24 <= 4294967296;
  sp_tables : ∀ i, 0 <= i < 1024 →
    ld32 (mem s2) (Tables dir i) = ld32 (mem s) (Tables (current_directory (pg s)) i);
  sp_address : ld32 (mem s2) (PhysicalAddress dir) = w32 (reported dir indeterminate + 4096);
  sp_inv : alloc_inv s2;
  sp_frame : frame (λ x, ¬ reserved s x) (mem s) (mem s2);
  sp_fresh x : range nt 24 x ∨ dir_range dir x → ¬ reserved s x;
  sp_apart x : range nt 24 x → ¬ dir_range dir x;
  sp_reserved x : range nt 24 x ∨ dir_range dir x ∨ reserved s x → reserved s2 x;
  sp_rest : same_but_kmem (add_event ev_cli s) s2;
  sp_room l : room s (fork_requests ++ l) → room s2 l;
}.

Lemma fork_space_ok s l :
  alloc_inv s → room s (fork_requests ++ l) →
  dir_ok (current_directory (pg s)) → dir_ok (kernel_directory (pg s)) →
  (∀ y, dir_range (current_directory (pg s)) y → reserved s y) →
  (∀ y, dir_range (kernel_directory (pg s)) y → reserved s y) →
  shares_kernel_tables s (current_directory (pg s)) →
  ∃ dir s1 nt s2, clone_directory (current_directory (pg s)) (add_event ev_cli s) = Done dir s1 ∧
    allocate sizeof_Task false None s1 = Done (nt, report nt None) s2 ∧ fork_space s s2 dir nt.
Proof.
  intros Hinv Hr Hcd Hkd Hrc Hrk Hsh. pose proof (λ x, reserved_event s ev_cli x Hinv) as Hev.
  destruct (clone_directory_shared (add_event ev_cli s) (current_directory (pg s)) ((sizeof_Task, false) :: l)
    (alloc_inv_event _ _ Hinv)) as (dir & s1 & Hclone & DC); try done; [by apply room_event|auto..|].
  destruct (allocate_ok s1 sizeof_Task false None l (dc_inv _ _ _ _ DC) ltac:(done)) as (nt & s2 & Hal & Hat).
  { by apply (dc_room _ _ _ _ DC), room_event. }
  exists dir, s1, nt, s2. split_and!; [done..|].
  destruct (al_range _ _ _ _ _ Hat) as [Hn0 Hn1]. pose proof (dc_dir _ _ _ _ DC) as [Hdok Hdal].
  pose proof Hdok as [Hd0 Hd1]. unfold sizeof_Task in Hn1. unfold sizeof_PageDirectory in Hd1.
  assert (∀ x, range nt 24 x → ¬ reserved s1 x) as Hnt by apply (al_fresh _ _ _ _ _ Hat).
  split.
  - done.
  - done.
  - intros i Hi. rewrite Tables_val by done.
    rewrite (frame_ld32 _ _ _ _ (al_frame _ _ _ _ _ Hat)); [|lia..|].
    + rewrite <- Tables_val by done. by rewrite (dc_tables _ _ _ _ DC).
    + intros x Hx Hn. apply Hn, (dc_reserved _ _ _ _ DC). left. unfold dir_range, range, sizeof_PageDirectory. lia.
  - rewrite <- (dc_address _ _ _ _ DC), PhysicalAddress_val by done.
    eapply frame_ld32; [apply (al_frame _ _ _ _ _ Hat)|lia|lia|].
    intros x Hx Hn. apply Hn, (dc_reserved _ _ _ _ DC). left. unfold dir_range, range, sizeof_PageDirectory. lia.
  - apply Hat.
  - apply (frame_trans _ _ (mem s1)); (eapply frame_weaken; [first [apply Hat|apply DC]|]); intros x _ Hx Hn;
      [|apply Hx, (dc_reserved _ _ _ _ DC); right; by apply Hev].
    by apply Hx, Hev.
  - intros x [Hx|Hx] Hn; [apply (Hnt x Hx), (dc_reserved _ _ _ _ DC); right|apply (dc_fresh _ _ _ _ DC x Hx)];
      by apply Hev.
  - intros x Hx Hd. by apply (Hnt x Hx), (dc_reserved _ _ _ _ DC); left.
  - intros x Hx. apply (al_reserved _ _ _ _ _ Hat). destruct Hx as [Hx|Hx]; [by left|right].
    apply (dc_reserved _ _ _ _ DC). destruct Hx; [by left|right; by apply Hev].
  - pose proof (dc_rest _ _ _ _ DC) as (R1 & R2 & R3 & R4 & R5 & R6).
    pose proof (al_rest _ _ _ _ _ Hat) as (Q1 & Q2 & Q3 & Q4 & Q5 & Q6). split_and!; congruence.
  - intros l' Hl. by apply (al_room _ _ _ _ _ Hat), (dc_room _ _ _ _ DC), room_event.
Qed.

(** What the parent of a fork sees. *)
Record forked (s s' : machine) (q : list task) (k : nat) (child : task) : Prop := {
  fk_queue : scheduling s' (q ++ [child]) k;
  fk_pid : t_id child = next_pid (tasks s) ∧ next_pid (tasks s') = next_pid (tasks s) + 1;
  fk_space : ∀ i, 0 <= i < 1024 →
    ld32 (mem s') (Tables (t_directory child) i) = ld32 (mem s) (Tables (current_directory (pg s)) i);
  fk_dir : dir_ok (t_directory child) ∧ t_directory child mod 4096 = 0;
  fk_address : ld32 (mem s') (PhysicalAddress (t_directory child)) =
    w32 (reported (t_directory child) indeterminate + 4096);
  fk_trace : trace s' = ev_sti :: ev_cli :: trace s;
  fk_rest : pg s' = pg s ∧ irq s' = irq s ∧ tty s' = tty s ∧ initrd s' = initrd s;
  fk_frame : frame (λ x, ¬ reserved s x ∨ ∃ t, t ∈ q ∧ task_range t x) (mem s) (mem s');
  fk_inv : alloc_inv s';
  fk_new x : task_range child x ∨ dir_range (t_directory child) x → ¬ reserved s x ∧ reserved s' x;
  fk_apart x : task_range child x → ¬ dir_range (t_directory child) x;
  fk_reserved x : reserved s x → reserved s' x;
  fk_room l : room s (fork_requests ++ l) → room s' l;
}.

(** [fork] may be called: the queue, the directories and the allocator. *)
Record forkable (fuel : nat) (s : machine) (q : list task) (k : nat) : Prop := {
  fa_queue : scheduling s q k;
  fa_fuel : (length q <= S fuel)%nat;
  fa_pid : 0 <= next_pid (tasks s) < 2147483647;
  fa_inv : alloc_inv s;
  fa_room : room s fork_requests;
  fa_current : dir_ok (current_directory (pg s));
  fa_kernel : dir_ok (kernel_directory (pg s));
  fa_reserved x : (∃ t, t ∈ q ∧ task_range t x) ∨ dir_range (current_directory (pg s)) x ∨
    dir_range (kernel_directory (pg s)) x → reserved s x;
  fa_shares : shares_kernel_tables s (current_directory (pg s));
}.

(** From the allocations to the end. *)
Lemma forked_space s s2 q l k dir nt x m' :
  let pid := next_pid (tasks s) in
  let child := MkTask nt pid x dir in
  let s' := add_event ev_sti (set_mem m' (set_next_pid (pid + 1) s2)) in
  fork_space s s2 dir nt → scheduling s (q ++ [l]) k → (∀ t x, t ∈ q ++ [l] → task_range t x → reserved s x) →
  queue_at m' (q ++ [l; child]) → frame (λ y, range nt 24 y ∨ task_range l y) (mem s2) m' →
  forked s s' (q ++ [l]) k child.
Proof.
  intros pid child s' Hsp (Hq & Hready & t & Hk & Hcur) Hres Hq' Hf.
  pose proof (sp_rest _ _ _ _ Hsp) as (R1 & R2 & R3 & R4 & R5 & R6). pose proof (sp_dir _ _ _ _ Hsp) as [Hdok Hdal].
  assert (∀ y, task_range l y → reserved s y) as Hl by (intros y Hy; eapply Hres; [|exact Hy]; set_solver).
  assert (frame (reserved s2) (mem s2) (mem s')) as Hf2.
  { eapply frame_weaken; [exact Hf|]. intros y _ Hy. apply (sp_reserved _ _ _ _ Hsp). destruct Hy; auto. }
  split.
  - split; [|split].
    + change (queue_at m' ((q ++ [l]) ++ [child])). by rewrite <- app_assoc.
    + change (ready_queue (tasks s2) = head_addr ((q ++ [l]) ++ [child])). rewrite R4. cbn. rewrite Hready. by destruct q.
    + exists t. split; [by apply lookup_app_l_Some|]. change (current_task (tasks s2) = t_addr t). by rewrite R4.
  - done.
  - intros i Hi. rewrite <- (sp_tables _ _ _ _ Hsp i Hi). cbn [t_directory child].
    eapply slots_frame; [exact Hf|done| |done]. intros y Hy.
    intros [Hn|Hn]; [by apply (sp_apart _ _ _ _ Hsp y)|]. apply (sp_fresh _ _ _ _ Hsp y); auto.
  - apply Hsp.
  - change (t_directory child) with dir. rewrite <- (sp_address _ _ _ _ Hsp), PhysicalAddress_val by done.
    pose proof Hdok as [Hd0 Hd1]. unfold sizeof_PageDirectory in Hd1.
    eapply frame_ld32; [exact Hf|lia|lia|]. intros y Hy.
    assert (dir_range dir y) by (unfold dir_range, range, sizeof_PageDirectory; lia).
    intros [Hn|Hn]; [by apply (sp_apart _ _ _ _ Hsp y)|]. apply (sp_fresh _ _ _ _ Hsp y); auto.
  - change (ev_sti :: trace s2 = ev_sti :: ev_cli :: trace s). by rewrite R6.
  - done.
  - apply (frame_trans _ _ (mem s2)); (eapply frame_weaken; [first [exact Hf|apply Hsp]|]); intros y _ Hy.
    + by left.
    + destruct Hy as [Hy|Hy]; [left; by apply Hsp; left|right]. exists l. split; [set_solver|done].
  - by apply (alloc_inv_stable s2); [apply Hsp|..].
  - intros y Hy. change (range nt 24 y ∨ dir_range dir y) in Hy. split; [by apply Hsp|].
    apply (reserved_stable s2); [apply Hsp|done|done|]. apply Hsp. tauto.
  - intros y Hy. by apply (sp_apart _ _ _ _ Hsp).
  - intros y Hy. apply (reserved_stable s2); [apply Hsp|done|done|]. apply Hsp. auto.
  - intros r Hr. apply (room_stable s2); [apply Hsp|done|done|]. by apply Hsp.
Qed.

Lemma fork_parent fuel s q k x :
  forkable fuel s q k → context_ok x →
  ∃ s' child, fork fuel x s = Done (next_pid (tasks s)) s' ∧ forked s s' q k child ∧
    t_context child = x ∧ t_addr child ≠ current_task (tasks s).
Proof.
  intros [Hs Hfuel Hpid Hinv Hroom Hcd Hkd Hres Hsh] Hx. pose proof Hs as (Hq & Hready & t & Hk & Hcur).
  destruct (fork_space_ok s [] Hinv Hroom Hcd Hkd) as (dir & s1 & nt & s2 & Hclone & Hal & Hsp); [auto..|].
  assert (∀ t y, t ∈ q → task_range t y → reserved s y) as Hresq by eauto.
  assert (tasks s2 = tasks s) as Ht by apply Hsp.
  pose proof (sp_dir _ _ _ _ Hsp) as [[Hd0 Hd1] _]. pose proof (sp_task _ _ _ _ Hsp) as [Hn0 Hn1].
  unfold sizeof_PageDirectory in Hd1.
  assert (queue_at (mem s2) q) as Hq2 by by eapply queue_reserved_frame; [exact Hresq|apply Hsp|].
  set (child := MkTask nt (next_pid (tasks s)) x dir).
  assert (Forall (λ u, tasks_apart u child) q) as Hap.
  { apply Forall_forall. intros u Hu. apply fresh_apart_tasks. intros y Hy Hn.
    by apply (sp_fresh _ _ _ _ Hsp y); [left|eapply Hresq]. }
  destruct (exists_last (l := q)) as (q0 & l & ->).
  { intros ->. by rewrite lookup_nil in Hk. }
  rewrite length_app in Hfuel. cbn in Hfuel.
  destruct (fork_link fuel s2 q0 l nt dir x) as (m' & Hrun & Hq' & Hf); rewrite ?Ht in *;
    [done|done|lia|lia|lia|lia|done|exact Hap|lia|].
  eexists _, child. split_and!; [|by eapply forked_space|done|].
  - unfold fork, cli. rewrite bind_modify, !bind_gets.
    change (current_directory (pg (add_event ev_cli s))) with (current_directory (pg s)).
    rewrite (bind_done _ _ _ _ _ Hclone), (bind_done _ _ _ _ _ Hal). exact Hrun.
  - rewrite Hcur. intros E. cbn in E. apply (sp_fresh _ _ _ _ Hsp nt).
    + left. unfold range. lia.
    + rewrite E. apply (Hresq t); [by eapply list_elem_of_lookup_2|].
      unfold task_range, range, sizeof_Task. lia.
Qed.
End creation.

(** ** Properties *)

(** C13. The scheduler is round robin.  [switch_task] saves the context of the
    running task in its structure, makes the next task of the ready queue the
    running one (the first after the last), installs that task's page
    directory and jumps to its saved context; the queue is otherwise
    unchanged, and so is every byte outside the running task's structure. *)
Theorem switch_task_round_robin `{Image} `{Allocator} s q k t x :
  scheduling s q k → q !! k = Some t → context_ok x →
  ∃ s' u, switch_task x s = Jump s' ∧
    scheduling s' (alter (save x) k q) (next_index (length q) k) ∧
    alter (save x) k q !! next_index (length q) k = Some u ∧
    trace s' = switch_event s' u :: trace s ∧
    current_directory (pg s') = t_directory u ∧
    cr3 (pg s') = ld32 (mem s') (PhysicalAddress (t_directory u)) ∧
    frame (task_range t) (mem s) (mem s').
Proof.
  intros Hs Ht Hx. destruct (switch_task_refines s q k x Hs Hx) as (s' & Hrun & Hsw & Hf & _).
  destruct Hsw as (Hs' & u & Hu & Htr & Hcd & Hcr). exists s', u. split_and!; auto.
Qed.

(** C19. Every task gets its turn, and finds its context as it left it: after as
    many switches as the queue has tasks the same task runs again, and the jump
    is to the very context it was saved with at the first of them. *)
Theorem switches_come_round `{Image} `{Allocator} s q k t x cs :
  scheduling s q k → q !! k = Some t → Forall context_ok (x :: cs) → length (x :: cs) = length q →
  ∃ s' evs, switches (x :: cs) s = Some s' ∧ current_task (tasks s') = t_addr t ∧
    trace s' = switch_event s' (save x t) :: evs ∧
    ∀ i y, (x :: cs) !! i = Some y → ∃ u n, q !! ((k + i) mod length q)%nat = Some u ∧
      task_at (mem s') (save y u) n.
Proof.
  intros Hs Ht Hcs Hlen.
  destruct (switches_round s q k t x cs Hs Ht Hcs Hlen) as (s' & q' & evs & Hrun & (Hq & _ & v & Hv & Hcur) & Hk & Htr & Hsaved).
  assert (v = save x t) as -> by congruence. exists s', evs. split_and!; [done..|].
  intros i y Hy. destruct (Hsaved i y Hy) as (u & Hu & Hu').
  exists u, (after q' ((k + i) mod length q)%nat). split; [done|]. by apply queue_lookup.
Qed.

(** [initialise_tasking] creates the first process: the ready queue is that
    one task, running, with the next process id and the current page
    directory; [getpid] then returns its id. *)
Theorem initialise_tasking_first `{Image} `{AS : AllocatorSpec} `{!AllocatorLaws} s :
  alloc_inv s → room s [(sizeof_Task, false)] → 0 <= next_pid (tasks s) < 2147483647 →
  0 <= current_directory (pg s) < 4294967296 →
  ∃ s' t, initialise_tasking s = Done tt s' ∧
    scheduling s' [MkTask t (next_pid (tasks s)) (MkContext 0 0 0) (current_directory (pg s))] 0 ∧
    next_pid (tasks s') = next_pid (tasks s) + 1 ∧ trace s' = ev_sti :: ev_cli :: trace s ∧
    getpid s' = Done (next_pid (tasks s)) s'.
Proof.
  intros Hi Hr Hpid Hdir.
  destruct (initialise_tasking_ok s [] Hi Hr Hpid Hdir) as (s' & t & Hrun & [Hs Hn Htr _ _ _ _ _ _]).
  exists s', t. split_and!; try done. rewrite (getpid_ok _ _ _ _ Hs eq_refl); [done|cbn; lia].
Qed.

(** C14. [fork] in the parent, in a directory that shares all its tables with
    the kernel's, with an allocator that has room for a directory and a
    structure and a queue no longer than the fuel.  It returns the child's process id, having
    appended to the ready queue a task with a fresh id, the parent's registers
    and a page directory that maps the same tables as the parent's; the child's
    structure and directory lie in memory that was free, the parent stays the
    running task, and all other tasks and every byte handed out before are as
    they were, the link of the queue apart.  Interrupts go off at the start and
    on at the end.  (Nothing is said of the child: it is resumed in this frame
    of a stack that it shares with the parent.) *)
Theorem fork_creates_child `{Image} `{AS : AllocatorSpec} `{!AllocatorLaws} fuel s q k x :
  forkable fuel s q k → context_ok x →
  ∃ s' child, fork fuel x s = Done (next_pid (tasks s)) s' ∧ forked s s' q k child ∧ t_context child = x.
Proof.
  intros Hf Hx. destruct (fork_parent fuel s q k x Hf Hx) as (s' & child & Hrun & Hfk & Hcx & _).
  by exists s', child.
Qed.

(** C37. A task that is resumed in [switch_task] does not leave it.  Whatever its
    locals hold, the content of CR3, which EAX still has, is saved as its
    instruction pointer, and the processor goes on to the next task at once;
    when the others have had their turns, the jump back to it goes to that
    address, which is the address of a page directory's table and not of
    code. *)
Theorem resumed_task_is_lost `{Image} `{Allocator} s q k t esp ebp cs :
  scheduling s q k → q !! k = Some t → context_ok (MkContext (cr3 (pg s)) esp ebp) →
  Forall context_ok cs → S (length cs) = length q →
  ∃ s1 s' evs, switch_task_resumed esp ebp s = Jump s1 ∧ ld32 (mem s1) (t_addr t + 12) = cr3 (pg s) ∧
    switches cs s1 = Some s' ∧ current_task (tasks s') = t_addr t ∧
    trace s' = ev_switch (cr3 (pg s)) (ld32 (mem s') (PhysicalAddress (t_directory t))) ebp esp :: evs.
Proof.
  intros Hs Ht Hx Hcs Hlen. set (x := MkContext (cr3 (pg s)) esp ebp) in *.
  destruct (switches_round s q k t x cs Hs Ht) as (s' & q' & evs & Hrun & (_ & _ & v & Hv & Hcur) & Hk & Htr & _);
    [by constructor|done|].
  assert (v = save x t) as -> by congruence.
  destruct (switch_task_refines s q k x Hs Hx) as (s1 & Hrun1 & ((Hq1 & _) & _) & _).
  cbn [switches] in Hrun. rewrite Hrun1 in Hrun. exists s1, s', evs. split_and!; [|..|done|done|exact Htr].
  - unfold switch_task_resumed. rewrite bind_gets. fold x. rewrite <- Hrun1. unfold switch_task. rewrite bind_gets.
    destruct Hs as (Hq & _ & u & Hu & ->). destruct (queue_lookup _ _ _ _ Hq Hu) as [[Hu0 _] _].
    by rewrite (proj2 (Z.eqb_neq (t_addr u) 0)) by lia.
  - destruct (queue_lookup (mem s1) _ k (save x t) Hq1) as [_ (_ & _ & _ & E & _)]; [|exact E].
    cbn [fst snd]. by rewrite list_lookup_alter_eq, Ht.
Qed.

(** ** Instances *)
(** Two tasks, at [0x20000] and [0x20100], both in the directory [0x10000]. *)
Definition sample_queue : list task :=
  [MkTask 0x20000 1 (MkContext 0x100010 0x9000 0x9010) 0x10000;
   MkTask 0x20100 2 (MkContext 0x100020 0xA000 0xA010) 0x10000].
Definition store_task (m : memory) (t : task) (n : Z) : memory :=
  st32 (st32 (st32 (st32 (st32 (st32 m (t_addr t) (t_id t)) (t_addr t + 4) (x_esp (t_context t)))
    (t_addr t + 8) (x_ebp (t_context t))) (t_addr t + 12) (x_eip (t_context t)))
    (t_addr t + 16) (t_directory t)) (t_addr t + 20) n.
Definition sample_tasks : machine :=
  set_kernel_directory 0x10000 (set_current_directory 0x10000 (set_tasks (MkTasks 0x20000 0x20000 3 0)
    (sample (store_task (store_task ∅ (MkTask 0x20000 1 (MkContext 0x100010 0x9000 0x9010) 0x10000) 0x20100)
       (MkTask 0x20100 2 (MkContext 0x100020 0xA000 0xA010) 0x10000) 0)))).

Lemma sample_scheduling : scheduling sample_tasks sample_queue 0.
Proof.
  split; [|split; [done|by eexists]]. cbn -[mem sample_tasks].
  unfold task_ok, task_at, sizeof_Task, tasks_apart.
  refine (conj _ (conj _ (conj _ (conj _ (conj _ (conj _ I)))))).
  - zdecide.
  - zdecide.
  - constructor; [by left|constructor].
  - zdecide.
  - zdecide.
  - constructor.
Qed.

Lemma switch_task_round_robin_witness :
  ∃ s' u, @switch_task (MkContext 0x100044 0x8FF0 0x9000) sample_tasks = Jump s' ∧
    scheduling s' (alter (save (MkContext 0x100044 0x8FF0 0x9000)) 0%nat sample_queue) (next_index 2 0) ∧
    alter (save (MkContext 0x100044 0x8FF0 0x9000)) 0%nat sample_queue !! next_index 2 0 = Some u ∧
    trace s' = switch_event s' u :: trace sample_tasks ∧
    current_directory (pg s') = t_directory u ∧
    cr3 (pg s') = ld32 (mem s') (PhysicalAddress (t_directory u)) ∧
    frame (task_range (MkTask 0x20000 1 (MkContext 0x100010 0x9000 0x9010) 0x10000)) (mem sample_tasks) (mem s').
Proof.
  apply (@switch_task_round_robin sample_image placement_allocator sample_tasks sample_queue 0);
    [apply sample_scheduling|done|]. split_and!; cbn; lia.
Defined.

Lemma switches_come_round_witness :
  let x := MkContext 0x100044 0x8FF0 0x9000 in
  let y := MkContext 0x100088 0x9FF0 0xA000 in
  ∃ s' evs, switches [x; y] sample_tasks = Some s' ∧ current_task (tasks s') = 0x20000 ∧
    trace s' = switch_event s' (save x (MkTask 0x20000 1 (MkContext 0x100010 0x9000 0x9010) 0x10000)) :: evs ∧
    ∀ i z, [x; y] !! i = Some z → ∃ u n, sample_queue !! ((0 + i) mod 2)%nat = Some u ∧
      task_at (mem s') (save z u) n.
Proof.
  intros x y.
  apply (@switches_come_round sample_image placement_allocator sample_tasks sample_queue 0
    (MkTask 0x20000 1 (MkContext 0x100010 0x9000 0x9010) 0x10000) x [y]);
    [apply sample_scheduling|done| |done].
  repeat constructor; cbn; lia.
Defined.

Lemma initialise_tasking_first_witness :
  ∃ s' t, @initialise_tasking placement_allocator (sample ∅) = Done tt s' ∧
    scheduling s' [MkTask t 1 (MkContext 0 0 0) 0x50000] 0 ∧
    next_pid (tasks s') = 1 + 1 ∧ trace s' = [ev_sti; ev_cli] ∧ getpid s' = Done 1 s'.
Proof.
  apply (@initialise_tasking_first sample_image placement_allocator placement_spec _ (sample ∅));
    [split; [reflexivity|zdecide]|zdecide|cbn; lia|cbn; lia].
Defined.

Lemma resumed_task_is_lost_witness :
  let x := MkContext 0x100044 0x8FF0 0x9000 in
  ∃ s1 s' evs, switch_task_resumed 0x7F00 0x7F10 sample_tasks = Jump s1 ∧
    ld32 (mem s1) 0x2000C = cr3 (pg sample_tasks) ∧ switches [x] s1 = Some s' ∧
    current_task (tasks s') = 0x20000 ∧
    trace s' = ev_switch (cr3 (pg sample_tasks)) (ld32 (mem s') (PhysicalAddress 0x10000)) 0x7F10 0x7F00 :: evs.
Proof.
  intros x. apply (@resumed_task_is_lost sample_image placement_allocator sample_tasks sample_queue 0
    (MkTask 0x20000 1 (MkContext 0x100010 0x9000 0x9010) 0x10000));
    [apply sample_scheduling|done|split_and!; cbn; lia|repeat constructor; cbn; lia|done].
Defined.

Lemma fork_creates_child_witness :
  let x := MkContext 0x100044 0x8FF0 0x9000 in
  ∃ s' child, @fork sample_image placement_allocator 2 x sample_tasks = Done 3 s' ∧
    @forked sample_image _ placement_spec sample_tasks s' sample_queue 0 child ∧ t_context child = x.
Proof.
  intros x.
  apply (@fork_creates_child sample_image placement_allocator placement_spec _ 2 sample_tasks sample_queue 0 x).
  - split.
    + apply sample_scheduling.
    + cbn; lia.
    + cbn; lia.
    + split; [reflexivity|zdecide].
    + zdecide.
    + zdecide.
    + zdecide.
    + intros y Hy. unfold sample_queue in Hy. unfold task_range, dir_range, range, sizeof_Task, sizeof_PageDirectory in Hy.
      cbn. destruct Hy as [(t & Ht & Hy)|Hy]; [|cbn in Hy; lia].
      rewrite !elem_of_cons in Ht. destruct Ht as [->|[->|Ht%elem_of_nil]]; [cbn in Hy; lia|cbn in Hy; lia|done].
    + intros i Hi. by right.
  - split_and!; cbn; lia.
Defined.
