(* ===== verification/Stack.v ===== *)
(** * kernel/Task.cpp: move_stack

    What [move_stack] does to the kernel: the pages of the new stack, a message,
    and an endless loop; and what the copy behind that loop, [copy_stack], would
    do to the words of the stack. *)
From S2P Require Import Prelude Memory LibString OrderedList Machine Console Stdio Frames Kmalloc Paging Task.
Local Open Scope Z_scope.
Local Open Scope u32_scope.

(** A word of the copied stack: a value in the range of the old stack is taken
    for a base pointer and moved along. *)
Definition rebase (old_stack_pointer initial offset tmp : Z) : Z :=
  if (old_stack_pointer <? tmp) && (tmp <? initial) then tmp ⊕ offset else tmp.

(** ** The loop over the new stack *)

(** The words of the [4 * n] bytes below [top + 4], from the top down, the first
    [k] of them rebased. *)
Definition rebased (f : Z → Z) (m m' : memory) (top n k : Z) : Prop :=
  frame (range (top - 4 * n + 4) (4 * n)) m m' ∧
  ∀ q, 0 <= q < n → ld32 m' (top - 4 * q) = if q <? k then f (ld32 m (top - 4 * q)) else ld32 m (top - 4 * q).

Lemma rebased_step (f : Z → Z) m m' top n k v :
  0 <= top - 4 * n → top + 4 <= 4294967296 → 0 <= k < n →
  rebased f m m' top n k → w32 v = f (ld32 m (top - 4 * k)) →
  rebased f m (st32 m' (top - 4 * k) v) top n (k + 1).
Proof.
  intros H0 H1 Hk [Hf Hw] Hv. split.
  - apply frame_st32; [exact Hf|unfold range; lia..].
  - intros q Hq. destruct (decide (q = k)) as [->|].
    + rewrite (proj2 (Z.ltb_lt k (k + 1))) by lia. by rewrite ld32_st32_eq.
    + rewrite ld32_st32_near_ne, Hw by lia. by destruct (Z.ltb_spec q k), (Z.ltb_spec q (k + 1)); try lia.
Qed.

Lemma rebased_keep (f : Z → Z) m m' top n k :
  0 <= k < n → rebased f m m' top n k → f (ld32 m (top - 4 * k)) = ld32 m (top - 4 * k) →
  rebased f m m' top n (k + 1).
Proof.
  intros Hk [Hf Hw] E. split; [exact Hf|]. intros q Hq. rewrite Hw by done.
  destruct (Z.ltb_spec q k), (Z.ltb_spec q (k + 1)); try lia; try done.
  by replace q with k by lia.
Qed.

Lemma rebase_loop fuel s top n sp initial offset :
  0 <= top - 4 * n → top + 4 <= 4294967296 → 0 <= n → (Z.to_nat n <= fuel)%nat →
  ∃ i m', whileM fuel (λ i _, (top ⊖ 4 * n) <? i) (move_word sp initial offset) top s = Done i (set_mem m' s) ∧
    rebased (rebase sp initial offset) (mem s) m' top n n.
Proof.
  intros H0 H1 Hn Hfuel. rewrite (w32_small (top - 4 * n)) by lia.
  set (f := rebase sp initial offset).
  destruct (whileM_total (λ i t, ∃ k m', i = top - 4 * k ∧ t = set_mem m' s ∧ 0 <= k <= n ∧
      rebased f (mem s) m' top n k) (λ i _, Z.to_nat ((i - (top - 4 * n)) / 4)) (λ i _, top - 4 * n <? i) (move_word sp initial offset) fuel top s)
    as (i & t & Hrun & (k & m' & -> & -> & Hk & Hr) & Hc).
  - exists 0, (mem s). split; [lia|]. split; [by destruct s|]. split; [lia|]. split; [apply frame_refl|].
    intros q Hq. by destruct (Z.ltb_spec q 0); [lia|].
  - replace ((top - (top - 4 * n)) / 4) with n by (Z.div_mod_to_equations; lia). exact Hfuel.
  - intros i t (k & m' & -> & -> & Hk & Hr) Hc. cbn beta in Hc. apply Z.ltb_lt in Hc.
    pose proof (proj2 Hr k ltac:(lia)) as Hw. rewrite Z.ltb_irrefl in Hw.
    assert (top - 4 * k ⊖ 4 = top - 4 * (k + 1)) as Ei by (rewrite w32_small; lia).
    assert (∀ m'', rebased f (mem s) m'' top n (k + 1) →
      ∃ k' m1, top - 4 * (k + 1) = top - 4 * k' ∧ set_mem m'' s = set_mem m1 s ∧ 0 <= k' <= n ∧
        rebased f (mem s) m1 top n k') as Hdone.
    { intros m'' Hr''. exists (k + 1), m''. split; [done|]. split; [done|]. by split; [lia|]. }
    unfold move_word. rewrite bind_load32. change (mem (set_mem m' s)) with m'. rewrite Hw.
    destruct ((sp <? ld32 (mem s) (top - 4 * k)) && (ld32 (mem s) (top - 4 * k) <? initial)) eqn:E.
    + rewrite bind_store32, Ei. eexists _, _. split; [reflexivity|]. split.
      * apply Hdone, rebased_step; [done..|lia|done|]. unfold f, rebase. rewrite E. apply w32_w32.
      * cbv beta. Z.div_mod_to_equations. lia.
    + rewrite bind_ret, Ei. eexists _, _. split; [reflexivity|]. split.
      * apply Hdone, rebased_keep; [lia|done|]. unfold f, rebase. by rewrite E.
      * cbv beta. Z.div_mod_to_equations. lia.
  - exists (top - 4 * k), m'. split; [exact Hrun|]. apply Z.ltb_ge in Hc.
    assert (k = n) as -> by lia. exact Hr.
Qed.

(** ** The copy *)

(** [copy_stack] returns ESP and EBP for the copy, which holds the words of the
    old stack with the base pointers moved along, but for two words: the one at
    the lowest address of the new stack is copied as it is, and the one above
    its end, which is not part of it, is treated as if it were. *)
Theorem copy_stack_rebases fuel s top n x :
  let sp := x_esp x in
  let initial := initial_esp (tasks s) in
  let copy := sp + (top - initial) in
  let f := rebase sp initial (top ⊖ initial) in
  0 <= sp <= initial → initial < 4294967296 → (initial - sp) mod 4 = 0 → initial - sp <= 4 * n →
  0 <= top - 4 * n → top + 4 <= 4294967296 → initial <= top - 4 * n ∨ top + 4 <= sp → (Z.to_nat n <= fuel)%nat →
  ∃ m', copy_stack fuel top (4 * n) x s = Done (copy, x_ebp x ⊕ (top ⊖ initial)) (set_mem m' s) ∧
    frame (range (top - 4 * n) (4 * n + 4)) (mem s) m' ∧
    (∀ j, 0 <= j → sp + 4 * j < initial → top - 4 * n < copy + 4 * j →
      ld32 m' (copy + 4 * j) = f (ld32 (mem s) (sp + 4 * j))) ∧
    (initial - sp = 4 * n → 0 < n → ld32 m' copy = ld32 (mem s) sp) ∧
    (0 < n → ld32 m' top = f (ld32 (mem s) top)).
Proof.
  intros sp initial copy f [Hsp Hsp'] Hinit Hal Hsize H0 H1 Hap Hfuel.
  assert (sp ⊕ (top ⊖ initial) = copy) as Ecopy
    by (unfold copy; rewrite w32_add_r, w32_small by lia; lia).
  destruct (memcpy_spec (mem s) copy sp (initial - sp)) as [Hf1 Hc1]; [unfold copy in *; lia..|].
  set (m1 := (memcpy (mem s) copy sp (initial - sp)).1) in *.
  destruct (rebase_loop fuel (set_mem m1 s) top n sp initial (top ⊖ initial)) as (i & m' & Hrun & Hf2 & Hw);
    [lia..|done|]. fold f in Hw. change (mem (set_mem m1 s)) with m1 in *.
  assert (∀ j, 0 <= j → sp + 4 * j < initial → ld32 m1 (copy + 4 * j) = ld32 (mem s) (sp + 4 * j)) as Hcopied.
  { intros j Hj Hj'. apply ld32_ext. intros b Hb. rewrite <- !Z.add_assoc. apply Hc1.
    Z.div_mod_to_equations. lia. }
  exists m'. split_and!.
  - unfold copy_stack. rewrite bind_gets. fold sp initial. cbv zeta. rewrite Ecopy, (w32_small (initial - sp)) by lia.
    rewrite (bind_on_mem _ _ s m1 _ (surjective_pairing _)).
    by rewrite (bind_done _ _ _ _ _ Hrun).
  - eapply frame_trans; (eapply frame_weaken; [eassumption|]); unfold range, copy; lia.
  - intros j Hj Hj' Hlow. rewrite <- Hcopied by done.
    assert (∃ q, copy + 4 * j = top - 4 * q ∧ 0 <= q < n) as (q' & -> & Hq).
    { exists ((initial - sp) / 4 - j). unfold copy in *. Z.div_mod_to_equations. lia. }
    rewrite Hw by done. by rewrite (proj2 (Z.ltb_lt q' n)) by lia.
  - intros Hfull Hn. rewrite (frame_ld32 _ _ _ _ Hf2) by (unfold range, copy; lia).
    pose proof (Hcopied 0) as E. rewrite !Z.mul_0_r, !Z.add_0_r in E. apply E; lia.
  - intros Hn. specialize (Hw 0 ltac:(lia)). rewrite Z.mul_0_r, Z.sub_0_r in Hw. rewrite Hw.
    rewrite (proj2 (Z.ltb_lt 0 n)) by lia. f_equal.
    rewrite (frame_ld32 _ _ _ _ Hf1) by (unfold range, copy; lia). done.
Qed.
