(* ===== verification/Devices.v ===== *)
(** * kernel/Timer.cpp, kernel/Keyboard.h, libc/stdlib/abort.cpp, kernel/StdLib.cpp

    The two device drivers and the two ways to stop the kernel.  What a port
    read yields is an argument; port accesses are events of the trace.  The
    handlers are reached from [irq_handler] through their link-time addresses. *)
From S2P Require Import Prelude Memory LibString OrderedList Machine Console Stdio Descriptors Frames Kmalloc Paging Task.
Local Open Scope Z_scope.
Local Open Scope u32_scope.

(** ** Link-time addresses: the two handlers, three literals *)
Class Devices_image := {
  TickHandler_address : Z;
  keyboard_handler_address : Z;
  lit_percent_c : Z;      (* "%c" *)
  lit_abort : Z;
  lit_cxa_reached : Z;
}.

(** ** The timer *)

(** [outb] takes bytes: the high part of the divisor is cut to 8 bits.  The
    division by zero is undefined. *)
Definition TimerPhase (frequency : Z) : K unit :=
  if frequency =? 0 then undefined
  else
    let divisor := Z.quot 1193180 frequency in
    outb 0x43 0x36 ;;
    outb 0x40 (Z.land divisor 0xFF) ;;
    outb 0x40 (Z.shiftr divisor 8).

Section devices.
Context `{Devices_image}.

Definition Timer_new (frequency : Z) : K unit :=
  TimerPhase frequency ;;
  InstallHandler 0 TickHandler_address.

(** The increment of the [int] is undefined past its largest value. *)
Definition TickHandler (x : context) : K unit :=
  n ← gets (λ s, ticks (irq s));
  if n =? INT_MAX then undefined
  else
    modify (λ s, set_irq (MkIrq (irq_routines (irq s)) (n + 1)) s) ;;
    switch_task x.

(** ** The keyboard *)
Definition KEYBOARD_DATA_PORT : Z := 0x60.

(** The initialisers of [CharacterMap]; the rest of the 128 elements is zero. *)
Definition CharacterMap : list Z :=
  [0; 27; 49; 50; 51; 52; 53; 54; 55; 56;
   57; 48; 45; 61; 8;
   9;
   113; 119; 101; 114;
   116; 121; 117; 105; 111; 112; 91; 93; 10;
   0;
   97; 115; 100; 102; 103; 104; 106; 107; 108; 59;
   39; 96; 0;
   92; 122; 120; 99; 118; 98; 110;
   109; 44; 46; 47; 0;
   42;
   0;
   32;
   0;
   0;
   0; 0; 0; 0; 0; 0; 0; 0;
   0;
   0;
   0;
   0;
   0;
   0;
   45;
   0;
   0;
   0;
   43;
   0;
   0;
   0;
   0;
   0;
   0; 0; 0;
   0;
   0;
   0] ++ replicate 38 0.

Definition inb (port value : Z) : K Z :=
  modify (add_event (ev_inb port (w8 value))) ;; mret (w8 value).
Definition inw (port value : Z) : K Z :=
  modify (add_event (ev_inw port (w16 value))) ;; mret (w16 value).

(** [value] is what the port yields. *)
Definition keyboard_handler (fuel : nat) (value : Z) : K unit :=
  scancode ← inb KEYBOARD_DATA_PORT value;
  if negb (Z.land scancode 0x80 =? 0) then mret tt
  else
    match CharacterMap !! Z.to_nat scancode with
    | Some c => printf fuel lit_percent_c [c] ;; mret tt
    | None => undefined
    end.

(** The two handlers behind the function pointers. *)
Definition call_device (fuel : nat) (x : context) (value : Z) (handler : Z) : K unit :=
  if handler =? TickHandler_address then TickHandler x
  else if handler =? keyboard_handler_address then keyboard_handler fuel value
  else undefined.

(** ** Stopping the kernel *)
Definition abort (fuel : nat) : K unit := printf fuel lit_abort [] ;; hang.
Definition cxa_pure_virtual (fuel : nat) : K unit := printf fuel lit_cxa_reached [] ;; hang.
End devices.

(** ** Lemmas *)
Lemma land_80 v : 0 <= v < 256 → (Z.land v 0x80 =? 0) = (v <? 128).
Proof.
  intros Hv.
  assert (forallb (λ i, eqb (Z.land (Z.of_nat i) 0x80 =? 0) (Z.of_nat i <? 128)) (seq 0 256) = true)
    as H by (by vm_compute).
  rewrite forallb_forall in H. specialize (H (Z.to_nat v)). rewrite Z2Nat.id in H by lia.
  apply eqb_prop, H, in_seq. lia.
Qed.

Lemma CharacterMap_total v : 0 <= v < 128 → ∃ c, CharacterMap !! Z.to_nat v = Some c ∧ 0 <= c < 256.
Proof.
  intros Hv. destruct (lookup_lt_is_Some_2 CharacterMap (Z.to_nat v)) as [c Hc].
  { change (length CharacterMap) with 128%nat. lia. }
  exists c. split; [done|].
  assert (Forall (λ c, 0 <= c < 256) CharacterMap) as Hall by (repeat constructor; vm_compute; discriminate).
  rewrite Forall_lookup in Hall. by eapply Hall.
Qed.

Lemma tty_ok_event e s : tty_ok s → tty_ok (add_event e s).
Proof. done. Qed.

Section device_lemmas.
Context `{Devices_image}.

(** The character of a key press. *)
Definition key_char (value : Z) : Z := default 0 (CharacterMap !! Z.to_nat value).

Lemma keyboard_handler_eq fuel value s :
  tty_ok s → text_at s lit_percent_c [37; 99] → (2 <= fuel)%nat → 0 <= value < 256 →
  keyboard_handler fuel value s =
    Done tt (let s1 := add_event (ev_inb KEYBOARD_DATA_PORT value) s in
             if value <? 128 then put_list [key_char value] s1 else s1).
Proof.
  intros Hs Ht Hf Hv. unfold keyboard_handler, inb. rewrite bind_assoc, bind_modify, bind_ret.
  rewrite (w8_small value), land_80 by done. destruct (Z.ltb_spec value 128) as [Hlt|Hge]; [|done].
  cbn [negb]. destruct (CharacterMap_total value) as (c & Hc & Hcr); [lia|].
  unfold key_char. rewrite Hc. cbn [default from_option]. unfold printf.
  set (s1 := add_event _ s).
  assert (formatted [37; 99] [arg_int c] = Some [c]) as Hfmt.
  { cbn. by rewrite (w8_small c). }
  change [c] with (raw <$> [arg_int c]) at 1.
  rewrite (bind_done _ _ _ _ _ (printf_loop_spec fuel fuel [37; 99] lit_percent_c 0 [arg_int c] s1 [c]
    Hs Ht ltac:(by repeat constructor) Hf Hf Hfmt ltac:(lia) ltac:(by vm_compute))).
  done.
Qed.

Lemma TickHandler_eq x s :
  ticks (irq s) < INT_MAX →
  TickHandler x s = switch_task x (set_irq (MkIrq (irq_routines (irq s)) (ticks (irq s) + 1)) s).
Proof.
  intros Ht. unfold TickHandler. rewrite bind_gets. rewrite (proj2 (Z.eqb_neq _ _)) by lia.
  by rewrite bind_modify.
Qed.
End device_lemmas.

(** ** Properties *)

(** [TimerPhase] programs the divisor modulo 2^16: it selects the command
    byte and sends the low and the high byte of a counter that is the divisor
    for frequencies from 19 Hz on, where the rate obtained is the least one,
    with an integral divisor, not below [frequency]; for 1 to 18 Hz the
    counter differs from the divisor; a frequency of 0 is undefined. *)
Theorem TimerPhase_programs frequency s :
  TimerPhase 0 s = Undefined ∧
  (0 < frequency →
   ∃ low high, TimerPhase frequency s = Done tt (set_trace
       (ev_outb 0x40 high :: ev_outb 0x40 low :: ev_outb 0x43 0x36 :: trace s) s) ∧
     let counter := low + 256 * high in
     let divisor := 1193180 / frequency in
     0 <= counter < 65536 ∧ counter = divisor mod 65536 ∧
     (19 <= frequency → counter = divisor ∧ counter * frequency <= 1193180 < (counter + 1) * frequency) ∧
     (frequency < 19 → counter ≠ divisor)).
Proof.
  split; [done|]. intros Hf.
  exists (w8 (Z.land (1193180 / frequency) 0xFF)), (w8 (Z.shiftr (1193180 / frequency) 8)). split.
  { unfold TimerPhase, outb. rewrite (proj2 (Z.eqb_neq frequency 0)) by lia.
    rewrite Z.quot_div_nonneg by lia. done. }
  rewrite land_ff, Z.shiftr_div_pow2 by lia. change (2 ^ 8) with 256. cbv zeta.
  set (d := 1193180 / frequency).
  assert (w8 (d mod 256) + 256 * w8 (d / 256) = d mod 65536) as ->.
  { unfold w8. rewrite Z.mod_mod by lia. change 65536 with (256 * 256). by rewrite Z.rem_mul_r. }
  pose proof (Z.div_mod 1193180 frequency ltac:(lia)) as Hdm. fold d in Hdm.
  pose proof (Z.mod_pos_bound 1193180 frequency Hf) as Hm.
  pose proof (Z.mod_pos_bound d 65536 ltac:(lia)) as Hb.
  split_and!; [lia|lia|done| |].
  - intros H19. assert (0 <= d < 65536) as Hd by nia. rewrite Z.mod_small by done.
    split; [done|]. nia.
  - intros H18. assert (65536 <= d) as Hd by nia. lia.
Qed.

(** C34. A key press prints its character, and every keyboard interrupt is
    acknowledged: for any byte from the keyboard's port, a press prints exactly
    the character of the key, a release prints nothing, and no byte takes the
    lookup outside the map. *)
Theorem keyboard_interrupt `{Devices_image} fuel x value s :
  irq_routines (irq s) !! 1%nat = Some keyboard_handler_address →
  keyboard_handler_address ≠ 0 → keyboard_handler_address ≠ TickHandler_address →
  tty_ok s → text_at s lit_percent_c [37; 99] → (2 <= fuel)%nat → 0 <= value < 256 →
  irq_handler (call_device fuel x value) 33 s =
    Done tt (acknowledged 33
      (let s1 := add_event (ev_inb KEYBOARD_DATA_PORT value) s in
       if value <? 128 then put_list [key_char value] s1 else s1)).
Proof.
  intros Hr H0 Hne Hs Ht Hf Hv.
  rewrite (irq_handler_eq _ 33 keyboard_handler_address) by (done || lia).
  rewrite (proj2 (Z.eqb_neq _ _) H0). cbn [negb]. unfold call_device at 1.
  rewrite (proj2 (Z.eqb_neq _ _) Hne), Z.eqb_refl.
  rewrite (bind_done _ _ _ _ _ (keyboard_handler_eq fuel value s Hs Ht Hf Hv)).
  apply acknowledge_eq.
Qed.

(** The timer's interrupt in a kernel that runs tasks: one tick, one switch, and
    nothing to the interrupt controller. *)
Lemma timer_interrupt_run `{Devices_image} fuel x value s q k :
  irq_routines (irq s) !! 0%nat = Some TickHandler_address → TickHandler_address ≠ 0 →
  ticks (irq s) < INT_MAX → scheduling s q k → context_ok x →
  ∃ s', irq_handler (call_device fuel x value) 32 s = Jump s' ∧
    irq s' = MkIrq (irq_routines (irq s)) (ticks (irq s) + 1) ∧ switched s s' x q k ∧
    (∀ t, q !! k = Some t → frame (task_range t) (mem s) (mem s')).
Proof.
  intros Hr Hnz Hti Hs Hx.
  rewrite (irq_handler_eq _ 32 TickHandler_address) by (done || lia).
  rewrite (proj2 (Z.eqb_neq _ _) Hnz). cbn [negb].
  set (s1 := set_irq (MkIrq (irq_routines (irq s)) (ticks (irq s) + 1)) s).
  destruct (switch_task_refines s1 q k x Hs Hx) as (s' & Hrun & Hsw & Hf & Hirq).
  exists s'. split_and!; [|exact Hirq|exact Hsw|exact Hf].
  unfold call_device at 1. rewrite Z.eqb_refl. unfold mbind at 1, kernel_bind.
  rewrite (TickHandler_eq x s Hti). fold s1. by rewrite Hrun.
Qed.

(** C29. A timer interrupt that switches tasks is not acknowledged.  It counts
    the tick and jumps to the next task; since that jump does not return to
    [irq_handler], the interrupt controller is sent nothing. *)
Theorem timer_interrupt_switches `{Image} `{Allocator} `{Devices_image} fuel x value s q k :
  irq_routines (irq s) !! 0%nat = Some TickHandler_address → TickHandler_address ≠ 0 →
  ticks (irq s) < INT_MAX → scheduling s q k → context_ok x →
  ∃ s' u, irq_handler (call_device fuel x value) 32 s = Jump s' ∧
    ticks (irq s') = ticks (irq s) + 1 ∧
    scheduling s' (alter (save x) k q) (next_index (length q) k) ∧
    trace s' = switch_event s' u :: trace s.
Proof.
  intros Hr Hnz Hti Hs Hx.
  destruct (timer_interrupt_run fuel x value s q k) as (s' & Hrun & Hirq & (Hs' & u & Hu & Htr & _) & _); [done..|].
  exists s', u. split_and!; [exact Hrun|by rewrite Hirq|done|done].
Qed.

(** [abort] and a pure virtual call stop the kernel after printing their
    message. *)
Theorem abort_stops `{Devices_image} fuel text s :
  tty_ok s → (length text <= fuel)%nat → Forall (λ c, c ≠ 37) text →
  (text_at s lit_abort text → abort fuel s = Hang (put_list text s)) ∧
  (text_at s lit_cxa_reached text → cxa_pure_virtual fuel s = Hang (put_list text s)).
Proof.
  intros Hs Hf Hplain.
  assert (formatted text [] = Some text) as Hfmt.
  { rewrite <- (app_nil_r text) at 1. rewrite formatted_plain by done. cbn. by rewrite app_nil_r. }
  split; intros Ht; [unfold abort|unfold cxa_pure_virtual]; unfold printf;
    change (@nil Z) with (raw <$> []);
    (rewrite (bind_done _ _ _ _ _ (printf_loop_spec fuel fuel text _ 0 [] s text
      Hs Ht ltac:(constructor) Hf Hf Hfmt ltac:(lia) ltac:(destruct Ht as (_ & _ & ?); unfold INT_MAX; lia)));
     done).
Qed.

(** ** Instances *)
Definition sample_devices : Devices_image :=
  {| TickHandler_address := 0x100800; keyboard_handler_address := 0x100900;
     lit_percent_c := 0x3000; lit_abort := 0x3010; lit_cxa_reached := 0x3020 |}.
Definition sample_console : machine :=
  set_tty (MkTty 0 0 7 VGA_MEMORY)
    (set_irq (MkIrq (0x100800 :: 0x100900 :: replicate 14 0) 0)
      (sample (store_bytes (store_bytes ∅ 0x3000 [37; 99]) 0x3010 [72; 105]))).

Lemma TimerPhase_programs_witness :
  ∃ low high, TimerPhase 100 (sample ∅) = Done tt (set_trace
       [ev_outb 0x40 high; ev_outb 0x40 low; ev_outb 0x43 0x36] (sample ∅)) ∧
     let counter := low + 256 * high in
     let divisor := 1193180 / 100 in
     0 <= counter < 65536 ∧ counter = divisor mod 65536 ∧
     (19 <= 100 → counter = divisor ∧ counter * 100 <= 1193180 < (counter + 1) * 100) ∧
     (100 < 19 → counter ≠ divisor).
Proof. apply (TimerPhase_programs 100 (sample ∅)). lia. Defined.

Lemma keyboard_interrupt_witness :
  @irq_handler (@call_device sample_devices 2 (MkContext 0 0 0) 30) 33 sample_console =
    Done tt (acknowledged 33
      (let s1 := add_event (ev_inb 0x60 30) sample_console in put_list [97] s1)).
Proof.
  apply (@keyboard_interrupt sample_devices 2 (MkContext 0 0 0) 30 sample_console);
    [done|done|done|done| |lia|lia].
  split_and!; [by vm_compute| |done]. unfold off_screen, VGA_MEMORY; cbn; lia.
Defined.

Lemma timer_interrupt_switches_witness :
  let s := set_irq (MkIrq (0x100800 :: 0x100900 :: replicate 14 0) 41) sample_tasks in
  let x := MkContext 0x100044 0x8FF0 0x9000 in
  ∃ s' u, @irq_handler (@call_device sample_devices 2 x 0) 32 s = Jump s' ∧
    ticks (irq s') = 41 + 1 ∧
    scheduling s' (alter (save x) 0%nat sample_queue) (next_index 2 0) ∧
    trace s' = switch_event s' u :: trace s.
Proof.
  intros s x.
  apply (@timer_interrupt_switches sample_image placement_allocator sample_devices 2 x 0 s sample_queue 0);
    [done|done|done|apply sample_scheduling|]. split_and!; cbn; lia.
Defined.

Lemma abort_stops_witness :
  text_at sample_console 0x3010 [72; 105] ∧
  @abort sample_devices 2 sample_console = Hang (put_list [72; 105] sample_console).
Proof.
  assert (text_at sample_console 0x3010 [72; 105]) as Ht.
  { split_and!; [by vm_compute| |done]. unfold off_screen, VGA_MEMORY; cbn; lia. }
  split; [exact Ht|].
  apply (@abort_stops sample_devices 2 [72; 105] sample_console); [done|done|by repeat constructor|exact Ht].
Defined.
