(* ===== verification/Heap.v ===== *)
(** * kernel/Heap.cpp: the kernel heap (definitions)

    Chunks of memory, each with a 12-byte header and an 8-byte footer; the
    holes are listed in an [OrderedList] by size.  The routines are translated
    statement by statement, on the byte memory.  [Alloc] calls itself, and
    through [Expand], [get_page] and [kmalloc] too: [Alloc_body] takes the
    recursive call as an argument and [Alloc] closes the recursion with fuel. *)
From S2P Require Import Prelude Memory LibString OrderedList Machine Console Stdio Frames Kmalloc Paging.
Local Open Scope Z_scope.
Local Open Scope u32_scope.

Definition KHEAP_START : Z := 0xC0000000.
Definition KHEAP_INITIAL_SIZE : Z := 0x100000.
Definition HEAP_INDEX_SIZE : Z := 0x20000.
Definition HEAP_MAGIC : Z := 0x12345678.
Definition HEAP_MIN_SIZE : Z := 0x70000.

(** ** [struct Header { magic; bool is_hole; size }], [struct Footer { magic; header }] *)
Definition sizeof_Header : Z := 12.
Definition sizeof_Footer : Z := 8.

Definition h_magic (m : memory) (h : Z) : Z := ld32 m h.
Definition h_is_hole (m : memory) (h : Z) : bool := negb (ld8 m (h ⊕ 4) =? 0).
Definition h_size (m : memory) (h : Z) : Z := ld32 m (h ⊕ 8).
Definition f_magic (m : memory) (f : Z) : Z := ld32 m f.
Definition f_header (m : memory) (f : Z) : Z := ld32 m (f ⊕ 4).

Definition set_h_magic (h v : Z) : K unit := store32 h v.
Definition set_h_is_hole (h : Z) (b : bool) : K unit := store8 (h ⊕ 4) (Z.b2z b).
Definition set_h_size (h v : Z) : K unit := store32 (h ⊕ 8) v.
Definition set_f_magic (f v : Z) : K unit := store32 f v.
Definition set_f_header (f v : Z) : K unit := store32 (f ⊕ 4) v.

Definition HeaderLessThan (m : memory) (a b : Z) : bool := h_size m a <? h_size m b.

(** ** The object and its index *)
Definition this (s : machine) : Heap := kheap_object (kmem s).

Definition index_insert (item : Z) : K unit := λ s,
  let '(m', ol') := Insert HeaderLessThan (mem s) (m_index (this s)) item in
  Done tt (set_kheap_object (set_index ol' (this s)) (set_mem m' s)).
Definition index_remove (i : Z) : K unit := λ s,
  let '(m', ol') := Remove (mem s) (m_index (this s)) i in
  Done tt (set_kheap_object (set_index ol' (this s)) (set_mem m' s)).

(** The search [while (iterator < m_index.Size() && item(iterator) != h)]. *)
Definition index_find (m : memory) (ol : OrderedList) (h : Z) : Z :=
  count_while (Z.to_nat (Size ol)) 0 (λ i, negb (GetItemAtIndex m ol i =? h)).

Section constructor.
Context `{Image}.

(** [start & 0xFFFFF000 != 0] is [start & (0xFFFFF000 != 0)], that is
    [start & 1]; [m_startAddress] is assigned twice, the second time [max];
    the two flags are assigned to the parameters that shadow them, so the
    members keep their indeterminate contents, as [m_maxAddress] does. *)
Definition Heap_new (start end_addr max : Z) (m_supervisor m_readonly : bool) : K Heap :=
  m_index ← on_mem (λ m, OrderedList_at m start HEAP_INDEX_SIZE);
  let start := start ⊕ 4 ⊗ HEAP_INDEX_SIZE in
  let start := if negb (Z.land start 1 =? 0) then Z.land start 0xFFFFF000 ⊕ 0x1000 else start in
  let m_endAddress := end_addr in
  let m_startAddress := max in
  let hole := start in
  set_h_size hole (end_addr ⊖ start) ;;
  set_h_magic hole HEAP_MAGIC ;;
  set_h_is_hole hole true ;;
  m_index ← on_mem (λ m, Insert HeaderLessThan m m_index hole);
  mret (MkHeap m_index m_startAddress m_endAddress indeterminate
          (negb (indeterminate =? 0)) (negb (indeterminate =? 0))).
End constructor.

(** ** The search for a hole *)

(** The condition under which the loop breaks at [header]; again
    [x & 0xFFFFF000 != 0] is [x & 1]. *)
Definition hole_fits (m : memory) (header size : Z) (pageAlign : bool) : bool :=
  if pageAlign then
    let location := header in
    let offset := if negb (Z.land (location ⊕ sizeof_Header) 1 =? 0)
                  then 0x1000 ⊖ (location ⊕ sizeof_Header) mod 0x1000 else 0 in
    let hole_size := h_size m header ⊖ offset in
    size <=? hole_size
  else size <=? h_size m header.

Definition FindSmallestHole (m : memory) (ol : OrderedList) (size : Z) (pageAlign : bool) : Z :=
  let iterator := count_while (Z.to_nat (Size ol)) 0
    (λ i, negb (hole_fits m (GetItemAtIndex m ol i) size pageAlign)) in
  if iterator =? Size ol then w32 (-1) else iterator.

Section heap.
Context `{Image}.

(** ** Growing and shrinking *)
Section resize.
Context `{Allocator}.

(** The fuel is the number of pages between the two sizes. *)
Definition Expand (new_size : Z) : K unit :=
  let new_size := if negb (Z.land new_size 1 =? 0)
                  then Z.land new_size 0xFFFFF000 ⊕ 0x1000 else new_size in
  old_size ← gets (λ s, m_endAddress (this s) ⊖ m_startAddress (this s));
  whileM (Z.to_nat ((new_size - old_size) / 4096 + 1)) (λ i _, i <? new_size)
    (λ i,
      st ← gets (λ s, m_startAddress (this s));
      kd ← gets (λ s, kernel_directory (pg s));
      page ← get_page (st ⊕ i) true kd;
      sup ← gets (λ s, m_supervisor (this s));
      ro ← gets (λ s, m_readonly (this s));
      alloc_frame page sup (negb ro) ;;
      mret (i ⊕ 0x1000)) old_size ;;
  modify (λ s, set_kheap_object (set_endAddress (m_startAddress (this s) ⊕ new_size) (this s)) s).

Definition Contract (new_size : Z) : K Z :=
  let new_size := if negb (Z.land new_size 0x1000 =? 0)
                  then Z.land new_size 0x1000 ⊕ 0x1000 else new_size in
  let new_size := if new_size <? HEAP_MIN_SIZE then HEAP_MIN_SIZE else new_size in
  old_size ← gets (λ s, m_endAddress (this s) ⊖ m_startAddress (this s));
  whileM (Z.to_nat ((old_size ⊖ 0x1000) / 4096)) (λ i _, new_size <? i)
    (λ i,
      st ← gets (λ s, m_startAddress (this s));
      kd ← gets (λ s, kernel_directory (pg s));
      page ← get_page (st ⊕ i) false kd;
      free_frame page ;;
      mret (i ⊖ 0x1000)) (old_size ⊖ 0x1000) ;;
  modify (λ s, set_kheap_object (set_endAddress (m_startAddress (this s) ⊕ new_size) (this s)) s) ;;
  mret new_size.
End resize.

(** ** Allocation *)

(** The second half of [Alloc], from the hole at index [iterator]. *)
Definition Alloc_at (iterator size new_size : Z) (page_align : bool) : K Z :=
  orig_hole_header ← gets (λ s, GetItemAtIndex (mem s) (m_index (this s)) iterator);
  let orig_hole_pos := orig_hole_header in
  orig_hole_size ← gets (λ s, h_size (mem s) orig_hole_header);
  let whole := orig_hole_size ⊖ new_size <? sizeof_Header + sizeof_Footer in
  let size := if whole then size ⊕ (orig_hole_size ⊖ new_size) else size in
  let new_size := if whole then orig_hole_size else new_size in
  r ←
    (if page_align && negb (Z.land orig_hole_pos 0xFFFFF000 =? 0) then
       let new_location :=
         orig_hole_pos ⊕ 0x1000 ⊖ Z.land orig_hole_pos 0xFFF ⊖ sizeof_Header in
       let hole_header := orig_hole_pos in
       set_h_size hole_header (0x1000 ⊖ Z.land orig_hole_pos 0xFFF ⊖ sizeof_Header) ;;
       set_h_magic hole_header HEAP_MAGIC ;;
       set_h_is_hole hole_header true ;;
       let hole_footer := new_location ⊖ sizeof_Footer in
       set_f_magic hole_footer HEAP_MAGIC ;;
       set_f_header hole_footer hole_header ;;
       hsz ← gets (λ s, h_size (mem s) hole_header);
       mret (new_location, orig_hole_size ⊖ hsz)
     else
       index_remove iterator ;;
       mret (orig_hole_pos, orig_hole_size));
  let '(orig_hole_pos, orig_hole_size) := r in
  let block_header := orig_hole_pos in
  set_h_magic block_header HEAP_MAGIC ;;
  set_h_is_hole block_header false ;;
  set_h_size block_header new_size ;;
  let block_footer := orig_hole_pos ⊕ sizeof_Header ⊕ size in
  set_f_magic block_footer HEAP_MAGIC ;;
  set_f_header block_footer block_header ;;
  (if 0 <? orig_hole_size ⊖ new_size then
     let hole_header := orig_hole_pos ⊕ sizeof_Header ⊕ size ⊕ sizeof_Footer in
     set_h_magic hole_header HEAP_MAGIC ;;
     set_h_is_hole hole_header true ;;
     set_h_size hole_header (orig_hole_size ⊖ new_size) ;;
     let hole_footer := hole_header ⊕ orig_hole_size ⊖ new_size ⊖ sizeof_Footer in
     e ← gets (λ s, m_endAddress (this s));
     (if hole_footer <? e then
        set_f_magic hole_footer HEAP_MAGIC ;;
        set_f_header hole_footer hole_header
      else mret tt) ;;
     index_insert hole_header
   else mret tt) ;;
  mret (block_header ⊕ sizeof_Header).

Section alloc.
(** [Alloc] itself, and [kmalloc] called from below it. *)
Variable rec_alloc : Z → bool → K Z.

Definition Alloc_body (size : Z) (page_align : bool) : K Z :=
  let new_size := size ⊕ sizeof_Header ⊕ sizeof_Footer in
  iterator ← gets (λ s, FindSmallestHole (mem s) (m_index (this s)) new_size page_align);
  if iterator =? w32 (-1) then
    old_length ← gets (λ s, m_endAddress (this s) ⊖ m_startAddress (this s));
    old_m_endAddress ← gets (λ s, m_endAddress (this s));
    @Expand (kmalloc rec_alloc) (old_length ⊕ new_size) ;;
    new_length ← gets (λ s, m_endAddress (this s) ⊖ m_startAddress (this s));
    r ← gets (λ s,
      for_loop (Z.to_nat (Size (m_index (this s)))) 0 (λ iterator '(idx, value),
        let tmp := GetItemAtIndex (mem s) (m_index (this s)) iterator in
        if value <? tmp then (iterator, tmp) else (idx, value)) (w32 (-1), 0));
    let idx := r.1 in
    (if idx =? w32 (-1) then
       let header := old_m_endAddress in
       set_h_magic header HEAP_MAGIC ;;
       set_h_size header (new_length ⊖ old_length) ;;
       set_h_is_hole header true ;;
       sz ← gets (λ s, h_size (mem s) header);
       let footer := old_m_endAddress ⊕ sz ⊖ sizeof_Footer in
       set_f_magic footer HEAP_MAGIC ;;
       set_f_header footer header ;;
       index_insert header
     else
       header ← gets (λ s, GetItemAtIndex (mem s) (m_index (this s)) idx);
       sz ← gets (λ s, h_size (mem s) header);
       set_h_size header (sz ⊕ (new_length ⊖ old_length)) ;;
       sz ← gets (λ s, h_size (mem s) header);
       let footer := header ⊕ sz ⊖ sizeof_Footer in
       set_f_header footer header ;;
       set_f_magic footer HEAP_MAGIC) ;;
    rec_alloc size page_align
  else Alloc_at iterator size new_size page_align.
End alloc.

(** Each level of fuel allows one more nested call. *)
Fixpoint Alloc (fuel : nat) (size : Z) (page_align : bool) : K Z :=
  match fuel with
  | O => out_of_fuel
  | S fuel' => Alloc_body (Alloc fuel') size page_align
  end.

(** ** Deallocation *)
Section free.
Context `{Allocator}.

(** The test before a merge: a header that is marked and is a hole. *)
Definition marked_hole (m : memory) (magic header : Z) : bool :=
  (magic =? HEAP_MAGIC) && h_is_hole m header.

(** "Unify left": the header to go on with, and [do_add]. *)
Definition unify_left (header footer : Z) : K (Z * bool) :=
  let test_footer := header ⊖ sizeof_Footer in
  merge ← gets (λ s, marked_hole (mem s) (f_magic (mem s) test_footer) (f_header (mem s) test_footer));
  if (merge : bool) then
    cache_size ← gets (λ s, h_size (mem s) header);
    header ← gets (λ s, f_header (mem s) test_footer);
    set_f_header footer header ;;
    sz ← gets (λ s, h_size (mem s) header);
    set_h_size header (sz ⊕ cache_size) ;;
    mret (header, false)
  else mret (header, true).

(** "Unify right": the footer to go on with. *)
Definition unify_right (header footer : Z) : K Z :=
  let test_header := footer ⊕ sizeof_Footer in
  merge ← gets (λ s, marked_hole (mem s) (h_magic (mem s) test_header) test_header);
  if (merge : bool) then
    sz ← gets (λ s, h_size (mem s) header);
    tsz ← gets (λ s, h_size (mem s) test_header);
    set_h_size header (sz ⊕ tsz) ;;
    tsz ← gets (λ s, h_size (mem s) test_header);
    let test_footer := test_header ⊕ tsz ⊖ sizeof_Footer in
    let footer := test_footer in
    iterator ← gets (λ s, index_find (mem s) (m_index (this s)) test_header);
    index_remove iterator ;;
    mret footer
  else mret footer.

(** The contraction of a heap whose last chunk was freed. *)
Definition contract_end (header footer test_header : Z) : K unit :=
  e ← gets (λ s, m_endAddress (this s));
  if footer ⊕ sizeof_Footer =? e then
    old_length ← gets (λ s, m_endAddress (this s) ⊖ m_startAddress (this s));
    st ← gets (λ s, m_startAddress (this s));
    new_length ← Contract (header ⊖ st);
    sz ← gets (λ s, h_size (mem s) header);
    if 0 <? sz ⊖ (old_length ⊖ new_length) then
      set_h_size header (sz ⊖ (old_length ⊖ new_length)) ;;
      sz ← gets (λ s, h_size (mem s) header);
      let footer := header ⊕ sz ⊖ sizeof_Footer in
      set_f_magic footer HEAP_MAGIC ;;
      set_f_header footer header
    else
      iterator ← gets (λ s, index_find (mem s) (m_index (this s)) test_header);
      n ← gets (λ s, Size (m_index (this s)));
      if iterator <? n then index_remove iterator else mret tt
  else mret tt.

Definition Free (p : Z) : K unit :=
  if p =? 0 then mret tt
  else
    let header := p ⊖ sizeof_Header in
    sz ← gets (λ s, h_size (mem s) header);
    let footer := header ⊕ sz ⊖ sizeof_Footer in
    set_h_is_hole header true ;;
    r ← unify_left header footer;
    let '(header, do_add) := r in
    let test_header := footer ⊕ sizeof_Footer in
    footer ← unify_right header footer;
    contract_end header footer test_header ;;
    (if (do_add : bool) then index_insert header else mret tt).
End free.
End heap.
