(* ===== verification/HeapSpec.v ===== *)
(** * The heap's invariant, and what Alloc and Free do to it

    Abstractly the heap is a list of chunks that tile it; [heap_ok] relates
    that list and the index of holes to the memory. *)
From S2P Require Import Prelude Memory LibString OrderedList Machine Console Stdio Frames Kmalloc Paging Heap.
Local Open Scope Z_scope.
Local Open Scope u32_scope.

(** ** Abstract state *)

(** A chunk; [c_footed] says that its footer is valid. *)
Record chunk := MkChunk {
  c_addr : Z;
  c_size : Z;
  c_hole : bool;
  c_footed : bool;
}.
#[export] Instance chunk_eq_dec : EqDecision chunk.
Proof. solve_decision. Defined.

Definition chunk_ok (m : memory) (c : chunk) : Prop :=
  ld32 m (c_addr c) = HEAP_MAGIC ∧ ld8 m (c_addr c + 4) = Z.b2z (c_hole c) ∧
  ld32 m (c_addr c + 8) = c_size c ∧ 20 <= c_size c ∧
  (c_hole c = false → c_footed c = true) ∧
  (c_footed c = true → ld32 m (c_addr c + c_size c - 8) = HEAP_MAGIC ∧
                       ld32 m (c_addr c + c_size c - 4) = c_addr c).

(** The chunks [cs] tile the addresses from [a] to [e]. *)
Fixpoint chunks_ok (m : memory) (a e : Z) (cs : list chunk) : Prop :=
  match cs with
  | [] => a = e
  | c :: cs' => c_addr c = a ∧ chunk_ok m c ∧ chunks_ok m (a + c_size c) e cs'
  end.

Definition holes (cs : list chunk) : list Z := c_addr <$> filter (λ c, c_hole c = true) cs.

(** The heap of state [s] from [lo] on: the chunks [cs] tile it, and the index,
    whose array lies below the heap, holds [idx]. *)
Record tiled (s : machine) (lo : Z) (cs : list chunk) (idx : list Z) : Prop := {
  ho_lo : 8 <= lo;
  ho_hi : m_endAddress (this s) < 4294967292;
  ho_chunks : chunks_ok (mem s) lo (m_endAddress (this s)) cs;
  ho_index : ol_repr (mem s) (m_index (this s)) idx;
  ho_array : m_elements (m_index (this s)) + 4 * m_maxSize (m_index (this s)) <= lo;
  ho_capacity : Z.of_nat (length idx) <= m_maxSize (m_index (this s));
}.

(** The invariant: the entries of the index are the holes, each once. *)
Definition heap_ok (s : machine) (lo : Z) (cs : list chunk) (idx : list Z) : Prop :=
  tiled s lo cs idx ∧ idx ≡ₚ holes cs.

(** The index array. *)
Definition array (s : machine) : Z → Prop :=
  range (m_elements (m_index (this s))) (4 * m_maxSize (m_index (this s))).

Definition index_sorted (s : machine) (idx : list Z) : Prop := Sorted_by (HeaderLessThan (mem s)) idx.

(** What the stores of a whole chunk amount to. *)
Definition write_chunk (m : memory) (a n : Z) (hole : bool) : memory :=
  st32 (st32 (st32 (st8 (st32 m a HEAP_MAGIC) (a + 4) (Z.b2z hole)) (a + 8) n)
    (a + n - 8) HEAP_MAGIC) (a + n - 4) a.

(** ** Lemmas on chunks *)
Lemma chunks_ok_app m a e l1 l2 :
  chunks_ok m a e (l1 ++ l2) ↔ ∃ b, chunks_ok m a b l1 ∧ chunks_ok m b e l2.
Proof.
  revert a. induction l1 as [|c l1 IH]; intros a; simpl.
  - split; [by exists a|by intros (b & -> & ?)].
  - rewrite IH. split.
    + intros (Ha & Hc & b & H1 & H2). by exists b.
    + intros (b & (Ha & Hc & H1) & H2). split_and!; [done..|by exists b].
Qed.

Lemma chunks_ok_le m a e cs : chunks_ok m a e cs → a <= e.
Proof.
  revert a. induction cs as [|c cs IH]; intros a; simpl; [lia|].
  intros (_ & (_ & _ & _ & Hmin & _) & Hcs). specialize (IH _ Hcs). lia.
Qed.

Lemma chunk_ok_frame P m m' c :
  frame P m m' → 0 <= c_addr c → c_addr c + c_size c <= 4294967296 →
  (∀ x, range (c_addr c) (c_size c) x → ¬ P x) → chunk_ok m c → chunk_ok m' c.
Proof.
  intros Hf H0 H1 HP (Hm & Hh & Hs & Hmin & Hb & Hft). unfold range in HP.
  assert (∀ x, c_addr c <= x → x + 4 <= c_addr c + c_size c → ld32 m' x = ld32 m x) as Hld.
  { intros x ? ?. eapply frame_ld32; [done|lia..|]. intros y ?. apply HP. lia. }
  split_and!; [by rewrite Hld by lia| |by rewrite Hld by lia|done|done|].
  - rewrite <- Hh. apply Hf; [lia|apply HP; lia].
  - intros Hc. rewrite !Hld by lia. auto.
Qed.

Lemma chunks_ok_frame P m m' a e cs :
  frame P m m' → 0 <= a → e <= 4294967296 → (∀ x, a <= x < e → ¬ P x) →
  chunks_ok m a e cs → chunks_ok m' a e cs.
Proof.
  intros Hf. revert a. induction cs as [|c cs IH]; intros a Ha He HP; simpl; [done|].
  intros (Hca & Hc & Hcs). pose proof (chunks_ok_le _ _ _ _ Hcs).
  pose proof Hc as (_ & _ & _ & ? & _). split_and!; [done| |].
  - eapply chunk_ok_frame; [done|lia..| |done]. unfold range. intros x Hx. apply HP. lia.
  - apply IH; [lia|done| |done]. intros x Hx. apply HP. lia.
Qed.

Lemma write_chunk_ok m a n hole :
  20 <= n → 0 <= a → a + n < 4294967296 →
  chunk_ok (write_chunk m a n hole) (MkChunk a n hole true).
Proof.
  intros Hn Ha Han. unfold chunk_ok, write_chunk; cbn [c_addr c_size c_hole c_footed].
  assert (w32 n = n ∧ w32 a = a ∧ w32 HEAP_MAGIC = HEAP_MAGIC) as (En & Ea & Em)
    by (split_and!; apply w32_small; unfold HEAP_MAGIC; lia).
  split_and!; mem_simpl; rewrite ?En, ?Ea, ?Em; try done. by destruct hole.
Qed.

Lemma write_chunk_frame m a n hole :
  20 <= n → 0 <= a → a + n < 4294967296 → frame (range a n) m (write_chunk m a n hole).
Proof.
  intros. unfold write_chunk.
  repeat first [apply frame_st32; [|unfold range; lia..] | apply frame_st8; [|unfold range; lia..]].
  apply frame_refl.
Qed.

Lemma holes_app l1 l2 : holes (l1 ++ l2) = holes l1 ++ holes l2.
Proof. unfold holes. by rewrite filter_app, fmap_app. Qed.
Lemma holes_cons c l : holes (c :: l) = if c_hole c then c_addr c :: holes l else holes l.
Proof. unfold holes. rewrite filter_cons. destruct (c_hole c); simpl; done. Qed.

(** The chunk of a hole in the index. *)
Lemma in_holes a cs : a ∈ holes cs →
  ∃ pre c post, cs = pre ++ c :: post ∧ c_addr c = a ∧ c_hole c = true.
Proof.
  intros Ha. apply list_elem_of_fmap in Ha as (c & -> & Hc).
  apply list_elem_of_filter in Hc as [Hh Hc]. apply list_elem_of_split in Hc as (pre & post & ->).
  by exists pre, c, post.
Qed.

(** The addresses around one chunk of the heap. *)
Record chunk_at (m : memory) (lo hi : Z) (pre : list chunk) (c : chunk) (post : list chunk) : Prop := {
  ca_pre : chunks_ok m lo (c_addr c) pre;
  ca_chunk : chunk_ok m c;
  ca_post : chunks_ok m (c_addr c + c_size c) hi post;
  ca_bounds : lo <= c_addr c ∧ 20 <= c_size c ∧ c_addr c + c_size c <= hi;
}.
Lemma chunks_ok_split m lo hi pre c post :
  chunks_ok m lo hi (pre ++ c :: post) ↔ chunk_at m lo hi pre c post.
Proof.
  rewrite chunks_ok_app. split.
  - intros (b & Hpre & Hb & Hc & Hpost). subst b.
    pose proof (chunks_ok_le _ _ _ _ Hpre). pose proof (chunks_ok_le _ _ _ _ Hpost).
    pose proof Hc as (_ & _ & _ & ? & _). by split.
  - intros [Hpre Hc Hpost _]. exists (c_addr c). by split_and!.
Qed.

(** The other chunks lie outside it. *)
Lemma chunks_disjoint m lo hi pre c post d :
  chunks_ok m lo hi (pre ++ c :: post) → d ∈ pre ++ c :: post → d ≠ c →
  lo <= c_addr d ∧ c_addr d + c_size d <= hi ∧
  (c_addr d + c_size d <= c_addr c ∨ c_addr c + c_size c <= c_addr d).
Proof.
  intros [Hpre _ Hpost Hb]%chunks_ok_split. rewrite elem_of_app, elem_of_cons.
  intros [Hd|[->|Hd]] Hne; [|done|]; apply list_elem_of_split in Hd as (l1 & l2 & ->).
  - apply chunks_ok_split in Hpre as [_ _ _ ?]. lia.
  - apply chunks_ok_split in Hpost as [_ _ _ ?]. lia.
Qed.

(** ** The index operations as functions of the state *)
Definition removed (i : Z) (s : machine) : machine :=
  let r := Remove (mem s) (m_index (this s)) i in
  set_kheap_object (set_index r.2 (this s)) (set_mem r.1 s).
Definition inserted (h : Z) (s : machine) : machine :=
  let r := Insert HeaderLessThan (mem s) (m_index (this s)) h in
  set_kheap_object (set_index r.2 (this s)) (set_mem r.1 s).

Lemma index_remove_eq i s : index_remove i s = Done tt (removed i s).
Proof. unfold index_remove, removed. by destruct (Remove _ _ _). Qed.
Lemma index_insert_eq h s : index_insert h s = Done tt (inserted h s).
Proof. unfold index_insert, inserted. by destruct (Insert _ _ _ _). Qed.
Lemma inserted_max h s :
  m_maxSize (m_index (this (inserted h s))) = m_maxSize (m_index (this s)).
Proof.
  unfold inserted, Insert. destruct (_ =? _); [done|]. by destruct (for_loop _ _ _ _).
Qed.
(** What an operation of the heap never touches: all that is not the memory or
    the index's size, and the end address when the heap is not resized. *)
Definition heap_only (s s' : machine) : Prop :=
  same_but_kmem s s' ∧ kheap (kmem s') = kheap (kmem s) ∧
  m_elements (m_index (this s')) = m_elements (m_index (this s)) ∧
  m_maxSize (m_index (this s')) = m_maxSize (m_index (this s)) ∧
  m_endAddress (this s') = m_endAddress (this s) ∧
  m_startAddress (this s') = m_startAddress (this s).
#[export] Instance heap_only_preorder : PreOrder heap_only.
Proof. unfold heap_only, same_but_kmem. split; [intros s; by split_and!|intros x y z; intuition congruence]. Qed.
Lemma heap_only_end s s' : heap_only s s' → m_endAddress (this s') = m_endAddress (this s).
Proof. by intros (_ & _ & _ & _ & ? & _). Qed.
Lemma heap_only_max s s' :
  heap_only s s' → m_maxSize (m_index (this s')) = m_maxSize (m_index (this s)).
Proof. by intros (_ & _ & _ & ? & _). Qed.
Lemma heap_only_array s s' : heap_only s s' → array s' = array s.
Proof. intros (_ & _ & He & Hm & _). unfold array. by rewrite He, Hm. Qed.
Lemma heap_only_length s s' : heap_only s s' → m_endAddress (this s') ⊖ m_startAddress (this s') =
  m_endAddress (this s) ⊖ m_startAddress (this s).
Proof. by intros (_ & _ & _ & _ & -> & ->). Qed.
Lemma heap_only_mem m s : heap_only s (set_mem m s).
Proof. by split_and!. Qed.
Lemma heap_only_removed i s : heap_only s (removed i s).
Proof. by split_and!. Qed.
Lemma heap_only_inserted h s : heap_only s (inserted h s).
Proof.
  unfold heap_only, inserted, Insert. destruct (_ =? _); [by split_and!|].
  destruct (for_loop _ _ _ _). by split_and!.
Qed.
Lemma removed_end i s : m_endAddress (this (removed i s)) = m_endAddress (this s).
Proof. done. Qed.

(** ** Runs of stores *)
Lemma this_set_mem m s : this (set_mem m s) = this s.
Proof. done. Qed.
Ltac hstores :=
  unfold set_h_magic, set_h_is_hole, set_h_size, set_f_magic, set_f_header;
  repeat (kstore; rewrite ?this_set_mem).

(** Removing and inserting index entries changes the array only. *)
Lemma removed_tiled s lo cs idx i a :
  tiled s lo cs idx → idx !! i = Some a →
  tiled (removed (Z.of_nat i) s) lo cs (delete i idx) ∧
  frame (array s) (mem s) (mem (removed (Z.of_nat i) s)).
Proof.
  intros [Hlo Hhi Hcs Hidx Harr Hcap] Hi. apply lookup_lt_Some in Hi as Hlt.
  destruct (Remove_frame _ _ _ (Z.of_nat i) Hidx ltac:(lia)) as [Hf _].
  pose proof (Remove_refines _ _ _ _ Hidx Hlt) as Hr.
  assert (frame (array s) (mem s) (mem (removed (Z.of_nat i) s))) as Hf'.
  { eapply frame_weaken; [exact Hf|]. unfold array, range. lia. }
  split; [|done]. split; [done|done| | |done|].
  - rewrite removed_end. eapply chunks_ok_frame; [exact Hf'|lia..| |done]. unfold array, range. lia.
  - unfold removed. destruct (Remove _ _ _). exact Hr.
  - cbn. rewrite length_delete by (by apply lookup_lt_is_Some). lia.
Qed.

Lemma inserted_tiled s lo cs idx x :
  tiled s lo cs idx → Z.of_nat (length idx) < m_maxSize (m_index (this s)) →
  0 <= x < 4294967296 →
  tiled (inserted x s) lo cs (insert_ordered (HeaderLessThan (mem s)) x idx) ∧
  frame (array s) (mem s) (mem (inserted x s)).
Proof.
  intros [Hlo Hhi Hcs Hidx Harr Hcap] Hlt Hx. pose proof (chunks_ok_le _ _ _ _ Hcs).
  pose proof (Insert_refines HeaderLessThan _ _ _ x Hidx Hx ltac:(lia)) as Hr.
  pose proof (inserted_max x s) as Hmax. unfold inserted in *. destruct (Insert _ _ _ _) as [m' ol']. destruct Hr as (Hr & He & Hf).
  cbn [fst snd] in *. cbn in Hmax.
  assert (frame (array s) (mem s) m') as Hf'.
  { eapply frame_weaken; [exact Hf|]. unfold array, range. lia. }
  split; [|done]. split; cbn; [done|done| |done|lia|].
  - eapply chunks_ok_frame; [exact Hf'|lia..| |done]. unfold array, range. lia.
  - rewrite insert_ordered_perm. simpl. lia.
Qed.

(** Rewriting a segment of the heap. *)
Lemma write_tiled s lo idx pre seg post seg' b e m' :
  tiled s lo (pre ++ seg ++ post) idx →
  chunks_ok (mem s) lo b pre → chunks_ok (mem s) e (m_endAddress (this s)) post →
  lo <= b → e <= m_endAddress (this s) →
  frame (range b (e - b)) (mem s) m' → chunks_ok m' b e seg' →
  tiled (set_mem m' s) lo (pre ++ seg' ++ post) idx.
Proof.
  intros [Hlo Hhi Hcs Hidx Harr Hcap] Hpre Hpost Hb He Hf Hseg.
  pose proof (chunks_ok_le _ _ _ _ Hseg). pose proof (chunks_ok_le _ _ _ _ Hpost).
  split; [done|done| | |done|done].
  - rewrite this_set_mem, mem_set_mem, chunks_ok_app. exists b. split.
    + eapply chunks_ok_frame; [exact Hf|lia..| |done]. unfold range. lia.
    + rewrite chunks_ok_app. exists e. split; [done|].
      eapply chunks_ok_frame; [exact Hf|lia..| |done]. unfold range. lia.
  - eapply ol_repr_frame; [exact Hf| |done]. rewrite this_set_mem. unfold range. lia.
Qed.

(** The whole-chunk stores of [Alloc_at]: block first, then its footer. *)
Section alloc_at.
Context `{Image}.

Lemma Alloc_at_whole s i a sz size :
  GetItemAtIndex (mem s) (m_index (this s)) i = a → h_size (mem s) a = sz →
  0 <= size → size + 20 <= sz < size + 40 → 0 <= a → a + sz < 4294967296 →
  Alloc_at i size (size + 20) false s =
    Done (a + 12) (set_mem (write_chunk (mem (removed i s)) a sz false) (removed i s)).
Proof.
  intros Hi Hsz H0 Hn Ha Hasz. unfold Alloc_at, sizeof_Header, sizeof_Footer.
  rewrite bind_gets, Hi, bind_gets, Hsz. rewrite (w32_small (sz - (size + 20))) by lia.
  destruct (Z.ltb_spec (sz - (size + 20)) (12 + 8)); [|lia]. cbn [andb].
  rewrite bind_assoc, (bind_done _ _ _ _ _ (index_remove_eq i s)), bind_ret. hstores.
  rewrite Z.sub_diag. change (0 <? w32 0) with false. cbv iota. rewrite bind_ret.
  unfold mret, kernel_ret, write_chunk. w32_simpl.
  replace (a + 12 + (size + (sz - (size + 20)))) with (a + sz - 8) by lia.
  replace (a + sz - 8 + 4) with (a + sz - 4) by lia. reflexivity.
Qed.

Lemma Alloc_at_split s i a sz size :
  GetItemAtIndex (mem s) (m_index (this s)) i = a → h_size (mem s) a = sz →
  0 <= size → size + 40 <= sz → 0 <= a → a + sz <= m_endAddress (this s) →
  m_endAddress (this s) < 4294967296 →
  Alloc_at i size (size + 20) false s =
    Done (a + 12) (inserted (a + (size + 20))
      (set_mem (write_chunk (write_chunk (mem (removed i s)) a (size + 20) false)
                  (a + (size + 20)) (sz - (size + 20)) true) (removed i s))).
Proof.
  intros Hi Hsz H0 Hn Ha Hasz Hend. unfold Alloc_at, sizeof_Header, sizeof_Footer.
  rewrite bind_gets, Hi, bind_gets, Hsz. rewrite (w32_small (sz - (size + 20))) by lia.
  destruct (Z.ltb_spec (sz - (size + 20)) (12 + 8)); [lia|]. cbn [andb].
  rewrite bind_assoc, (bind_done _ _ _ _ _ (index_remove_eq i s)), bind_ret. hstores.
  rewrite (w32_small (sz - (size + 20))) by lia.
  destruct (Z.ltb_spec 0 (sz - (size + 20))) as [_|]; [|lia]. hstores.
  rewrite !removed_end, (w32_small (a + 12)), (w32_small (a + 12 + size)),
    (w32_small (a + 12 + size + 8)) by lia.
  replace (a + 12 + size + 8) with (a + (size + 20)) by lia.
  rewrite (w32_sub_l (_ + sz)), w32_sub_l.
  replace (a + (size + 20) + sz - (size + 20) - 8) with (a + sz - 8) by lia.
  rewrite (w32_small (a + sz - 8)) by lia.
  destruct (Z.ltb_spec (a + sz - 8) (m_endAddress (this s))) as [_|]; [|lia].
  hstores. rewrite (bind_done _ _ _ _ _ (index_insert_eq _ _)).
  unfold mret, kernel_ret, write_chunk. w32_simpl.
  replace (a + (size + 20) + (sz - (size + 20)) - 8) with (a + sz - 8) by lia.
  replace (a + (size + 20) + (sz - (size + 20)) - 4) with (a + sz - 8 + 4) by lia.
  replace (a + (size + 20) - 8) with (a + 12 + size) by lia.
  replace (a + (size + 20) - 4) with (a + 12 + size + 4) by lia. reflexivity.
Qed.
End alloc_at.

(** ** A heap with three blocks and two holes, for the instances *)
Definition example_chunks : list chunk :=
  [MkChunk 0x10000 100 false true; MkChunk 0x10064 200 true true;
   MkChunk 0x1012C 60 false true; MkChunk 0x10168 60000 true true;
   MkChunk 0x1EBC8 5176 false true].
Definition example_index : list Z := [0x10064; 0x10168].
Definition example_memory : memory :=
  let m := foldr (λ c m, write_chunk m (c_addr c) (c_size c) (c_hole c)) ∅ example_chunks in
  st32 (st32 m 0x8000 0x10064) 0x8004 0x10168.
Definition example : machine :=
  set_kheap_object (MkHeap (MkOrderedList 0x8000 2 64) 0x10000 0x20000 0x30000 false false)
    (sample example_memory).

Lemma example_ok : heap_ok example 0x10000 example_chunks example_index.
Proof.
  split; [|reflexivity]. split; [done|done| | |done|done].
  - cbn -[ld32 ld8 mem]. unfold chunk_ok. zdecide.
  - split_and!; [done| |done|done].
    intros [|[|i]] x Hx; simplify_eq/=; vm_compute; reflexivity.
Qed.

Lemma example_sorted : index_sorted example example_index.
Proof. repeat constructor. Qed.

(** ** The constructor *)
Section new.
Context `{Image}.

Lemma Heap_new_run s start end_addr max sup ro :
  0 <= start → start mod 2 = 0 → start + 0x80000 + 20 <= end_addr → end_addr < 4294967292 →
  let hole := start + 0x80000 in
  ∃ h m, Heap_new start end_addr max sup ro s = Done h (set_mem m s) ∧
    heap_ok (set_kheap_object h (set_mem m s)) hole [MkChunk hole (end_addr - hole) true false] [hole] ∧
    frame (λ x, range start 0x80000 x ∨ range hole 12 x) (mem s) m ∧
    h = MkHeap (MkOrderedList start 1 HEAP_INDEX_SIZE) max end_addr indeterminate
          (negb (indeterminate =? 0)) (negb (indeterminate =? 0)).
Proof.
  intros H0 Heven Hlo Hhi hole. unfold Heap_new. change (4 ⊗ HEAP_INDEX_SIZE) with 0x80000.
  rewrite (w32_small (start + 0x80000)) by lia.
  assert (Z.land (start + 0x80000) 1 = 0) as ->.
  { change 1 with (Z.ones 1). rewrite Z.land_ones by lia. change (2 ^ 1) with 2.
    rewrite <- Zplus_mod_idemp_l, Heven. done. }
  cbn [Z.eqb negb]. fold hole.
  set (m0 := (memset (mem s) start 0 0x80000).1).
  destruct (memset_spec (mem s) start 0 0x80000) as [Hf0 _]; [lia..|]. fold m0 in Hf0.
  rewrite (bind_on_mem _ _ _ m0 (MkOrderedList start 0 HEAP_INDEX_SIZE))
    by (unfold OrderedList_at; change (HEAP_INDEX_SIZE ⊗ 4) with 0x80000; reflexivity).
  clearbody m0. hstores.
  set (m1 := st8 (st32 (st32 m0 (hole ⊕ 8) (end_addr ⊖ hole)) hole HEAP_MAGIC) (hole ⊕ 4) (Z.b2z true)).
  rewrite (bind_on_mem _ _ _ (st32 m1 start hole) (MkOrderedList start 1 HEAP_INDEX_SIZE));
    [|by rewrite mem_set_mem, Insert_empty, (w32_small start) by lia].
  rewrite set_mem_twice. eexists _, _. split; [reflexivity|].
  assert (frame (range hole 12) m0 m1) as Hf1.
  { unfold m1. w32_simpl.
    repeat first [apply frame_st32; [|unfold range; lia..] | apply frame_st8; [|unfold range; lia..]].
    apply frame_refl. }
  assert (frame (λ x, range start 0x80000 x ∨ range hole 12 x) (mem s) (st32 m1 start hole)) as Hf.
  { apply frame_st32; [|unfold range; lia..].
    apply (frame_trans _ _ m0); (eapply frame_weaken; [eassumption|]); intros; auto. }
  split; [|by split]. split; [|done]. split; cbn -[ld32 ld8]; [lia|lia| | |unfold HEAP_INDEX_SIZE; lia|done].
  - split_and!; [done| |lia]. unfold chunk_ok, m1; cbn -[ld32 ld8]. w32_simpl.
    split_and!; [by mem_simpl|by mem_simpl| |lia|done|done]. mem_simpl. rewrite w32_small; lia.
  - split_and!; [done| |done|cbn; lia]. intros [|i] x Hx; simplify_eq/=.
    rewrite Z.add_0_r, ld32_st32_eq. apply w32_small. lia.
Qed.

(** C25. The constructor establishes the invariant.  For an even, in-range
    start address the new heap is one hole from the end of the index array to
    the end address, listed in the index; the object's start address is the
    [max] argument, not [start]. *)
Theorem Heap_new_ok s start end_addr max sup ro :
  0 <= start → start mod 2 = 0 → start + 0x80000 + 20 <= end_addr → end_addr < 4294967292 →
  let hole := start + 0x80000 in
  ∃ h s', Heap_new start end_addr max sup ro s = Done h s' ∧
    heap_ok (set_kheap_object h s') hole [MkChunk hole (end_addr - hole) true false] [hole] ∧
    m_startAddress h = max ∧ m_endAddress h = end_addr ∧
    frame (λ x, range start 0x80000 x ∨ range hole 12 x) (mem s) (mem s').
Proof.
  intros H0 Heven Hlo Hhi hole.
  destruct (Heap_new_run s start end_addr max sup ro) as (h & m & Hrun & Hok & Hf & ->); [done..|].
  eexists _, (set_mem m s). split; [exact Hrun|]. split; [exact Hok|]. split_and!; [reflexivity..|exact Hf].
Qed.
End new.

Lemma Heap_new_ok_witness :
  ∃ h s', @Heap_new sample_image 0x100000 0x200000 0x400000 false false example = Done h s' ∧
    heap_ok (set_kheap_object h s') (0x100000 + 0x80000)
      [MkChunk (0x100000 + 0x80000) (0x200000 - (0x100000 + 0x80000)) true false] [0x100000 + 0x80000] ∧
    m_startAddress h = 0x400000 ∧ m_endAddress h = 0x200000 ∧
    frame (λ x, range 0x100000 0x80000 x ∨ range (0x100000 + 0x80000) 12 x) (mem example) (mem s').
Proof. apply (@Heap_new_ok sample_image); [lia|reflexivity|lia|lia]. Defined.
