(* ===== verification/HeapResize.v ===== *)
(** * kernel/Heap.cpp: Expand and Contract *)
From S2P Require Import Prelude Memory LibString OrderedList Machine Console Stdio Frames Kmalloc Paging MapPages Heap HeapSpec.
Local Open Scope Z_scope.
Local Open Scope u32_scope.

Lemma land_bit_12 n : Z.land n 0x1000 = if Z.testbit n 12 then 0x1000 else 0.
Proof.
  change 0x1000 with (2 ^ 12). apply Z.bits_inj_iff. intros i. rewrite Z.land_spec.
  destruct (decide (i = 12)) as [->|Hne].
  - rewrite Z.pow2_bits_true, andb_true_r by lia. by destruct (Z.testbit n 12).
  - rewrite Z.pow2_bits_false, andb_false_r by lia.
    destruct (Z.testbit n 12); [by rewrite Z.pow2_bits_false by lia|by rewrite Z.bits_0].
Qed.

Lemma odd_land_1 n : negb (Z.land n 1 =? 0) = Z.odd n.
Proof.
  change 1 with (Z.ones 1). rewrite Z.land_ones by lia. change (2 ^ 1) with 2.
  rewrite Zmod_odd. by destruct (Z.odd n).
Qed.

(** The lengths the two routines settle on. *)
Definition contracted (n : Z) : Z := if Z.testbit n 12 then HEAP_MIN_SIZE else Z.max n HEAP_MIN_SIZE.
Definition expanded (n : Z) : Z := if Z.odd n then Z.land n 0xFFFFF000 ⊕ 0x1000 else n.

Definition heap_length (s : machine) : Z := m_endAddress (this s) ⊖ m_startAddress (this s).
(** The heap resized to length [n], memory [m]. *)
Definition resized (n : Z) (m : memory) (s : machine) : machine :=
  set_kheap_object (set_endAddress (m_startAddress (this s) ⊕ n) (this s)) (set_mem m s).

Section resize.
Context `{Image} `{Allocator}.

Lemma get_page_lookup a dir s : ∃ p, get_page a false dir s = Done p s.
Proof.
  destruct (decide (directory_of s dir a = 0)) as [E|E].
  - eexists. by apply get_page_absent.
  - eexists. by apply get_page_present.
Qed.

Lemma free_frame_total p s : ∃ m, free_frame p s = Done tt (set_mem m s).
Proof.
  unfold free_frame, load_page, store_page. rewrite bind_gets.
  destruct (_ =? 0); [by exists (mem s); destruct s|]. by eexists.
Qed.

Lemma contract_size n :
  (let n := if negb (Z.land n 0x1000 =? 0) then Z.land n 0x1000 ⊕ 0x1000 else n in
   if n <? HEAP_MIN_SIZE then HEAP_MIN_SIZE else n) = contracted n.
Proof.
  rewrite land_bit_12. unfold contracted. destruct (Z.testbit n 12); [done|]. cbn [negb Z.eqb].
  destruct (Z.ltb_spec n HEAP_MIN_SIZE); lia.
Qed.

(** C20. [Contract] always returns: its loop walks down a 32-bit offset page by
    page from the last page of the old length, and stops before the offset can
    wrap around, whatever the page tables hold.  The length it settles on is
    never below the minimum; bit 12 of the argument decides whether the argument
    counts at all; and only memory and the end address change.  A heap of at
    least one page that is at most a page longer than the length settled on
    loses no page: no memory is touched.  (The length is a 32-bit difference.
    For a heap of less than a page the offset of its last page has wrapped
    around before the loop starts, which then walks down from the top of the
    address space; it returns in that case as well.) *)
Theorem Contract_terminates n s :
  0 <= n < 4294967296 →
  ∃ m, Contract n s = Done (contracted n) (resized (contracted n) m s) ∧
    HEAP_MIN_SIZE <= contracted n ∧
    (0x1000 <= heap_length s <= contracted n + 0x1000 → m = mem s).
Proof.
  intros Hn. unfold Contract. cbv zeta. rewrite contract_size.
  assert (HEAP_MIN_SIZE <= contracted n < 4294967296) as Hr
    by (unfold contracted, HEAP_MIN_SIZE; destruct (Z.testbit n 12); lia).
  set (r := contracted n) in *. clearbody r. rewrite bind_gets. fold (heap_length s).
  set (i0 := heap_length s ⊖ 0x1000). assert (0 <= i0 < 4294967296) as Hi0 by apply w32_range.
  match goal with |- context [whileM _ ?c ?b] => set (cond := c); set (body := b) end.
  destruct (whileM_total (λ i s', 0 <= i < 4294967296 ∧ ∃ m, s' = set_mem m s ∧ (i0 <= r → m = mem s ∧ i = i0))
    (λ i _, Z.to_nat (i / 4096)) cond body (Z.to_nat (i0 / 4096)) i0 s)
    as (i & s' & Hrun & (_ & m & -> & Hm) & _).
  - split; [done|]. exists (mem s). by destruct s.
  - done.
  - intros i s' (Hi & m & -> & Hm) Hc. unfold cond in Hc. apply Z.ltb_lt in Hc. unfold HEAP_MIN_SIZE in Hr.
    destruct (get_page_lookup (m_startAddress (this s) ⊕ i) (kernel_directory (pg s)) (set_mem m s)) as [p Hp].
    destruct (free_frame_total p (set_mem m s)) as [m' Hf]. rewrite set_mem_twice in Hf.
    exists (i ⊖ 0x1000), (set_mem m' s). split.
    { unfold body. rewrite !bind_gets, (bind_done _ _ _ _ _ Hp), (bind_done _ _ _ _ _ Hf). done. }
    rewrite w32_small by lia. split; [split; [lia|]|Z.div_mod_to_equations; lia].
    exists m'. split; [done|]. intros Hle. destruct (Hm Hle). lia.
  - exists m. split; [|split; [lia|]].
    2: { intros [Hl0 Hl1]. apply Hm. unfold i0. pose proof (w32_range (m_endAddress (this s) - m_startAddress (this s))).
      fold (heap_length s) in *. rewrite w32_small; lia. }
    rewrite (bind_done _ _ _ _ _ Hrun), bind_modify. done.
Qed.

(** What [Expand] needs for [k] pages behind the heap's end: their table [t]
    exists, their entries are blank, the frames from [f] on are free, and
    bitmap, directory and table do not overlap. *)
Record page_supply (s : machine) (lim t f k : Z) : Prop := {
  ps_bitmap : bitmap_ok s ∧ lim <= frame_limit s;
  ps_table : dir_ok (kernel_directory (pg s)) ∧ 0 < t ∧ t + 4096 <= 4294967296 ∧
    ld32 (mem s) (Tables (kernel_directory (pg s)) (m_endAddress (this s) / 4096 / 1024)) = t;
  ps_apart : ∀ x, ¬ (range t 4096 x ∧ bitmap_range s x) ∧
    ¬ (dir_range (kernel_directory (pg s)) x ∧ (range t 4096 x ∨ bitmap_range s x));
  ps_blank : 0 <= k ∧ m_endAddress (this s) / 4096 mod 1024 + k <= 1024 ∧
    ∀ q, 0 <= q < k → ld32 (mem s) (t + 4 * (m_endAddress (this s) / 4096 mod 1024 + q)) = 0;
  ps_frames : used_below s lim f ∧ 0 <= f ∧ f + k <= lim;
}.

(** [Expand] maps these pages, one by one, and moves the end. *)
Lemma Expand_maps n s lim t f k :
  let e := m_endAddress (this s) in
  let j := e / 4096 mod 1024 in
  page_supply s lim t f k →
  0 <= e → e + 4096 * k < 4294967296 → heap_length s + 4096 * k < 4294967296 →
  heap_length s + 4096 * (k - 1) < expanded n <= heap_length s + 4096 * k →
  ∃ m, Expand n s = Done tt (resized (expanded n) m s) ∧
    pages_mapped (m_supervisor (this s)) (negb (m_readonly (this s))) m t j f k ∧
    frame (entries_or_bitmap s t j k) (mem s) m.
Proof.
  intros e j [[Hb Hlim] (Hd & Ht0 & Ht1 & Ht) Hap (Hk & Hj & Hz) (Hu & Hf0 & Hf1)] He0 He1 Hl1 Hn.
  fold e in Ht, Hj, Hz. fold j in Hj, Hz.
  pose proof (Z.mod_pos_bound (e / 4096) 1024 ltac:(lia)) as Hj0. fold j in Hj0.
  unfold Expand. cbv zeta. rewrite odd_land_1. fold (expanded n). rewrite bind_gets. fold (heap_length s).
  assert (0 <= heap_length s < 4294967296) as Hl0 by apply w32_range.
  set (old := heap_length s) in *. set (n' := expanded n) in *. clearbody n'.
  match goal with |- context [whileM ?fl ?c ?b] => set (fuel := fl); set (cond := c); set (step := b) end.
  destruct (map_pages_run (m_supervisor (this s)) (negb (m_readonly (this s))) s lim old t j f k fuel cond step)
    as (m & Hrun & Hmap & _ & Hf); try done; try lia.
  - intros x Hx Hx'. exact (proj1 (Hap x) (conj Hx Hx')).
  - intros m q Hq Hf. unfold step. rewrite !bind_gets. cbn [pg set_mem]. rewrite this_set_mem.
    assert (m_startAddress (this s) ⊕ (old + 4096 * q) = e + 4096 * q) as ->.
    { unfold old, heap_length. fold e. rewrite Z.add_comm, <- Z.add_assoc, w32_add_l.
      rewrite w32_small by lia. lia. }
    destruct (page_index e q) as [Ej Ei]; [lia..|]. fold j in Ej.
    assert (ld32 m (Tables (kernel_directory (pg s)) (e / 4096 / 1024)) = t) as Htm.
    { rewrite <- Ht. assert (0 <= e / 4096 / 1024 < 1024) by (apply address_index; lia).
      rewrite Tables_val by done. destruct Hd as [? ?]. unfold sizeof_PageDirectory in *.
      eapply frame_ld32; [exact Hf|lia..|]. intros x Hx.
      assert (dir_range (kernel_directory (pg s)) x) by (unfold dir_range, range, sizeof_PageDirectory; lia).
      intros [Hx'|Hx']; apply (proj2 (Hap x)); (split; [done|]); [by right|left; unfold range in *; lia]. }
    rewrite (bind_done _ _ _ (t + 4 * (j + q)) (set_mem m s)); [done|].
    rewrite get_page_present; unfold directory_of; rewrite Ei, mem_set_mem, Htm; [|lia].
    rewrite Ej. f_equal. apply w32_small. lia.
  - intros m q Hq. unfold cond.
    destruct (Z.ltb_spec (old + 4096 * q) n'), (Z.ltb_spec q k); lia || done.
  - unfold fuel. apply Z2Nat.inj_le; [lia|Z.div_mod_to_equations; lia|Z.div_mod_to_equations; lia].
  - exists m. rewrite (bind_done _ _ _ _ _ Hrun). by split_and!.
Qed.
End resize.

Lemma Contract_terminates_witness :
  ∃ m, @Contract sample_image placement_allocator 0x1000 example = Done 0x70000 (resized 0x70000 m example) ∧
    m = mem example ∧ m_endAddress (this (resized 0x70000 m example)) = 0x80000.
Proof.
  destruct (@Contract_terminates sample_image placement_allocator 0x1000 example) as (m & Hrun & _ & Hm); [lia|].
  exists m. split; [exact Hrun|]. split; [|done]. apply Hm. zdecide.
Defined.
