(* ===== verification/HeapAlloc.v ===== *)
(** * kernel/Heap.cpp: what Alloc does when a hole is large enough *)
From S2P Require Import Prelude Memory LibString OrderedList Machine Console Stdio Frames Kmalloc Paging Heap HeapSpec.
Local Open Scope Z_scope.
Local Open Scope u32_scope.

(** ** The search *)

(** The first index entry that satisfies a test. *)
Definition first_index (fits : Z → bool) (idx : list Z) (i : nat) (a : Z) : Prop :=
  idx !! i = Some a ∧ fits a = true ∧ Forall (λ b, fits b = false) (take i idx).

Lemma first_index_unique fits idx i j a b :
  first_index fits idx i a → first_index fits idx j b → i = j ∧ a = b.
Proof.
  intros (Hi & Hfi & Hbi) (Hj & Hfj & Hbj). rewrite Forall_lookup in Hbi, Hbj.
  destruct (Nat.lt_trichotomy i j) as [Hlt|[->|Hlt]]; [|split; congruence|].
  - rewrite (Hbj i a) in Hfi; [done|by apply lookup_take_Some].
  - rewrite (Hbi j b) in Hfj; [done|by apply lookup_take_Some].
Qed.

Lemma ol_repr_length m ol l : ol_repr m ol l → Z.of_nat (length l) < 1073741824.
Proof. intros (_ & _ & ? & ?). lia. Qed.

Lemma FindSmallestHole_spec m ol idx size pageAlign :
  ol_repr m ol idx →
  let fits a := hole_fits m a size pageAlign in
  let r := FindSmallestHole m ol size pageAlign in
  (Forall (λ a, fits a = false) idx ∧ r = w32 (-1)) ∨
  ∃ i a, r = Z.of_nat i ∧ r ≠ w32 (-1) ∧ first_index fits idx i a.
Proof.
  intros Hol fits r. pose proof (ol_repr_length _ _ _ Hol) as Hlen.
  assert (Size ol = Z.of_nat (length idx)) as Hsize by apply Hol.
  set (p := λ i, negb (hole_fits m (GetItemAtIndex m ol i) size pageAlign)).
  assert (∀ j b, idx !! j = Some b → p (Z.of_nat j) = negb (fits b)) as Hp.
  { intros j b Hj. unfold p. by rewrite (GetItemAtIndex_lookup _ _ _ _ _ Hol Hj). }
  destruct (count_while_spec (Z.to_nat (Size ol)) 0 p) as (H1 & H2 & H3).
  assert (r = if count_while (Z.to_nat (Size ol)) 0 p =? Size ol then w32 (-1)
              else count_while (Z.to_nat (Size ol)) 0 p) as Hr by done.
  rewrite Hr. clear Hr. set (c := count_while _ 0 p) in *.
  assert (Forall (λ b, fits b = false) (take (Z.to_nat c) idx)) as Hbefore.
  { apply Forall_lookup. intros j b [Hj ?]%lookup_take_Some.
    apply negb_true_iff. rewrite <- (Hp j b) by done. apply H2. lia. }
  destruct (Z.eqb_spec c (Size ol)) as [E|E].
  - left. split; [|done]. by rewrite E, Hsize, Nat2Z.id, firstn_all in Hbefore.
  - right. exists (Z.to_nat c).
    destruct (lookup_lt_is_Some_2 idx (Z.to_nat c)) as [b Hb]; [lia|].
    exists b. split; [lia|]. split; [change (w32 (-1)) with 4294967295; lia|]. split; [done|]. split; [|done].
    apply negb_false_iff. rewrite <- (Hp _ _ Hb), Z2Nat.id by lia. apply H3. lia.
Qed.

Lemma hole_fits_unaligned m a size : hole_fits m a size false = (size <=? ld32 m (a + 8)).
Proof. unfold hole_fits, h_size. by rewrite ld32_w32. Qed.

(** In an index sorted by size the first fit is a best fit. *)
Lemma first_fit_best m idx size i a :
  Sorted_by (HeaderLessThan m) idx →
  first_index (λ b, hole_fits m b size false) idx i a →
  ∀ b, b ∈ idx → hole_fits m b size false = true → h_size m a <= h_size m b.
Proof.
  intros Hs (Hi & _ & Hbefore) b Hb Hfit.
  apply list_elem_of_lookup in Hb as [j Hj].
  destruct (decide (j < i)%nat) as [Hlt|Hge].
  - rewrite Forall_lookup in Hbefore. rewrite (Hbefore j b) in Hfit; [done|].
    by apply lookup_take_Some.
  - destruct (decide (j = i)) as [->|Hne]; [simplify_eq; lia|].
    pose proof (take_drop_middle idx i a Hi) as Hsplit. rewrite <- Hsplit in Hs.
    apply StronglySorted_app_1_r in Hs. inversion Hs as [|? ? _ Hall].
    rewrite Forall_forall in Hall. specialize (Hall b).
    assert (b ∈ drop (S i) idx) as Hd.
    { apply list_elem_of_lookup. exists (j - S i)%nat. rewrite lookup_drop. rewrite <- Hj. f_equal. lia. }
    specialize (Hall Hd). unfold HeaderLessThan in Hall. lia.
Qed.

(** ** Sizes and the order of the index *)
Lemma chunks_ok_size m lo hi cs c : chunks_ok m lo hi cs → c ∈ cs → h_size m (c_addr c) = c_size c.
Proof.
  intros Hcs Hc. apply list_elem_of_split in Hc as (pre & post & ->).
  apply chunks_ok_split in Hcs as [_ (_ & _ & Hs & _) _ _]. unfold h_size. by rewrite ld32_w32.
Qed.

Lemma in_holes_elem a cs : a ∈ holes cs → ∃ c, c ∈ cs ∧ c_addr c = a.
Proof.
  intros (pre & c & post & -> & Ha & _)%in_holes. exists c. split; [set_solver|done].
Qed.

(** Chunks outside a rewritten segment keep their size. *)
Lemma same_sizes m m' lo hi hi' pre seg seg' post h :
  chunks_ok m lo hi (pre ++ seg ++ post) → chunks_ok m' lo hi' (pre ++ seg' ++ post) →
  h ∈ holes (pre ++ post) → h_size m' h = h_size m h.
Proof.
  intros H H' (c & Hc & <-)%in_holes_elem.
  by rewrite (chunks_ok_size _ _ _ _ c H), (chunks_ok_size _ _ _ _ c H') by set_solver.
Qed.

Lemma Sorted_by_ext m m' l :
  (∀ x, x ∈ l → h_size m' x = h_size m x) →
  Sorted_by (HeaderLessThan m) l → Sorted_by (HeaderLessThan m') l.
Proof.
  intros Hx. unfold Sorted_by. induction 1 as [|x l Hs IH Hall]; constructor.
  - apply IH. intros. apply Hx. by right.
  - rewrite Forall_forall in Hall |- *. intros y Hy. unfold HeaderLessThan.
    rewrite !Hx by set_solver. by apply Hall.
Qed.

Lemma Sorted_by_delete lt l i : Sorted_by lt l → Sorted_by lt (delete i l).
Proof.
  unfold Sorted_by. intros Hs. revert i. induction Hs as [|x l Hs IH Hall]; intros [|i]; simpl;
    [constructor|constructor|done|constructor]; [apply IH|].
  rewrite Forall_forall in Hall |- *. intros y Hy. apply Hall.
  rewrite list_elem_of_lookup in Hy |- *. destruct Hy as [j Hj].
  destruct (decide (j < i)%nat).
  - exists j. by rewrite list_lookup_delete_lt in Hj.
  - exists (S j). by rewrite list_lookup_delete_ge in Hj by lia.
Qed.

Lemma HeaderLessThan_insert m x l :
  Sorted_by (HeaderLessThan m) l → Sorted_by (HeaderLessThan m) (insert_ordered (HeaderLessThan m) x l).
Proof.
  apply insert_ordered_sorted; unfold HeaderLessThan; intros;
    rewrite ?Z.ltb_lt, ?Z.ltb_ge in *; lia.
Qed.

(** ** The chunks after an allocation *)

(** The hole [c] is used whole when the rest could not hold a chunk. *)
Definition alloc_chunks (c : chunk) (size : Z) : list chunk :=
  let n := size + 20 in
  if c_size c - n <? 20 then [MkChunk (c_addr c) (c_size c) false true]
  else [MkChunk (c_addr c) n false true; MkChunk (c_addr c + n) (c_size c - n) true true].

(** A chunk together with the index array. *)
Definition chunk_or_array (s : machine) (c : chunk) : Z → Prop :=
  λ x, range (c_addr c) (c_size c) x ∨ array s x.

Lemma heap_ok_holes_split s lo pre c post idx i :
  heap_ok s lo (pre ++ c :: post) idx → idx !! i = Some (c_addr c) → c_hole c = true →
  delete i idx ≡ₚ holes (pre ++ post).
Proof.
  intros [_ Hp] Hi Hc. rewrite (delete_Permutation idx i _ Hi) in Hp.
  rewrite holes_app, holes_cons, Hc, <- Permutation_middle in Hp.
  rewrite holes_app. by eapply Permutation_cons_inv.
Qed.

Section alloc.
Context `{Image}.

(** What [Alloc] guarantees when it serves [size] bytes from the hole [c]. *)
Definition served (s s' : machine) (lo size : Z) (pre : list chunk) (c : chunk) (post : list chunk)
    (idx : list Z) : Prop :=
  ∃ idx', heap_ok s' lo (pre ++ alloc_chunks c size ++ post) idx' ∧
    frame (chunk_or_array s c) (mem s) (mem s') ∧
    heap_only s s' ∧
    (index_sorted s idx → index_sorted s' idx').

Lemma alloc_chunks_length pre c post size :
  c_hole c = true →
  (length (holes (pre ++ alloc_chunks c size ++ post)) <= length (holes (pre ++ c :: post)))%nat.
Proof.
  intros Hc. unfold alloc_chunks. destruct (_ <? 20); cbn -[holes];
    rewrite !holes_app, !holes_cons, Hc, !length_app; cbn; lia.
Qed.

Section at_hole.
Context (s : machine) (lo size : Z) (pre : list chunk) (c : chunk) (post : list chunk).
Context (idx : list Z) (i : nat).
Context (Hok : heap_ok s lo (pre ++ c :: post) idx).
Context (Hi : idx !! i = Some (c_addr c)).
Context (Hc : c_hole c = true).
Context (Hsize : 0 <= size).
Let s1 := removed (Z.of_nat i) s.

(** The hole taken from the index, and its chunk rewritten as [seg]. *)
Lemma rewritten_tiled seg m' :
  frame (range (c_addr c) (c_size c)) (mem s1) m' →
  chunks_ok m' (c_addr c) (c_addr c + c_size c) seg →
  tiled (set_mem m' s1) lo (pre ++ seg ++ post) (delete i idx) ∧
  frame (chunk_or_array s c) (mem s) m' ∧
  (index_sorted s idx → Sorted_by (HeaderLessThan m') (delete i idx)).
Proof.
  intros Hf Hseg. pose proof Hok as [Ht _].
  destruct (removed_tiled _ _ _ _ _ _ Ht Hi) as [Ht1 Hf1]. fold s1 in Ht1, Hf1.
  pose proof (ho_chunks _ _ _ _ Ht1) as Hcs. pose proof Hcs as [Hpre _ Hpost Hb]%chunks_ok_split.
  assert (tiled (set_mem m' s1) lo (pre ++ seg ++ post) (delete i idx)) as Ht'.
  { eapply (write_tiled s1 lo (delete i idx) pre [c]); [exact Ht1|done|done|lia..| |done].
    eapply frame_weaken; [exact Hf|]. unfold range. lia. }
  split; [done|]. split.
  - eapply frame_trans; (eapply frame_weaken; [eassumption|]); unfold chunk_or_array; auto.
  - intros Hs. eapply Sorted_by_ext; [|by apply Sorted_by_delete].
    intros x Hx. eapply (same_sizes _ _ lo _ _ pre [c] seg post);
      [exact (ho_chunks _ _ _ _ Ht)|exact (ho_chunks _ _ _ _ Ht')|].
    by rewrite <- (heap_ok_holes_split s lo pre c post idx i).
Qed.

Lemma chunk_bounds :
  8 <= c_addr c ∧ 20 <= c_size c ∧ c_addr c + c_size c <= m_endAddress (this s) ∧
  m_endAddress (this s) < 4294967292 ∧ h_size (mem s) (c_addr c) = c_size c ∧
  GetItemAtIndex (mem s) (m_index (this s)) (Z.of_nat i) = c_addr c.
Proof.
  pose proof Hok as [[Hlo Hhi Hcs Hidx _ _] _].
  pose proof Hcs as [_ _ _ Hb]%chunks_ok_split.
  split_and!; [lia..| |].
  - eapply chunks_ok_size; [exact Hcs|set_solver].
  - by eapply GetItemAtIndex_lookup.
Qed.

Lemma Alloc_at_whole_ok :
  size + 20 <= c_size c < size + 40 →
  ∃ s', Alloc_at (Z.of_nat i) size (size + 20) false s = Done (c_addr c + 12) s' ∧
    served s s' lo size pre c post idx.
Proof.
  intros Hn. destruct chunk_bounds as (Hlo & Hmin & Hend & Hhi & Hsz & Hget).
  set (m' := write_chunk (mem s1) (c_addr c) (c_size c) false).
  exists (set_mem m' s1). split; [apply Alloc_at_whole; (done || lia)|].
  assert (alloc_chunks c size = [MkChunk (c_addr c) (c_size c) false true]) as Hseg.
  { unfold alloc_chunks. by destruct (Z.ltb_spec (c_size c - (size + 20)) 20); [|lia]. }
  destruct (rewritten_tiled (alloc_chunks c size) m') as (Ht & Hf & Hs).
  - apply write_chunk_frame; lia.
  - rewrite Hseg. split_and!; [done|apply write_chunk_ok; lia|done].
  - exists (delete i idx). split_and!; [|done|by etransitivity; [apply heap_only_removed|apply heap_only_mem]|done].
    split; [done|]. rewrite (heap_ok_holes_split s lo pre c post idx i) by done. by rewrite Hseg, !holes_app.
Qed.

Lemma Alloc_at_split_ok :
  size + 40 <= c_size c →
  ∃ s', Alloc_at (Z.of_nat i) size (size + 20) false s = Done (c_addr c + 12) s' ∧
    served s s' lo size pre c post idx.
Proof.
  intros Hn. destruct chunk_bounds as (Hlo & Hmin & Hend & Hhi & Hsz & Hget).
  set (n := size + 20). set (h := c_addr c + n).
  set (m' := write_chunk (write_chunk (mem s1) (c_addr c) n false) h (c_size c - n) true).
  exists (inserted h (set_mem m' s1)). split; [apply Alloc_at_split; (done || lia)|].
  assert (alloc_chunks c size =
    [MkChunk (c_addr c) n false true; MkChunk h (c_size c - n) true true]) as Hseg.
  { unfold alloc_chunks. by destruct (Z.ltb_spec (c_size c - (size + 20)) 20); [lia|]. }
  pose proof (heap_ok_holes_split _ _ _ _ _ _ _ Hok Hi Hc) as Hdel.
  destruct (rewritten_tiled (alloc_chunks c size) m') as (Ht & Hf & Hs).
  - apply (frame_trans _ _ (write_chunk (mem s1) (c_addr c) n false));
      (eapply frame_weaken; [apply write_chunk_frame; lia|]); unfold range; lia.
  - rewrite Hseg. cbn [chunks_ok c_addr c_size]. split_and!; [done| |done|apply write_chunk_ok; lia|unfold h; cbn; lia].
    eapply chunk_ok_frame; [apply write_chunk_frame; lia|cbn; lia..| |apply write_chunk_ok; lia].
    unfold range, h; cbn; lia.
  - destruct (inserted_tiled _ _ _ _ h Ht) as [Ht' Hf'].
    + pose proof Hok as [Hok' _]. pose proof (ho_capacity _ _ _ _ Hok') as Hcap.
      apply lookup_lt_Some in Hi as Hlt. rewrite length_delete by by apply lookup_lt_is_Some.
      change (m_maxSize (m_index (this (set_mem m' s1)))) with (m_maxSize (m_index (this s))). lia.
    + lia.
    + exists (insert_ordered (HeaderLessThan m') h (delete i idx)). split_and!; [split; [done|]| | |].
      * rewrite insert_ordered_perm, Hdel, Hseg, !holes_app. cbn. by rewrite Permutation_middle.
      * eapply frame_trans; [exact Hf|]. eapply frame_weaken; [exact Hf'|].
        intros x _ Hx. right. exact Hx.
      * etransitivity; [apply heap_only_removed|].
        etransitivity; [apply (heap_only_mem m')|apply heap_only_inserted].
      * intros Hsort. unfold index_sorted. eapply Sorted_by_ext; [|apply HeaderLessThan_insert; auto].
        intros x Hx. rewrite insert_ordered_perm, Hdel in Hx.
        eapply (same_sizes _ _ lo _ _ (pre ++ alloc_chunks c size ++ post) [] [] []);
          rewrite ?app_nil_r; [exact (ho_chunks _ _ _ _ Ht)|exact (ho_chunks _ _ _ _ Ht')|].
        rewrite Hseg, !holes_app. cbn. rewrite holes_app in Hx. set_solver.
Qed.
End at_hole.

(** ** [Alloc] with a hole that fits *)
Lemma chunk_in_index s lo cs idx c :
  heap_ok s lo cs idx → c ∈ cs → c_hole c = true → c_addr c ∈ idx.
Proof.
  intros [_ ->] Hc Hh. unfold holes. apply list_elem_of_fmap. exists c. split; [done|].
  by apply list_elem_of_filter.
Qed.

Lemma hole_fits_chunk m lo hi cs c size :
  chunks_ok m lo hi cs → c ∈ cs → hole_fits m (c_addr c) size false = (size <=? c_size c).
Proof. intros Hcs Hc. unfold hole_fits. by rewrite (chunks_ok_size _ _ _ _ _ Hcs Hc). Qed.

(** The search decides where [Alloc] goes on. *)
Lemma Alloc_first s lo cs idx size align fuel i a :
  tiled s lo cs idx → 0 <= size < 4294967276 →
  first_index (λ b, hole_fits (mem s) b (size + 20) align) idx i a →
  Alloc (S fuel) size align s = Alloc_at (Z.of_nat i) size (size + 20) align s.
Proof.
  intros Ht Hsize Hfirst.
  destruct (FindSmallestHole_spec _ _ _ (size + 20) align (ho_index _ _ _ _ Ht))
    as [[Hnone _]|(j & b & Hr & Hne & Hfirst')].
  { destruct Hfirst as (Hi & Hfit & _). rewrite Forall_lookup in Hnone. by rewrite (Hnone _ _ Hi) in Hfit. }
  assert (i = j) as <- by (by destruct (first_index_unique _ _ _ _ _ _ Hfirst Hfirst')).
  cbn [Alloc]. unfold Alloc_body, sizeof_Header, sizeof_Footer.
  rewrite (w32_small (size + 12)), (w32_small (size + 12 + 8)) by lia.
  replace (size + 12 + 8) with (size + 20) by lia.
  rewrite bind_gets. rewrite Hr in Hne |- *. by rewrite (proj2 (Z.eqb_neq _ _) Hne).
Qed.

(** The hole that the search picks serves the request. *)
Lemma Alloc_serves s lo pre c post idx size fuel i :
  heap_ok s lo (pre ++ c :: post) idx → c_hole c = true → 0 <= size < 4294967276 →
  first_index (λ b, hole_fits (mem s) b (size + 20) false) idx i (c_addr c) →
  size + 20 <= c_size c ∧
  ∃ s', Alloc (S fuel) size false s = Done (c_addr c + 12) s' ∧ served s s' lo size pre c post idx.
Proof.
  intros Hok Hc Hsize Hfirst. pose proof Hok as [Ht _]. pose proof Hfirst as (Hi & Hfit & _).
  rewrite (hole_fits_chunk _ _ _ _ c _ (ho_chunks _ _ _ _ Ht)) in Hfit by set_solver. apply Z.leb_le in Hfit.
  split; [done|]. rewrite (Alloc_first _ _ _ _ _ _ _ _ _ Ht Hsize Hfirst).
  destruct (decide (c_size c < size + 40)).
  - apply Alloc_at_whole_ok; (done || lia).
  - apply Alloc_at_split_ok; (done || lia).
Qed.

Lemma Alloc_fitting s lo cs idx size fuel :
  heap_ok s lo cs idx → 0 <= size < 4294967276 →
  (∃ c, c ∈ cs ∧ c_hole c = true ∧ size + 20 <= c_size c) →
  ∃ pre c post s',
    cs = pre ++ c :: post ∧ c_hole c = true ∧ size + 20 <= c_size c ∧
    Alloc (S fuel) size false s = Done (c_addr c + 12) s' ∧
    served s s' lo size pre c post idx ∧
    (index_sorted s idx → ∀ d, d ∈ cs → c_hole d = true → size + 20 <= c_size d →
       c_size c <= c_size d).
Proof.
  intros Hok Hsize (c0 & Hc0 & Hh0 & Hfit0). pose proof Hok as [Ht Hperm].
  pose proof (ho_chunks _ _ _ _ Ht) as Hcs.
  assert (hole_fits (mem s) (c_addr c0) (size + 20) false = true) as Hf0.
  { rewrite (hole_fits_chunk _ _ _ _ _ _ Hcs Hc0). lia. }
  destruct (FindSmallestHole_spec _ _ _ (size + 20) false (ho_index _ _ _ _ Ht))
    as [[Hnone _]|(i & a & Hr & Hne & Hfirst)].
  { rewrite Forall_forall in Hnone. rewrite Hnone in Hf0; [done|]. by eapply chunk_in_index. }
  pose proof Hfirst as (Hi & _).
  assert (a ∈ holes cs) as Ha by (rewrite <- Hperm; by eapply list_elem_of_lookup_2).
  apply in_holes in Ha as (pre & c & post & -> & <- & Hc).
  destruct (Alloc_serves s lo pre c post idx size fuel i Hok Hc Hsize Hfirst) as (Hfit & s' & Hrun & Hserved).
  exists pre, c, post, s'. split_and!; try done.
  intros Hs d Hd Hhd Hfd.
  rewrite <- (chunks_ok_size _ _ _ _ c Hcs), <- (chunks_ok_size _ _ _ _ d Hcs) by set_solver.
  eapply first_fit_best; [exact Hs|exact Hfirst|by eapply chunk_in_index|].
  rewrite (hole_fits_chunk _ _ _ _ _ _ Hcs Hd). lia.
Qed.

(** C6. [Alloc] is best fit.  In a heap that satisfies the invariant and whose
    index is sorted by size, a request without alignment that some hole can
    hold is served from a smallest such hole: the call returns the address
    after that hole's header, the hole's chunk is replaced by the block and,
    when the rest can hold a chunk of its own, a hole, the invariant and the
    order of the index are kept, and no byte outside that chunk and the index
    array changes. *)
Theorem Alloc_best_fit s lo cs idx size fuel :
  heap_ok s lo cs idx → index_sorted s idx → 0 <= size < 4294967276 →
  (∃ c, c ∈ cs ∧ c_hole c = true ∧ size + 20 <= c_size c) →
  ∃ pre c post s' idx',
    cs = pre ++ c :: post ∧ c_hole c = true ∧ size + 20 <= c_size c ∧
    (∀ d, d ∈ cs → c_hole d = true → size + 20 <= c_size d → c_size c <= c_size d) ∧
    Alloc (S fuel) size false s = Done (c_addr c + 12) s' ∧
    heap_ok s' lo (pre ++ alloc_chunks c size ++ post) idx' ∧ index_sorted s' idx' ∧
    frame (chunk_or_array s c) (mem s) (mem s').
Proof.
  intros Hok Hs Hsize Hfit.
  destruct (Alloc_fitting s lo cs idx size fuel Hok Hsize Hfit)
    as (pre & c & post & s' & -> & Hc & Hn & Hrun & (idx' & Hok' & Hf & _ & Hs') & Hbest).
  exists pre, c, post, s', idx'. split_and!; auto.
Qed.

(** A request without alignment that some hole can hold respects the blocks
    in use, whatever the order of the index: the [size] bytes that [Alloc]
    returns lie inside the heap, overlap no block in use before the call, and
    every such block is still there, its header, payload and footer unchanged.
    (Not so for the other requests: a page-aligned one can be given memory in
    use, [Alloc_aligned_overlaps], and so can one for which the heap has to
    grow, [Alloc_grows_over_block].) *)
Theorem Alloc_spares_blocks s lo cs idx size fuel :
  heap_ok s lo cs idx → 0 <= size < 4294967276 →
  (∃ c, c ∈ cs ∧ c_hole c = true ∧ size + 20 <= c_size c) →
  ∃ p s' cs' idx',
    Alloc (S fuel) size false s = Done p s' ∧ heap_ok s' lo cs' idx' ∧
    lo <= p ∧ p + size <= m_endAddress (this s') ∧
    ∀ d, d ∈ cs → c_hole d = false →
      d ∈ cs' ∧ (c_addr d + c_size d <= p ∨ p + size <= c_addr d) ∧
      ∀ x, range (c_addr d) (c_size d) x → ld8 (mem s') x = ld8 (mem s) x.
Proof.
  intros Hok Hsize Hfit.
  destruct (Alloc_fitting s lo cs idx size fuel Hok Hsize Hfit)
    as (pre & c & post & s' & -> & Hc & Hn & Hrun & (idx' & Hok' & Hf & _ & _) & _).
  exists (c_addr c + 12), s', (pre ++ alloc_chunks c size ++ post), idx'.
  pose proof Hok as [[Hlo Hhi Hcs _ Harr _] _]. pose proof Hok' as [[_ _ Hcs' _ _ _] _].
  pose proof Hcs as [Hpre _ Hpost Hb]%chunks_ok_split.
  assert (c_addr c + c_size c <= m_endAddress (this s')) as Hend.
  { unfold alloc_chunks in Hcs'. destruct (_ <? 20);
      apply chunks_ok_split in Hcs' as [_ _ Hrest Hb']; cbn in *; [lia|].
    destruct Hrest as (_ & _ & Hrest). apply chunks_ok_le in Hrest. cbn in *. lia. }
  split_and!; [done..|lia|lia|]. intros d Hd Hhd.
  destruct (chunks_disjoint _ _ _ _ _ _ _ Hcs Hd) as (? & ? & ?); [congruence|].
  rewrite elem_of_app, elem_of_cons in Hd.
  assert (d ∈ pre ++ alloc_chunks c size ++ post) as Hd'.
  { rewrite !elem_of_app. destruct Hd as [?|[->|?]]; [auto|congruence|auto]. }
  split_and!; [done|lia|]. unfold range. intros x Hx.
  apply Hf; [lia|]. unfold chunk_or_array, array, range. lia.
Qed.
End alloc.

Lemma Alloc_best_fit_witness :
  (∃ c, c ∈ example_chunks ∧ c_hole c = true ∧ 120 + 20 <= c_size c) ∧
  ∃ pre c post s' idx',
    example_chunks = pre ++ c :: post ∧ c_hole c = true ∧ 120 + 20 <= c_size c ∧
    (∀ d, d ∈ example_chunks → c_hole d = true → 120 + 20 <= c_size d → c_size c <= c_size d) ∧
    @Alloc sample_image 1 120 false example = Done (c_addr c + 12) s' ∧
    heap_ok s' 0x10000 (pre ++ alloc_chunks c 120 ++ post) idx' ∧ index_sorted s' idx' ∧
    frame (chunk_or_array example c) (mem example) (mem s').
Proof.
  assert (∃ c, c ∈ example_chunks ∧ c_hole c = true ∧ 120 + 20 <= c_size c) as Hfit.
  { exists (MkChunk 0x10064 200 true true). split_and!; [set_solver|done|done]. }
  split; [exact Hfit|].
  apply (@Alloc_best_fit sample_image example 0x10000 example_chunks example_index 120 0);
    [apply example_ok|apply example_sorted|lia|exact Hfit].
Defined.

Lemma Alloc_spares_blocks_witness :
  (∃ c, c ∈ example_chunks ∧ c_hole c = true ∧ 5000 + 20 <= c_size c) ∧
  ∃ p s' cs' idx',
    @Alloc sample_image 1 5000 false example = Done p s' ∧ heap_ok s' 0x10000 cs' idx' ∧
    0x10000 <= p ∧ p + 5000 <= m_endAddress (this s') ∧
    ∀ d, d ∈ example_chunks → c_hole d = false →
      d ∈ cs' ∧ (c_addr d + c_size d <= p ∨ p + 5000 <= c_addr d) ∧
      ∀ x, range (c_addr d) (c_size d) x → ld8 (mem s') x = ld8 (mem example) x.
Proof.
  assert (∃ c, c ∈ example_chunks ∧ c_hole c = true ∧ 5000 + 20 <= c_size c) as Hfit.
  { exists (MkChunk 0x10168 60000 true true). split_and!; [set_solver|done|done]. }
  split; [exact Hfit|].
  apply (@Alloc_spares_blocks sample_image example 0x10000 example_chunks example_index 5000 0);
    [apply example_ok|lia|exact Hfit].
Defined.

(** ** Page-aligned requests *)
Section aligned.
Context `{Image}.

Lemma land_low12 a : Z.land a 0xFFF = a mod 4096.
Proof. change 0xFFF with (Z.ones 12). by rewrite Z.land_ones by lia. Qed.

(** An action that always returns, with a result in [P]. *)
Definition total {A} (m : K A) (P : A → Prop) : Prop := ∀ s, ∃ x s', m s = Done x s' ∧ P x.
Lemma total_bind {A B} (m : K A) (f : A → K B) P Q :
  total m P → (∀ x, P x → total (f x) Q) → total (m ≫= f) Q.
Proof.
  intros Hm Hf s. destruct (Hm s) as (x & s' & E & Hx). rewrite (bind_done _ _ _ _ _ E).
  by apply Hf.
Qed.
Lemma total_ret {A} (a : A) (P : A → Prop) : P a → total (mret a) P.
Proof. intros Ha s. by exists a, s. Qed.
Lemma total_gets {A} (f : machine → A) : total (gets f) (λ _, True).
Proof. intros s. by eexists _, _. Qed.
Lemma total_modify f : total (modify f) (λ _, True).
Proof. intros s. by eexists _, _. Qed.
Lemma total_index_insert h : total (index_insert h) (λ _, True).
Proof. intros s. eexists _, _. split; [apply index_insert_eq|done]. Qed.
Ltac total_step :=
  first [eapply total_bind; [first [apply total_modify | apply total_gets | apply total_index_insert]|]
        | apply total_modify | apply total_index_insert | apply total_ret];
  try (intros ? _).

(** The second half of [Alloc], below its first read, for an aligned request. *)
Lemma Alloc_at_aligned i size n s a :
  GetItemAtIndex (mem s) (m_index (this s)) i = a → Z.land a 0xFFFFF000 ≠ 0 →
  ∃ s', Alloc_at i size n true s
    = Done (a ⊕ 0x1000 ⊖ Z.land a 0xFFF ⊖ sizeof_Header ⊕ sizeof_Header) s'.
Proof.
  intros Ha Hpage. unfold Alloc_at. rewrite bind_gets, Ha.
  rewrite (proj2 (Z.eqb_neq _ _) Hpage). cbn [negb andb].
  match goal with |- ∃ s', ?m s = Done ?r s' =>
    assert (total m (λ x, x = r)) as Ht; [|by destruct (Ht s) as (? & s' & ? & ->); exists s'] end.
  unfold set_h_magic, set_h_is_hole, set_h_size, set_f_magic, set_f_header, store32, store8.
  total_step. eapply total_bind with (P := λ r, r.1 = a ⊕ 0x1000 ⊖ Z.land a 0xFFF ⊖ sizeof_Header).
  { repeat total_step. done. }
  intros [pos hole_size] Hpos. cbn [fst] in Hpos. subst pos. repeat total_step.
  eapply total_bind with (P := λ _, True); [|intros; by apply total_ret].
  destruct (0 <? _); [|by apply total_ret]. repeat total_step.
  eapply total_bind with (P := λ _, True); [|intros; apply total_index_insert].
  destruct (_ <? _); [repeat total_step|by apply total_ret].
Qed.

(** A page-aligned request is placed by the address of the chosen hole
    alone: [Alloc] returns the first page boundary after the start of the first
    hole that passes the search, however small that hole is. *)
Theorem Alloc_aligned_address s lo cs idx size fuel i a :
  heap_ok s lo cs idx → 0 <= size < 4294967276 → 4096 <= a < 4294959104 →
  first_index (λ b, hole_fits (mem s) b (size + 20) true) idx i a →
  ∃ s', Alloc (S fuel) size true s = Done (4096 * (a / 4096 + 1)) s'.
Proof.
  intros [Ht _] Hsize Ha Hfirst. pose proof Hfirst as (Hi & _).
  rewrite (Alloc_first _ _ _ _ _ _ _ _ _ Ht Hsize Hfirst).
  pose proof (Z.div_mod a 4096 ltac:(lia)). pose proof (Z.mod_pos_bound a 4096 ltac:(lia)).
  destruct (Alloc_at_aligned (Z.of_nat i) size (size + 20) s a) as [s' Hs'].
  { by apply (GetItemAtIndex_lookup _ _ _ _ _ (ho_index _ _ _ _ Ht)). }
  { rewrite land_page by lia. lia. }
  exists s'. rewrite Hs', land_low12. f_equal. unfold sizeof_Header.
  rewrite (w32_small (a + 4096)) by lia. rewrite w32_sub_l, w32_add_l. w32_simpl. lia.
Qed.
End aligned.

Lemma Alloc_aligned_address_witness :
  first_index (λ b, hole_fits (mem example) b (100 + 20) true) example_index 0 0x10064 ∧
  ∃ s', @Alloc sample_image 1 100 true example = Done (4096 * (0x10064 / 4096 + 1)) s'.
Proof.
  assert (first_index (λ b, hole_fits (mem example) b (100 + 20) true) example_index 0 0x10064) as Hf.
  { split_and!; [done|by vm_compute|constructor]. }
  split; [exact Hf|].
  apply (@Alloc_aligned_address sample_image example 0x10000 example_chunks example_index 100 0 0);
    [apply example_ok|lia|lia|exact Hf].
Defined.

(** A page-aligned request can be given memory that is in use.  In the
    example heap, a request of 5000 bytes is served with a block at [0x10174];
    a page-aligned request of 100 bytes is then served at [0x11000], inside
    that block. *)
Theorem Alloc_aligned_overlaps :
  match (p ← @Alloc sample_image 1 5000 false; q ← @Alloc sample_image 1 100 true; mret (p, q)) example
  with
  | Done (p, q) _ => p = 0x10174 ∧ q = 0x11000 ∧ p <= q ∧ q + 100 <= p + 5000
  | _ => False
  end.
Proof. vm_compute. repeat split; discriminate. Qed.
