(* ===== verification/HeapGrow.v ===== *)
(** * kernel/Heap.cpp: Alloc when no hole fits

    [Alloc] then makes the heap longer, adds the new bytes to the hole with the
    highest address, and calls itself again. *)
From S2P Require Import Prelude Memory LibString OrderedList Machine Console Stdio Frames Kmalloc Paging MapPages Heap.
From S2P Require Import HeapSpec HeapResize HeapAlloc.
Local Open Scope Z_scope.
Local Open Scope u32_scope.

(** ** The search for the endmost hole *)
Definition endmost (m : memory) (ol : OrderedList) : Z * Z :=
  for_loop (Z.to_nat (Size ol)) 0 (λ iterator '(idx, value),
    let tmp := GetItemAtIndex m ol iterator in
    if value <? tmp then (iterator, tmp) else (idx, value)) (w32 (-1), 0).

Lemma endmost_spec m ol l i a :
  ol_repr m ol l → NoDup l → l !! i = Some a → 0 < a → (∀ b, b ∈ l → b <= a) →
  endmost m ol = (Z.of_nat i, a).
Proof.
  intros Hol Hnd Hi Ha Hmax. assert (Size ol = Z.of_nat (length l)) as Hsize by apply Hol.
  apply lookup_lt_Some in Hi as Hlt. unfold endmost. rewrite Hsize, Nat2Z.id.
  match goal with |- for_loop ?n 0 ?b ?x = _ =>
    pose proof (for_loop_inv (λ j '(k, v), if j <=? Z.of_nat i then v < a else (k, v) = (Z.of_nat i, a)) b n 0 x)
      as Hinv end.
  rewrite Z.add_0_l in Hinv. destruct (for_loop _ _ _ _) as [k v].
  rewrite (proj2 (Z.leb_gt (Z.of_nat (length l)) (Z.of_nat i))) in Hinv by lia. apply Hinv.
  - rewrite (proj2 (Z.leb_le _ _)) by lia. done.
  - intros j [k' v'] Hj HP. destruct (lookup_lt_is_Some_2 l (Z.to_nat j)) as [b Hb]; [lia|].
    assert (GetItemAtIndex m ol j = b) as ->
      by (rewrite <- (Z2Nat.id j) by lia; by eapply GetItemAtIndex_lookup).
    assert (b <= a) as Hba by (apply Hmax; by eapply list_elem_of_lookup_2).
    destruct (Z.eq_dec j (Z.of_nat i)) as [->|Hne].
    + rewrite Nat2Z.id in Hb. assert (b = a) as -> by congruence.
      rewrite (proj2 (Z.leb_le _ _)) in HP by lia. rewrite (proj2 (Z.ltb_lt v' a)) by lia.
      by rewrite (proj2 (Z.leb_gt _ _)) by lia.
    + assert (b ≠ a) as Hab.
      { intros ->. apply Hne. assert (Z.to_nat j = i) by (by eapply NoDup_lookup). lia. }
      destruct (Z.leb_spec j (Z.of_nat i)).
      * rewrite (proj2 (Z.leb_le (j + 1) (Z.of_nat i))) by lia. destruct (Z.ltb_spec v' b); lia.
      * rewrite (proj2 (Z.leb_gt (j + 1) (Z.of_nat i))) by lia. injection HP as -> ->.
        by rewrite (proj2 (Z.ltb_ge a b)) by lia.
Qed.

(** ** The heap after the last hole has grown *)
Lemma holes_addr_bounds m lo hi cs a :
  chunks_ok m lo hi cs → a ∈ holes cs → lo <= a < hi.
Proof.
  intros Hcs (pre & c & post & -> & <- & _)%in_holes. apply chunks_ok_split in Hcs as [_ _ _ ?]. lia.
Qed.

Lemma holes_nodup m lo hi cs : chunks_ok m lo hi cs → NoDup (holes cs).
Proof.
  revert lo. induction cs as [|c cs IH]; intros lo; [constructor|].
  intros (Ha & Hc & Hcs). rewrite holes_cons. destruct (c_hole c); [|by eapply IH].
  pose proof Hc as (_ & _ & _ & Hmin & _). constructor; [|by eapply IH].
  intros Hin. pose proof (holes_addr_bounds _ _ _ _ _ Hcs Hin). lia.
Qed.

(** The stores that make the hole at [a] [n] bytes long. *)
Definition write_grown (m : memory) (a n : Z) : memory :=
  st32 (st32 (st32 m (a + 8) n) (a + n - 4) a) (a + n - 8) HEAP_MAGIC.

Lemma write_grown_ok m c n :
  chunk_ok m c → c_hole c = true → c_size c <= n → 0 <= c_addr c → c_addr c + n < 4294967296 →
  chunk_ok (write_grown m (c_addr c) n) (MkChunk (c_addr c) n true true) ∧
  frame (range (c_addr c) n) m (write_grown m (c_addr c) n).
Proof.
  intros (Hm & Hh & Hs & Hmin & _) Hc Hn Ha Han. split.
  - unfold chunk_ok, write_grown; cbn [c_addr c_size c_hole c_footed].
    assert (w32 n = n ∧ w32 (c_addr c) = c_addr c ∧ w32 HEAP_MAGIC = HEAP_MAGIC) as (En & Ea & Em)
      by (split_and!; apply w32_small; unfold HEAP_MAGIC; lia).
    rewrite Hc in Hh. split_and!; mem_simpl; rewrite ?En, ?Ea, ?Em; try done; try lia.
  - unfold write_grown.
    repeat (apply frame_st32; [|unfold range; lia..]). apply frame_refl.
Qed.

Section grow.
Context `{Image}.

(** The run of [Alloc] up to its second attempt. *)
Lemma Alloc_grow_run s size n m n' i a sz g :
  FindSmallestHole (mem s) (m_index (this s)) (size + 20) false = w32 (-1) → 0 <= size < 4294967276 →
  @Expand _ (kmalloc (Alloc (S n))) (heap_length s ⊕ (size + 20)) s = Done tt (resized n' m s) →
  endmost m (m_index (this s)) = (Z.of_nat i, a) → Z.of_nat i < 1073741824 →
  GetItemAtIndex m (m_index (this s)) (Z.of_nat i) = a → h_size m a = sz →
  heap_length (resized n' m s) ⊖ heap_length s = g → 20 <= sz → 0 <= a → a + sz + g < 4294967296 →
  Alloc (S (S n)) size false s =
    Alloc (S n) size false (set_mem (write_grown m a (sz + g)) (resized n' m s)).
Proof.
  intros Hfind Hsize Hexp Hend Hi Hget Hsz Hg Hmin Ha Hag.
  assert (0 <= g < 4294967296) as Hg0 by (subst g; apply w32_range).
  change (Alloc (S (S n)) size false s) with (Alloc_body (Alloc (S n)) size false s).
  set (rec := Alloc (S n)) in *. clearbody rec. unfold Alloc_body, sizeof_Header, sizeof_Footer.
  rewrite (w32_small (size + 12)), (w32_small (size + 12 + 8)) by lia.
  replace (size + 12 + 8) with (size + 20) by lia.
  rewrite bind_gets, Hfind, Z.eqb_refl, !bind_gets. fold (heap_length s).
  rewrite (bind_done _ _ _ _ _ Hexp), !bind_gets. fold (heap_length (resized n' m s)).
  change (for_loop _ 0 _ _) with (endmost m (m_index (this s))). rewrite Hend. cbn [fst].
  change (w32 (-1)) with 4294967295. rewrite (proj2 (Z.eqb_neq (Z.of_nat i) _)) by lia.
  rewrite !bind_assoc, bind_gets. change (m_index (this (resized n' m s))) with (m_index (this s)).
  change (mem (resized n' m s)) with m. rewrite Hget, bind_assoc, bind_gets.
  change (mem (resized n' m s)) with m. rewrite Hsz, Hg. hstores.
  unfold h_size. change (mem (resized n' m s)) with m.
  rewrite (w32_small (a + 8)), (w32_small (sz + g)), ld32_st32_eq, (w32_small (sz + g)) by lia.
  rewrite (w32_small (a + (sz + g))), (w32_small (a + (sz + g) - 8)) by lia.
  rewrite (w32_small (a + (sz + g) - 8 + 4)) by lia.
  replace (a + (sz + g) - 8 + 4) with (a + (sz + g) - 4) by lia. done.
Qed.

Lemma expanded_bounds n : 0 <= n → n + 4096 < 4294967296 → n <= expanded n <= n + 4096.
Proof.
  intros H0 H1. unfold expanded. destruct (Z.odd n); [|lia].
  rewrite land_page by lia. rewrite w32_small; Z.div_mod_to_equations; lia.
Qed.

(** What a request of [size] bytes adds to the heap. *)
Definition growth (s : machine) (size : Z) : Z := expanded (heap_length s ⊕ (size + 20)) - heap_length s.

(** The heap once its last hole [c] has grown. *)
Lemma grown_ok s lo pre c idx n' g m :
  heap_ok s lo (pre ++ [c]) idx → c_hole c = true → 0 <= g →
  m_endAddress (this s) + g < 4294967292 →
  m_startAddress (this s) ⊕ n' = m_endAddress (this s) + g →
  (∀ x, m_elements (m_index (this s)) <= x < m_endAddress (this s) → ld8 m x = ld8 (mem s) x) →
  let s2 := set_mem (write_grown m (c_addr c) (c_size c + g)) (resized n' m s) in
  heap_ok s2 lo (pre ++ [MkChunk (c_addr c) (c_size c + g) true true]) idx ∧
  frame (range (c_addr c) (c_size c + g)) m (mem s2).
Proof.
  intros [[Hlo Hhi Hcs Hidx Harr Hcap] Hperm] Hc Hg Hend He Hsame s2.
  pose proof Hcs as [Hpre Hch Hpost Hb]%chunks_ok_split. cbn in Hpost.
  set (lo0 := m_elements (m_index (this s))) in *. pose proof Hidx as (_ & _ & Hel & _). fold lo0 in Hel.
  assert (frame (λ x, ¬ (lo0 <= x < m_endAddress (this s))) (mem s) m) as Hf
    by (intros x Hx Hn; apply Hsame; lia).
  assert (chunk_ok m c) as Hch' by (eapply chunk_ok_frame; [exact Hf|lia..|unfold range; lia|done]).
  destruct (write_grown_ok m c (c_size c + g) Hch' Hc) as [Hok Hfr]; [lia..|].
  split; [split; [split|]|exact Hfr].
  - done.
  - cbn. rewrite He. lia.
  - cbn -[chunks_ok]. rewrite He. apply chunks_ok_app. exists (c_addr c). split.
    + eapply chunks_ok_frame; [exact Hfr|lia|lia|unfold range; lia|].
      eapply chunks_ok_frame; [exact Hf|lia|lia|intros x Hx Hn; apply Hn; lia|done].
    + split_and!; [done|exact Hok|cbn; lia].
  - eapply (ol_repr_frame _ m); [exact Hfr| |].
    + cbn. unfold range. lia.
    + change (m_index (this s2)) with (m_index (this s)).
      eapply ol_repr_frame; [exact Hf| |exact Hidx]. intros x Hx Hn. apply Hn. fold lo0 in Hx. lia.
  - done.
  - done.
  - rewrite Hperm, !holes_app, !holes_cons, Hc. done.
Qed.

(** The hole that serves the second attempt is the one that has grown. *)
Lemma grown_serves s2 lo pre c' idx size n :
  heap_ok s2 lo (pre ++ [c']) idx → 0 <= size < 4294967276 → c_hole c' = true → size + 20 <= c_size c' →
  (∀ d, d ∈ pre → c_hole d = true → c_size d < size + 20) →
  ∃ s', Alloc (S n) size false s2 = Done (c_addr c' + 12) s' ∧ served s2 s' lo size pre c' [] idx.
Proof.
  intros Hok Hsize Hc Hfit Hsmall.
  destruct (Alloc_fitting s2 lo (pre ++ [c']) idx size n Hok Hsize) as (pre' & d & post' & s' & E & Hd & Hdf & Hrun & Hs & _).
  { exists c'. split_and!; [set_solver|done|done]. }
  destruct post' as [|z post' _] using rev_ind.
  - apply app_inj_tail in E as [-> ->]. by exists s'.
  - rewrite app_comm_cons, app_assoc in E. apply app_inj_tail in E as [-> _].
    specialize (Hsmall d ltac:(set_solver) Hd). lia.
Qed.

(** The last hole is the endmost entry of the index. *)
Lemma last_hole_endmost m ol lo hi pre c idx :
  ol_repr m ol idx → idx ≡ₚ holes (pre ++ [c]) → chunks_ok m lo hi (pre ++ [c]) → c_hole c = true → 0 < lo →
  ∃ i, idx !! i = Some (c_addr c) ∧ endmost m ol = (Z.of_nat i, c_addr c).
Proof.
  intros Hol Hperm Hcs Hc Hlo. pose proof Hcs as [Hpre _ _ Hb]%chunks_ok_split.
  assert (c_addr c ∈ idx) as [i Hi]%list_elem_of_lookup.
  { rewrite Hperm, holes_app, holes_cons, Hc. set_solver. }
  exists i. split; [done|]. eapply endmost_spec; [done| |done|lia|].
  - rewrite Hperm. by eapply holes_nodup.
  - intros b Hin. rewrite Hperm, holes_app, holes_cons, Hc in Hin.
    apply elem_of_app in Hin as [Hin|Hin]; [|set_solver].
    pose proof (holes_addr_bounds _ _ _ _ _ Hpre Hin). lia.
Qed.

Lemma no_hole_fits s lo cs idx size :
  heap_ok s lo cs idx → (∀ d, d ∈ cs → c_hole d = true → c_size d < size) →
  FindSmallestHole (mem s) (m_index (this s)) size false = w32 (-1).
Proof.
  intros [Ht Hperm] Hsmall.
  destruct (FindSmallestHole_spec _ _ _ size false (ho_index _ _ _ _ Ht)) as [[_ ->]|(i & a & _ & _ & Hi & Hfit & _)];
    [done|].
  assert (a ∈ holes cs) as Ha by (rewrite <- Hperm; by eapply list_elem_of_lookup_2).
  apply in_holes in Ha as (p & d & q & -> & <- & Hd).
  rewrite (hole_fits_chunk _ _ _ _ d _ (ho_chunks _ _ _ _ Ht)) in Hfit by set_solver.
  specialize (Hsmall d ltac:(set_solver) Hd). lia.
Qed.

(** Where the heap may grow: below [hi] nothing of the paging code's. *)
Definition paging_apart (s : machine) (t hi : Z) : Prop :=
  ∀ x, range t 4096 x ∨ bitmap_range s x → ¬ (m_elements (m_index (this s)) <= x < hi).

Lemma resized_length s g m :
  0 <= g < 4294967296 → m_startAddress (this s) ⊕ (heap_length s + g) = m_endAddress (this s) + g →
  heap_length (resized (heap_length s + g) m s) ⊖ heap_length s = g.
Proof.
  intros Hg Hend. unfold heap_length at 1. change (m_startAddress (this (resized _ _ _))) with (m_startAddress (this s)).
  change (m_endAddress (this (resized (heap_length s + g) m s))) with (m_startAddress (this s) ⊕ (heap_length s + g)).
  rewrite Hend. unfold heap_length. rewrite w32_sub_l, w32_sub_r.
  replace (m_endAddress (this s) + g - _ - (_ - _)) with g by lia. by apply w32_small.
Qed.

(** The second attempt is made in the heap with the longer hole. *)
Lemma Alloc_second s lo pre c idx size g n m :
  let e := m_endAddress (this s) in
  heap_ok s lo (pre ++ [c]) idx → c_hole c = true → 0 <= size < 4294967276 →
  (∀ d, d ∈ pre ++ [c] → c_hole d = true → c_size d < size + 20) →
  0 <= g → e + g < 4294967292 → m_startAddress (this s) ⊕ (heap_length s + g) = e + g →
  (∀ x, m_elements (m_index (this s)) <= x < e → ld8 m x = ld8 (mem s) x) →
  @Expand _ (kmalloc (Alloc (S n))) (heap_length s ⊕ (size + 20)) s = Done tt (resized (heap_length s + g) m s) →
  Alloc (S (S n)) size false s =
    Alloc (S n) size false (set_mem (write_grown m (c_addr c) (c_size c + g)) (resized (heap_length s + g) m s)).
Proof.
  intros e Hok Hc Hsize Hsmall Hg He Hend Hsame Hexp. pose proof Hok as [[Hlo Hhi Hcs Hidx Harr Hcap] Hperm].
  pose proof Hcs as [_ _ Hpost Hb]%chunks_ok_split. cbn in Hpost. fold e in Hhi, Hcs, Hpost, Hb.
  assert (0 <= m_elements (m_index (this s))) as Hel by apply Hidx.
  assert (frame (λ x, ¬ (m_elements (m_index (this s)) <= x < e)) (mem s) m) as Hf
    by (intros x Hx Hx'; apply Hsame; lia).
  assert (ol_repr m (m_index (this s)) idx) as Hidx'.
  { eapply ol_repr_frame; [exact Hf| |exact Hidx]. intros x Hx Hx'. apply Hx'. lia. }
  assert (chunks_ok m lo e (pre ++ [c])) as Hcs'.
  { eapply chunks_ok_frame; [exact Hf|lia|lia| |exact Hcs]. intros x Hx Hx'. apply Hx'. lia. }
  destruct (last_hole_endmost m (m_index (this s)) lo e pre c idx Hidx' Hperm Hcs' Hc) as (i & Hi & Hendm); [lia|].
  apply lookup_lt_Some in Hi as Hlt. pose proof (ol_repr_length _ _ _ Hidx').
  apply (Alloc_grow_run s size n m (heap_length s + g) i (c_addr c) (c_size c) g);
    [by eapply no_hole_fits|lia|exact Hexp|exact Hendm|lia|by eapply GetItemAtIndex_lookup
    |eapply chunks_ok_size; [exact Hcs'|set_solver]|apply resized_length; [lia|exact Hend]|lia..].
Qed.

(** C11. A request without alignment that no hole can hold makes the heap grow.
    When the last chunk of the heap is a hole and the heap ends at a page
    boundary, the call returns, after one nested call, with the block at the
    start of that hole: every page of the new part of the heap has been mapped,
    one after the other to the next free frames, the hole has been made longer
    by the growth, the block has been cut from it, and the invariant holds for
    the longer heap; no byte changes outside the bitmap, the new entries, the
    index and the hole.  What it takes ([page_supply], [paging_apart]): the new
    pages are in one table of the kernel's directory, which exists and has no
    entries for them yet; the frames in use are the lowest ones, and there are
    enough others; and table, bitmap and directory overlap neither each other
    nor the heap.  (The new end need not be at a page boundary, Heap.cpp:273, so
    that the next growth can be outside these conditions; nor need the last
    chunk be a hole, [Alloc_grows_over_block].) *)
Theorem Alloc_grows s lo pre c idx size lim t f n :
  let g := growth s size in
  let k := (g + 4095) / 4096 in
  let c' := MkChunk (c_addr c) (c_size c + g) true true in
  let e := m_endAddress (this s) in
  heap_ok s lo (pre ++ [c]) idx → c_hole c = true → 0 <= size →
  (∀ d, d ∈ pre ++ [c] → c_hole d = true → c_size d < size + 20) →
  heap_length s + size + 0x3000 < 4294967296 → e + size + 0x3000 < 4294967296 → e mod 4096 = 0 →
  page_supply s lim t f k → paging_apart s t (e + g) →
  ∃ s' idx', Alloc (S (S n)) size false s = Done (c_addr c + 12) s' ∧
    size + 20 <= g ∧ m_endAddress (this s') = e + g ∧
    heap_ok s' lo (pre ++ alloc_chunks c' size) idx' ∧
    (∀ a, e <= a < e + g → read_page (mem s') (t + 4 * (a / 4096 mod 1024)) =
       allocated blank_page (f + (a - e) / 4096) (m_supervisor (this s)) (negb (m_readonly (this s)))) ∧
    frame (λ x, entries_or_bitmap s t (e / 4096 mod 1024) k x ∨ array s x ∨ range (c_addr c) (c_size c + g) x)
      (mem s) (mem s').
Proof.
  intros g k c' e Hok Hc Hsize Hsmall Hlen He Hpage Hps Hap. pose proof Hok as [Ht Hperm].
  pose proof Ht as [Hlo Hhi Hcs Hidx Harr Hcap]. pose proof Hcs as [Hpre Hch Hpost Hb]%chunks_ok_split.
  cbn in Hpost. fold e in Hhi, Hcs, Hpost, Hb.
  assert (0 <= heap_length s < 4294967296) as Hl0 by apply w32_range.
  assert (heap_length s ⊕ (size + 20) = heap_length s + size + 20) as Hn by (rewrite w32_small; lia).
  destruct (expanded_bounds (heap_length s ⊕ (size + 20))) as [Hex0 Hex1]; [lia|lia|].
  assert (expanded (heap_length s ⊕ (size + 20)) = heap_length s + g) as Hex by (unfold g, growth; lia).
  assert (size + 20 <= g <= size + 20 + 4096) as Hg by lia.
  assert (4096 * (k - 1) < g <= 4096 * k) as Hk by (unfold k; Z.div_mod_to_equations; lia).
  destruct (@Expand_maps _ (kmalloc (Alloc (S n))) (heap_length s ⊕ (size + 20)) s lim t f k Hps)
    as (m & Hexp & Hmap & Hf); [fold e; lia|fold e; lia|lia|lia|]. rewrite Hex in Hexp. fold e in Hmap, Hf.
  set (j := e / 4096 mod 1024) in *. pose proof (ps_blank _ _ _ _ _ Hps) as (Hk0 & Hj & _). fold e in Hj. fold j in Hj.
  assert (0 <= j) as Hj0 by (apply Z.mod_pos_bound; lia). assert (j = e / 4096 mod 1024) as Hje by done. clearbody g k j.
  assert (∀ x, entries_or_bitmap s t j k x → range t 4096 x ∨ bitmap_range s x) as Hent
    by (unfold entries_or_bitmap, range; intros x [?|?]; [by right|left; lia]).
  assert (m_startAddress (this s) ⊕ (heap_length s + g) = e + g) as Hend.
  { unfold heap_length. fold e. rewrite Z.add_assoc, <- w32_add_l, w32_add_r, w32_add_l.
    replace (m_startAddress (this s) + (e - m_startAddress (this s)) + g) with (e + g) by lia. apply w32_small. lia. }
  assert (0 <= m_elements (m_index (this s))) as Hel by apply Hidx.
  assert (∀ x, m_elements (m_index (this s)) <= x < e → ld8 m x = ld8 (mem s) x) as Hsame.
  { intros x Hx. apply Hf; [lia|]. intros Hx'. apply (Hap x); [by apply Hent|lia]. }
  destruct (grown_ok s lo pre c idx (heap_length s + g) g m Hok Hc) as [Hok2 Hf2]; [lia|fold e; lia|exact Hend|exact Hsame|].
  set (s2 := set_mem _ _) in *. fold c' in Hok2.
  destruct (grown_serves s2 lo pre c' idx size n Hok2) as (s' & Hrun & idx' & Hok' & Hf' & Honly & _);
    [lia|done|cbn; lia|intros d Hd; apply Hsmall; set_solver|].
  rewrite app_nil_r in Hok'. exists s', idx'.
  assert (frame (λ x, array s x ∨ range (c_addr c) (c_size c + g) x) m (mem s')) as Hf3.
  { eapply frame_trans; (eapply frame_weaken; [eassumption|]); [auto|].
    intros x _ [Hx|Hx]; [right; exact Hx|left; exact Hx]. }
  split_and!; [|lia|transitivity (m_endAddress (this s2)); [apply Honly|exact Hend]|exact Hok'| |].
  - rewrite (Alloc_second s lo pre c idx size g n m); (exact Hrun || done || lia || exact Hexp).
  - intros a Ha. set (q := (a - e) / 4096). assert (0 <= q < k) as Hq by (unfold q; Z.div_mod_to_equations; lia).
    replace (a / 4096 mod 1024) with (j + q) by (rewrite Hje in *; unfold q; Z.div_mod_to_equations; lia).
    rewrite <- Hmap by done. unfold read_page. f_equal.
    destruct (ps_table _ _ _ _ _ Hps) as (_ & Ht0 & Ht1 & _).
    eapply frame_ld32; [exact Hf3|lia|lia|]. intros x Hx Hx'. apply (Hap x); [left; unfold range; lia|].
    unfold array, range in Hx'. lia.
  - eapply frame_trans; (eapply frame_weaken; [eassumption|]); intros; tauto.
Qed.
End grow.

(** ** Instances *)

(** The example heap without its last block, and a page table at [0x53000]. *)
Definition grow_chunks : list chunk :=
  [MkChunk 0x10000 100 false true; MkChunk 0x10064 200 true true; MkChunk 0x1012C 60 false true].
Definition grow_hole : chunk := MkChunk 0x10168 65176 true true.
Definition with_table (m : memory) : memory := st32 m 0x50000 0x53000.
Definition example_grow : machine :=
  set_kheap_object (MkHeap (MkOrderedList 0x8000 2 64) 0x10000 0x20000 0x30000 false false)
    (sample (with_table (write_chunk example_memory (c_addr grow_hole) (c_size grow_hole) true))).

Lemma example_grow_ok : heap_ok example_grow 0x10000 (grow_chunks ++ [grow_hole]) example_index.
Proof.
  split; [|reflexivity]. split; [done|done| | |done|done].
  - cbn -[ld32 ld8 mem]. unfold chunk_ok. zdecide.
  - split_and!; [done| |done|done].
    intros [|[|i]] x Hx; simplify_eq/=; vm_compute; reflexivity.
Qed.

Lemma example_grow_supply : page_supply example_grow 64 0x53000 0 18.
Proof.
  split.
  - split; zdecide.
  - split_and!; [zdecide|zdecide|done|by vm_compute].
  - intros x. change (¬ (0x53000 <= x < 0x54000 ∧ 0x1000 <= x < 0x1008) ∧
      ¬ (0x50000 <= x < 0x52004 ∧ (0x53000 <= x < 0x54000 ∨ 0x1000 <= x < 0x1008))). lia.
  - split_and!; [done|zdecide|]. intros q Hq. apply Z.eqb_eq.
    apply (forall_below 18 (λ q, ld32 (mem example_grow) (0x53000 + 4 * (32 + q)) =? 0)); [by vm_compute|lia].
  - split_and!; [|done|done]. intros g Hg. apply eqb_prop.
    apply (forall_below 64 (λ g, eqb (frame_used example_grow g) (g <? 0))); [by vm_compute|lia].
Qed.

Lemma Alloc_grows_witness :
  ∃ s' idx', @Alloc sample_image 2 70000 false example_grow = Done 0x10174 s' ∧
    m_endAddress (this s') = 0x20000 + 70020 ∧
    heap_ok s' 0x10000 (grow_chunks ++ [MkChunk 0x10168 70020 false true; MkChunk 0x212EC 65176 true true]) idx'.
Proof.
  destruct (@Alloc_grows sample_image example_grow 0x10000 grow_chunks grow_hole example_index 70000 64 0x53000 0 0
    example_grow_ok eq_refl) as (s' & idx' & Hrun & _ & He & Hok & _); [done| |zdecide|zdecide|done| | |].
  - intros d Hd Hh. repeat (apply elem_of_cons in Hd as [->|Hd]; [done|]). by apply not_elem_of_nil in Hd.
  - exact example_grow_supply.
  - intros x Hx Hx'. change (0x8000 <= x < 0x31184) in Hx'.
    destruct Hx as [Hx|Hx]; [change (0x53000 <= x < 0x54000) in Hx|change (0x1000 <= x < 0x1008) in Hx]; lia.
  - exists s', idx'. split; [exact Hrun|]. split; [exact He|exact Hok].
Defined.

(** The growth goes to the hole with the highest address, which need not be
    the last chunk.  In the example heap the last chunk is a block in use; a
    request of 70000 bytes makes the hole in front of it longer across that
    block, and is served with memory that contains it. *)
Theorem Alloc_grows_over_block :
  let s := set_mem (with_table (mem example)) example in
  let b := MkChunk 0x1EBC8 5176 false true in
  heap_ok s 0x10000 example_chunks example_index ∧ b ∈ example_chunks ∧
  match @Alloc sample_image 2 70000 false s with
  | Done p _ => p <= c_addr b ∧ c_addr b + c_size b <= p + 70000
  | _ => False
  end.
Proof.
  split_and!; [|set_solver|vm_compute; split; discriminate].
  split; [|reflexivity]. split; [done|done| | |done|done].
  - cbn -[ld32 ld8 mem]. unfold chunk_ok. zdecide.
  - split_and!; [done| |done|done].
    intros [|[|i]] x Hx; simplify_eq/=; vm_compute; reflexivity.
Qed.
