(* ===== verification/HeapAllocator.v ===== *)
(** * The heap as an allocator

    [kmalloc] on top of [Heap::Alloc] is an instance of the interface of
    [Kmalloc.v], so that what is proved of the paging, task and file-system
    code against the interface holds once the heap is in place.  A page-aligned
    request is lawful only while the hole the search picks is large enough for
    the alignment as well, a condition the code does not check. *)
From S2P Require Import Prelude Memory LibString OrderedList Machine Console Stdio Frames Kmalloc Paging Heap HeapSpec HeapAlloc.
Local Open Scope Z_scope.
Local Open Scope u32_scope.

(** ** Page-aligned requests from a hole that is large enough *)

(** The hole left in front of the block that starts below a page boundary. *)
Definition gap (a : Z) : Z := 4084 - a mod 4096.

Definition aligned_chunks (c : chunk) (size : Z) : list chunk :=
  let a := c_addr c in let n := size + 20 in
  [MkChunk a (gap a) true true; MkChunk (a + gap a) n false true;
   MkChunk (a + gap a + n) (c_size c - gap a - n) true true].

Definition aligned_fits (c : chunk) (size : Z) : Prop :=
  4096 <= c_addr c ∧ 20 <= gap (c_addr c) ∧ gap (c_addr c) + size + 40 <= c_size c.

(** The stores that shrink the hole in place. *)
Definition write_front (m : memory) (a g : Z) : memory :=
  st32 (st32 (st8 (st32 (st32 m (a + 8) g) a HEAP_MAGIC) (a + 4) 1) (a + g - 8) HEAP_MAGIC) (a + g - 4) a.

Lemma write_front_ok m a g :
  20 <= g → 0 <= a → a + g < 4294967296 →
  chunk_ok (write_front m a g) (MkChunk a g true true) ∧ frame (range a g) m (write_front m a g).
Proof.
  intros Hg Ha Hag. split.
  - unfold chunk_ok, write_front; cbn [c_addr c_size c_hole c_footed].
    assert (w32 g = g ∧ w32 a = a ∧ w32 HEAP_MAGIC = HEAP_MAGIC) as (En & Ea & Em)
      by (split_and!; apply w32_small; unfold HEAP_MAGIC; lia).
    split_and!; mem_simpl; rewrite ?En, ?Ea, ?Em; done.
  - unfold write_front.
    repeat first [apply frame_st32; [|unfold range; lia..] | apply frame_st8; [|unfold range; lia..]].
    apply frame_refl.
Qed.

Section alloc_at_aligned.
Context `{Image}.

Lemma Alloc_at_front s i a sz size :
  GetItemAtIndex (mem s) (m_index (this s)) i = a → h_size (mem s) a = sz →
  0 <= size → 4096 <= a → 20 <= gap a → gap a + size + 40 <= sz →
  a + sz <= m_endAddress (this s) → m_endAddress (this s) < 4294967296 →
  let b := a + gap a in
  let h := b + (size + 20) in
  Alloc_at i size (size + 20) true s =
    Done (b + 12) (inserted h
      (set_mem (write_chunk (write_chunk (write_front (mem s) a (gap a)) b (size + 20) false)
                  h (sz - gap a - (size + 20)) true) s)).
Proof.
  intros Hi Hsz H0 Ha Hg Hn Hasz Hend b h.
  pose proof (Z.mod_pos_bound a 4096 ltac:(lia)) as Hmod.
  assert (Z.land a 0xFFFFF000 ≠ 0) as Hpage.
  { rewrite land_page by lia. Z.div_mod_to_equations; lia. }
  assert (gap a = 4084 - a mod 4096) as Eg by done.
  unfold Alloc_at, sizeof_Header, sizeof_Footer.
  rewrite bind_gets, Hi, bind_gets, Hsz. rewrite (w32_small (sz - (size + 20))) by lia.
  destruct (Z.ltb_spec (sz - (size + 20)) (12 + 8)); [lia|].
  rewrite (proj2 (Z.eqb_neq _ _) Hpage). cbn [negb andb]. rewrite land_low12.
  rewrite (w32_sub_l (a + 4096)), (w32_sub_l (a + 4096 - _)), (w32_sub_l (4096 - _)).
  rewrite (w32_small (a + 4096 - a mod 4096 - 12)), (w32_small (4096 - a mod 4096 - 12)) by lia.
  replace (a + 4096 - a mod 4096 - 12) with b by (unfold b; lia).
  replace (4096 - a mod 4096 - 12) with (gap a) by lia.
  rewrite bind_assoc. hstores.
  rewrite (w32_small (a + 8)), (w32_small (a + 4)), (w32_small (b - 8)), (w32_small (b - 8 + 4)),
    (w32_small (b + 12)), (w32_small (b + 12 + size)), (w32_small (b + 12 + size + 8)) by (unfold b; lia).
  assert (st32 (st32 (st8 (st32 (st32 (mem s) (a + 8) (gap a)) a HEAP_MAGIC) (a + 4) (Z.b2z true)) (b - 8)
    HEAP_MAGIC) (b - 8 + 4) a = write_front (mem s) a (gap a)) as ->.
  { unfold write_front, b. by replace (a + gap a - 8 + 4) with (a + gap a - 4) by lia. }
  assert (h_size (write_front (mem s) a (gap a)) a = gap a) as ->.
  { unfold h_size. rewrite ld32_w32. apply (write_front_ok (mem s) a (gap a)); lia. }
  rewrite (w32_small (sz - gap a)), (w32_small (sz - gap a - (size + 20))) by lia.
  destruct (Z.ltb_spec 0 (sz - gap a - (size + 20))) as [_|]; [|lia]. hstores.
  replace (b + 12 + size + 8) with h by (unfold h; lia).
  rewrite (w32_sub_l (h + _)), w32_sub_l.
  replace (h + (sz - gap a) - (size + 20) - 8) with (a + sz - 8) by (unfold h, b; lia).
  rewrite (w32_small (a + sz - 8)) by lia.
  destruct (Z.ltb_spec (a + sz - 8) (m_endAddress (this s))) as [_|]; [|lia].
  hstores. rewrite (bind_done _ _ _ _ _ (index_insert_eq _ _)).
  unfold mret, kernel_ret, write_chunk.
  assert (h = b + (size + 20)) as Eh by done. assert (b = a + gap a) as Eb by done. clearbody b h.
  w32_simpl.
  replace (h + (sz - gap a - (size + 20)) - 8) with (a + sz - 8) by lia.
  replace (h + (sz - gap a - (size + 20)) - 4) with (a + sz - 8 + 4) by lia.
  replace (b + (size + 20) - 8) with (b + 12 + size) by lia.
  replace (b + (size + 20) - 4) with (b + 12 + size + 4) by lia. reflexivity.
Qed.

(** The chunk [c] becomes the hole in front, the block, and the hole behind. *)
Lemma aligned_segment m c size :
  aligned_fits c size → 0 <= size → c_addr c + c_size c < 4294967296 →
  let a := c_addr c in let b := a + gap a in let h := b + (size + 20) in
  let m' := write_chunk (write_chunk (write_front m a (gap a)) b (size + 20) false)
              h (c_size c - gap a - (size + 20)) true in
  chunks_ok m' a (a + c_size c) (aligned_chunks c size) ∧ frame (range a (c_size c)) m m'.
Proof.
  intros (Ha & Hg & Hfit) Hsize Hend a b h m'. fold a in Ha, Hg, Hfit, Hend.
  assert (h = b + (size + 20)) as Eh by done. assert (b = a + gap a) as Eb by done.
  destruct (write_front_ok m a (gap a)) as [Hc1 Hf1]; [lia..|].
  set (m1 := write_front m a (gap a)) in *. set (m2 := write_chunk m1 b (size + 20) false) in *.
  assert (frame (range b (size + 20)) m1 m2) as Hf2 by (apply write_chunk_frame; lia).
  assert (frame (range h (c_size c - gap a - (size + 20))) m2 m') as Hf3 by (apply write_chunk_frame; lia).
  split.
  - cbn [chunks_ok aligned_chunks c_addr c_size]. fold a. rewrite <- Eb, <- Eh.
    split_and!; try lia; try done.
    + eapply chunk_ok_frame; [exact Hf3|cbn; lia..| |]; [cbn; unfold range; lia|].
      eapply chunk_ok_frame; [exact Hf2|cbn; lia..| |exact Hc1]. cbn; unfold range; lia.
    + eapply chunk_ok_frame; [exact Hf3|cbn; lia..| |apply write_chunk_ok; lia]. cbn; unfold range; lia.
    + apply write_chunk_ok; lia.
  - eapply frame_trans; [eapply frame_weaken; [exact Hf1|]|].
    { unfold range; lia. }
    eapply frame_trans; (eapply frame_weaken; [eassumption|]); unfold range; lia.
Qed.

Lemma Alloc_at_front_ok s lo size pre c post idx i :
  heap_ok s lo (pre ++ c :: post) idx → idx !! i = Some (c_addr c) → c_hole c = true →
  0 <= size → aligned_fits c size → Z.of_nat (length idx) < m_maxSize (m_index (this s)) →
  ∃ s' idx', Alloc_at (Z.of_nat i) size (size + 20) true s = Done (c_addr c + gap (c_addr c) + 12) s' ∧
    heap_ok s' lo (pre ++ aligned_chunks c size ++ post) idx' ∧
    frame (chunk_or_array s c) (mem s) (mem s') ∧ heap_only s s' ∧
    Z.of_nat (length idx') = Z.of_nat (length idx) + 1.
Proof.
  intros Hok Hi Hc Hsize Hfits Hcap.
  destruct (chunk_bounds s lo size pre c post idx i Hok Hi Hc Hsize) as (Hlo & Hmin & Hend & Hhi & Hsz & Hget).
  pose proof Hfits as (Ha & Hg & Hn). pose proof Hok as [Ht Hperm].
  destruct (aligned_segment (mem s) c size Hfits Hsize ltac:(lia)) as [Hseg Hf].
  set (a := c_addr c) in *. set (b := a + gap a) in *. set (h := b + (size + 20)) in *.
  set (m' := write_chunk (write_chunk _ b _ _) h _ _) in *.
  pose proof (ho_chunks _ _ _ _ Ht) as Hcs. pose proof Hcs as [Hpre _ Hpost Hb]%chunks_ok_split.
  assert (tiled (set_mem m' s) lo (pre ++ aligned_chunks c size ++ post) idx) as Ht'.
  { eapply (write_tiled s lo idx pre [c] post _ a (a + c_size c)); [exact Ht|done|done|lia..| |done].
    eapply frame_weaken; [exact Hf|]. unfold range. lia. }
  destruct (inserted_tiled _ _ _ _ h Ht') as [Ht'' Hf'']; [exact Hcap|unfold h, b; lia|].
  exists (inserted h (set_mem m' s)), (insert_ordered (HeaderLessThan m') h idx). split_and!.
  - apply Alloc_at_front; (done || lia).
  - split; [done|]. rewrite insert_ordered_perm, Hperm, !holes_app, !holes_cons, Hc. cbn.
    fold a b h. unfold aligned_chunks. cbn.
    replace (a + gap a + (size + 20)) with h by done.
    rewrite (Permutation_middle (holes pre) (a :: holes post) h). apply Permutation_app_head, perm_swap.
  - eapply frame_trans; [eapply frame_weaken; [exact Hf|]|eapply frame_weaken; [exact Hf''|]];
      unfold chunk_or_array; auto.
  - etransitivity; [apply (heap_only_mem m')|apply heap_only_inserted].
  - pose proof (insert_ordered_perm (HeaderLessThan m') h idx) as Hp. apply Permutation_length in Hp. rewrite Hp. cbn. lia.
Qed.
End alloc_at_aligned.

(** ** What is handed out *)

(** The index array ends where the chunks begin. *)
Definition heap_lo (s : machine) : Z :=
  m_elements (m_index (this s)) + 4 * m_maxSize (m_index (this s)).
Definition heap_state (s : machine) (cs : list chunk) (idx : list Z) : Prop :=
  heap_ok s (heap_lo s) cs idx.

Definition payload (cs : list chunk) (x : Z) : Prop :=
  ∃ b, b ∈ cs ∧ c_hole b = false ∧ range (c_addr b + 12) (c_size b - 20) x.
Definition outside (s : machine) (x : Z) : Prop :=
  ¬ (m_elements (m_index (this s)) <= x < m_endAddress (this s)).
Definition handed_out (s : machine) (x : Z) : Prop :=
  outside s x ∨ ∃ cs idx, heap_state s cs idx ∧ payload cs x.

(** The memory determines the chunks, but for the footer of a hole. *)
Definition same_chunk (c d : chunk) : Prop :=
  c_addr c = c_addr d ∧ c_size c = c_size d ∧ c_hole c = c_hole d.

Lemma chunks_ok_det m a e cs cs' :
  chunks_ok m a e cs → chunks_ok m a e cs' → Forall2 same_chunk cs cs'.
Proof.
  revert a cs'. induction cs as [|c cs IH]; intros a [|d cs']; cbn [chunks_ok].
  - done.
  - intros -> (_ & (_ & _ & _ & Hmin & _) & Hcs%chunks_ok_le). lia.
  - intros (_ & (_ & _ & _ & Hmin & _) & Hcs%chunks_ok_le) ->. lia.
  - intros (Ha & (_ & Hh & Hs & _) & Hcs) (Ha' & (_ & Hh' & Hs' & _) & Hcs').
    rewrite Ha in Hs, Hh. rewrite Ha' in Hs', Hh'. rewrite Hs' in Hs. rewrite Hh' in Hh.
    constructor.
    + split_and!; [congruence|done|]. by destruct (c_hole c), (c_hole d).
    + rewrite <- Hs in Hcs. by eapply IH.
Qed.

Lemma heap_state_det s cs idx cs' idx' c :
  heap_state s cs idx → heap_state s cs' idx' → c ∈ cs → ∃ d, d ∈ cs' ∧ same_chunk c d.
Proof.
  intros [[_ _ Hcs _ _ _] _] [[_ _ Hcs' _ _ _] _] Hc.
  pose proof (chunks_ok_det _ _ _ _ _ Hcs Hcs') as H2.
  apply list_elem_of_lookup in Hc as [i Hi].
  destruct (Forall2_lookup_l _ _ _ _ _ H2 Hi) as (d & Hd & Hsame).
  exists d. split; [by eapply list_elem_of_lookup_2|done].
Qed.

Lemma handed_out_iff s cs idx x :
  heap_state s cs idx → handed_out s x ↔ outside s x ∨ payload cs x.
Proof.
  intros Hst. split; [|intros [?|?]; [by left|right; by eexists _, _]].
  intros [?|(cs' & idx' & Hst' & b & Hb & Hh & Hx)]; [by left|right].
  destruct (heap_state_det _ _ _ _ _ _ Hst' Hst Hb) as (d & Hd & Ha & Hs & Hhd).
  exists d. split; [done|]. split; [congruence|]. by rewrite <- Ha, <- Hs.
Qed.

(** The bytes of a hole, and the edges of every chunk, are not handed out. *)
Lemma not_handed_out s cs idx c x :
  heap_state s cs idx → c ∈ cs → range (c_addr c) (c_size c) x →
  (c_hole c = true ∨ ¬ range (c_addr c + 12) (c_size c - 20) x) → ¬ handed_out s x.
Proof.
  intros Hst Hc Hx Hedge. rewrite (handed_out_iff _ _ _ _ Hst).
  pose proof Hst as [[_ _ Hcs (_ & _ & He & _) _ Hcap] _].
  apply list_elem_of_split in Hc as (pre & post & ->).
  pose proof Hcs as [_ _ _ Hb]%chunks_ok_split. unfold heap_lo, range in *. intros [Hout|Hpay].
  - apply Hout. lia.
  - destruct Hpay as (b & Hbin & Hh & Hxb). unfold range in Hxb.
    destruct (decide (b = c)) as [->|Hne]; [by destruct Hedge; [congruence|]|].
    destruct (chunks_disjoint _ _ _ _ _ _ _ Hcs Hbin Hne) as (? & ? & ?). lia.
Qed.

Lemma array_not_handed_out s cs idx x : heap_state s cs idx → array s x → ¬ handed_out s x.
Proof.
  intros Hst Hx. rewrite (handed_out_iff _ _ _ _ Hst).
  pose proof Hst as [[_ _ Hcs _ _ _] _]. unfold array, range, heap_lo in *.
  pose proof (chunks_ok_le _ _ _ _ Hcs) as Hle. intros [Hout|(b & Hb & _ & Hxb)].
  - apply Hout. lia.
  - apply list_elem_of_split in Hb as (pre & post & ->).
    pose proof Hcs as [_ _ _ Hb]%chunks_ok_split. unfold range in Hxb. lia.
Qed.

(** ** Clients write to what they were handed *)
Lemma chunks_ok_map m m' a e cs :
  (∀ c, c ∈ cs → chunk_ok m c → chunk_ok m' c) → chunks_ok m a e cs → chunks_ok m' a e cs.
Proof.
  revert a. induction cs as [|c cs IH]; intros a Hc; cbn [chunks_ok]; [done|].
  intros (Ha & Hcc & Hcs). split_and!; [done|apply Hc; [by left|done]|].
  apply IH; [intros d Hd; apply Hc; by right|done].
Qed.

(** A chunk survives writes that spare its header and its footer. *)
Lemma chunk_ok_edges P m m' c :
  frame P m m' → 0 <= c_addr c → c_addr c + c_size c <= 4294967296 →
  (∀ x, range (c_addr c) (c_size c) x → ¬ range (c_addr c + 12) (c_size c - 20) x → ¬ P x) →
  chunk_ok m c → chunk_ok m' c.
Proof.
  intros Hf H0 H1 HP (Hm & Hh & Hs & Hmin & Hb & Hft). unfold range in HP.
  assert (∀ x, c_addr c <= x → x + 4 <= c_addr c + 12 ∨ c_addr c + c_size c - 8 <= x ∧ x + 4 <= c_addr c + c_size c →
    ld32 m' x = ld32 m x) as Hld.
  { intros x ? ?. eapply frame_ld32; [done|lia..|]. intros y ?. apply HP; lia. }
  split_and!; [by rewrite Hld by lia| |by rewrite Hld by lia|done|done|].
  - rewrite <- Hh. apply Hf; [lia|apply HP; lia].
  - intros Hc. rewrite !Hld by lia. auto.
Qed.

Lemma heap_state_stable s s' cs idx :
  heap_state s cs idx → kmem s' = kmem s → frame (handed_out s) (mem s) (mem s') →
  heap_state s' cs idx ∧ ∀ a, a ∈ idx → h_size (mem s') a = h_size (mem s) a.
Proof.
  intros Hst Hk Hf. pose proof Hst as [[Hlo Hhi Hcs Hidx Harr Hcap] Hperm].
  assert (this s' = this s) as Hthis by (unfold this; by rewrite Hk).
  assert (heap_lo s' = heap_lo s) as Hlo' by (unfold heap_lo; by rewrite Hthis).
  assert (∀ c, c ∈ cs → chunk_ok (mem s) c → chunk_ok (mem s') c) as Hchunk.
  { intros c Hc. pose proof Hc as (pre & post & ->)%list_elem_of_split.
    pose proof Hcs as [_ _ _ Hb]%chunks_ok_split.
    eapply chunk_ok_edges; [exact Hf|lia|lia|]. intros x Hx Hedge.
    eapply not_handed_out; [exact Hst|exact Hc|exact Hx|by right]. }
  assert (chunks_ok (mem s') (heap_lo s) (m_endAddress (this s)) cs) as Hcs' by by eapply chunks_ok_map.
  split.
  - split; [|done]. rewrite Hlo'. split; rewrite ?Hthis; try done.
    eapply ol_repr_frame; [exact Hf| |done]. intros x Hx.
    eapply array_not_handed_out; [exact Hst|]. unfold array, range in *. lia.
  - intros a Ha. rewrite Hperm in Ha. apply in_holes_elem in Ha as (c & Hc & <-).
    by rewrite (chunks_ok_size _ _ _ _ _ Hcs Hc), (chunks_ok_size _ _ _ _ _ Hcs' Hc).
Qed.

Lemma hole_fits_ext m m' size align a :
  h_size m' a = h_size m a → hole_fits m' a size align = hole_fits m a size align.
Proof. intros E. unfold hole_fits. by rewrite E. Qed.

Lemma first_index_ext f g idx i a :
  (∀ b, b ∈ idx → f b = g b) → first_index f idx i a → first_index g idx i a.
Proof.
  intros Hfg (Hi & Hf & Hbefore). split_and!; [done| |].
  - rewrite <- Hfg; [done|by eapply list_elem_of_lookup_2].
  - rewrite Forall_forall in Hbefore |- *. intros b Hb. rewrite <- Hfg; [by apply Hbefore|].
    apply list_elem_of_lookup in Hb as [j [Hj _]%lookup_take_Some]. by eapply list_elem_of_lookup_2.
Qed.

(** ** The instance *)
Section instance.
Context `{Image}.
Variable fuel : nat.

(** [kmalloc] with the heap behind it. *)
Definition heap_allocator : Allocator := kmalloc (Alloc (S fuel)).

(** A hole large enough; for an aligned request the hole that the search picks
    is also large enough for the alignment. *)
Definition heap_room (s : machine) (size : Z) (align : bool) : Prop :=
  size < 4294967276 ∧ ∃ cs idx c, heap_state s cs idx ∧ c ∈ cs ∧ c_hole c = true ∧
    if align then
      (∃ i, first_index (λ b, hole_fits (mem s) b (size + 20) true) idx i (c_addr c)) ∧
      aligned_fits c size ∧ Z.of_nat (length idx) < m_maxSize (m_index (this s))
    else size + 20 <= c_size c.

(** A hole at an even address that is not at [b] is too small for a page table. *)
Definition small_but (b : Z) (d : chunk) : Prop :=
  c_hole d = true → c_addr d mod 2 = 0 ∧ (c_addr d = b ∨ c_size d < 4116).

(** All holes but one, of at least [n] bytes, are small; that one begins at
    most [a] bytes above a page boundary, and the index has [k] places left. *)
Definition spacious (n a k : Z) (s : machine) : Prop :=
  ∃ cs idx c, heap_state s cs idx ∧ c ∈ cs ∧ c_hole c = true ∧ n <= c_size c ∧
    4096 <= c_addr c ∧ c_addr c mod 4096 <= a ∧
    (∀ d, d ∈ cs → small_but (c_addr c) d) ∧
    Z.of_nat (length idx) + k <= m_maxSize (m_index (this s)).

(** The requests that the large hole can serve one after the other: what each
    takes from it, and where it then begins. *)
Fixpoint plan (n a : Z) (l : list (Z * bool)) : Prop :=
  match l with
  | [] => True
  | (size, true) :: l' =>
      4096 <= size ∧ size mod 2 = 0 ∧ a <= 4064 ∧ size + 4140 <= n ∧ plan (n - size - 4116) ((size + 8) mod 4096) l'
  | (size, false) :: l' => 0 <= size ∧ size mod 2 = 0 ∧ size + 40 <= n ∧ plan (n - size - 20) (a + size + 20) l'
  end.

Definition planned (s : machine) (l : list (Z * bool)) : Prop :=
  ∃ n a, spacious n a (Z.of_nat (length l)) s ∧ plan n a l.

#[local] Instance heap_spec : @AllocatorSpec heap_allocator := {|
  alloc_inv s := kheap (kmem s) ≠ 0 ∧ ∃ cs idx, heap_state s cs idx;
  reserved := handed_out;
  room := planned;
  report p phys := phys;
|}.

Lemma plan_mono n n' a a' l : n <= n' → a' <= a → plan n a l → plan n' a' l.
Proof.
  revert n n' a a'. induction l as [|[size [|]] l IH]; intros n n' a a' Hn Ha; cbn [plan]; [done|..].
  - intros (H1 & H2 & H3 & H4 & H5). split_and!; [lia..|]. eapply IH; [| |exact H5]; lia.
  - intros (H1 & H2 & H3 & H4). split_and!; [lia..|]. eapply IH; [| |exact H4]; lia.
Qed.

(** A hole in the middle of the heap is the only one that begins there. *)
Lemma other_hole s pre c post idx d :
  heap_state s (pre ++ c :: post) idx → d ∈ pre ++ post → c_addr d ≠ c_addr c.
Proof.
  intros [[_ _ Hcs _ _ _] _] Hd. apply chunks_ok_split in Hcs as [Hpre Hc Hpost Hb].
  assert (∀ m a e l, chunks_ok m a e l → d ∈ l → a <= c_addr d ∧ c_addr d + 20 <= e) as Hin.
  { intros m a e l Hl (l1 & l2 & ->)%list_elem_of_split. apply chunks_ok_split in Hl as [_ _ _ ?]. lia. }
  apply elem_of_app in Hd as [Hd|Hd]; [apply (Hin _ _ _ _ Hpre) in Hd|apply (Hin _ _ _ _ Hpost) in Hd]; lia.
Qed.

(** [c] has been replaced by [seg], whose holes are [r], large, and small ones. *)
Lemma spacious_step n a k s s' pre c post seg r idx idx' :
  heap_state s (pre ++ c :: post) idx → heap_state s' (pre ++ seg ++ post) idx' →
  (∀ d, d ∈ pre ++ c :: post → small_but (c_addr c) d) →
  r ∈ seg → c_hole r = true → n <= c_size r → 4096 <= c_addr r → c_addr r mod 4096 <= a →
  Forall (small_but (c_addr r)) seg →
  Z.of_nat (length idx') + k <= m_maxSize (m_index (this s')) → spacious n a k s'.
Proof.
  intros Hst Hst' Hsmall Hr Hrh Hn H0 Ha Hseg Hk. exists (pre ++ seg ++ post), idx', r.
  split_and!; [done|set_solver|done..| |done].
  intros d Hd. rewrite Forall_forall in Hseg. destruct (decide (d ∈ seg)) as [|Hnot]; [by apply Hseg|].
  assert (d ∈ pre ++ post) as Hd' by set_solver. intros Hh.
  pose proof (other_hole _ _ _ _ _ _ Hst Hd').
  destruct (Hsmall d) as [? [|]]; [set_solver|done..|]. split; [done|by right].
Qed.

Lemma holes_same cs cs' : Forall2 same_chunk cs cs' → holes cs = holes cs'.
Proof.
  induction 1 as [|c d cs cs' (Ha & _ & Hh) _ IH]; [done|]. rewrite !holes_cons, IH, Ha, Hh. done.
Qed.

Lemma spacious_at n a k s cs idx :
  heap_state s cs idx → spacious n a k s →
  ∃ c, c ∈ cs ∧ c_hole c = true ∧ n <= c_size c ∧ 4096 <= c_addr c ∧ c_addr c mod 4096 <= a ∧
    (∀ d, d ∈ cs → small_but (c_addr c) d) ∧
    Z.of_nat (length idx) + k <= m_maxSize (m_index (this s)).
Proof.
  intros Hst (cs0 & idx0 & c0 & Hst0 & Hc0 & Hh0 & Hn & H0 & Ha & Hsmall & Hk).
  destruct (heap_state_det _ _ _ _ _ _ Hst0 Hst Hc0) as (c & Hc & Ea & Es & Eh).
  exists c. rewrite <- Ea, <- Es, <- Eh. split_and!; [done..| |].
  - intros d Hd. destruct (heap_state_det _ _ _ _ _ _ Hst Hst0 Hd) as (d' & Hd' & Ea' & Es' & Eh').
    unfold small_but. rewrite Ea', Es', Eh'. by apply Hsmall.
  - destruct Hst as [[_ _ Hcs _ _ _] Hp], Hst0 as [[_ _ Hcs0 _ _ _] Hp0].
    by rewrite Hp, (holes_same _ _ (chunks_ok_det _ _ _ _ _ Hcs Hcs0)), <- Hp0.
Qed.

(** What an unaligned request from the hole [c] leaves of the plan. *)
Lemma planned_unaligned s s' pre c post size idx idx' l :
  heap_state s (pre ++ c :: post) idx → heap_state s' (pre ++ alloc_chunks c size ++ post) idx' →
  c_hole c = true → m_maxSize (m_index (this s')) = m_maxSize (m_index (this s)) →
  planned s ((size, false) :: l) → planned s' l.
Proof.
  intros Hst Hst' Hc Emax (n & a & Hsp & Hsize & Heven & Hn & Hplan).
  destruct (spacious_at _ _ _ _ _ _ Hst Hsp) as (b & Hb & Hbh & Hbn & Hb0 & Hba & Hsmall & Hk).
  assert (Z.of_nat (length idx') + Z.of_nat (length l) <= m_maxSize (m_index (this s'))) as Hk'.
  { destruct Hst as [_ Hp], Hst' as [_ Hp']. rewrite Emax, Hp'. rewrite Hp in Hk. cbn [length] in Hk.
    pose proof (alloc_chunks_length pre c post size Hc). lia. }
  destruct (Hsmall c ltac:(set_solver) Hc) as [Hce Hcs].
  destruct (decide (c_addr c = c_addr b)) as [E|E].
  - assert (c = b) as ->.
    { destruct (decide (c = b)) as [|Hne]; [done|]. exfalso.
      by apply (other_hole _ _ _ _ _ b Hst); [set_solver|]. }
    exists (n - size - 20), (a + size + 20). split; [|done].
    assert (alloc_chunks b size = [MkChunk (c_addr b) (size + 20) false true;
      MkChunk (c_addr b + (size + 20)) (c_size b - (size + 20)) true true]) as Eseg.
    { unfold alloc_chunks. destruct (Z.ltb_spec (c_size b - (size + 20)) 20); [lia|done]. }
    rewrite Eseg in *.
    eapply (spacious_step _ _ _ s s' pre b post _ _ idx idx'); [done..|right; left|done|cbn; lia|cbn; lia| | |done].
    + cbn. Z.div_mod_to_equations. lia.
    + apply Forall_cons; split; [by intros ?|]. apply Forall_singleton. intros _. cbn. Z.div_mod_to_equations. lia.
  - exists n, a. split; [|eapply plan_mono; [| |exact Hplan]; lia].
    exists (pre ++ alloc_chunks c size ++ post), idx', b.
    split_and!; try done; [set_solver|].
    intros d Hd Hdh. destruct (decide (d ∈ alloc_chunks c size)) as [Hin|Hnot]; [|apply Hsmall; [set_solver|done]].
    unfold alloc_chunks in Hin. destruct (_ <? 20); rewrite ?elem_of_cons in Hin; destruct Hin as [->|Hin]; try done.
    + by apply elem_of_nil in Hin.
    + destruct Hin as [->|Hin%elem_of_nil]; [cbn; Z.div_mod_to_equations; lia|done].
Qed.

Lemma chunk_within m lo hi cs c :
  chunks_ok m lo hi cs → c ∈ cs → lo <= c_addr c ∧ c_addr c + c_size c <= hi.
Proof. intros Hcs (pre & post & ->)%list_elem_of_split. apply chunks_ok_split in Hcs as [_ _ _ ?]. lia. Qed.

(** The search tests the lowest bit of the address only: at an even one it
    looks at the size alone. *)
Lemma hole_fits_even m lo hi cs c size :
  chunks_ok m lo hi cs → c ∈ cs → c_addr c mod 2 = 0 → 0 <= c_addr c → c_addr c + c_size c < 4294967296 →
  hole_fits m (c_addr c) size true = (size <=? c_size c).
Proof.
  intros Hcs Hc He H0 H1. pose proof (chunks_ok_size _ _ _ _ _ Hcs Hc) as Hs.
  assert (20 <= c_size c) as Hmin.
  { pose proof Hc as (pre & post & ->)%list_elem_of_split. apply chunks_ok_split in Hcs as [_ _ _ ?]. lia. }
  unfold hole_fits, sizeof_Header. rewrite Hs. rewrite (w32_small (c_addr c + 12)) by lia.
  change 1 with (Z.ones 1) at 1. rewrite Z.land_ones by lia. change (2 ^ 1) with 2.
  replace ((c_addr c + 12) mod 2) with 0 by (Z.div_mod_to_equations; lia).
  cbn [Z.eqb negb]. by rewrite Z.sub_0_r, w32_small by lia.
Qed.

(** What the search sees of a hole while a plan holds. *)
Lemma small_fits s cs idx b d size :
  heap_state s cs idx → (∀ d, d ∈ cs → small_but b d) → d ∈ cs → c_hole d = true →
  hole_fits (mem s) (c_addr d) size true = (size <=? c_size d).
Proof.
  intros [[Hlo Hhi Hcs _ _ _] _] Hsmall Hd Hdh. destruct (chunk_within _ _ _ _ _ Hcs Hd).
  eapply hole_fits_even; [exact Hcs|done|by apply Hsmall|lia|lia].
Qed.

(** A page-aligned request is served by the large hole. *)
Lemma planned_first s cs idx size l :
  heap_state s cs idx → planned s ((size, true) :: l) →
  ∃ i c, c ∈ cs ∧ c_hole c = true ∧ first_index (λ b, hole_fits (mem s) b (size + 20) true) idx i (c_addr c).
Proof.
  intros Hst (n & a & Hsp & Hsize & Heven & Ha & Hn & Hplan).
  destruct (spacious_at _ _ _ _ _ _ Hst Hsp) as (c & Hc & Hh & Hcn & Hc0 & Hca & Hsmall & Hk).
  pose proof Hst as [Ht Hp].
  destruct (FindSmallestHole_spec _ _ _ (size + 20) true (ho_index _ _ _ _ Ht)) as [[Hnone _]|(i & b & _ & _ & Hfirst)].
  { rewrite Forall_forall in Hnone. assert (c_addr c ∈ idx) as Hci by by eapply chunk_in_index.
    specialize (Hnone _ Hci). rewrite (small_fits _ _ _ _ _ _ Hst Hsmall Hc Hh) in Hnone. lia. }
  pose proof Hfirst as (Hi & _ & _).
  assert (b ∈ holes cs) as Hb by (rewrite <- Hp; by eapply list_elem_of_lookup_2).
  apply in_holes in Hb as (l1 & d & l2 & -> & <- & Hdh). exists i, d. split_and!; [set_solver|done|done].
Qed.

Lemma planned_aligned s pre c post idx size i l :
  heap_state s (pre ++ c :: post) idx → c_hole c = true →
  first_index (λ b, hole_fits (mem s) b (size + 20) true) idx i (c_addr c) → planned s ((size, true) :: l) →
  aligned_fits c size ∧ Z.of_nat (length idx) < m_maxSize (m_index (this s)) ∧ size < 4294967276 ∧
  ∀ s' idx', heap_state s' (pre ++ aligned_chunks c size ++ post) idx' →
    m_maxSize (m_index (this s')) = m_maxSize (m_index (this s)) →
    Z.of_nat (length idx') = Z.of_nat (length idx) + 1 → planned s' l.
Proof.
  intros Hst Hh (_ & Hfit & _) (n & a & Hsp & Hsize & Heven & Ha & Hn & Hplan).
  destruct (spacious_at _ _ _ _ _ _ Hst Hsp) as (b & Hb & Hbh & Hbn & Hb0 & Hba & Hsmall & Hk). cbn [length] in Hk.
  assert (c ∈ pre ++ c :: post) as Hc by set_solver.
  rewrite (small_fits _ _ _ _ _ _ Hst Hsmall Hc Hh) in Hfit.
  assert (c = b) as <-.
  { destruct (decide (c = b)) as [|Hne]; [done|]. exfalso.
    apply (other_hole _ _ _ _ _ b Hst); [set_solver|]. destruct (Hsmall c Hc Hh) as [_ [|]]; [done|lia]. }
  pose proof Hst as [[_ Hhi Hcs _ _ _] _]. destruct (chunk_within _ _ _ _ _ Hcs Hc) as [_ Hend].
  pose proof (Z.mod_pos_bound (c_addr c) 4096 ltac:(lia)) as Hmod.
  unfold aligned_fits, gap. split_and!; [lia..|].
  intros s' idx' Hst' Emax Hlen. exists (n - size - 4116), ((size + 8) mod 4096). split; [|done].
  destruct (Hsmall c Hc Hh) as [Hce _]. unfold aligned_chunks in Hst'.
  eapply (spacious_step _ _ _ s s' pre c post _ _ idx idx');
    [exact Hst|exact Hst'|done|right; right; left|done|cbn; unfold gap; lia|cbn; unfold gap; lia| | |lia].
  - cbn. unfold gap. apply Z.eq_le_incl. pose proof (Z.div_mod (c_addr c) 4096 ltac:(lia)).
    replace (_ + _ + (size + 20)) with (size + 8 + (c_addr c / 4096 + 1) * 4096) by lia. apply Z.mod_add. lia.
  - apply Forall_cons; split; [|apply Forall_cons; split; [by intros ?|apply Forall_singleton]]; intros _; cbn; unfold gap.
    + split; [done|lia].
    + split; [|by left]. Z.div_mod_to_equations. lia.
Qed.

(** The first request of a plan can be served. *)
Lemma planned_room s cs idx size align l :
  heap_state s cs idx → planned s ((size, align) :: l) → heap_room s size align.
Proof.
  intros Hst Hplan. destruct align.
  - destruct (planned_first _ _ _ _ _ Hst Hplan) as (i & c & Hc & Hh & Hfirst).
    pose proof Hc as (pre & post & ->)%list_elem_of_split.
    destruct (planned_aligned _ _ _ _ _ _ _ _ Hst Hh Hfirst Hplan) as (Hfits & Hcap & Hmax & _).
    split; [done|]. exists (pre ++ c :: post), idx, c. split_and!; [done..|by exists i|done|done].
  - destruct Hplan as (n & a & Hsp & Hsize & _ & Hn & _).
    destruct (spacious_at _ _ _ _ _ _ Hst Hsp) as (c & Hc & Hh & Hcn & _).
    pose proof Hst as [[Hlo Hhi Hcs _ _ _] _]. destruct (chunk_within _ _ _ _ _ Hcs Hc).
    split; [lia|]. exists cs, idx, c. split_and!; [done..|lia].
Qed.

(** What serving a request from the hole [c] means for the interface: [seg]
    replaces it, [b] is the block, and a rest of it stays a hole. *)
Lemma served_allocated s s' pre c post seg b idx idx' size align :
  heap_state s (pre ++ c :: post) idx → c_hole c = true → kheap (kmem s) ≠ 0 → 0 <= size →
  heap_ok s' (heap_lo s) (pre ++ seg ++ post) idx' → frame (chunk_or_array s c) (mem s) (mem s') →
  heap_only s s' → b ∈ seg → c_hole b = false → size + 20 <= c_size b →
  c_addr c <= c_addr b → c_addr b + c_size b <= c_addr c + c_size c →
  (align = true → (c_addr b + 12) mod 4096 = 0) → (∀ l, planned s ((size, align) :: l) → planned s' l) →
  @allocated_at heap_allocator heap_spec s s' size (c_addr b + 12) align.
Proof.
  intros Hst Hc Hk Hsize Hok' Hf (Hrest & Hkh & He & Hmax & Hend & _) Hb Hbh Hbs Hb0 Hb1 Hal Hplan.
  pose proof Hst as [[Hlo Hhi Hcs _ _ _] _]. pose proof Hcs as [_ _ _ Hcb]%chunks_ok_split.
  assert (heap_lo s' = heap_lo s) as Hlo' by (unfold heap_lo; by rewrite He, Hmax).
  assert (heap_state s' (pre ++ seg ++ post) idx') as Hst' by (unfold heap_state; by rewrite Hlo').
  assert (∀ d, d ∈ pre ++ c :: post → d = c ∨ d ∈ pre ++ seg ++ post) as Hkeep.
  { intros d. rewrite !elem_of_app, elem_of_cons. tauto. }
  split; cbn [alloc_inv reserved room heap_spec].
  - rewrite Hkh. split; [done|by eexists _, _].
  - lia.
  - done.
  - intros x Hx. eapply not_handed_out; [exact Hst| | |by left]; [set_solver|unfold range in *; lia].
  - intros x Hx. rewrite (handed_out_iff _ _ _ _ Hst'). rewrite (handed_out_iff _ _ _ _ Hst) in Hx.
    destruct Hx as [Hx|[Hx|(d & Hd & Hdh & Hx)]].
    + right. exists b. split; [set_solver|]. split; [done|unfold range in *; lia].
    + left. unfold outside in *. by rewrite He, Hend.
    + right. exists d. destruct (Hkeep d Hd) as [->|]; [congruence|done].
  - eapply frame_weaken; [exact Hf|]. intros x _ [Hx|Hx].
    + eapply not_handed_out; [exact Hst| |exact Hx|by left]. set_solver.
    + by eapply array_not_handed_out.
  - exact Hrest.
  - exact Hplan.
Qed.

Lemma heap_kmalloc s size align phys p s' :
  kheap (kmem s) ≠ 0 → Alloc (S fuel) size align s = Done p s' →
  @allocate heap_allocator size align phys s = Done (p, phys) s'.
Proof.
  intros Hk Hrun. unfold allocate, heap_allocator, kmalloc. rewrite bind_gets.
  rewrite (proj2 (Z.eqb_neq _ _) Hk). cbn [negb]. by rewrite (bind_done _ _ _ _ _ Hrun).
Qed.

Lemma heap_allocate_unaligned s size phys :
  kheap (kmem s) ≠ 0 → 0 <= size → heap_room s size false →
  ∃ p s', @allocate heap_allocator size false phys s = Done (p, phys) s' ∧
    @allocated_at heap_allocator heap_spec s s' size p false.
Proof.
  intros Hk Hsize (Hn & cs & idx & c0 & Hst & Hc0 & Hh0 & Hfit0).
  destruct (Alloc_fitting s (heap_lo s) cs idx size fuel Hst ltac:(lia))
    as (pre & c & post & s' & -> & Hc & Hfit & Hrun & (idx' & Hok' & Hf & Honly & _) & _).
  { by exists c0. }
  exists (c_addr c + 12), s'. split; [by apply heap_kmalloc|].
  pose proof Honly as (_ & _ & He & Hmax & _).
  assert (heap_state s' (pre ++ alloc_chunks c size ++ post) idx') as Hst'.
  { unfold heap_state, heap_lo. by rewrite He, Hmax. }
  assert (∀ l, planned s ((size, false) :: l) → planned s' l) as Hplan by (intros l; by eapply planned_unaligned).
  unfold alloc_chunks in *. destruct (Z.ltb_spec (c_size c - (size + 20)) 20).
  - eapply (served_allocated _ _ pre c post _ (MkChunk (c_addr c) (c_size c) false true)); try done; cbn; try lia.
    set_solver.
  - eapply (served_allocated _ _ pre c post _ (MkChunk (c_addr c) (size + 20) false true)); try done; cbn; try lia.
    set_solver.
Qed.

Lemma heap_allocate_aligned s size phys :
  kheap (kmem s) ≠ 0 → 0 <= size → heap_room s size true →
  ∃ p s', @allocate heap_allocator size true phys s = Done (p, phys) s' ∧
    @allocated_at heap_allocator heap_spec s s' size p true.
Proof.
  intros Hk Hsize (Hn & cs & idx & c & Hst & Hc & Hh & [i Hfirst] & Hfits & Hcap).
  pose proof Hfirst as (Hi & _). pose proof Hc as (pre & post & ->)%list_elem_of_split.
  destruct (Alloc_at_front_ok s (heap_lo s) size pre c post idx i Hst Hi Hh Hsize Hfits Hcap)
    as (s' & idx' & Hrun & Hok' & Hf & Honly & Hlen).
  exists (c_addr c + gap (c_addr c) + 12), s'. split.
  { apply heap_kmalloc; [done|]. by rewrite (Alloc_first _ _ _ _ _ _ _ _ _ (proj1 Hst) (conj Hsize Hn) Hfirst). }
  pose proof Honly as (_ & _ & He & Hmax & _).
  assert (heap_state s' (pre ++ aligned_chunks c size ++ post) idx') as Hst'.
  { unfold heap_state, heap_lo. by rewrite He, Hmax. }
  assert (∀ l, planned s ((size, true) :: l) → planned s' l) as Hplan.
  { intros l Hl. destruct (planned_aligned _ _ _ _ _ _ _ _ Hst Hh Hfirst Hl) as (_ & _ & _ & Hstep).
    by apply (Hstep s' idx'). }
  destruct Hfits as (Ha & Hg & Hfit). unfold aligned_chunks in *.
  eapply (served_allocated _ _ pre c post _ (MkChunk (c_addr c + gap (c_addr c)) (size + 20) false true));
    try done; cbn; try lia.
  - set_solver.
  - intros _. unfold gap. pose proof (Z.div_mod (c_addr c) 4096 ltac:(lia)).
    replace (_ + _ + 12) with ((c_addr c / 4096 + 1) * 4096) by lia. by apply Z.mod_mul.
Qed.

(** The heap keeps the laws of the interface. *)
#[local] Instance heap_allocator_laws : @AllocatorLaws heap_allocator heap_spec.
Proof.
  split; cbn [alloc_inv reserved room heap_spec report].
  - intros s size align phys l [Hk (cs & idx & Hst)] Hsize Hroom%(planned_room _ _ _ _ _ _ Hst).
    destruct align; [by apply heap_allocate_aligned|by apply heap_allocate_unaligned].
  - intros s s' [Hk (cs & idx & Hst)] Hkm Hf. rewrite Hkm. split; [done|].
    exists cs, idx. by eapply heap_state_stable.
  - intros s s' [Hk (cs & idx & Hst)] Hkm Hf x Hx.
    destruct (heap_state_stable _ _ _ _ Hst Hkm Hf) as [Hst' _].
    rewrite (handed_out_iff _ _ _ _ Hst'). rewrite (handed_out_iff _ _ _ _ Hst) in Hx.
    unfold outside, this in *. by rewrite Hkm.
  - intros s s' _ Hkm Hf l (n & a & (cs & idx & c & Hst & Hsp) & Hplan). exists n, a. split; [|done].
    destruct (heap_state_stable _ _ _ _ Hst Hkm Hf) as [Hst' _].
    exists cs, idx, c. split; [done|]. unfold this in *. by rewrite Hkm.
Qed.
End instance.

(** ** Properties *)


(** A page-aligned request is served well when the hole that the search
    picks is large enough for the alignment too: [Alloc] returns the next page
    boundary, leaves a hole in front of the block and one behind, keeps the
    invariant, and changes nothing outside that hole and the index. *)
Theorem Alloc_aligned_serves `{Image} fuel s lo cs idx size i c :
  heap_ok s lo cs idx → 0 <= size < 4294967276 →
  first_index (λ b, hole_fits (mem s) b (size + 20) true) idx i (c_addr c) → c ∈ cs → c_hole c = true →
  aligned_fits c size → Z.of_nat (length idx) < m_maxSize (m_index (this s)) →
  ∃ pre post s' idx', cs = pre ++ c :: post ∧
    Alloc (S fuel) size true s = Done (4096 * (c_addr c / 4096 + 1)) s' ∧
    heap_ok s' lo (pre ++ aligned_chunks c size ++ post) idx' ∧
    frame (chunk_or_array s c) (mem s) (mem s').
Proof.
  intros Hok Hsize Hfirst Hc Hh Hfits Hcap. pose proof Hfirst as (Hi & _).
  pose proof Hc as (pre & post & ->)%list_elem_of_split.
  destruct (Alloc_at_front_ok s lo size pre c post idx i Hok Hi Hh ltac:(lia) Hfits Hcap)
    as (s' & idx' & Hrun & Hok' & Hf & _).
  exists pre, post, s', idx'. split_and!; [done| |done|done].
  rewrite (Alloc_first _ _ _ _ _ _ _ _ _ (proj1 Hok) Hsize Hfirst), Hrun. f_equal.
  unfold gap. pose proof (Z.div_mod (c_addr c) 4096). lia.
Qed.

(** The example heap, with the index array up to its first chunk, in use. *)
Definition example_heap : machine :=
  set_kheap 0x7000 (set_kheap_object
    (MkHeap (MkOrderedList 0x8000 2 0x2000) 0x10000 0x20000 0x30000 false false) example).

Lemma example_heap_state : heap_state example_heap example_chunks example_index.
Proof.
  destruct example_ok as [[Hlo Hhi Hcs (Hs & Hw & He & Hr) Harr Hcap] Hp].
  split; [|exact Hp]. split; [done|done|exact Hcs| |done|done]. split_and!; [done|exact Hw|done|done].
Qed.

Lemma example_aligned_fits :
  first_index (λ b, hole_fits (mem example_heap) b (8196 + 20) true) example_index 1 0x10168 ∧
  aligned_fits (MkChunk 0x10168 60000 true true) 8196.
Proof. split; [|zdecide]. split_and!; [done|by vm_compute|]. constructor; [by vm_compute|constructor]. Qed.


Lemma Alloc_aligned_serves_witness :
  ∃ s', @Alloc sample_image 1 8196 true example_heap = Done 0x11000 s'.
Proof.
  destruct (@Alloc_aligned_serves sample_image 0 example_heap 0x10000 example_chunks example_index 8196 1
    (MkChunk 0x10168 60000 true true)) as (pre & post & s' & idx' & _ & Hrun & _);
    [apply example_heap_state|done|apply example_aligned_fits|set_solver|done|apply example_aligned_fits|done|].
  exists s'. exact Hrun.
Defined.
