(* ===== verification/HeapFree.v ===== *)
(** * kernel/Heap.cpp: what Free does, and where it loses memory *)
From S2P Require Import Prelude Memory LibString OrderedList Machine Console Stdio Frames Kmalloc Paging Heap HeapSpec HeapAlloc.
Local Open Scope Z_scope.
Local Open Scope u32_scope.

(** ** The chunks after a deallocation *)

(** The block [c] made a hole and joined to a hole on its left. *)
Definition join_left (pre : list chunk) (c : chunk) : list chunk * chunk :=
  match reverse pre with
  | l :: r => if c_hole l then (reverse r, MkChunk (c_addr l) (c_size l + c_size c) true true)
              else (pre, MkChunk (c_addr c) (c_size c) true true)
  | [] => (pre, MkChunk (c_addr c) (c_size c) true true)
  end.
(** The hole [e] joined to a hole on its right: its footer is not rewritten. *)
Definition join_right (e : chunk) (post : list chunk) : chunk * list chunk :=
  match post with
  | d :: post' => if c_hole d then (MkChunk (c_addr e) (c_size e + c_size d) true false, post')
                  else (e, post)
  | [] => (e, post)
  end.
Definition free_chunks (pre : list chunk) (c : chunk) (post : list chunk) : list chunk :=
  let '(pre1, e) := join_left pre c in
  let '(e', post1) := join_right e post in pre1 ++ e' :: post1.

(** What the code relies on to the left of a block: a hole there has a valid
    footer, and what lies below the first chunk does not look like a footer. *)
Definition left_ok (m : memory) (lo : Z) (pre : list chunk) : Prop :=
  match reverse pre with
  | l :: _ => c_hole l = true → c_footed l = true
  | [] => ld32 m (lo - 8) ≠ HEAP_MAGIC
  end.

(** The freed hole does not reach the end of the heap, so it is not contracted. *)
Definition inner (post : list chunk) : Prop :=
  match post with
  | d :: post' => c_hole d = true → post' ≠ []
  | [] => False
  end.

(** ** Single steps *)
Lemma index_find_spec m ol idx h :
  ol_repr m ol idx → h ∈ idx → ∃ j, idx !! j = Some h ∧ index_find m ol h = Z.of_nat j.
Proof.
  intros Hol Hh. apply list_elem_of_lookup in Hh as [k Hk].
  assert (Size ol = Z.of_nat (length idx)) as Hsize by apply Hol.
  apply lookup_lt_Some in Hk as Hlt.
  set (p := λ i, negb (GetItemAtIndex m ol i =? h)).
  assert (∀ j b, idx !! j = Some b → p (Z.of_nat j) = negb (b =? h)) as Hp.
  { intros j b Hj. unfold p. by rewrite (GetItemAtIndex_lookup _ _ _ _ _ Hol Hj). }
  destruct (count_while_spec (Z.to_nat (Size ol)) 0 p) as (H1 & H2 & H3).
  change (index_find m ol h) with (count_while (Z.to_nat (Size ol)) 0 p).
  set (r := count_while _ 0 p) in *.
  assert (r <= Z.of_nat k) as Hr.
  { destruct (Z.leb_spec r (Z.of_nat k)) as [|Hlt']; [done|].
    specialize (H2 (Z.of_nat k) ltac:(lia)). rewrite (Hp _ _ Hk), Z.eqb_refl in H2. done. }
  specialize (H3 ltac:(lia)). exists (Z.to_nat r).
  destruct (lookup_lt_is_Some_2 idx (Z.to_nat r)) as [b Hb]; [lia|].
  replace r with (Z.of_nat (Z.to_nat r)) in H3 by lia. rewrite (Hp _ _ Hb) in H3.
  apply negb_false_iff, Z.eqb_eq in H3 as ->. split; [done|lia].
Qed.

Lemma index_find_absent m ol idx h : ol_repr m ol idx → h ∉ idx → index_find m ol h = Size ol.
Proof.
  intros Hol Hh. assert (Size ol = Z.of_nat (length idx)) as Hsize by apply Hol.
  unfold index_find. set (p := λ i, negb (GetItemAtIndex m ol i =? h)).
  destruct (count_while_spec (Z.to_nat (Size ol)) 0 p) as (H1 & _ & H3).
  set (r := count_while _ 0 p) in *. destruct (decide (r = Size ol)) as [|Hne]; [done|].
  specialize (H3 ltac:(lia)). destruct (lookup_lt_is_Some_2 idx (Z.to_nat r)) as [b Hb]; [lia|].
  unfold p in H3. replace r with (Z.of_nat (Z.to_nat r)) in H3 by lia.
  rewrite (GetItemAtIndex_lookup _ _ _ _ _ Hol Hb) in H3. apply negb_false_iff, Z.eqb_eq in H3 as ->.
  by apply list_elem_of_lookup_2 in Hb.
Qed.

Section free.
Context `{HI : Image} `{HA : Allocator}.

(** [unify_left] on the memory with the block already marked. *)
Lemma unify_left_none s a footer :
  8 <= a → marked_hole (mem s) (ld32 (mem s) (a - 8)) (ld32 (mem s) (a - 4)) = false →
  unify_left a footer s = Done (a, true) s.
Proof.
  intros Ha Hno. unfold unify_left, sizeof_Footer, f_magic, f_header.
  rewrite bind_gets, !ld32_w32. rewrite <- (ld32_w32 _ (a ⊖ 8 + 4)), w32_add_l, ld32_w32.
  replace (a - 8 + 4) with (a - 4) by lia. by rewrite Hno.
Qed.

Lemma unify_left_merge s a la footer :
  8 <= a < 4294967296 → ld32 (mem s) (a - 8) = HEAP_MAGIC → ld32 (mem s) (a - 4) = la →
  h_is_hole (mem s) la = true → 
  ld32 (st32 (mem s) (footer ⊕ 4) la) (la ⊕ 8) = ld32 (mem s) (la ⊕ 8) →
  unify_left a footer s = Done (la, false)
    (set_mem (st32 (st32 (mem s) (footer ⊕ 4) la) (la ⊕ 8) (h_size (mem s) la ⊕ h_size (mem s) a)) s).
Proof.
  intros Ha Hm Hh Hhole Hsep. unfold unify_left, sizeof_Footer, f_magic, f_header.
  rewrite bind_gets, !ld32_w32. rewrite <- (ld32_w32 _ (a ⊖ 8 + 4)), w32_add_l, ld32_w32.
  replace (a - 8 + 4) with (a - 4) by lia. rewrite Hm, Hh. unfold marked_hole at 1.
  rewrite Hhole, Z.eqb_refl. cbn [andb]. hstores. rewrite ld32_w32, Hh. unfold h_size at 1.
  by rewrite Hsep.
Qed.

Lemma unify_right_none s header footer :
  marked_hole (mem s) (ld32 (mem s) (footer + 8)) (footer ⊕ 8) = false →
  unify_right header footer s = Done footer s.
Proof.
  intros Hno. unfold unify_right, sizeof_Footer, h_magic. by rewrite bind_gets, ld32_w32, Hno.
Qed.

(** ** Joining to the left *)
Lemma reverse_snoc_eq {A} (l : list A) x r : reverse l = x :: r → l = reverse r ++ [x].
Proof. intros E. by rewrite <- (reverse_involutive l), E, reverse_cons. Qed.

Lemma chunk_mark m c :
  chunk_ok m c → c_hole c = false → 0 <= c_addr c → c_addr c + c_size c <= 4294967296 →
  chunk_ok (st8 m (c_addr c + 4) 1) (MkChunk (c_addr c) (c_size c) true true).
Proof.
  intros (Hm & _ & Hs & Hmin & Hb & Hft) Hc H0 H1. destruct (Hft (Hb Hc)).
  unfold chunk_ok; cbn. split_and!; mem_simpl; done.
Qed.

Lemma chunk_join_left m l c :
  chunk_ok m l → c_hole l = true → chunk_ok m c → c_hole c = false → 0 <= c_addr l →
  c_addr l + c_size l = c_addr c → c_addr c + c_size c < 4294967296 →
  chunk_ok (st32 (st32 (st8 m (c_addr c + 4) 1) (c_addr c + c_size c - 4) (c_addr l))
              (c_addr l + 8) (c_size l + c_size c))
    (MkChunk (c_addr l) (c_size l + c_size c) true true).
Proof.
  intros (Hm & Hh & _ & Hmin & _) Hl (_ & _ & _ & Hmin' & Hb & Hft) Hc H0 Hadj H1.
  rewrite Hl in Hh. destruct (Hft (Hb Hc)) as [Hfm _]. unfold chunk_ok; cbn.
  replace (c_addr l + (c_size l + c_size c) - 8) with (c_addr c + c_size c - 8) by lia.
  replace (c_addr l + (c_size l + c_size c) - 4) with (c_addr c + c_size c - 4) by lia.
  split_and!; mem_simpl; rewrite ?w32_small by lia; done || lia.
Qed.

(** Joining to the left, for a block [c] marked as a hole. *)
Definition left_joined (s : machine) (lo : Z) (pre : list chunk) (c : chunk) (post : list chunk)
    (idx : list Z) (pre1 : list chunk) (e : chunk) : Prop :=
  let s0 := set_mem (st8 (mem s) (c_addr c + 4) 1) s in
  ∃ m1 (add : bool),
    unify_left (c_addr c) (c_addr c + c_size c - 8) s0 = Done (c_addr e, add) (set_mem m1 s) ∧
    tiled (set_mem m1 s) lo (pre1 ++ e :: post) idx ∧
    frame (range (c_addr e) (c_size e)) (mem s) m1 ∧
    c_addr e + c_size e = c_addr c + c_size c ∧ c_hole e = true ∧
    (if add then idx ≡ₚ holes (pre1 ++ post) else idx ≡ₚ holes (pre1 ++ e :: post)).

Section left.
Context (s : machine) (lo : Z) (c : chunk) (post : list chunk) (idx : list Z).
Context (Hc : c_hole c = false).

Lemma left_joined_hole pre l :
  heap_ok s lo ((pre ++ [l]) ++ c :: post) idx → c_hole l = true → c_footed l = true →
  left_joined s lo (pre ++ [l]) c post idx pre (MkChunk (c_addr l) (c_size l + c_size c) true true).
Proof.
  intros [Ht Hperm] Hl Hfoot. pose proof Ht as [Hlo Hhi Hcs _ _ _].
  rewrite <- app_assoc in Hcs. cbn in Hcs.
  pose proof Hcs as [Hpre Hlok (Hadj & Hcok & Hpost) Hb]%chunks_ok_split.
  pose proof (chunks_ok_le _ _ _ _ Hpost). pose proof Hcok as (_ & _ & Hcsz & Hcmin & _).
  pose proof Hlok as (_ & Hlh & Hlsz & _ & _ & Hlft). destruct (Hlft Hfoot) as [Hfm Hfh].
  set (a := c_addr c) in *. set (la := c_addr l) in *.
  set (m0 := st8 (mem s) (a + 4) 1).
  exists (st32 (st32 m0 (a + c_size c - 4) la) (la + 8) (c_size l + c_size c)), false.
  split_and!; [| | | |done|].
  - rewrite (unify_left_merge _ a la); rewrite ?mem_set_mem; unfold m0, h_is_hole, h_size;
      w32_simpl; rewrite ?ld32_w32; [|lia|mem_simpl; by replace (a - 8) with (la + c_size l - 8) by lia
        |mem_simpl; by replace (a - 4) with (la + c_size l - 4) by lia
        |mem_simpl; by rewrite Hlh, Hl|by mem_simpl].
    fold a. replace (a + c_size c - 8 + 4) with (a + c_size c - 4) by lia.
    mem_simpl. rewrite Hlsz, Hcsz. w32_simpl. done.
  - rewrite <- app_assoc in Ht. cbn in Ht. apply (write_tiled s lo idx pre [l; c] post [_] la (a + c_size c)).
    + done.
    + done.
    + by replace (a + c_size c) with (la + c_size l + c_size c) by lia.
    + lia.
    + lia.
    + unfold m0.
      repeat first [apply frame_st32; [|unfold range; lia..] | apply frame_st8; [|unfold range; lia..]].
      apply frame_refl.
    + split_and!; [done|apply chunk_join_left; (done || lia)|cbn; lia].
  - cbn. unfold m0.
    repeat first [apply frame_st32; [|unfold range; lia..] | apply frame_st8; [|unfold range; lia..]].
    apply frame_refl.
  - cbn. lia.
  - rewrite Hperm. rewrite !holes_app, !holes_cons, Hc, Hl. cbn. by rewrite <- app_assoc.
Qed.

Lemma left_joined_none pre :
  heap_ok s lo (pre ++ c :: post) idx →
  (let m0 := st8 (mem s) (c_addr c + 4) 1 in
   marked_hole m0 (ld32 m0 (c_addr c - 8)) (ld32 m0 (c_addr c - 4)) = false) →
  left_joined s lo pre c post idx pre (MkChunk (c_addr c) (c_size c) true true).
Proof.
  intros [Ht Hperm] Hno. pose proof Ht as [Hlo Hhi Hcs _ _ _].
  pose proof Hcs as [Hpre Hcok Hpost Hb]%chunks_ok_split.
  exists (st8 (mem s) (c_addr c + 4) 1), true.
  assert (frame (range (c_addr c) (c_size c)) (mem s) (st8 (mem s) (c_addr c + 4) 1)) as Hf.
  { apply frame_st8; [apply frame_refl|unfold range; lia..]. }
  split_and!; [| |exact Hf|done|done|].
  - rewrite unify_left_none; [done|lia|done].
  - apply (write_tiled s lo idx pre [c] post [_] (c_addr c) (c_addr c + c_size c));
      [done..|lia|lia| |].
    + by replace (c_addr c + c_size c - c_addr c) with (c_size c) by lia.
    + split_and!; [done|apply chunk_mark; (done || lia)|done].
  - rewrite Hperm, !holes_app, holes_cons, Hc. done.
Qed.

Lemma left_joined_ok pre :
  heap_ok s lo (pre ++ c :: post) idx → left_ok (mem s) lo pre →
  let '(pre1, e) := join_left pre c in left_joined s lo pre c post idx pre1 e.
Proof.
  intros Hok Hleft. pose proof Hok as [[Hlo Hhi Hcs _ _ _] _].
  pose proof Hcs as [Hpre Hcok Hpost Hb]%chunks_ok_split.
  unfold join_left, left_ok in *. destruct (reverse pre) as [|l r] eqn:E.
  - assert (pre = []) as -> by (rewrite <- (reverse_involutive pre), E; done).
    apply left_joined_none; [done|]. cbn in Hpre. subst lo. unfold marked_hole.
    rewrite ld32_st8_near_ne by lia. by rewrite (proj2 (Z.eqb_neq _ _) Hleft).
  - apply reverse_snoc_eq in E as ->. destruct (c_hole l) eqn:Hl.
    + apply left_joined_hole; auto.
    + apply left_joined_none; [done|].
      apply chunks_ok_split in Hpre as [_ (_ & Hlh & _ & Hlmin & Hlb & Hlf) Hadj Hb'].
      cbn in Hadj. destruct (Hlf (Hlb Hl)) as [Hfm Hfh]. unfold marked_hole, h_is_hole.
      replace (c_addr c - 8) with (c_addr l + c_size l - 8) by lia.
      replace (c_addr c - 4) with (c_addr l + c_size l - 4) by lia.
      rewrite !ld32_st8_near_ne by lia. rewrite Hfh. rewrite ld8_w32.
      rewrite ld8_st8_near_ne, Hlh, Hl by lia. apply andb_false_r.
Qed.
End left.

(** ** Joining to the right *)
Lemma chunk_join_right m e d :
  chunk_ok m e → c_hole e = true → 20 <= c_size d → 0 <= c_addr e →
  c_addr e + c_size e + c_size d < 4294967296 →
  chunk_ok (st32 m (c_addr e + 8) (c_size e + c_size d))
    (MkChunk (c_addr e) (c_size e + c_size d) true false).
Proof.
  intros (Hm & Hh & _ & Hmin & _) He Hd H0 H1. rewrite He in Hh. unfold chunk_ok; cbn.
  split_and!; mem_simpl; rewrite ?w32_small by lia; done || lia.
Qed.

(** Merging the hole [d] behind [f] into the header [h], which says [n]. *)
Lemma unify_right_removes t h f d idx n :
  let m' := st32 (mem t) (h + 8) (n + c_size d) in
  ol_repr m' (m_index (this t)) idx → c_addr d ∈ idx → chunk_ok (mem t) d → c_hole d = true →
  ld32 (mem t) (h + 8) = n → 0 <= h → h + 12 <= c_addr d → f + 8 = c_addr d → 0 <= n →
  n + c_size d < 4294967296 → c_addr d + c_size d < 4294967296 →
  ∃ j, idx !! j = Some (c_addr d) ∧
    unify_right h f t = Done (c_addr d + c_size d - 8) (removed (Z.of_nat j) (set_mem m' t)).
Proof.
  intros m' Hol Hin (Hdm & Hdh & Hdsz & Hdmin & _) Hd Hn H0 H1 Hf H2 H3 H4. rewrite Hd in Hdh.
  destruct (index_find_spec m' _ idx (c_addr d) Hol Hin) as (j & Hj & Hfind).
  exists j. split; [done|]. unfold unify_right, sizeof_Footer, h_magic, marked_hole, h_is_hole, h_size.
  rewrite bind_gets, (w32_small (f + 8)) by lia. rewrite Hf.
  rewrite Hdm, ld8_w32, Hdh. cbn [Z.b2z]. rewrite Z.eqb_refl. cbn [andb negb Z.eqb]. hstores.
  rewrite !ld32_w32, Hn, Hdsz, (w32_small (n + c_size d)) by lia.
  rewrite (w32_small (h + 8)) by lia. fold m'.
  replace (ld32 m' (c_addr d + 8)) with (c_size d) by (unfold m'; by mem_simpl).
  rewrite Hfind, (bind_done _ _ _ _ _ (index_remove_eq _ _)). w32_simpl. done.
Qed.

Lemma unify_right_hole t lo pre e d post idx :
  tiled t lo (pre ++ e :: d :: post) idx → c_hole e = true → c_hole d = true → c_addr d ∈ idx →
  let ed := MkChunk (c_addr e) (c_size e + c_size d) true false in
  ∃ t' j, unify_right (c_addr e) (c_addr e + c_size e - 8) t
            = Done (c_addr d + c_size d - 8) t' ∧
    idx !! j = Some (c_addr d) ∧ tiled t' lo (pre ++ ed :: post) (delete j idx) ∧
    frame (λ x, range (c_addr e + 8) 4 x ∨ array t x) (mem t) (mem t') ∧ heap_only t t'.
Proof.
  intros Ht He Hd Hin ed. pose proof Ht as [Hlo Hhi Hcs _ _ _].
  pose proof Hcs as [Hpre Heok (Hadj & Hdok & Hpost) Hb]%chunks_ok_split.
  pose proof (chunks_ok_le _ _ _ _ Hpost).
  pose proof Heok as (_ & _ & Hesz & _). pose proof Hdok as (Hdm & Hdh & Hdsz & Hdmin & _).
  rewrite Hd in Hdh. set (m' := st32 (mem t) (c_addr e + 8) (c_size e + c_size d)).
  assert (tiled (set_mem m' t) lo (pre ++ ed :: post) idx) as Ht1.
  { apply (write_tiled t lo idx pre [e; d] post [ed] (c_addr e) (c_addr e + c_size e + c_size d));
      [done|done|done|lia|lia| |].
    - apply frame_st32; [apply frame_refl|unfold range; lia..].
    - split_and!; [done|apply chunk_join_right; (done || lia)|cbn; lia]. }
  destruct (unify_right_removes t (c_addr e) (c_addr e + c_size e - 8) d idx (c_size e)) as (j & Hj & Hrun);
    [apply (ho_index _ _ _ _ Ht1)|done|done|done|done|lia|lia|lia|lia|lia|lia|].
  destruct (removed_tiled _ _ _ _ _ _ Ht1 Hj) as [Ht2 Hf2].
  exists (removed (Z.of_nat j) (set_mem m' t)), j. split_and!; try done.
  apply (frame_trans _ _ m').
  - unfold m'. apply frame_st32; [apply frame_refl|lia|lia|].
    intros x Hx. left. unfold range. lia.
  - eapply frame_weaken; [exact Hf2|]. intros x _ Hx. by right.
Qed.

Lemma unify_right_block t lo pre e d post idx h :
  tiled t lo (pre ++ e :: d :: post) idx → c_hole d = false →
  unify_right h (c_addr e + c_size e - 8) t = Done (c_addr e + c_size e - 8) t.
Proof.
  intros [Hlo Hhi Hcs _ _ _] Hd.
  apply chunks_ok_split in Hcs as [Hpre Heok (Hadj & Hdok & Hpost) Hb].
  pose proof (chunks_ok_le _ _ _ _ Hpost). pose proof Hdok as (_ & Hdh & _ & Hdmin & _).
  apply unify_right_none. w32_simpl.
  replace (c_addr e + c_size e - 8 + 8) with (c_addr d) by lia.
  unfold marked_hole, h_is_hole. rewrite ld8_w32, Hdh, Hd. apply andb_false_r.
Qed.

Lemma contract_end_inner t header footer test :
  0 <= footer → footer + 8 < m_endAddress (this t) → m_endAddress (this t) < 4294967292 →
  contract_end header footer test t = Done tt t.
Proof.
  intros H1 H2 H3. unfold contract_end, sizeof_Footer. rewrite bind_gets, w32_small by lia.
  by rewrite (proj2 (Z.eqb_neq _ _)) by lia.
Qed.

(** ** The whole of [Free] *)

(** The index lists the holes, but for [e] when it is still to be added. *)
Definition listed (add : bool) (idx : list Z) (pre : list chunk) (e : chunk) (post : list chunk) : Prop :=
  if add then idx ≡ₚ holes (pre ++ post) else idx ≡ₚ holes (pre ++ e :: post).

Lemma listed_add idx pre e post :
  c_hole e = true → listed true idx pre e post → c_addr e :: idx ≡ₚ holes (pre ++ e :: post).
Proof. unfold listed. intros He ->. by rewrite !holes_app, holes_cons, He, Permutation_middle. Qed.

Lemma listed_delete add idx pre e d post e' j :
  listed add idx pre e (d :: post) → c_hole d = true → c_hole e = true → c_hole e' = true →
  c_addr e' = c_addr e → idx !! j = Some (c_addr d) → listed add (delete j idx) pre e' post.
Proof.
  unfold listed. intros Hl Hd He He' Ha Hj.
  destruct add; rewrite (delete_Permutation idx j _ Hj) in Hl; apply (Permutation_cons_inv (a := c_addr d));
    rewrite Hl, !holes_app, !holes_cons, ?Hd, ?He, ?He', ?Ha.
  - by rewrite Permutation_middle.
  - rewrite (Permutation_swap (c_addr d) (c_addr e)). by rewrite Permutation_middle.
Qed.

Definition right_joined (t : machine) (lo : Z) (pre : list chunk) (e : chunk) (add : bool)
    (idx : list Z) (e' : chunk) (post' : list chunk) : Prop :=
  ∃ t' idx' f', unify_right (c_addr e) (c_addr e + c_size e - 8) t = Done f' t' ∧
    0 <= f' ∧ f' + 8 < m_endAddress (this t') ∧
    tiled t' lo (pre ++ e' :: post') idx' ∧ listed add idx' pre e' post' ∧
    frame (λ x, range (c_addr e + 8) 4 x ∨ array t x) (mem t) (mem t') ∧
    heap_only t t' ∧ (length idx' <= length idx)%nat.

Lemma right_joined_ok t lo pre e post add idx :
  tiled t lo (pre ++ e :: post) idx → c_hole e = true → listed add idx pre e post → inner post →
  let '(e', post') := join_right e post in
  c_addr e' = c_addr e ∧ c_hole e' = true ∧ c_size e <= c_size e' ∧ right_joined t lo pre e add idx e' post'.
Proof.
  intros Ht He Hl Hin. destruct post as [|d post]; [done|]. cbn in Hin. unfold join_right.
  pose proof Ht as [Hlo Hhi Hcs _ _ _].
  pose proof Hcs as [Hpre Heok (Hadj & Hdok & Hpost) Hb]%chunks_ok_split.
  pose proof Hdok as (_ & _ & _ & Hdmin & _).
  destruct (c_hole d) eqn:Hd; (split; [done|]; split; [done|]; split; [cbn; lia|]).
  - destruct post as [|g post]; [by destruct (Hin eq_refl)|].
    assert (c_addr d ∈ idx) as Hdi.
    { destruct add; rewrite Hl; rewrite ?holes_app, ?holes_cons, ?He, ?Hd; set_solver. }
    destruct (unify_right_hole _ _ _ _ _ _ _ Ht He Hd Hdi)
      as (t' & j & Hrun & Hj & Ht' & Hf & Hho).
    exists t', (delete j idx), (c_addr d + c_size d - 8). split_and!; try done.
    + lia.
    + rewrite (heap_only_end _ _ Hho). destruct Hpost as (_ & (_ & _ & _ & ? & _) & Hpost).
      apply chunks_ok_le in Hpost. lia.
    + eapply listed_delete; done.
    + rewrite length_delete by (by eexists). lia.
  - exists t, idx, (c_addr e + c_size e - 8). split_and!; try done.
    + eapply unify_right_block; done.
    + lia.
    + apply chunks_ok_le in Hpost. lia.
Qed.

(** The freed hole is listed, unless it was already. *)
Lemma list_hole u lo cs idx (add : bool) h :
  tiled u lo cs idx → Z.of_nat (length idx) < m_maxSize (m_index (this u)) → 0 <= h < 4294967296 →
  ∃ s' idx', (if add then index_insert h else mret tt) u = Done tt s' ∧
    tiled s' lo cs idx' ∧ idx' ≡ₚ (if add then h :: idx else idx) ∧
    heap_only u s' ∧ frame (array u) (mem u) (mem s').
Proof.
  intros Ht Hcap Hh. destruct add.
  - destruct (inserted_tiled u lo cs idx h Ht Hcap Hh) as [Ht' Hf].
    exists (inserted h u), (insert_ordered (HeaderLessThan (mem u)) h idx).
    split_and!; [apply index_insert_eq|done|apply insert_ordered_perm|apply heap_only_inserted|done].
  - exists u, idx. by split_and!.
Qed.

(** [Free] up to the test for the end of the heap. *)
Lemma Free_unified s c h add t f t' :
  0 <= c_addr c → c_addr c + c_size c < 4294967292 → chunk_ok (mem s) c →
  unify_left (c_addr c) (c_addr c + c_size c - 8) (set_mem (st8 (mem s) (c_addr c + 4) 1) s) = Done (h, add) t →
  unify_right h (c_addr c + c_size c - 8) t = Done f t' →
  Free (c_addr c + 12) s =
    (contract_end h f (c_addr c + c_size c) ;; if add then index_insert h else mret tt) t'.
Proof.
  intros Ha Hb (_ & _ & Hcsz & Hmin & _) Hrun1 Hrun2.
  unfold Free, sizeof_Header, sizeof_Footer, set_h_is_hole, h_size.
  rewrite (proj2 (Z.eqb_neq _ _)) by lia. rewrite bind_gets, ld32_w32.
  rewrite (w32_small (c_addr c + 12 - 12)) by lia.
  replace (c_addr c + 12 - 12) with (c_addr c) by lia. rewrite Hcsz, bind_store8. w32_simpl.
  rewrite (bind_done _ _ _ _ _ Hrun1), (bind_done _ _ _ _ _ Hrun2).
  by replace (c_addr c + c_size c - 8 + 8) with (c_addr c + c_size c) by lia.
Qed.

Lemma Free_joins s lo pre c post idx :
  heap_ok s lo (pre ++ c :: post) idx → c_hole c = false → left_ok (mem s) lo pre → inner post →
  Z.of_nat (length idx) < m_maxSize (m_index (this s)) →
  let '(pre1, e) := join_left pre c in
  let '(e', post1) := join_right e post in
  ∃ s' idx', Free (c_addr c + 12) s = Done tt s' ∧ heap_ok s' lo (pre1 ++ e' :: post1) idx' ∧
    20 <= c_size e ∧ c_addr e' = c_addr e ∧ c_size e <= c_size e' ∧ heap_only s s' ∧
    frame (λ x, range (c_addr e) (c_size e) x ∨ array s x) (mem s) (mem s').
Proof.
  intros Hok Hc Hleft Hin Hcap.
  pose proof (left_joined_ok s lo c post idx Hc pre Hok Hleft) as Hlj.
  destruct (join_left pre c) as [pre1 e].
  destruct Hlj as (m1 & add & Hrun1 & Ht1 & Hf1 & Hadj & He & Hl).
  pose proof (right_joined_ok (set_mem m1 s) lo pre1 e post add idx Ht1 He Hl Hin) as Hrj.
  destruct (join_right e post) as [e' post1]. destruct Hrj as (Ha' & He' & Hsz &
    (t' & idx' & f' & Hrun2 & Hf0 & Hf'end & Ht' & Hl' & Hf2 & Hho & Hlen)).
  assert (heap_only s t') as Hho' by (by rewrite <- Hho).
  pose proof (heap_only_end _ _ Hho') as Hend. pose proof (heap_only_array _ _ Hho') as Harr.
  pose proof (heap_only_max _ _ Hho') as Hmax.
  pose proof Hok as [[Hlo Hhi Hcs _ _ _] _].
  pose proof Hcs as [_ Hcok Hpost Hb]%chunks_ok_split. apply chunks_ok_le in Hpost.
  pose proof (ho_chunks _ _ _ _ Ht1) as [_ _ _ (_ & Hemin & _)]%chunks_ok_split.
  assert (frame (λ x, range (c_addr e) (c_size e) x ∨ array s x) (mem s) (mem t')) as Hf.
  { eapply frame_trans; (eapply frame_weaken; [eassumption|]); intros x _ Hx; [by left|].
    destruct Hx as [Hx|Hx]; [left; unfold range in *; lia|by right]. }
  assert (Free (c_addr c + 12) s =
    (if (add : bool) then index_insert (c_addr e) else mret tt) t') as Hrun.
  { rewrite (Free_unified s c (c_addr e) add (set_mem m1 s) f' t');
      [|lia|lia|done|exact Hrun1|by rewrite <- Hadj].
    by rewrite (bind_done _ _ _ _ _ (contract_end_inner t' _ _ _ Hf0 Hf'end ltac:(rewrite Hend; exact Hhi))). }
  pose proof (ho_chunks _ _ _ _ Ht') as [_ _ _ Hb']%chunks_ok_split.
  destruct (list_hole t' lo _ idx' add (c_addr e) Ht') as (s' & idx'' & Hlist & Hs' & Hperm & Hho'' & Hf3);
    [rewrite Hmax; lia|lia|].
  exists s', idx''. rewrite Hrun. split_and!; [done|split; [done|]|done|done|done|by etransitivity|].
  - rewrite Hperm. unfold listed in Hl'. destruct add; [|done].
    rewrite <- Ha'. by apply listed_add.
  - eapply frame_trans; [exact Hf|]. rewrite Harr in Hf3.
    eapply frame_weaken; [exact Hf3|]. intros x _ Hx. by right.
Qed.

(** Blocks other than the freed one stay as they are. *)
Lemma join_blocks pre c post d :
  c_hole c = false → d ∈ pre ++ post → c_hole d = false → d ∈ free_chunks pre c post.
Proof.
  intros Hc Hd Hh. unfold free_chunks, join_left, join_right.
  rewrite elem_of_app in Hd.
  assert (∀ l r, reverse pre = l :: r → d ∈ pre → d = l ∨ d ∈ reverse r) as Hrev.
  { intros l r ->%reverse_snoc_eq. rewrite elem_of_app, list_elem_of_singleton. tauto. }
  destruct (reverse pre) as [|l r]; [|specialize (Hrev l r eq_refl); destruct (c_hole l) eqn:?];
    (destruct post as [|g post]; [|destruct (c_hole g) eqn:?]);
    rewrite !elem_of_app, !elem_of_cons in *;
    naive_solver congruence.
Qed.

Lemma join_left_hole pre c : c_hole (join_left pre c).2 = true.
Proof. unfold join_left. destruct (reverse pre) as [|l r]; [done|]. by destruct (c_hole l). Qed.
Lemma join_right_hole e post : c_hole e = true → c_hole (join_right e post).1 = true.
Proof. unfold join_right. destruct post as [|d post]; [done|]. by destruct (c_hole d). Qed.

Lemma Free_inner s lo pre c post idx :
  heap_ok s lo (pre ++ c :: post) idx → c_hole c = false → left_ok (mem s) lo pre → inner post →
  Z.of_nat (length idx) < m_maxSize (m_index (this s)) →
  ∃ s' idx', Free (c_addr c + 12) s = Done tt s' ∧ heap_ok s' lo (free_chunks pre c post) idx' ∧
    m_endAddress (this s') = m_endAddress (this s) ∧
    ∀ d, d ∈ pre ++ post → c_hole d = false →
      d ∈ free_chunks pre c post ∧
      ∀ x, range (c_addr d) (c_size d) x → ld8 (mem s') x = ld8 (mem s) x.
Proof.
  intros Hok Hc Hleft Hin Hcap.
  pose proof (Free_joins s lo pre c post idx Hok Hc Hleft Hin Hcap) as HF.
  pose proof (λ d, join_blocks pre c post d Hc) as Hblocks. unfold free_chunks in *.
  pose proof (join_left_hole pre c) as Hel.
  destruct (join_left pre c) as [pre1 e]. pose proof (join_right_hole e post Hel) as Her.
  destruct (join_right e post) as [e' post1]. cbn [fst snd] in *.
  destruct HF as (s' & idx' & Hrun & Hok' & _ & Ha & Hsz & Hho & Hf).
  exists s', idx'. split_and!; [done..|by apply heap_only_end|]. intros d Hd Hhd.
  split; [by apply Hblocks|]. specialize (Hblocks d Hd Hhd).
  pose proof Hok' as [[Hlo Hhi Hcs _ _ _] _]. pose proof Hok as [[_ _ _ _ Harr _] _].
  destruct (chunks_disjoint _ _ _ _ _ _ _ Hcs Hblocks) as (? & ? & ?); [congruence|].
  unfold range. intros x Hx. apply Hf; [lia|]. unfold array, range. lia.
Qed.

(** C7. [Free] coalesces inside the heap.  Freeing a block of a heap that
    satisfies the invariant makes a hole of it and joins it to the hole on its
    left and to the hole on its right, where there are such holes; the index
    lists exactly the holes of the result, the invariant is kept, and every
    other block is still there with its bytes unchanged.  The code needs more
    than the invariant for this: a hole on the left must have a valid footer
    ([left_ok]; a hole that [Free] itself has joined to its right has none, see
    [Free_loses_memory]), and what lies below the first chunk must not look
    like a footer; the index must have an entry to spare; and the new hole must
    not reach the end of the heap ([inner]; see [Free_contracts]). *)
Theorem Free_coalesces s lo pre c post idx :
  heap_ok s lo (pre ++ c :: post) idx → c_hole c = false → left_ok (mem s) lo pre → inner post →
  Z.of_nat (length idx) < m_maxSize (m_index (this s)) →
  ∃ s' idx', Free (c_addr c + 12) s = Done tt s' ∧ heap_ok s' lo (free_chunks pre c post) idx' ∧
    m_endAddress (this s') = m_endAddress (this s) ∧
    ∀ d, d ∈ pre ++ post → c_hole d = false →
      d ∈ free_chunks pre c post ∧
      ∀ x, range (c_addr d) (c_size d) x → ld8 (mem s') x = ld8 (mem s) x.
Proof. apply Free_inner. Qed.

(** Between two blocks, a hole has neither neighbour to join. *)
Definition between_blocks (pre post : list chunk) : Prop :=
  match reverse pre, post with
  | l :: _, g :: _ => c_hole l = false ∧ c_hole g = false
  | _, _ => False
  end.

(** Freeing a block behind another block. *)
Lemma Free_after_block s lo pre b post idx :
  heap_ok s lo (pre ++ b :: post) idx → c_hole b = false →
  match reverse pre with l :: _ => c_hole l = false | [] => False end → inner post →
  Z.of_nat (length idx) < m_maxSize (m_index (this s)) →
  let '(e, post1) := join_right (MkChunk (c_addr b) (c_size b) true true) post in
  ∃ s' idx', Free (c_addr b + 12) s = Done tt s' ∧ heap_ok s' lo (pre ++ e :: post1) idx' ∧
    frame (chunk_or_array s b) (mem s) (mem s').
Proof.
  intros Hok Hb Hpre Hin Hcap. pose proof (Free_joins s lo pre b post idx Hok Hb) as HF.
  unfold left_ok, join_left in HF. destruct (reverse pre) as [|l r]; [done|]. rewrite Hpre in HF.
  specialize (HF ltac:(done) Hin Hcap). destruct (join_right _ post) as [e post1].
  destruct HF as (s' & idx' & Hrun & Hok' & _ & _ & _ & _ & Hf). by exists s', idx'.
Qed.

(** C9. Freeing what was just allocated gives the hole back.  A request without
    alignment is served from the hole [c] that the search picks, the first of
    the index that is large enough; when that hole lies between two blocks and
    the index has an entry to spare, freeing the pointer that [Alloc] returned
    leaves the same chunks as before the two calls: a hole with the address and
    the size of [c] (whose footer need not be valid any more), and every other
    chunk; and no byte outside [c] and the index array has changed. *)
Theorem Alloc_Free_roundtrip s lo pre c post idx size fuel i :
  heap_ok s lo (pre ++ c :: post) idx → c_hole c = true → 0 <= size < 4294967276 →
  first_index (λ b, hole_fits (mem s) b (size + 20) false) idx i (c_addr c) →
  between_blocks pre post → Z.of_nat (length idx) < m_maxSize (m_index (this s)) →
  ∃ p s' s'' idx'' foot, Alloc (S fuel) size false s = Done p s' ∧ p = c_addr c + 12 ∧
    Free p s' = Done tt s'' ∧
    heap_ok s'' lo (pre ++ MkChunk (c_addr c) (c_size c) true foot :: post) idx'' ∧
    frame (chunk_or_array s c) (mem s) (mem s'').
Proof.
  intros Hok Hc Hsize Hfirst Hbetween Hcap.
  destruct (Alloc_serves s lo pre c post idx size fuel i Hok Hc Hsize Hfirst)
    as (Hn & s' & Hrun & (idx' & Hok' & Hf & Hho & _)).
  assert (Z.of_nat (length idx') < m_maxSize (m_index (this s'))) as Hcap'.
  { rewrite (heap_only_max _ _ Hho). destruct Hok as [_ Hp], Hok' as [_ Hp'].
    pose proof (alloc_chunks_length pre c post size Hc). rewrite Hp in Hcap. rewrite Hp'. lia. }
  assert (∀ n m, n <= c_size c → frame (chunk_or_array s' (MkChunk (c_addr c) n false true)) (mem s') m →
    frame (chunk_or_array s c) (mem s) m) as Hframe.
  { intros n m Hle Hf'. eapply frame_trans; [exact Hf|]. eapply frame_weaken; [exact Hf'|].
    unfold chunk_or_array. rewrite (heap_only_array _ _ Hho). unfold range. cbn. intros x _ [?|?]; [left; lia|by right]. }
  unfold between_blocks in Hbetween. destruct post as [|g post]; [by destruct (reverse pre)|].
  assert (match reverse pre with l :: _ => c_hole l = false | [] => False end ∧ c_hole g = false) as [Hleft Hg]
    by (destruct (reverse pre); tauto).
  unfold alloc_chunks in Hok'. destruct (Z.ltb_spec (c_size c - (size + 20)) 20) as [Hlt|Hge].
  - pose proof (Free_after_block s' lo pre (MkChunk (c_addr c) (c_size c) false true) (g :: post) idx' Hok'
      eq_refl Hleft) as HF.
    unfold inner, join_right in HF. rewrite Hg in HF.
    destruct HF as (s'' & idx'' & Hfree & Hok'' & Hf''); [done|done|].
    exists (c_addr c + 12), s', s'', idx'', true. split_and!; [done..|by eapply Hframe; [|exact Hf'']].
  - pose proof (Free_after_block s' lo pre (MkChunk (c_addr c) (size + 20) false true)
      (MkChunk (c_addr c + (size + 20)) (c_size c - (size + 20)) true true :: g :: post) idx' Hok'
      eq_refl Hleft) as HF.
    cbn in HF. destruct HF as (s'' & idx'' & Hfree & Hok'' & Hf''); [done|done|].
    replace (size + 20 + (c_size c - (size + 20))) with (c_size c) in Hok'' by lia.
    exists (c_addr c + 12), s', s'', idx'', false. split_and!; [done..|by eapply Hframe; [|exact Hf'']].
Qed.

(** ** A footer that is not rewritten *)

(** A store inside a hole whose footer does not count. *)
Lemma hole_store_tiled t lo pre e post idx a v :
  tiled t lo (pre ++ e :: post) idx → c_hole e = true → c_footed e = false →
  c_addr e + 12 <= a → a + 4 <= c_addr e + c_size e →
  tiled (set_mem (st32 (mem t) a v) t) lo (pre ++ e :: post) idx.
Proof.
  intros Ht He Hft Ha Hb. pose proof Ht as [Hlo Hhi Hcs _ _ _].
  apply chunks_ok_split in Hcs as [Hpre (Hm & Hh & Hs & Hmin & _) Hpost Hbd].
  apply (write_tiled t lo idx pre [e] post [e] (c_addr e) (c_addr e + c_size e)); [done|done|done|lia|lia| |].
  - apply frame_st32; [apply frame_refl|lia|lia|unfold range; lia].
  - split_and!; [done| |done]. unfold chunk_ok. rewrite Hft. split_and!; mem_simpl; done || congruence.
Qed.

(** The block [d] made a hole, with a footer that says [la]. *)
Lemma misfooted_tiled t lo pre d post idx la :
  tiled t lo (pre ++ d :: post) idx → c_hole d = false →
  tiled (set_mem (st32 (st8 (mem t) (c_addr d + 4) 1) (c_addr d + c_size d - 4) la) t) lo
    (pre ++ MkChunk (c_addr d) (c_size d) true false :: post) idx.
Proof.
  intros Ht Hd. pose proof Ht as [Hlo Hhi Hcs _ _ _].
  apply chunks_ok_split in Hcs as [Hpre (Hm & _ & Hs & Hmin & _) Hpost Hbd].
  apply (write_tiled t lo idx pre [d] post [_] (c_addr d) (c_addr d + c_size d)); [done|done|done|lia|lia| |].
  - repeat first [apply frame_st32; [|unfold range; lia..] | apply frame_st8; [|unfold range; lia..]].
    apply frame_refl.
  - split_and!; [done| |done]. unfold chunk_ok; cbn. split_and!; mem_simpl; done.
Qed.

(** The word before the block [d] is the footer of a header [la] of [n] bytes
    that lies inside the hole [e]. *)
Record stale (m : memory) (e d : chunk) (la n : Z) : Prop := {
  st_footer : ld32 m (c_addr d - 8) = HEAP_MAGIC ∧ ld32 m (c_addr d - 4) = la;
  st_header : ld8 m (la + 4) = 1 ∧ ld32 m (la + 8) = n;
  st_place : c_addr e + 20 <= la ∧ 20 <= n ∧ la + n = c_addr d;
}.

Lemma stale_left s e d la n :
  0 <= c_addr e → 20 <= c_size d → c_addr d + c_size d < 4294967296 → stale (mem s) e d la n →
  ld32 (mem s) (c_addr d + 8) = c_size d →
  unify_left (c_addr d) (c_addr d + c_size d - 8) (set_mem (st8 (mem s) (c_addr d + 4) 1) s) =
    Done (la, false) (set_mem (st32 (st32 (st8 (mem s) (c_addr d + 4) 1) (c_addr d + c_size d - 4) la)
      (la + 8) (n + c_size d)) s).
Proof.
  intros H0 Hmin H1 [[Hfm Hfh] [Hlh Hls] Hpl] Hsz.
  rewrite (unify_left_merge _ (c_addr d) la); rewrite ?mem_set_mem; unfold h_is_hole, h_size;
    w32_simpl; rewrite ?ld32_w32; [|lia|by mem_simpl|by mem_simpl|mem_simpl; by rewrite Hlh|by mem_simpl].
  replace (c_addr d + c_size d - 8 + 4) with (c_addr d + c_size d - 4) by lia.
  mem_simpl. rewrite Hls, Hsz. w32_simpl. done.
Qed.

Lemma Free_stale s lo pre e d post idx la n :
  heap_ok s lo (pre ++ e :: d :: post) idx → c_hole e = true → c_footed e = false → c_hole d = false →
  inner post → stale (mem s) e d la n →
  ∃ s' idx', Free (c_addr d + 12) s = Done tt s' ∧
    tiled s' lo (pre ++ e :: MkChunk (c_addr d) (c_size d) true false :: post) idx' ∧
    idx' ≡ₚ holes (pre ++ e :: (join_right d post).2).
Proof.
  intros [Ht Hperm] He Hfe Hd Hin Hst. pose proof Hst as [_ _ Hpl].
  destruct post as [|g post]; [done|]. pose proof Ht as [Hlo Hhi Hcs _ _ _].
  pose proof Hcs as [_ _ (Hadj & Hdok & Hgadj & Hgok & Hpost) Hb]%chunks_ok_split.
  pose proof (chunks_ok_le _ _ _ _ Hpost). pose proof Hdok as (_ & _ & Hdsz & Hdmin & _).
  pose proof Hgok as (_ & _ & _ & Hgmin & _).
  pose proof (stale_left s e d la n ltac:(lia) Hdmin ltac:(lia) Hst Hdsz) as Hrun1.
  set (m0 := st32 (st8 (mem s) (c_addr d + 4) 1) (c_addr d + c_size d - 4) la) in *.
  set (m1 := st32 m0 (la + 8) (n + c_size d)) in *. set (d' := MkChunk (c_addr d) (c_size d) true false).
  assert (tiled (set_mem m0 s) lo (pre ++ e :: d' :: g :: post) idx) as Ht0.
  { replace (pre ++ e :: d' :: g :: post) with ((pre ++ [e]) ++ d' :: g :: post) by by rewrite <- app_assoc.
    apply misfooted_tiled; [|done]. by rewrite <- app_assoc. }
  assert (∀ v, tiled (set_mem (st32 m0 (la + 8) v) s) lo (pre ++ e :: d' :: g :: post) idx) as Hv.
  { intros v. rewrite <- (set_mem_twice _ m0). apply (hole_store_tiled (set_mem m0 s)); done || lia. }
  assert (holes (pre ++ e :: d :: g :: post) = holes (pre ++ e :: g :: post)) as Hho
    by (by rewrite !holes_app, !holes_cons, Hd).
  destruct (c_hole g) eqn:Hg; unfold join_right; rewrite Hg; cbn [snd].
  - destruct post as [|g' post]; [by destruct (Hin Hg)|].
    set (m2 := st32 m1 (la + 8) (n + c_size d + c_size g)).
    assert (tiled (set_mem m2 s) lo (pre ++ e :: d' :: g :: g' :: post) idx) as Ht2.
    { rewrite <- (set_mem_twice _ m1). apply (hole_store_tiled (set_mem m1 s)); [apply Hv|done|done|lia|lia]. }
    destruct (unify_right_removes (set_mem m1 s) la (c_addr d + c_size d - 8) g idx (n + c_size d))
      as (j & Hj & Hrun2); [apply (ho_index _ _ _ _ Ht2)| | |done|rewrite mem_set_mem; unfold m1; mem_simpl; rewrite ?w32_small by lia; done|lia..|].
    { rewrite Hperm, Hho, !holes_app, !holes_cons, He, Hg. set_solver. }
    { pose proof (ho_chunks _ _ _ _ (Hv (n + c_size d))) as Hcs1.
      replace (pre ++ e :: d' :: g :: g' :: post) with ((pre ++ [e; d']) ++ g :: g' :: post) in Hcs1
        by by rewrite <- app_assoc.
      by apply chunks_ok_split in Hcs1 as [_ ? _ _]. }
    rewrite mem_set_mem, set_mem_twice in Hrun2. fold m2 in Hrun2.
    destruct (removed_tiled _ _ _ _ _ _ Ht2 Hj) as [Ht3 _].
    eexists _, _. split; [|split; [exact Ht3|]].
    + rewrite (Free_unified s d la false _ _ _ ltac:(lia) ltac:(lia) Hdok Hrun1 Hrun2).
      destruct Hpost as (Hg'adj & (_ & _ & _ & Hg'min & _) & Hrest%chunks_ok_le).
      erewrite bind_done; [reflexivity|]. apply contract_end_inner; rewrite ?removed_end, ?this_set_mem; lia.
    + rewrite (delete_Permutation idx j _ Hj), Hho in Hperm. apply (Permutation_cons_inv (a := c_addr g)).
      rewrite Hperm, !holes_app, !holes_cons, He, Hg. by rewrite (Permutation_swap (c_addr g)), <- Permutation_middle.
  - eexists _, _. split; [|split; [apply (Hv (n + c_size d))|by rewrite Hperm, Hho]].
    rewrite (Free_unified s d la false _ (c_addr d + c_size d - 8) (set_mem m1 s) ltac:(lia) ltac:(lia) Hdok Hrun1).
    + erewrite bind_done; [reflexivity|]. apply contract_end_inner; rewrite ?this_set_mem; lia.
    + change (c_addr d + c_size d - 8) with (c_addr d' + c_size d' - 8).
      apply (unify_right_block (set_mem m1 s) lo (pre ++ [e]) d' g post idx); [|done]. rewrite <- app_assoc. apply Hv.
Qed.

(** C35. Two deallocations can lose memory.  A block [c] is freed in front of a
    hole [h], whose footer is valid, with a block [d] behind it: [c] and [h]
    are joined, but the footer keeps pointing at the header of [h], inside the
    new hole.  When [d] is freed after that, it is joined to this stale header
    instead, together with a hole behind it if there is one, which leaves the
    index.  The chunks still tile the heap, but no entry of the index names [d]
    (or the hole behind it) and the hole in front has not grown: this memory is
    in no block and in no hole that a search can find.  (The other conditions
    are those under which the first deallocation joins as it should, and the
    last chunk stays out of it.) *)
Theorem Free_loses_memory s lo pre c h d post idx :
  heap_ok s lo (pre ++ c :: h :: d :: post) idx →
  c_hole c = false → c_hole h = true → c_footed h = true → c_hole d = false →
  left_ok (mem s) lo pre → inner post → Z.of_nat (length idx) < m_maxSize (m_index (this s)) →
  let '(pre1, e) := join_left pre c in
  let ch := MkChunk (c_addr e) (c_size e + c_size h) true false in
  ∃ s1 s2 idx', Free (c_addr c + 12) s = Done tt s1 ∧ Free (c_addr d + 12) s1 = Done tt s2 ∧
    tiled s2 lo (pre1 ++ ch :: MkChunk (c_addr d) (c_size d) true false :: post) idx' ∧
    idx' ≡ₚ holes (pre1 ++ ch :: (join_right d post).2).
Proof.
  intros Hok Hc Hh Hft Hd Hleft Hin Hcap. pose proof Hok as [[Hlo Hhi Hcs _ Harr _] _].
  pose proof Hcs as [_ _ (Hha & (_ & Hhh & Hhs & Hhmin & _ & Hhf) & Hda & _ & Hpost%chunks_ok_le) Hb]%chunks_ok_split.
  destruct (Hhf Hft) as [Hfm Hfh]. rewrite Hh in Hhh.
  pose proof (Free_joins s lo pre c (h :: d :: post) idx Hok Hc Hleft ltac:(done) Hcap) as HF.
  destruct (join_left pre c) as [pre1 e]. unfold join_right in HF. rewrite Hh in HF.
  destruct HF as (s1 & idx1 & Hrun1 & Hok1 & Hesz & _ & _ & Hho & Hf). cbv zeta.
  set (ch := MkChunk (c_addr e) (c_size e + c_size h) true false) in *.
  pose proof Hok1 as [[_ _ Hcs1 _ _ _] _].
  apply chunks_ok_split in Hcs1 as [_ (_ & _ & _ & Hemin & _) (Hda1 & Hdok1 & _) Hb1]. cbn in Hemin, Hda1, Hb1.
  pose proof Hdok1 as (_ & _ & _ & Hdmin & _).
  assert (∀ x, c_addr h <= x < c_addr h + c_size h → ¬ (range (c_addr e) (c_size e) x ∨ array s x)) as Hout.
  { unfold array, range. intros x Hx. lia. }
  destruct (Free_stale s1 lo pre1 ch d post idx1 (c_addr h) (c_size h)) as (s2 & idx2 & Hrun2 & Ht2 & Hp2);
    [done..| |by exists s1, s2, idx2].
  split.
  - rewrite <- Hfm, <- Hfh.
    split; (etransitivity; [eapply (frame_ld32 _ _ _ _ Hf); [lia|lia|intros x Hx; apply Hout; lia]|f_equal; lia]).
  - rewrite <- Hhh, <- Hhs at 1. split.
    + apply (frame_ld8 _ _ _ _ Hf); [lia|apply Hout; lia].
    + eapply (frame_ld32 _ _ _ _ Hf); [lia|lia|intros x Hx; apply Hout; lia].
  - cbn. lia.
Qed.
End free.

(** The block between the two holes of the example. *)
Definition example_block : chunk := MkChunk 0x1012C 60 false true.
Definition example_pre : list chunk := [MkChunk 0x10000 100 false true; MkChunk 0x10064 200 true true].
Definition example_post : list chunk := [MkChunk 0x10168 60000 true true; MkChunk 0x1EBC8 5176 false true].

Lemma Free_coalesces_witness :
  left_ok (mem example) 0x10000 example_pre ∧ inner example_post ∧
  ∃ s' idx', @Free sample_image placement_allocator (c_addr example_block + 12) example = Done tt s' ∧
    heap_ok s' 0x10000 (free_chunks example_pre example_block example_post) idx' ∧
    m_endAddress (this s') = m_endAddress (this example) ∧
    ∀ d, d ∈ example_pre ++ example_post → c_hole d = false →
      d ∈ free_chunks example_pre example_block example_post ∧
      ∀ x, range (c_addr d) (c_size d) x → ld8 (mem s') x = ld8 (mem example) x.
Proof.
  split; [done|]. split; [done|].
  apply (@Free_coalesces sample_image placement_allocator example 0x10000 example_pre example_block
           example_post example_index);
    [apply example_ok|done..].
Defined.

Lemma Alloc_Free_roundtrip_witness :
  first_index (λ b, hole_fits (mem example) b (120 + 20) false) example_index 0 0x10064 ∧
  ∃ s' s'' idx'' foot, @Alloc sample_image 1 120 false example = Done 0x10070 s' ∧
    @Free sample_image placement_allocator 0x10070 s' = Done tt s'' ∧
    heap_ok s'' 0x10000 ([MkChunk 0x10000 100 false true] ++ MkChunk 0x10064 200 true foot ::
      [MkChunk 0x1012C 60 false true; MkChunk 0x10168 60000 true true; MkChunk 0x1EBC8 5176 false true]) idx'' ∧
    frame (chunk_or_array example (MkChunk 0x10064 200 true true)) (mem example) (mem s'').
Proof.
  assert (first_index (λ b, hole_fits (mem example) b (120 + 20) false) example_index 0 0x10064) as Hf.
  { split_and!; [done|by vm_compute|constructor]. }
  split; [exact Hf|].
  destruct (@Alloc_Free_roundtrip sample_image placement_allocator example 0x10000
    [MkChunk 0x10000 100 false true] (MkChunk 0x10064 200 true true)
    [MkChunk 0x1012C 60 false true; MkChunk 0x10168 60000 true true; MkChunk 0x1EBC8 5176 false true]
    example_index 120 0 0) as (p & s' & s'' & idx'' & foot & Ha & -> & Hfr & Hok & Hframe);
    [apply example_ok|done|lia|exact Hf|done|done|].
  exists s', s'', idx'', foot. split_and!; [exact Ha|exact Hfr|exact Hok|exact Hframe].
Defined.

(** In the example heap the two deallocations lose the 60000-byte hole. *)
Lemma Free_loses_memory_witness :
  let ch := MkChunk 0x10000 300 true false in
  ∃ s1 s2 idx', @Free sample_image placement_allocator 0x1000C example = Done tt s1 ∧
    @Free sample_image placement_allocator 0x10138 s1 = Done tt s2 ∧
    tiled s2 0x10000 [ch; MkChunk 0x1012C 60 true false; MkChunk 0x10168 60000 true true;
      MkChunk 0x1EBC8 5176 false true] idx' ∧
    idx' ≡ₚ [0x10000].
Proof.
  apply (@Free_loses_memory sample_image placement_allocator example 0x10000 []
    (MkChunk 0x10000 100 false true) (MkChunk 0x10064 200 true true) (MkChunk 0x1012C 60 false true)
    [MkChunk 0x10168 60000 true true; MkChunk 0x1EBC8 5176 false true] example_index);
    [apply example_ok|done..].
Defined.
