(* ===== verification/HeapContract.v ===== *)
(** * kernel/Heap.cpp: Free at the end of the heap

    A freed chunk that is the last one makes [Free] call [Contract], which gives
    the frames of the pages behind it back and moves the end.  What [Contract]
    does to the page tables, the heap that results when the minimum size falls
    into the freed chunk, and the two other cases, in which the code is wrong. *)
From S2P Require Import Prelude Memory LibString OrderedList Machine Console Stdio Frames Kmalloc Paging MapPages Heap HeapSpec HeapResize HeapAlloc HeapFree.
Local Open Scope Z_scope.
Local Open Scope u32_scope.

(** ** Giving pages back *)

(** The entry that [get_page] finds for [a], 0 when there is no table. *)
Definition entry_of (s : machine) (a : Z) : Z :=
  let t := directory_of s (kernel_directory (pg s)) a in
  if t =? 0 then 0 else Pages t (a / 4096 mod 1024).
(** The entry of the [q]-th page below the end of the heap. *)
Definition entry_below (s : machine) (q : Z) : Z := entry_of s (m_endAddress (this s) ⊖ 4096 * q).
(** A contraction to [n] bytes gives the [q]-th page below the end back. *)
Definition cut (s : machine) (n q : Z) : Prop := 1 <= q ∧ n < heap_length s - 4096 * q.
(** The bytes that it may write. *)
Definition cut_bytes (s : machine) (n x : Z) : Prop :=
  bitmap_range s x ∨ ∃ q, cut s n q ∧ range (entry_below s q) 4 x.

(** What it needs: a bitmap that covers every frame number divided by 4096,
    entries that are aligned and outside the bitmap, and a directory apart. *)
Record cut_ok (s : machine) (n : Z) : Prop := {
  co_bitmap : bitmap_ok s ∧ 256 <= frame_limit s;
  co_dir : dir_ok (kernel_directory (pg s)) ∧
    ∀ x, dir_range (kernel_directory (pg s)) x → ¬ cut_bytes s n x;
  co_entry : ∀ q, cut s n q → page_apart s (entry_below s q) ∧ entry_below s q mod 4 = 0;
}.

Lemma free_frame_freed s p :
  bitmap_ok s → 256 <= frame_limit s → page_apart s p →
  ∃ m, free_frame p s = Done tt (set_mem m s) ∧
    read_page m p = freed (read_page (mem s) p) ∧
    frame (λ x, bitmap_range s x ∨ range p 4 x) (mem s) m.
Proof.
  intros Hb Hl Hp. destruct (free_frame_total p s) as [m Hrun]. exists m. split; [done|].
  destruct (decide (Frame (read_page (mem s) p) = 0)) as [Hz|Hnz].
  - rewrite (free_frame_none _ _ Hz) in Hrun. injection Hrun as Hs.
    assert (m = mem s) as -> by (by rewrite Hs). split; [|apply frame_refl].
    unfold freed. rewrite <- Hz. by destruct (read_page (mem s) p).
  - pose proof (read_page_wf (mem s) p) as [_ Hf].
    destruct (free_frame_effect s p) as (s' & Hrun' & [_ Hr _ Hfr]);
      [done|done|done|Z.div_mod_to_equations; lia|].
    rewrite Hrun in Hrun'. injection Hrun' as <-. by split.
Qed.

Lemma entry_below_frame s s' q :
  pg s' = pg s → m_endAddress (this s') = m_endAddress (this s) → dir_ok (kernel_directory (pg s)) →
  frame (λ x, ¬ dir_range (kernel_directory (pg s)) x) (mem s) (mem s') →
  entry_below s' q = entry_below s q.
Proof.
  intros Hpg He Hd Hf. unfold entry_below, entry_of, directory_of. rewrite Hpg, He.
  set (a := m_endAddress (this s) ⊖ 4096 * q).
  assert (0 <= a / 4096 / 1024 < 1024) by apply address_index, w32_range.
  rewrite Tables_val by done. destruct Hd as [Hd0 Hd1]. unfold sizeof_PageDirectory in *.
  rewrite (frame_ld32 _ _ _ _ Hf); [done|lia..|].
  intros x Hx Hn. apply Hn. unfold dir_range, range, sizeof_PageDirectory. lia.
Qed.

Lemma page_below s q :
  m_startAddress (this s) ⊕ (heap_length s - 4096 * q) = m_endAddress (this s) ⊖ 4096 * q.
Proof.
  unfold heap_length. set (a := m_startAddress (this s)). set (e := m_endAddress (this s)).
  replace (a + (w32 (e - a) - 4096 * q)) with (w32 (e - a) + (a - 4096 * q)) by lia.
  rewrite w32_add_l. f_equal. lia.
Qed.

Section contract.
Context `{Image} `{Allocator}.

Lemma get_page_entry s a :
  get_page a false (kernel_directory (pg s)) s = Done (entry_of s a) s.
Proof.
  unfold entry_of. destruct (Z.eqb_spec (directory_of s (kernel_directory (pg s)) a) 0) as [E|E].
  - by apply get_page_absent.
  - by apply get_page_present.
Qed.

Lemma get_page_below s m q :
  dir_ok (kernel_directory (pg s)) → frame (λ x, ¬ dir_range (kernel_directory (pg s)) x) (mem s) m →
  get_page (m_startAddress (this s) ⊕ (heap_length s - 4096 * q)) false (kernel_directory (pg s)) (set_mem m s)
    = Done (entry_below s q) (set_mem m s).
Proof.
  intros Hd Hf. rewrite page_below, <- (entry_below_frame s (set_mem m s)) by done. apply (get_page_entry (set_mem m s)).
Qed.

(** Two entries are the same word or do not overlap. *)
Lemma freed_other (B : Z → Prop) m m' p q :
  frame (λ x, B x ∨ range p 4 x) m m' → read_page m' p = freed (read_page m p) →
  0 <= q → q + 4 <= 4294967296 → (∀ x, range q 4 x → ¬ B x) → p mod 4 = 0 → q mod 4 = 0 →
  read_page m' q = if decide (q = p) then freed (read_page m q) else read_page m q.
Proof.
  intros Hf Hp Hq0 Hq1 HB Hp4 Hq4. destruct (decide (q = p)) as [->|Hne]; [done|].
  unfold read_page. f_equal. eapply frame_ld32; [exact Hf|done|done|].
  intros x Hx [Hx'|Hx']; [by apply (HB x)|unfold range in Hx']. Z.div_mod_to_equations. lia.
Qed.

(** What [k] rounds of the loop of [Contract] have done. *)
Record cut_down (s : machine) (n : Z) (k : Z) (m : memory) : Prop := {
  cd_rounds : 0 <= k ∧ (1 <= k → n < heap_length s - 4096 * k);
  cd_freed : ∀ q, cut s n q → ∃ b : bool, (q <= k → b = true) ∧
    read_page m (entry_below s q) =
      if b then freed (read_page (mem s) (entry_below s q)) else read_page (mem s) (entry_below s q);
  cd_frame : frame (cut_bytes s n) (mem s) m;
}.

Lemma cut_down_step s n k m :
  cut_ok s n → cut_down s n k m → cut s n (k + 1) →
  ∃ m', free_frame (entry_below s (k + 1)) (set_mem m s) = Done tt (set_mem m' s) ∧
    cut_down s n (k + 1) m'.
Proof.
  intros [[Hb Hl] Hdir Hent] [Hk Hfreed Hfr] Hcut. destruct (Hent _ Hcut) as [Hap Hp4].
  set (p := entry_below s (k + 1)) in *.
  destruct (free_frame_freed (set_mem m s) p) as (m' & Hrun & Hp & Hf); [done..|].
  exists m'. split; [by rewrite Hrun, set_mem_twice|]. rewrite mem_set_mem in Hp, Hf. split.
  - destruct Hcut. lia.
  - intros q Hq. destruct (Hent q Hq) as [(Hq0 & Hq1 & Hqa) Hq4].
    destruct (Hfreed q Hq) as (b & Hbk & Hbv).
    rewrite (freed_other (bitmap_range s) m m' p) by done.
    destruct (decide (entry_below s q = p)) as [Ee|Hne].
    + exists true. split; [done|]. rewrite Hbv. by destruct b.
    + exists b. split; [|done]. intros Hle. destruct (decide (q = k + 1)) as [->|]; [done|apply Hbk; lia].
  - eapply frame_trans; [exact Hfr|]. eapply frame_weaken; [exact Hf|].
    intros x _ [Hx|Hx]; [by left|right; by exists (k + 1)].
Qed.

(** The pages that a contraction gives back: the entry of every page wholly
    above the new length is emptied, no other byte changes but those of the
    bitmap, and the end moves. *)
Lemma Contract_cuts n s :
  0 <= n < 4294967296 → 4096 <= heap_length s → cut_ok s (contracted n) →
  ∃ m, Contract n s = Done (contracted n) (resized (contracted n) m s) ∧
    (∀ q, cut s (contracted n) q →
      read_page m (entry_below s q) = freed (read_page (mem s) (entry_below s q))) ∧
    frame (cut_bytes s (contracted n)) (mem s) m.
Proof.
  intros Hn HL Hok. unfold Contract. cbv zeta. rewrite contract_size.
  assert (HEAP_MIN_SIZE <= contracted n < 4294967296) as Hr
    by (unfold contracted, HEAP_MIN_SIZE; destruct (Z.testbit n 12); lia).
  set (r := contracted n) in *. clearbody r. unfold HEAP_MIN_SIZE in Hr.
  rewrite bind_gets. fold (heap_length s). assert (heap_length s < 4294967296) by apply w32_range.
  rewrite (w32_small (heap_length s - 0x1000)) by lia.
  match goal with |- context [whileM _ ?c ?b] => set (cond := c); set (body := b) end.
  destruct (whileM_total (λ i s', ∃ m k, s' = set_mem m s ∧ i = heap_length s - 4096 * (k + 1) ∧
      0 <= i ∧ cut_down s r k m)
    (λ i _, Z.to_nat (i / 4096)) cond body (Z.to_nat ((heap_length s - 0x1000) / 4096)) (heap_length s - 0x1000) s)
    as (i & s' & Hrun & (m & k & -> & -> & Hi & [_ Hfreed Hf]) & Hstop).
  - exists (mem s), 0. split_and!; [by destruct s|lia..|]. split; [lia| |apply frame_refl].
    intros q [Hq _]. exists false. split; [lia|done].
  - done.
  - intros i s' (m & k & -> & -> & Hi & Hcd) Hc. unfold cond in Hc. apply Z.ltb_lt in Hc.
    pose proof (cd_rounds _ _ _ _ Hcd). assert (cut s r (k + 1)) as Hcut by (unfold cut; lia).
    destruct (cut_down_step s r k m Hok Hcd Hcut) as (m' & Hfree & Hcd').
    destruct (co_dir _ _ Hok) as [Hd Hda].
    assert (frame (λ x, ¬ dir_range (kernel_directory (pg s)) x) (mem s) m) as Hfd.
    { eapply frame_weaken; [apply Hcd|]. intros x _ Hx Hdx. by apply (Hda x). }
    exists (heap_length s - 4096 * (k + 1 + 1)), (set_mem m' s). split.
    { unfold body. rewrite !bind_gets. cbn [pg set_mem]. rewrite this_set_mem.
      rewrite (bind_done _ _ _ _ _ (get_page_below s m _ Hd Hfd)).
      rewrite (bind_done _ _ _ _ _ Hfree). unfold mret, kernel_ret. f_equal. rewrite w32_small; lia. }
    split; [|Z.div_mod_to_equations; lia].
    exists m', (k + 1). split_and!; [done|done|lia|done].
  - exists m. rewrite (bind_done _ _ _ _ _ Hrun), bind_modify. split; [done|]. split; [|done].
    intros q Hq. destruct (Hfreed q Hq) as (b & Hb & ->). unfold cond in Hstop. apply Z.ltb_ge in Hstop.
    rewrite Hb; [done|]. destruct Hq. lia.
Qed.

(** ** The heap after a contraction *)

(** The last chunk [e], a hole, cut down to [n] bytes. *)
Definition shrunk (a n : Z) (m : memory) : memory :=
  st32 (st32 (st32 m (a + 8) n) (a + n - 8) HEAP_MAGIC) (a + n - 4) a.

Lemma shrunk_tiled (P : Z → Prop) t lo pre e idx m n r :
  tiled t lo (pre ++ [e]) idx → c_hole e = true → 20 <= n → n <= c_size e → m_startAddress (this t) ⊕ r = c_addr e + n →
  frame P (mem t) m → (∀ x, lo <= x < m_endAddress (this t) ∨ array t x → ¬ P x) →
  tiled (resized r (shrunk (c_addr e) n m) t) lo
    (pre ++ [MkChunk (c_addr e) n true true]) idx ∧
  frame (range (c_addr e) (c_size e)) m (shrunk (c_addr e) n m).
Proof.
  intros [Hlo Hhi Hcs Hidx Harr Hcap] He Hn Hne Hr Hf HP.
  apply chunks_ok_split in Hcs as [Hpre (Hm & Hh & Hs & _) Hend Hb]. cbn in Hend. rewrite He in Hh.
  set (a := c_addr e) in *.
  assert (frame (range a (c_size e)) m (shrunk a n m)) as Hf'.
  { unfold shrunk. repeat (apply frame_st32; [|unfold range; lia..]). apply frame_refl. }
  split; [|done].
  assert (∀ x, a <= x → x + 4 <= a + 20 → ld32 m x = ld32 (mem t) x) as Hld.
  { intros x ? ?. eapply frame_ld32; [exact Hf|lia..|]. intros y Hy. apply HP. lia. }
  split; cbn; rewrite ?Hr; [done|lia| | |done|done].
  - rewrite chunks_ok_app. exists a. split.
    + eapply chunks_ok_frame; [exact Hf'|lia..|unfold range; intros; lia|].
      eapply chunks_ok_frame; [exact Hf|lia..| |exact Hpre]. intros x Hx. apply HP. lia.
    + split_and!; [done| |done]. unfold chunk_ok, shrunk; cbn. split_and!; [..|lia|done|]; mem_simpl.
      * by rewrite Hld by lia.
      * rewrite (frame_ld8 _ _ _ _ Hf); [done|lia|]. apply HP. lia.
      * apply w32_small. lia.
      * intros _. split; [done|apply w32_small; lia].
  - eapply ol_repr_frame; [exact Hf'| |]. { unfold array, range in *. lia. }
    eapply ol_repr_frame; [exact Hf| |done]. intros x Hx. apply HP. right. unfold array, range. lia.
Qed.

(** Joining to the right at the end of the heap. *)
Definition outer (post : list chunk) : Prop :=
  match post with
  | [] => True
  | d :: post' => c_hole d = true ∧ post' = []
  end.

Lemma last_joined_ok t lo pre e post add idx :
  tiled t lo (pre ++ e :: post) idx → c_hole e = true → listed add idx pre e post → outer post →
  (post = [] → ld32 (mem t) (m_endAddress (this t)) ≠ HEAP_MAGIC) →
  let e' := (join_right e post).1 in
  c_addr e' = c_addr e ∧ c_hole e' = true ∧ c_size e' = m_endAddress (this t) - c_addr e ∧
  ∃ t' idx', unify_right (c_addr e) (c_addr e + c_size e - 8) t = Done (m_endAddress (this t) - 8) t' ∧
    tiled t' lo (pre ++ [e']) idx' ∧ listed add idx' pre e' [] ∧
    frame (λ x, range (c_addr e) (c_size e') x ∨ array t x) (mem t) (mem t') ∧ heap_only t t' ∧
    (length idx' <= length idx)%nat.
Proof.
  intros Ht He Hl Hout Hend. pose proof Ht as [Hlo Hhi Hcs _ _ _].
  destruct post as [|d post]; cbn in Hout |- *.
  - apply chunks_ok_split in Hcs as [_ _ Htop ?]. cbn in Htop.
    split_and!; [done|done|lia|]. exists t, idx. split_and!; [|done|done|apply frame_refl|done|lia].
    rewrite <- Htop. apply unify_right_none. unfold marked_hole.
    replace (c_addr e + c_size e - 8 + 8) with (m_endAddress (this t)) by lia.
    by rewrite (proj2 (Z.eqb_neq _ _) (Hend eq_refl)).
  - destruct Hout as [Hd ->]. rewrite Hd. cbn.
    apply chunks_ok_split in Hcs as [_ _ (Hadj & (_ & _ & _ & Hdmin & _) & Htop) Hbe]. cbn in Htop.
    split_and!; [done|done|lia|].
    assert (c_addr d ∈ idx) as Hdi.
    { destruct add; rewrite Hl; rewrite ?holes_app, ?holes_cons, ?He, ?Hd; set_solver. }
    destruct (unify_right_hole _ _ _ _ _ _ _ Ht He Hd Hdi) as (t' & j & Hrun & Hj & Ht' & Hf & Hho).
    exists t', (delete j idx). split_and!; try done.
    + rewrite Hrun. f_equal. lia.
    + by eapply listed_delete.
    + eapply frame_weaken; [exact Hf|]. unfold range. intros x _ [?|?]; [left; lia|by right].
    + rewrite length_delete by (by eexists). lia.
Qed.

(** The last chunk freed, up to the contraction: one hole [e] from its own or
    its left neighbour's header to the end. *)
Lemma Free_last s lo pre c post idx :
  heap_ok s lo (pre ++ c :: post) idx → c_hole c = false → left_ok (mem s) lo pre → outer post →
  (post = [] → ld32 (mem s) (m_endAddress (this s)) ≠ HEAP_MAGIC) →
  let '(pre1, e0) := join_left pre c in
  ∃ t idx' e add test, c_addr e = c_addr e0 ∧ c_hole e = true ∧
    c_size e = m_endAddress (this s) - c_addr e ∧ c_addr e < test ∧
    Free (c_addr c + 12) s =
      (contract_end (c_addr e) (m_endAddress (this s) - 8) test ;;
       if (add : bool) then index_insert (c_addr e) else mret tt) t ∧
    tiled t lo (pre1 ++ [e]) idx' ∧ listed add idx' pre1 e [] ∧ (length idx' <= length idx)%nat ∧
    heap_only s t ∧ frame (λ x, range (c_addr e) (c_size e) x ∨ array s x) (mem s) (mem t).
Proof.
  intros Hok Hc Hleft Hout Hend.
  pose proof (left_joined_ok s lo c post idx Hc pre Hok Hleft) as Hlj.
  destruct (join_left pre c) as [pre1 e0].
  destruct Hlj as (m1 & add & Hrun1 & Ht1 & Hf1 & Hadj & He & Hl).
  pose proof Hok as [[Hlo Hhi Hcs _ _ _] _].
  apply chunks_ok_split in Hcs as [_ Hcok Hpost%chunks_ok_le Hb].
  pose proof (ho_chunks _ _ _ _ Ht1) as [_ _ _ Hb1]%chunks_ok_split.
  rewrite this_set_mem in Hb1.
  destruct (last_joined_ok (set_mem m1 s) lo pre1 e0 post add idx Ht1 He Hl Hout)
    as (Ha & He' & Hsz & t & idx' & Hrun2 & Ht & Hl' & Hf2 & Hho & Hlen).
  { intros ->. rewrite this_set_mem, mem_set_mem, (frame_ld32 _ _ _ _ Hf1); [by apply Hend|lia..|].
    unfold range. lia. }
  set (e := (join_right e0 post).1) in *. clearbody e. rewrite this_set_mem in Hsz, Hrun2.
  exists t, idx', e, add, (c_addr c + c_size c). rewrite Ha in *.
  split_and!; [done|done|done|lia| |done|done|done|by rewrite <- Hho|].
  - rewrite (Free_unified s c (c_addr e0) add (set_mem m1 s) (m_endAddress (this s) - 8) t);
      [done|lia|lia|done|exact Hrun1|by rewrite <- Hadj].
  - eapply frame_trans; [eapply frame_weaken; [exact Hf1|]|exact Hf2].
    unfold range. intros x _ Hx. left. lia.
Qed.

(** ** Contracting in the state that the merges left *)

(** The bytes of the heap and of its index. *)
Definition heap_bytes (s : machine) (lo x : Z) : Prop :=
  lo <= x < m_endAddress (this s) ∨ array s x.
(** Page tables, directory and bitmap are not inside the heap. *)
Record contractible (s : machine) (lo n : Z) : Prop := {
  cn_cut : cut_ok s n;
  cn_apart : ∀ x, heap_bytes s lo x → ¬ dir_range (kernel_directory (pg s)) x ∧ ¬ cut_bytes s n x;
}.

(** The entries emptied by a contraction to [n], and the rest of memory. *)
Definition pages_cut (s : machine) (n : Z) (m : memory) : Prop :=
  ∀ q, cut s n q → read_page m (entry_below s q) = freed (read_page (mem s) (entry_below s q)).

Lemma read_entry_frame s lo n m m' q :
  contractible s lo n → cut s n q → frame (heap_bytes s lo) m m' →
  read_page m' (entry_below s q) = read_page m (entry_below s q).
Proof.
  intros [Hok Hap] Hq Hf. destruct (co_entry _ _ Hok q Hq) as [(? & ? & _) _].
  unfold read_page. f_equal. eapply frame_ld32; [exact Hf|done|done|].
  intros x Hx Hh. apply (Hap x Hh). right. by exists q.
Qed.

Lemma contract_merged s t lo n :
  contractible s lo (contracted n) → heap_only s t → frame (heap_bytes s lo) (mem s) (mem t) →
  0 <= n < 4294967296 → 4096 <= heap_length s →
  ∃ m, Contract n t = Done (contracted n) (resized (contracted n) m t) ∧
    pages_cut s (contracted n) m ∧ frame (cut_bytes s (contracted n)) (mem t) m.
Proof.
  intros Hcn Hho Hf Hn HL. pose proof Hcn as [Hok Hap]. set (r := contracted n) in *.
  pose proof Hho as [(Hpg & _) _]. pose proof (heap_only_length _ _ Hho : heap_length t = heap_length s) as Hlen.
  destruct Hok as [[Hb Hl] [Hd Hda] Hent].
  assert (bitmap_range t = bitmap_range s) as Hbr by (unfold bitmap_range; by rewrite Hpg).
  assert (∀ q, entry_below t q = entry_below s q) as He.
  { intros q. apply entry_below_frame; [done|by apply heap_only_end|done|].
    eapply frame_weaken; [exact Hf|]. intros x _ Hx Hdx. by destruct (Hap x Hx). }
  assert (∀ q, cut t r q ↔ cut s r q) as Hcut by (intros q; unfold cut; by rewrite Hlen).
  assert (∀ x, cut_bytes t r x → cut_bytes s r x) as Hcb.
  { intros x [Hx|(q & Hq%Hcut & Hx)]; [left; by rewrite <- Hbr|].
    right. exists q. by rewrite <- He. }
  destruct (Contract_cuts n t Hn) as (m & Hrun & Hp & Hfm); [by rewrite Hlen| |].
  - split; [unfold bitmap_ok, frame_limit in *; by rewrite Hpg|rewrite Hpg; split; [done|]|].
    + intros x Hx Hx'. apply (Hda x Hx). by apply Hcb.
    + intros q Hq%Hcut. rewrite He. unfold page_apart. rewrite Hbr. by apply Hent.
  - exists m. split_and!; [done| |by eapply frame_weaken; [exact Hfm|eauto]].
    intros q Hq. rewrite <- (read_entry_frame s lo r (mem s) (mem t) q Hcn Hq Hf).
    rewrite <- (He q). by apply Hp, Hcut.
Qed.

(** The hole that is still there after the contraction. *)
Lemma contract_end_shrinks t h test m r n :
  let e := m_endAddress (this t) in
  8 <= e < 4294967296 →
  Contract (h ⊖ m_startAddress (this t)) t = Done r (resized r m t) →
  ld32 m (h + 8) ⊖ (heap_length t ⊖ r) = n → 20 <= n → 0 <= h → h + n < 4294967296 →
  contract_end h (e - 8) test t = Done tt (resized r (shrunk h n m) t).
Proof.
  intros e He Hrun Hsz Hn Hh Hhn. unfold contract_end, sizeof_Footer. rewrite bind_gets. fold e.
  replace (e - 8 + 8) with e by lia. rewrite w32_small, Z.eqb_refl by lia.
  rewrite !bind_gets. fold (heap_length t). rewrite (bind_done _ _ _ _ _ Hrun), bind_gets.
  cbn [resized mem set_kheap_object set_kmem set_mem]. unfold h_size. rewrite ld32_w32, Hsz.
  destruct (Z.ltb_spec 0 n) as [_|]; [|lia]. hstores.
  replace (mem (resized r m t)) with m by done. rewrite ld32_st32_eq.
  unfold store32, modify, shrunk. rewrite (w32_small n) by lia. w32_simpl.
  by replace (h + n - 8 + 4) with (h + n - 4) by lia.
Qed.

(** The hole that is gone: [Free] looks for another header in the index. *)
Lemma contract_end_vanishes t h test m r idx :
  let e := m_endAddress (this t) in
  8 <= e < 4294967296 →
  Contract (h ⊖ m_startAddress (this t)) t = Done r (resized r m t) →
  ld32 m (h + 8) = heap_length t ⊖ r → ol_repr m (m_index (this t)) idx → test ∉ idx →
  contract_end h (e - 8) test t = Done tt (resized r m t).
Proof.
  intros e He Hrun Hsz Hol Hin. unfold contract_end, sizeof_Footer. rewrite bind_gets. fold e.
  replace (e - 8 + 8) with e by lia. rewrite w32_small, Z.eqb_refl by lia.
  rewrite !bind_gets. fold (heap_length t). rewrite (bind_done _ _ _ _ _ Hrun), bind_gets.
  unfold h_size. rewrite ld32_w32. replace (mem (resized r m t)) with m by done.
  rewrite Hsz, Z.sub_diag. change (0 <? w32 0) with false. cbv iota. rewrite !bind_gets.
  replace (mem (resized r m t)) with m by done.
  replace (m_index (this (resized r m t))) with (m_index (this t)) by done.
  rewrite (index_find_absent _ _ _ _ Hol Hin), Z.ltb_irrefl. done.
Qed.

(** ** Free at the end of the heap *)
Lemma join_left_blocks pre c d :
  d ∈ pre → c_hole d = false → d ∈ (join_left pre c).1.
Proof.
  unfold join_left. intros Hd Hh. destruct (reverse pre) as [|l r] eqn:E; [done|].
  destruct (c_hole l) eqn:Hl; [|done]. apply reverse_snoc_eq in E as ->.
  rewrite elem_of_app, list_elem_of_singleton in Hd. destruct Hd as [? | ->]; [done|congruence].
Qed.

Lemma contracted_min n : n <= HEAP_MIN_SIZE → contracted n = HEAP_MIN_SIZE.
Proof. unfold contracted. intros. destruct (Z.testbit n 12); lia. Qed.

Lemma listed_holes (add : bool) idx pre e e' post :
  listed add idx pre e post → c_hole e = true → c_hole e' = true → c_addr e' = c_addr e →
  (if add then c_addr e' :: idx else idx) ≡ₚ holes (pre ++ e' :: post).
Proof.
  unfold listed. intros Hl He He' Ha. rewrite holes_app, holes_cons, He'.
  destruct add; rewrite Hl; [by rewrite holes_app, Permutation_middle|].
  by rewrite holes_app, holes_cons, He, Ha.
Qed.

(** The last chunk freed, its hole [e] merged and the pages behind it given back:
    the state [t] before the contraction, the memory [m] after it. *)
Record last_freed (s : machine) (lo : Z) (idx : list Z) (p : Z) (pre : list chunk) (h r : Z)
    (t : machine) (idx' : list Z) (e : chunk) (add : bool) (test : Z) (m : memory) : Prop := {
  lf_hole : c_addr e = h ∧ c_hole e = true ∧ c_size e = m_endAddress (this s) - h ∧ h < test;
  lf_free : Free p s = (contract_end h (m_endAddress (this s) - 8) test ;;
                        if add then index_insert h else mret tt) t;
  lf_tiled : tiled t lo (pre ++ [e]) idx';
  lf_listed : listed add idx' pre e [] ∧ (length idx' <= length idx)%nat;
  lf_only : heap_only s t;
  lf_contract : Contract (h ⊖ m_startAddress (this s)) t = Done r (resized r m t);
  lf_cut : pages_cut s r m;
  lf_frame : frame (cut_bytes s r) (mem t) m;
  lf_apart : ∀ x, heap_bytes s lo x → ¬ cut_bytes s r x;
  lf_front : ∀ x, lo <= x < h → ld8 m x = ld8 (mem s) x;
}.

Lemma Free_last_freed s lo pre c post idx :
  heap_ok s lo (pre ++ c :: post) idx → c_hole c = false → left_ok (mem s) lo pre → outer post →
  (post = [] → ld32 (mem s) (m_endAddress (this s)) ≠ HEAP_MAGIC) →
  let '(pre1, e0) := join_left pre c in
  let r := contracted (c_addr e0 ⊖ m_startAddress (this s)) in
  contractible s lo r → 4096 <= heap_length s →
  ∃ t idx' e add test m, last_freed s lo idx (c_addr c + 12) pre1 (c_addr e0) r t idx' e add test m.
Proof.
  intros Hok Hc Hleft Hout Hend.
  pose proof (Free_last s lo pre c post idx Hok Hc Hleft Hout Hend) as HF.
  destruct (join_left pre c) as [pre1 e0].
  destruct HF as (t & idx' & e & add & test & Ha & He & Hsz & Htest & Hrun & Ht & Hl & Hlen & Hho & Hf).
  intros r Hcn HL. pose proof Ht as [Hlo Hhi [Hpre _ _ Hb]%chunks_ok_split _ Harr _].
  rewrite (heap_only_end _ _ Hho) in Hb, Hhi.
  assert (frame (heap_bytes s lo) (mem s) (mem t)) as Hft.
  { eapply frame_weaken; [exact Hf|]. unfold heap_bytes, range. intros x _ [?|?]; [left; lia|by right]. }
  destruct (contract_merged s t lo (c_addr e0 ⊖ m_startAddress (this s)) Hcn Hho Hft)
    as (m & Hcon & Hcut & Hfm); [apply w32_range|done|]. fold r in Hcon, Hcut, Hfm.
  assert (∀ x, heap_bytes s lo x → ¬ cut_bytes s r x) as Hap.
  { intros x Hx. by apply (cn_apart _ _ _ Hcn). }
  exists t, idx', e, add, test, m. rewrite Ha in *. split; try done.
  intros x Hx. pose proof (heap_only_array _ _ Hho) as Harr'.
  assert (¬ array s x) as Hnx by (rewrite <- Harr'; unfold array, range; lia).
  rewrite (Hfm x); [|lia|apply Hap; left; lia].
  apply Hf; [lia|]. unfold range. intros [?|?]; [lia|done].
Qed.

(** What happens to the heap afterwards is seen neither by the page tables nor
    by the chunks in front. *)
Lemma last_freed_after s lo idx p pre h r t idx' e add test m m' :
  contractible s lo r → last_freed s lo idx p pre h r t idx' e add test m →
  frame (λ x, range h (c_size e) x ∨ array s x) m m' →
  pages_cut s r m' ∧
  ∀ d, d ∈ pre → ∀ x, range (c_addr d) (c_size d) x → ld8 m' x = ld8 (mem s) x.
Proof.
  intros Hcn [(<- & _ & Hsz & _) _ Ht _ Hho _ Hcut _ _ Hfront] Hf.
  pose proof Ht as [Hlo Hhi [Hpre _ _ Hb]%chunks_ok_split _ Harr _].
  rewrite (heap_only_end _ _ Hho) in Hb, Hhi. pose proof (heap_only_array _ _ Hho) as Harr'. split.
  - intros q Hq. rewrite (read_entry_frame s lo r m m' q Hcn Hq); [by apply Hcut|].
    eapply frame_weaken; [exact Hf|]. unfold heap_bytes, range. intros x _ [?|?]; [left; lia|by right].
  - intros d Hd x Hx. apply list_elem_of_split in Hd as (l1 & l2 & ->).
    apply chunks_ok_split in Hpre as [_ _ _ Hdb]. unfold range in Hx.
    assert (¬ array s x) as Hnx by (rewrite <- Harr'; unfold array, range; lia).
    rewrite Hf; [apply Hfront; lia|lia|]. unfold range. intros [?|?]; [lia|done].
Qed.

(** The hole is still there: it ends at the new end of the heap. *)
Lemma last_freed_shrinks s lo idx p pre h t idx' e add test m n :
  last_freed s lo idx p pre h HEAP_MIN_SIZE t idx' e add test m →
  Z.of_nat (length idx) < m_maxSize (m_index (this s)) →
  heap_length s = m_endAddress (this s) - m_startAddress (this s) →
  HEAP_MIN_SIZE <= heap_length s → m_startAddress (this s) + HEAP_MIN_SIZE = h + n → 20 <= n →
  ∃ s' idx'', Free p s = Done tt s' ∧ heap_ok s' lo (pre ++ [MkChunk h n true true]) idx'' ∧
    m_endAddress (this s') = m_startAddress (this s) + HEAP_MIN_SIZE ∧
    frame (λ x, range h (c_size e) x ∨ array s x) m (mem s').
Proof.
  intros [(<- & He & Hsz & _) Hrun Ht [Hl Hlen] Hho Hcon _ Hfm Hap _] Hcap HLs HL Hn Hn20.
  pose proof Ht as [Hlo Hhi [_ (_ & _ & Hesz & _) _ Hb]%chunks_ok_split _ _ _].
  pose proof (heap_only_array _ _ Hho) as Harr. pose proof (heap_only_end _ _ Hho) as Het.
  pose proof (heap_only_length _ _ Hho : heap_length t = heap_length s) as HLt.
  assert (m_startAddress (this t) = m_startAddress (this s)) as Hst by apply Hho.
  pose proof (eq_refl : HEAP_MIN_SIZE = 0x70000) as Emin. rewrite Het in Hhi, Hb.
  destruct (shrunk_tiled (cut_bytes s HEAP_MIN_SIZE) t lo pre e idx' m n HEAP_MIN_SIZE)
    as [Hu Hfu]; [done|done|lia|lia|rewrite Hst, w32_small; lia|done| |].
  { intros x Hx. apply Hap. unfold heap_bytes. by rewrite <- Het, <- Harr. }
  destruct (list_hole _ lo _ idx' add (c_addr e) Hu) as (s' & idx'' & Hlist & Hs' & Hperm & Hho' & Hf3);
    [cbn; rewrite (heap_only_max _ _ Hho); lia|lia|].
  exists s', idx''. split; [|split; [split; [done|]|split]].
  - rewrite Hrun, <- Het. erewrite bind_done; [exact Hlist|].
    apply (contract_end_shrinks t _ test m); rewrite ?Het, ?Hst; [lia|done| |lia..].
    rewrite (frame_ld32 _ _ _ _ Hfm), Hesz, HLt, HLs; [|lia|lia|].
    + rewrite (w32_small (_ - HEAP_MIN_SIZE)), w32_small; lia.
    + intros x Hx. apply Hap. left. lia.
  - rewrite Hperm. by apply (listed_holes add idx' pre e (MkChunk (c_addr e) n true true) []).
  - rewrite (heap_only_end _ _ Hho'). cbn. rewrite Hst, w32_small; lia.
  - eapply frame_trans; (eapply frame_weaken; [eassumption|]); intros x _ Hx; [by left|right].
    by rewrite <- Harr.
Qed.

(** C8. [Free] contracts the heap.  When the freed chunk, joined to the holes
    next to it, is the last one, the heap starts below it and the minimum size
    falls inside it, the heap is cut to the minimum size: the hole ends there,
    with a header and a footer that say so, the index lists exactly the holes
    of the result, and every block keeps its bytes.  Of the pages behind the
    new end, those from the second one on have their page-table entries emptied;
    the loop of [Contract] ends before the first one ([cut]: its test is
    [new_size < i]), which stays mapped.  The conditions: a hole on the left has
    a valid footer, what lies below the first chunk and behind the last one
    looks like neither footer nor header, the index has an entry to spare, and
    page tables, directory and bitmap lie outside the heap ([contractible]). *)
Theorem Free_contracts s lo pre c post idx :
  heap_ok s lo (pre ++ c :: post) idx → c_hole c = false → left_ok (mem s) lo pre → outer post →
  (post = [] → ld32 (mem s) (m_endAddress (this s)) ≠ HEAP_MAGIC) →
  Z.of_nat (length idx) < m_maxSize (m_index (this s)) →
  contractible s lo HEAP_MIN_SIZE → 0 <= m_startAddress (this s) →
  let '(pre1, e) := join_left pre c in
  let off := c_addr e - m_startAddress (this s) in
  0 <= off → off + 20 <= HEAP_MIN_SIZE →
  m_startAddress (this s) + HEAP_MIN_SIZE <= m_endAddress (this s) →
  ∃ s' idx', Free (c_addr c + 12) s = Done tt s' ∧
    heap_ok s' lo (pre1 ++ [MkChunk (c_addr e) (HEAP_MIN_SIZE - off) true true]) idx' ∧
    m_endAddress (this s') = m_startAddress (this s) + HEAP_MIN_SIZE ∧
    pages_cut s HEAP_MIN_SIZE (mem s') ∧
    ∀ d, d ∈ pre → c_hole d = false →
      d ∈ pre1 ∧ ∀ x, range (c_addr d) (c_size d) x → ld8 (mem s') x = ld8 (mem s) x.
Proof.
  intros Hok Hc Hleft Hout Hend Hcap Hcn Hst.
  pose proof (Free_last_freed s lo pre c post idx Hok Hc Hleft Hout Hend) as HF.
  pose proof (λ d, join_left_blocks pre c d) as Hblocks.
  pose proof Hok as [[_ Hhi _ _ _ _] _]. pose proof (eq_refl : HEAP_MIN_SIZE = 0x70000) as Emin.
  destruct (join_left pre c) as [pre1 e0]. intros off Hoff0 Hoff1 HL. cbn [fst] in Hblocks.
  rewrite (w32_small (c_addr e0 - _)) in HF by lia. fold off in HF. rewrite contracted_min in HF by lia.
  assert (heap_length s = m_endAddress (this s) - m_startAddress (this s)) as HLs
    by (unfold heap_length; apply w32_small; lia).
  destruct HF as (t & idx' & e & add & test & m & Hlf); [done|lia|].
  destruct (last_freed_shrinks s lo idx _ pre1 (c_addr e0) t idx' e add test m (HEAP_MIN_SIZE - off) Hlf)
    as (s' & idx'' & Hrun & Hok' & He & Hf); [done|done|lia|unfold off; lia|lia|].
  destruct (last_freed_after s lo idx _ pre1 _ _ t idx' e add test m (mem s') Hcn Hlf Hf) as [Hcut Hfront].
  exists s', idx''. do 4 (split; [done|]).
  intros d Hd Hdh. split; [by apply Hblocks|]. by apply Hfront, Hblocks.
Qed.

(** ** A hole that vanishes *)
Lemma Alloc_at_result i size new s :
  ∃ s', Alloc_at i size new false s = Done (GetItemAtIndex (mem s) (m_index (this s)) i ⊕ 12) s'.
Proof.
  unfold Alloc_at, sizeof_Header, sizeof_Footer. rewrite !bind_gets. cbn [andb]. cbv zeta.
  rewrite bind_assoc, (bind_done _ _ _ _ _ (index_remove_eq i s)), bind_ret. cbv iota beta. hstores.
  match goal with |- context [if 0 <? ?n then _ else _] => destruct (0 <? n) end; hstores;
    [|by eexists].
  match goal with |- context [(if ?b then _ else _) ≫= _] => destruct b end; hstores;
    rewrite (bind_done _ _ _ _ _ (index_insert_eq _ _)); by eexists.
Qed.

(** The next request that only the hole [h] can hold is given [h], whether it
    lies in the heap or not. *)
Lemma Alloc_listed s lo cs idx h size fuel :
  tiled s lo cs idx → idx ≡ₚ h :: holes cs → size + 20 <= h_size (mem s) h →
  0 <= size < 4294967276 → (∀ d, d ∈ cs → c_hole d = true → c_size d < size + 20) →
  ∃ s', Alloc (S fuel) size false s = Done (h ⊕ 12) s'.
Proof.
  intros Ht Hperm Hfit Hsize Hsmall. pose proof (ho_chunks _ _ _ _ Ht) as Hcs.
  pose proof (ho_index _ _ _ _ Ht) as Hol.
  destruct (FindSmallestHole_spec _ _ _ (size + 20) false Hol) as [[Hnone _]|(i & a & _ & _ & Hfirst)].
  { rewrite Forall_forall in Hnone. specialize (Hnone h ltac:(rewrite Hperm; by left)).
    unfold hole_fits in Hnone. lia. }
  pose proof Hfirst as (Hi & Hfits & _).
  assert (a = h) as ->.
  { assert (a ∈ h :: holes cs) as Ha by (rewrite <- Hperm; by eapply list_elem_of_lookup_2).
    apply elem_of_cons in Ha as [|Ha]; [done|].
    apply in_holes in Ha as (pre & c & post & -> & <- & Hc).
    rewrite (hole_fits_chunk _ _ _ _ c _ Hcs) in Hfits by set_solver.
    specialize (Hsmall c ltac:(set_solver) Hc). lia. }
  destruct (Alloc_at_result (Z.of_nat i) size (size + 20) s) as [s' Hrun]. exists s'.
  rewrite (Alloc_first _ _ _ _ _ _ _ _ _ Ht Hsize Hfirst), Hrun.
  by rewrite (GetItemAtIndex_lookup _ _ _ _ _ Hol Hi).
Qed.

(** The heap without its last chunk. *)
Lemma cut_tiled P t lo pre e idx r m :
  tiled t lo (pre ++ [e]) idx → frame P (mem t) m → m_startAddress (this t) ⊕ r = c_addr e →
  (∀ x, lo <= x < m_endAddress (this t) ∨ array t x → ¬ P x) → tiled (resized r m t) lo pre idx.
Proof.
  intros [Hlo Hhi [Hpre _ _ Hb]%chunks_ok_split Hol Harr Hcap] Hf Hr HP.
  split; cbn; rewrite ?Hr; [done|lia| | |done|done].
  - eapply chunks_ok_frame; [exact Hf|lia|lia| |exact Hpre]. intros x Hx. apply HP. lia.
  - eapply ol_repr_frame; [exact Hf| |done]. intros x Hx. apply HP. right. unfold array, range. lia.
Qed.

Lemma last_freed_vanishes s lo idx p pre h r t idx' e add test m :
  last_freed s lo idx p pre h r t idx' e add test m →
  Z.of_nat (length idx) < m_maxSize (m_index (this s)) →
  m_startAddress (this s) ⊕ r = h → heap_length s ⊖ r = m_endAddress (this s) - h →
  ∃ s' idx'', Free p s = Done tt s' ∧ tiled s' lo pre idx'' ∧ idx'' ≡ₚ h :: holes pre ∧
    m_endAddress (this s') = h ∧ h_size (mem s') h = m_endAddress (this s) - h ∧
    frame (array s) m (mem s').
Proof.
  intros [(<- & He & Hsz & Htest) Hrun Ht [Hl Hlen] Hho Hcon _ Hfm Hap _] Hcap Hr HL.
  pose proof Ht as [Hlo Hhi [Hpre (_ & _ & Hesz & _) _ Hb]%chunks_ok_split Hol Harr0 Hcap'].
  pose proof (heap_only_array _ _ Hho) as Harr. pose proof (heap_only_end _ _ Hho) as Het.
  pose proof (heap_only_length _ _ Hho : heap_length t = heap_length s) as HLt.
  assert (m_startAddress (this t) = m_startAddress (this s)) as Hst by apply Hho.
  rewrite Het in Hhi, Hb.
  assert (∀ x, c_addr e <= x < m_endAddress (this s) → ¬ cut_bytes s r x) as Hape
    by (intros x Hx; apply Hap; left; lia).
  assert (tiled (resized r m t) lo pre idx') as Hu.
  { eapply cut_tiled; [exact Ht|exact Hfm|by rewrite Hst|].
    intros x Hx. apply Hap. unfold heap_bytes. by rewrite <- Het, <- Harr. }
  assert ((if add then c_addr e :: idx' else idx') ≡ₚ c_addr e :: holes pre) as Hperm.
  { rewrite (listed_holes add idx' pre e e []), holes_app, holes_cons, He by done. cbn.
    by rewrite Permutation_app_comm. }
  assert (ld32 m (c_addr e + 8) = c_size e) as Hesz'.
  { rewrite <- Hesz. eapply frame_ld32; [exact Hfm|lia..|]. intros x Hx. apply Hape. lia. }
  destruct (list_hole _ lo _ idx' add (c_addr e) Hu) as (s' & idx'' & Hlist & Hs' & Hperm' & Hho' & Hf3);
    [cbn; rewrite (heap_only_max _ _ Hho); lia|lia|]. cbn [mem resized set_kheap_object set_kmem set_mem] in Hf3.
  exists s', idx''. split_and!; [|done|by rewrite Hperm'| | |].
  - rewrite Hrun, <- Het. erewrite bind_done; [exact Hlist|].
    eapply (contract_end_vanishes t _ test m r idx');
      [rewrite Het; lia|by rewrite Hst|by rewrite Hesz', HLt, HL|by apply (ho_index _ _ _ _ Hu)|].
    intros Hin. assert (test ∈ c_addr e :: holes pre) as Hin'.
    { rewrite <- Hperm. destruct add; [by right|done]. }
    apply elem_of_cons in Hin' as [->|Hin']; [lia|].
    apply in_holes in Hin' as (l1 & d & l2 & -> & <- & _).
    apply chunks_ok_split in Hpre as [_ _ _ ?]. lia.
  - rewrite (heap_only_end _ _ Hho'). cbn. by rewrite Hst.
  - rewrite Hsz in Hesz'. rewrite <- Hesz'. unfold h_size. rewrite ld32_w32.
    eapply frame_ld32; [exact Hf3|lia..|]. unfold array, range; cbn. lia.
  - eapply frame_weaken; [exact Hf3|]. intros x _ Hx. by rewrite <- Harr.
Qed.

(** A hole that vanishes stays listed.  When the last chunk is freed, the
    offset of its hole is at least the minimum size and bit 12 of it is clear,
    the heap is cut down to exactly that offset and nothing of the hole is
    left; but [Free] looks in the index for the header to the right of it.
    The hole stays in the index, or is put there, with the size it had and an
    address that is now the end of the heap, and the next request that no other
    hole can hold, but this one could, is given memory from behind the end of
    the heap.  There the pages from the second one on have lost their
    page-table entries ([pages_cut]; the first one, at the new end, keeps its
    own).  The other conditions are those of [Free_contracts]. *)
Theorem Free_lists_vanished_hole s lo pre c post idx :
  heap_ok s lo (pre ++ c :: post) idx → c_hole c = false → left_ok (mem s) lo pre → outer post →
  (post = [] → ld32 (mem s) (m_endAddress (this s)) ≠ HEAP_MAGIC) →
  Z.of_nat (length idx) < m_maxSize (m_index (this s)) →
  let '(pre1, e) := join_left pre c in
  let off := c_addr e ⊖ m_startAddress (this s) in
  HEAP_MIN_SIZE <= off → Z.testbit off 12 = false →
  heap_length s = off + (m_endAddress (this s) - c_addr e) → 4096 <= heap_length s →
  contractible s lo off →
  ∃ s' idx', Free (c_addr c + 12) s = Done tt s' ∧ m_endAddress (this s') = c_addr e ∧
    tiled s' lo pre1 idx' ∧ idx' ≡ₚ c_addr e :: holes pre1 ∧ pages_cut s off (mem s') ∧
    ∀ size fuel, 0 <= size → size + 20 <= m_endAddress (this s) - c_addr e →
      (∀ d, d ∈ pre1 → c_hole d = true → c_size d < size + 20) →
      ∃ s'', Alloc (S fuel) size false s' = Done (m_endAddress (this s') + 12) s''.
Proof.
  intros Hok Hc Hleft Hout Hend Hcap.
  pose proof (Free_last_freed s lo pre c post idx Hok Hc Hleft Hout Hend) as HF.
  pose proof Hok as [[_ Hhi _ _ _ _] _].
  destruct (join_left pre c) as [pre1 e0]. intros off Hoff Hbit HL HL0 Hcn. cbv zeta in HF. fold off in HF.
  assert (contracted off = off) as Er by (unfold contracted; rewrite Hbit; lia). rewrite Er in HF.
  destruct (HF Hcn HL0) as (t & idx' & e & add & test & m & Hlf).
  assert (lo <= c_addr e0 < m_endAddress (this s) ∧ 0 <= lo) as Hb.
  { destruct Hlf as [(Ha & _) _ Ht _ Hho _ _ _ _ _].
    pose proof Ht as [? _ [_ _ _ Hb]%chunks_ok_split _ _ _]. rewrite (heap_only_end _ _ Hho), Ha in Hb. lia. }
  destruct (last_freed_vanishes s lo idx _ pre1 (c_addr e0) off t idx' e add test m Hlf Hcap)
    as (s' & idx'' & Hrun & Ht' & Hperm & He & Hsz & Hf).
  { unfold off. rewrite w32_add_r. rewrite w32_small; lia. }
  { rewrite HL, w32_small; lia. }
  destruct (last_freed_after s lo idx _ pre1 _ _ t idx' e add test m (mem s') Hcn Hlf) as [Hcut _].
  { eapply frame_weaken; [exact Hf|]. intros x _ Hx. by right. }
  exists s', idx''. do 5 (split; [done|]). intros size fuel Hs0 Hs1 Hsmall.
  destruct (Alloc_listed s' lo pre1 idx'' (c_addr e0) size fuel Ht' Hperm) as [s'' Ha];
    [lia|lia|done|].
  exists s''. rewrite Ha, He. f_equal. apply w32_small. lia.
Qed.

Lemma boot_offset_bit h :
  KHEAP_START <= h < KHEAP_START + KHEAP_INITIAL_SIZE →
  Z.testbit (h ⊖ 0xCFFFF000) 12 = negb (Z.testbit h 12).
Proof.
  unfold KHEAP_START, KHEAP_INITIAL_SIZE. intros Hh.
  assert (h ⊖ 0xCFFFF000 = h + 0x30001 * 4096) as -> by (rewrite w32_neg; lia).
  rewrite !Z.testbit_odd, !Z.shiftr_div_pow2 by lia. change (2 ^ 12) with 4096.
  rewrite Z.div_add, Z.odd_add by lia. apply xorb_true_r.
Qed.

Lemma entry_of_page s a : entry_of s a = entry_of s (4096 * (a / 4096)).
Proof.
  unfold entry_of, directory_of. by rewrite (Z.mul_comm 4096), Z.div_mul by lia.
Qed.

(** C36. Freeing at the end of the kernel's own heap can unmap the kernel.  The
    constructor has stored the maximum as the start address, so that lengths
    wrap around; when the last chunk's header has bit 12 clear, [Contract]
    settles on the minimum size and walks down from the heap's end past
    address 0: the page-table entry of every address below the heap's end, the
    kernel's own pages among them, loses its frame, and the end of the heap
    becomes an address above its maximum. *)
Theorem Contract_unmaps_kernel s h :
  m_startAddress (this s) = 0xCFFFF000 → m_endAddress (this s) = KHEAP_START + KHEAP_INITIAL_SIZE →
  KHEAP_START <= h < KHEAP_START + KHEAP_INITIAL_SIZE → Z.testbit h 12 = false →
  cut_ok s HEAP_MIN_SIZE →
  ∃ s', Contract (h ⊖ m_startAddress (this s)) s = Done HEAP_MIN_SIZE s' ∧
    m_endAddress (this s') = 0xD006F000 ∧
    ∀ a, 0 <= a < KHEAP_START + KHEAP_INITIAL_SIZE → Frame (read_page (mem s') (entry_of s a)) = 0.
Proof.
  intros Hst He Hh Hbit Hok. unfold KHEAP_START, KHEAP_INITIAL_SIZE in *.
  assert (heap_length s = 0xF0101000) as HL by (unfold heap_length; by rewrite Hst, He).
  assert (contracted (h ⊖ 0xCFFFF000) = HEAP_MIN_SIZE) as Er.
  { unfold contracted. by rewrite boot_offset_bit, Hbit by done. }
  rewrite Hst. rewrite <- Er in Hok.
  destruct (Contract_cuts (h ⊖ 0xCFFFF000) s) as (m & Hrun & Hcut & _);
    [apply w32_range|by rewrite HL|done|]. rewrite Er in *.
  exists (resized HEAP_MIN_SIZE m s). split; [done|]. split; [cbn; by rewrite Hst|].
  intros a Ha. rewrite entry_of_page, <- (w32_small (4096 * _)) by (Z.div_mod_to_equations; lia).
  replace (4096 * (a / 4096)) with (m_endAddress (this s) - 4096 * (0xC0100 - a / 4096)) by lia.
  fold (entry_below s (0xC0100 - a / 4096)). cbn [mem resized set_kheap_object set_kmem set_mem].
  rewrite Hcut; [done|]. unfold cut, HEAP_MIN_SIZE. rewrite HL. Z.div_mod_to_equations. lia.
Qed.
End contract.

(** ** Instances *)

(** A heap of 0x80000 bytes in two blocks, the first of [n] bytes; its pages are
    mapped by the table at 0x60000. *)
Definition two_blocks (n : Z) : list chunk :=
  [MkChunk 0x100000 n false true; MkChunk (0x100000 + n) (0x80000 - n) false true].
Definition two_block_memory (n : Z) : memory :=
  st32 (foldr (λ c m, write_chunk m (c_addr c) (c_size c) (c_hole c)) ∅ (two_blocks n)) 0x50000 0x60000.
Definition with_heap (start end_addr : Z) (m : memory) : machine :=
  set_bitmap 4096 0x1000 (set_kheap_object
    (MkHeap (MkOrderedList 0x8000 0 64) start end_addr 0 false false) (sample m)).
Definition two_block_heap (n : Z) : machine := with_heap 0x100000 0x180000 (two_block_memory n).

Lemma sample_entry st en m a :
  ld32 m 0x50000 = 0x60000 → (∀ i, 0 < i < 1024 → ld32 m (0x50000 + 4 * i) = 0) → 0 <= a < 4294967296 →
  entry_of (with_heap st en m) a =
    if a / 4096 / 1024 =? 0 then 0x60000 + 4 * (a / 4096 mod 1024) else 0.
Proof.
  intros H0 Hi Ha. pose proof (address_index a Ha) as Hidx.
  pose proof (Z.mod_pos_bound (a / 4096) 1024 ltac:(lia)).
  unfold entry_of, directory_of. cbn [pg with_heap set_bitmap set_pg kernel_directory mem set_kheap_object set_kmem sample].
  rewrite Tables_val by (done || (split; zdecide)).
  destruct (Z.eqb_spec (a / 4096 / 1024) 0) as [E|E].
  - rewrite E. replace (0x50000 + 4 * 0) with 0x50000 by done. rewrite H0. apply w32_small. lia.
  - by rewrite Hi by lia.
Qed.

Definition one_table (m : memory) : Prop :=
  ld32 m 0x50000 = 0x60000 ∧ ∀ i, 0 < i < 1024 → ld32 m (0x50000 + 4 * i) = 0.
Lemma one_table_by_evaluation m :
  ld32 m 0x50000 = 0x60000 →
  forallb (λ i, (Z.of_nat i =? 0) || (ld32 m (0x50000 + 4 * Z.of_nat i) =? 0)) (seq 0 1024) = true →
  one_table m.
Proof.
  intros H0 Hall. split; [done|]. intros i Hi.
  pose proof (forall_below 1024 (λ i, (i =? 0) || (ld32 m (0x50000 + 4 * i) =? 0)) Hall i ltac:(lia)) as Hb.
  cbv beta in Hb. apply orb_true_iff in Hb as [?%Z.eqb_eq|?%Z.eqb_eq]; [lia|done].
Qed.

Lemma sample_entry_below st en m q :
  one_table m → entry_below (with_heap st en m) q = 0 ∨
    0x60000 <= entry_below (with_heap st en m) q < 0x61000 ∧ entry_below (with_heap st en m) q mod 4 = 0.
Proof.
  intros [H0 Hi]. unfold entry_below. set (a := _ ⊖ _). assert (0 <= a < 4294967296) as Ha by apply w32_range.
  rewrite sample_entry by done. pose proof (Z.mod_pos_bound (a / 4096) 1024 ltac:(lia)).
  destruct (_ =? 0); [right|by left]. split; [lia|]. Z.div_mod_to_equations. lia.
Qed.

Lemma sample_cut_bytes st en m n x :
  one_table m → cut_bytes (with_heap st en m) n x →
  0x1000 <= x < 0x1200 ∨ 0x60000 <= x < 0x61000 ∨ 0 <= x < 4.
Proof.
  intros Ht [Hx|(q & _ & Hx)]; [left; exact Hx|right]. unfold range in Hx.
  destruct (sample_entry_below st en m q Ht) as [Hq|[Hq Hq4]]; [right; lia|left]. Z.div_mod_to_equations. lia.
Qed.

Lemma sample_cut_ok st en m n : one_table m → cut_ok (with_heap st en m) n.
Proof.
  intros Ht. split; [split; zdecide|split; [split; zdecide|]|].
  - intros x Hx Hc%sample_cut_bytes; [|done]. unfold dir_range, range, sizeof_PageDirectory in Hx. cbn in Hx. lia.
  - intros q _. assert (∀ x, bitmap_range (with_heap st en m) x → 0x1000 <= x < 0x1200) as Hbm by done.
    unfold page_apart. destruct (sample_entry_below st en m q Ht) as [-> | [Hq Hq4]];
      (split; [split_and!; [lia..|intros x Hx Hx'%Hbm; lia]|done]).
Qed.

Lemma sample_contractible en m n :
  one_table m → contractible (with_heap 0x100000 en m) 0x100000 n.
Proof.
  intros Ht. split; [by apply sample_cut_ok|]. intros x Hx.
  assert (0x100000 <= x ∨ 0x8000 <= x < 0x8100) as Hb by (destruct Hx as [Hx|Hx]; [left; lia|right; exact Hx]).
  split; [unfold dir_range, range, sizeof_PageDirectory; cbn; lia|].
  intros Hc%sample_cut_bytes; [lia|done].
Qed.

Lemma two_block_table n : n = 100 ∨ n = 0x70000 → one_table (two_block_memory n).
Proof. intros [-> | ->]; (apply one_table_by_evaluation; vm_compute; reflexivity). Qed.

Lemma two_block_ok n : n = 100 ∨ n = 0x70000 → heap_ok (two_block_heap n) 0x100000 (two_blocks n) [].
Proof.
  intros Hn. split; [|by destruct Hn as [-> | ->]]. split; [done|done| | |done|done].
  - unfold chunk_ok. destruct Hn as [-> | ->]; (cbn -[ld32 ld8 mem]; unfold chunk_ok; zdecide).
  - split_and!; [done| |done|done]. by intros i x Hx.
Qed.

(** The second block freed: the minimum size falls inside it. *)
Lemma Free_contracts_witness :
  let s := two_block_heap 100 in
  ∃ s' idx', @Free sample_image placement_allocator (0x100064 + 12) s = Done tt s' ∧
    heap_ok s' 0x100000 ([MkChunk 0x100000 100 false true] ++
      [MkChunk 0x100064 (HEAP_MIN_SIZE - (0x100064 - 0x100000)) true true]) idx' ∧
    m_endAddress (this s') = 0x100000 + HEAP_MIN_SIZE ∧
    pages_cut s HEAP_MIN_SIZE (mem s') ∧
    ∀ d, d ∈ [MkChunk 0x100000 100 false true] → c_hole d = false →
      d ∈ [MkChunk 0x100000 100 false true] ∧
      ∀ x, range (c_addr d) (c_size d) x → ld8 (mem s') x = ld8 (mem s) x.
Proof.
  apply (@Free_contracts sample_image placement_allocator (two_block_heap 100) 0x100000
    [MkChunk 0x100000 100 false true] (MkChunk 0x100064 (0x80000 - 100) false true) [] []).
  1: apply (two_block_ok 100); by left.
  6: apply sample_contractible, two_block_table; by left.
  all: zdecide.
Defined.

(** The second block lies behind the minimum size. *)
Lemma Free_lists_vanished_hole_witness :
  let s := two_block_heap 0x70000 in
  ∃ s' idx', @Free sample_image placement_allocator (0x170000 + 12) s = Done tt s' ∧
    m_endAddress (this s') = 0x170000 ∧
    tiled s' 0x100000 [MkChunk 0x100000 0x70000 false true] idx' ∧
    idx' ≡ₚ 0x170000 :: holes [MkChunk 0x100000 0x70000 false true] ∧
    pages_cut s (0x170000 ⊖ 0x100000) (mem s') ∧
    ∀ size fuel, 0 <= size → size + 20 <= 0x180000 - 0x170000 →
      (∀ d, d ∈ [MkChunk 0x100000 0x70000 false true] → c_hole d = true → c_size d < size + 20) →
      ∃ s'', @Alloc sample_image (S fuel) size false s' = Done (m_endAddress (this s') + 12) s''.
Proof.
  apply (@Free_lists_vanished_hole sample_image placement_allocator (two_block_heap 0x70000) 0x100000
    [MkChunk 0x100000 0x70000 false true] (MkChunk 0x170000 (0x80000 - 0x70000) false true) [] []).
  1: apply (two_block_ok 0x70000); by right.
  10: apply sample_contractible, two_block_table; by right.
  all: zdecide.
Defined.

Lemma Contract_unmaps_kernel_witness :
  let s := with_heap 0xCFFFF000 (KHEAP_START + KHEAP_INITIAL_SIZE) (st32 ∅ 0x50000 0x60000) in
  ∃ s', @Contract sample_image placement_allocator (0xC0080000 ⊖ m_startAddress (this s)) s = Done HEAP_MIN_SIZE s' ∧
    m_endAddress (this s') = 0xD006F000 ∧
    ∀ a, 0 <= a < KHEAP_START + KHEAP_INITIAL_SIZE → Frame (read_page (mem s') (entry_of s a)) = 0.
Proof.
  apply (@Contract_unmaps_kernel sample_image placement_allocator
    (with_heap 0xCFFFF000 (KHEAP_START + KHEAP_INITIAL_SIZE) (st32 ∅ 0x50000 0x60000)) 0xC0080000).
  5: apply sample_cut_ok, one_table_by_evaluation; vm_compute; reflexivity.
  all: zdecide.
Defined.
