(* ===== verification/Boot.v ===== *)
(** * kernel/kernel.cpp and [initialise_paging]: start-up

    The composition of all parts: [initialise_paging] of [paging.cpp] and
    [kernel_main]. *)
From S2P Require Import Prelude Memory LibString OrderedList Machine Console Stdio Descriptors Frames Kmalloc.
From S2P Require Import Initrd Paging Task Devices Heap HeapSpec HeapAlloc HeapAllocator.
Local Open Scope Z_scope.
Local Open Scope u32_scope.

(** ** paging.cpp: [initialise_paging] *)

(** [sizeof(Heap)]: the list (16 bytes), three addresses, two flags, padding. *)
Definition sizeof_Heap : Z := 32.
Definition mem_end_page : Z := 0x1000000.

Section initialise_paging.
Context `{Image}.

(** Bounds the nested calls of [Alloc] and the pages mapped by a loop. *)
Variable fuel : nat.

Definition boot_kmalloc : Allocator := kmalloc (Alloc fuel).

(** The loops over pages: [i] is an [int] compared as an unsigned number. *)
Definition for_pages (start stop : Z) (body : Z → K unit) : K Z :=
  whileM fuel (λ i _, i <? stop) (λ i, body i ;; mret (i ⊕ 0x1000)) start.

(** [get_page(i, 1, kernel_directory)] *)
Definition kernel_page (i : Z) : K Z :=
  kd ← gets (λ s, kernel_directory (pg s));
  @get_page _ boot_kmalloc i true kd.

(** [alloc_frame(get_page(i, 1, kernel_directory), false, false)] *)
Definition map_page (i : Z) : K unit :=
  page ← kernel_page i;
  alloc_frame page false false.

(** The bitmap: as many bytes as it needs words. *)
Definition make_bitmap : K unit :=
  let n := mem_end_page / 0x1000 in
  modify (λ s, set_bitmap n (frames (pg s)) s) ;;
  r ← kmalloc (Alloc fuel) (INDEX_FROM_BIT n) false None;
  modify (set_bitmap n r.1) ;;
  on_mem (λ m, ((memset m r.1 0 (INDEX_FROM_BIT n)).1, tt)).

Definition make_kernel_directory : K unit :=
  d ← kmalloc_a (Alloc fuel) sizeof_PageDirectory;
  modify (set_kernel_directory d) ;;
  on_mem (λ m, ((memset m d 0 sizeof_PageDirectory).1, tt)) ;;
  store32 (PhysicalAddress d) (TablesPhysical d 0).

(** "A while loop causes this to be computed on-the-fly". *)
Definition identity_map : K Z :=
  whileM fuel (λ i s, i <? placement_address (kmem s) ⊕ 0x1000)
    (λ i, map_page i ;; mret (i ⊕ 0x1000)) 0.

(** All that comes before the heap. *)
Definition map_kernel : K unit :=
  make_bitmap ;;
  make_kernel_directory ;;
  for_pages KHEAP_START (KHEAP_START ⊕ KHEAP_INITIAL_SIZE) (λ i, kernel_page i ;; mret tt) ;;
  identity_map ;;
  for_pages KHEAP_START (KHEAP_START ⊕ KHEAP_INITIAL_SIZE) map_page ;;
  kd ← gets (λ s, kernel_directory (pg s));
  modify (switch_page_directory kd).

(** [kheap = new Heap(...)] *)
Definition make_heap : K unit :=
  r ← kmalloc (Alloc fuel) sizeof_Heap false None;
  modify (set_kheap r.1) ;;
  h ← Heap_new KHEAP_START (KHEAP_START ⊕ KHEAP_INITIAL_SIZE) 0xCFFFF000 false false;
  modify (set_kheap_object h).

Definition initialise_paging : K unit :=
  map_kernel ;;
  make_heap ;;
  kd ← gets (λ s, kernel_directory (pg s));
  d ← @clone_directory _ boot_kmalloc kd;
  modify (set_current_directory d) ;;
  cd ← gets (λ s, current_directory (pg s));
  modify (switch_page_directory cd).
End initialise_paging.

(** ** multiboot.h, kernel.cpp *)
Definition mods_addr (mboot_ptr : Z) : Z := mboot_ptr ⊕ 24.

Definition set_initial_esp (n : Z) (s : machine) : machine :=
  set_tasks (MkTasks (current_task (tasks s)) (ready_queue (tasks s)) (next_pid (tasks s)) n) s.
Definition set_fs_root (n : Z) (s : machine) : machine :=
  let r := initrd s in
  set_initrd (MkInitrd (initrd_header r) (file_headers r) (initrd_root r) (initrd_dev r) (root_nodes r) (nroot_nodes r) n) s.

Section kernel_main.
Context `{Image} `{Tables_image} `{Devices_image} `{Initrd_image}.
Variable fuel : nat.

(** The literal "Hello, kernel World!\n". *)
Variable lit_hello : Z.

(** Up to the first task: the tables, the handlers, the memory. *)
Definition start_up (mboot_ptr initial_stack : Z) : K (Z * Z) :=
  modify (set_initial_esp initial_stack) ;;
  InitGDT ;;
  Init_IDT ;;
  mods ← load32 (mods_addr mboot_ptr);
  initrd_location ← load32 mods;
  mods ← load32 (mods_addr mboot_ptr);
  initrd_end ← load32 (mods ⊕ 4);
  modify (SetPlacementAddress initrd_end) ;;
  InstallHandler 1 keyboard_handler_address ;;
  Timer_new 100 ;;
  initialise_paging fuel ;;
  mret (initrd_location, initrd_end).

(** [x] are the registers where [fork] reads them. *)
Definition kernel_main (mboot_ptr initial_stack : Z) (x : context) : K unit :=
  r ← start_up mboot_ptr initial_stack;
  @initialise_tasking (boot_kmalloc fuel) ;;
  ret ← @fork _ (boot_kmalloc fuel) fuel x;
  pid ← getpid;
  printf fuel lit_hello [] ;;
  sti ;;
  root ← @initialise_initrd _ fuel (boot_kmalloc fuel) r.1;
  modify (set_fs_root root).
End kernel_main.
