(* ===== verification/BootMap.v ===== *)
(** * The first page tables

    What [map_kernel], the part of [initialise_paging] before the heap, means to
    the processor: [translate] is its two-level walk from CR3, and every
    address in use is mapped to itself. *)
From S2P Require Import Prelude Memory LibString OrderedList Machine Console Stdio Descriptors Frames Kmalloc.
From S2P Require Import Initrd Paging MapPages Task Devices Heap HeapSpec HeapAlloc HeapAllocator Boot.
Local Open Scope Z_scope.
Local Open Scope u32_scope.

(** ** The processor's view: address translation *)

(** The two-level walk from CR3: the word of the page directory, then the word
    of the page table; [None] is a page fault. *)
Definition translate (m : memory) (cr3 a : Z) : option Z :=
  let pde := ld32 m (cr3 ⊕ 4 * (a / 0x400000)) in
  if Z.testbit pde 0 then
    let pte := ld32 m (Z.land pde 0xFFFFF000 ⊕ 4 * (a / 0x1000 mod 1024)) in
    if Z.testbit pte 0 then Some (Z.land pte 0xFFFFF000 + a mod 0x1000) else None
  else None.

Lemma testbit_low w : Z.testbit w 0 = Z.odd w.
Proof. by rewrite Z.bit0_odd. Qed.

Lemma flagged_table t :
  0 <= t → t mod 4096 = 0 → t < 4294967296 →
  Z.lor t 7 = t + 7 ∧ Z.testbit (t + 7) 0 = true ∧ Z.land (t + 7) 0xFFFFF000 = t.
Proof.
  intros H0 Hal H1. pose proof (Z.div_mod t 4096 ltac:(lia)) as Hdm.
  assert (Z.land t 7 = 0) as Hland.
  { change 7 with (Z.ones 3). rewrite Z.land_ones by lia. change (2 ^ 3) with 8.
    replace t with (t / 4096 * 512 * 8) by lia. apply Z.mod_mul. lia. }
  split_and!.
  - rewrite <- Z.lxor_lor by done. symmetry. by apply Z.add_nocarry_lxor.
  - rewrite testbit_low. replace (t + 7) with (1 + 2 * (t / 4096 * 2048 + 3)) by lia.
    by rewrite Z.odd_add_mul_2.
  - rewrite land_page by (Z.div_mod_to_equations; lia).
    replace (t + 7) with (7 + t / 4096 * 4096) by lia. rewrite Z.div_add by lia.
    change (7 / 4096) with 0. lia.
Qed.

Lemma entry_word w f :
  Present (page_of_word w) = true → Frame (page_of_word w) = f → 0 <= w < 4294967296 →
  Z.testbit w 0 = true ∧ Z.land w 0xFFFFF000 = f * 4096.
Proof.
  intros Hp Hf Hw. split; [exact Hp|]. rewrite land_page by done. cbn in Hf. subst f.
  rewrite Z.mod_small; [done|]. Z.div_mod_to_equations. lia.
Qed.

(** The walk through the table at [t]. *)
Lemma translate_table m cr3 a t :
  0 <= cr3 → cr3 + 4096 <= 4294967296 → 0 <= a < 4294967296 → 0 < t → t mod 4096 = 0 → t + 4096 <= 4294967296 →
  ld32 m (cr3 + 4 * (a / 4194304)) = t + 7 →
  translate m cr3 a =
    let p := read_page m (t + 4 * (a / 4096 mod 1024)) in
    if Present p then Some (Frame p * 4096 + a mod 4096) else None.
Proof.
  intros Hc0 Hc1 Ha Ht0 Hal Ht1 Hpde. unfold translate.
  destruct (flagged_table t) as (E1 & E2 & E3); [lia..|].
  assert (0 <= a / 4194304 < 1024) as Hd by (Z.div_mod_to_equations; lia).
  pose proof (Z.mod_pos_bound (a / 4096) 1024 ltac:(lia)) as Hm.
  rewrite (w32_small (cr3 + _)) by lia. rewrite Hpde, E2, E3, w32_small by lia.
  cbv zeta. unfold read_page. set (w := ld32 m _). change (Z.testbit w 0) with (Present (page_of_word w)).
  destruct (Present (page_of_word w)) eqn:Ep; [|done].
  destruct (entry_word w (Frame (page_of_word w))) as [_ ->]; [done|done|apply ld32_range|done].
Qed.

Lemma translate_no_table m cr3 a :
  0 <= cr3 → cr3 + 4096 <= 4294967296 → 0 <= a < 4294967296 →
  ld32 m (cr3 + 4 * (a / 4194304)) = 0 → translate m cr3 a = None.
Proof.
  intros Hc0 Hc1 Ha Hpde. unfold translate.
  assert (0 <= a / 4194304 < 1024) as Hd by (Z.div_mod_to_equations; lia).
  rewrite (w32_small (cr3 + _)) by lia. by rewrite Hpde.
Qed.

(** ** Mapping pages *)

(** The bitmap at [B], the directory at [D]; placement allocator. *)
Record early (s : machine) (B D : Z) : Prop := {
  ea_kheap : kheap (kmem s) = 0;
  ea_bitmap : frames (pg s) = B ∧ nframes (pg s) = 4096;
  ea_directory : kernel_directory (pg s) = D;
  ea_layout : 0 < B ∧ B + 512 <= D ∧ D mod 4096 = 0 ∧
    D + sizeof_PageDirectory <= placement_address (kmem s) < 4294967296;
}.

Lemma early_set_mem s B D m : early s B D → early (set_mem m s) B D.
Proof. intros []. by split. Qed.

Lemma early_bitmap s B D : early s B D → bitmap_ok s ∧ frame_limit s = 4096 ∧ bitmap_range s = range B 512.
Proof.
  intros [_ [Hf Hn] _ (? & ? & ? & ?)]. unfold bitmap_ok, frame_limit, bitmap_range. rewrite Hf, Hn.
  change (4096 / 32) with 128. unfold sizeof_PageDirectory in *. split_and!; [lia..|done|done].
Qed.

(** What start-up touches from the placement address [P] on: the memory there,
    the allocator, the globals of paging. *)
Definition boot_only (P : Z) (s s' : machine) : Prop :=
  (tty s' = tty s ∧ irq s' = irq s ∧ tasks s' = tasks s ∧ initrd s' = initrd s ∧ trace s' = trace s) ∧
  frame (λ x, P <= x) (mem s) (mem s').
#[export] Instance boot_only_preorder P : PreOrder (boot_only P).
Proof.
  split; [intros s; split; [done|apply frame_refl]|].
  intros x y z [? H1] [? H2]. split; [intuition congruence|by eapply frame_trans].
Qed.
Lemma boot_only_step P Q s s' :
  same_but_kmem s s' → frame Q (mem s) (mem s') → (∀ x, Q x → P <= x) → boot_only P s s'.
Proof.
  intros (_ & ? & ? & ? & ? & ?) Hf HQ. split; [done|]. eapply frame_weaken; [exact Hf|]. intros x _. apply HQ.
Qed.

(** The directory at [D]: its tables, and their addresses for the processor,
    present, writable and open to user mode. *)
Definition directory_is (m : memory) (D : Z) (ts : Z → Z) : Prop :=
  ∀ i, 0 <= i < 1024 →
    ld32 m (Tables D i) = ts i ∧
    ld32 m (TablesPhysical D i) = if ts i =? 0 then 0 else ts i + 7.

Lemma early_used P s s' B D n :
  early s B D → pg s' = pg s → frame P (mem s) (mem s') → (∀ x, range B 512 x → ¬ P x) →
  used_below s 1024 n → used_below s' 1024 n.
Proof.
  intros He Hpg Hf HP. destruct (early_bitmap _ _ _ He) as (Hb & Hlim & Hbr).
  eapply used_below_frame; [done|lia|done|exact Hf|by rewrite Hbr].
Qed.

Section map.
Context `{Image}.
Variable fuel : nat.

(** The table at [t] maps its first [k] pages, to the frames from [f] on, and
    no other page. *)
Definition table_maps (m : memory) (t f k : Z) : Prop :=
  pages_mapped false false m t 0 f k ∧ ∀ q, k <= q < 1024 → ld32 m (t + 4 * q) = 0.
Definition table_place (t : Z) : Prop := 0 < t ∧ t mod 4096 = 0 ∧ t + 4096 <= 4294967296.

(** The loops around [map_page], once the table is there. *)
Lemma map_pages_ok s B D a t f n cond :
  early s B D → 0 <= a → a mod 4096 = 0 → a + 4096 * n < 4294967296 →
  let j := a / 4096 mod 1024 in
  ld32 (mem s) (Tables D (a / 4096 / 1024)) = t →
  D + sizeof_PageDirectory <= t → t + 4096 <= 4294967296 → 0 <= n → j + n <= 1024 →
  (∀ q, 0 <= q < n → ld32 (mem s) (t + 4 * (j + q)) = 0) →
  used_below s 1024 f → 0 <= f → f + n <= 1024 →
  (∀ m k, 0 <= k <= n → cond (a + 4096 * k) (set_mem m s) = (k <? n)) → (Z.to_nat n <= fuel)%nat →
  ∃ m i, whileM fuel cond (λ i, map_page fuel i ;; mret (i ⊕ 0x1000)) a s = Done i (set_mem m s) ∧
    pages_mapped false false m t j f n ∧ used_below (set_mem m s) 1024 (f + n) ∧
    frame (λ x, range B 512 x ∨ range (t + 4 * j) (4 * n) x) (mem s) m.
Proof.
  intros He Ha0 Hal Ha1 j Ht Ht0 Ht1 Hn Hj Hz Hu Hf0 Hf1 Hcond Hfuel.
  destruct (early_bitmap _ _ _ He) as (Hb & Hlim & Hbr).
  pose proof (ea_layout _ _ _ He) as (HB0 & HB1 & _ & HD1). unfold sizeof_PageDirectory in *.
  pose proof (Z.mod_pos_bound (a / 4096) 1024 ltac:(lia)) as Hj0. fold j in Hj0.
  destruct (map_pages_run false false s 1024 a t j f n fuel cond (λ i, map_page fuel i ;; mret (i ⊕ 0x1000)))
    as (m & Hrun & Hmap & Hused & Hfr); try done; try lia.
  - rewrite Hbr. unfold range. lia.
  - intros m k Hk Hfr. destruct (page_index a k) as [Ej Ei]; [lia..|]. fold j in Ej.
    rewrite <- (w32_small (t + 4 * (j + k))) by lia. unfold map_page. rewrite bind_assoc.
    rewrite (bind_done (kernel_page fuel (a + 4096 * k)) _ _ (Pages t (j + k)) (set_mem m s)); [done|].
    assert (ld32 m (Tables D (a / 4096 / 1024)) = t) as Htm.
    { assert (0 <= a / 4096 / 1024 < 1024) by (apply address_index; lia).
      rewrite <- Ht. unfold entries_or_bitmap in Hfr. rewrite Hbr in Hfr.
      eapply frame_ld32; [exact Hfr|..]; rewrite Tables_val by (unfold dir_ok, sizeof_PageDirectory; lia);
        unfold range; lia. }
    unfold kernel_page. rewrite bind_gets. cbn [pg set_mem]. rewrite (ea_directory _ _ _ He).
    rewrite get_page_present; unfold directory_of; rewrite Ei, mem_set_mem, Htm; [by rewrite Ej|lia].
  - exists m, (a + 4096 * n). unfold entries_or_bitmap in Hfr. rewrite Hbr in Hfr. by split_and!.
Qed.

(** ** Creating a table *)
Lemma kernel_page_make s B D ts a :
  early s B D → directory_is (mem s) D ts → 0 <= a < 4294967296 → ts (a / 4096 / 1024) = 0 →
  let pa := placement_address (kmem s) in
  let t := (pa / 4096 + 1) * 4096 in
  pa + 8192 < 4294967296 →
  ∃ s', kernel_page fuel a s = Done (Pages t (a / 4096 mod 1024)) s' ∧
    early s' B D ∧ directory_is (mem s') D (λ i, if i =? a / 4096 / 1024 then t else ts i) ∧
    (∀ x, range t 4096 x → ld8 (mem s') x = 0) ∧
    placement_address (kmem s') = t + 4096 ∧ same_but_kmem s s' ∧
    frame (λ x, pa <= x ∨ range D 8192 x) (mem s) (mem s').
Proof.
  intros He Hdir Ha Hfree pa t Hpa. pose proof He as [Hkh Hbm Hkd (HB0 & HB1 & HDal & HD1)].
  fold pa in HD1. unfold sizeof_PageDirectory in HD1. pose proof (address_index a Ha) as Hi. set (i := a / 4096 / 1024) in *.
  assert (pa <= t <= pa + 4096 ∧ t mod 4096 = 0) as [Ht Htal]
    by (destruct (placement_bounds pa true ltac:(lia)) as [? E]; split; [done|by apply E]).
  assert (dir_ok D) as Hd by (unfold dir_ok, sizeof_PageDirectory; lia).
  pose proof (placement_kmalloc_eq (Alloc fuel) s sizeof_PageTable true (Some indeterminate)) as Halloc.
  unfold placement in Halloc. fold pa in Halloc. fold t in Halloc. cbv zeta in Halloc.
  specialize (Halloc Hkh ltac:(lia) ltac:(unfold sizeof_PageTable; lia) ltac:(done)).
  destruct (@get_page_make_from _ (early_allocator (Alloc fuel)) (early_spec (Alloc fuel)) (early_allocator_laws _) s a D t
    (set_placement_address (t + sizeof_PageTable) s)) as (s' & Hrun & Hmade & Hflag & Hkm).
  - exact Halloc.
  - unfold sizeof_PageTable. split; cbn -[demand]; unfold range; try (lia || done || apply frame_refl).
    intros l. rewrite demand_cons. fold pa. lia.
  - done.
  - unfold dir_range, range, sizeof_PageDirectory. cbn. lia.
  - done.
  - unfold directory_of. fold i. by destruct (Hdir i Hi) as [-> _].
  - destruct Hmade as [_ Hslot Hzero _ _ _ Hf Hrest]. pose proof Hrest as (Hpg & _). unfold flagged_physical in Hflag. fold i in Hslot, Hflag, Hf.
    assert (frame (λ x, pa <= x ∨ slot_words D i x) (mem s) (mem s')) as Hf'.
    { eapply frame_weaken; [exact Hf|]. cbn. fold pa. intros x _ [?|?]; [left; lia|by right]. }
    exists s'. split_and!.
    + unfold kernel_page. by rewrite bind_gets, Hkd.
    + split; rewrite ?Hkm, ?Hpg; [done..|]. cbn. unfold sizeof_PageTable, sizeof_PageDirectory. lia.
    + intros q Hq. cbv beta. destruct (Z.eqb_spec q i) as [->|Hne].
      * rewrite Hslot, Hflag. split; [done|]. change (reported t indeterminate) with t.
        destruct (flagged_table t) as [-> _]; [lia..|]. rewrite w32_small by (Z.div_mod_to_equations; lia).
        destruct (Z.eqb_spec t 0); lia.
      * destruct (Hdir q Hq) as [E1 E2]. rewrite <- E2, <- E1, Tables_val, TablesPhysical_val by done.
        split; (eapply frame_ld32; [exact Hf'|unfold slot_words, range; lia..]).
    + done.
    + rewrite Hkm. cbn. unfold sizeof_PageTable. lia.
    + done.
    + eapply frame_weaken; [exact Hf'|]. unfold slot_words, range. lia.
Qed.

(** ** The bitmap and the directory *)
Lemma tables_start s :
  let P := placement_address (kmem s) in
  kheap (kmem s) = 0 → 4096 <= P → P mod 4096 <= 3584 → P + 0x10000 < 4294967296 →
  let D := (P / 4096 + 1) * 4096 in
  ∃ s1, make_bitmap fuel s = Done tt s1 ∧ ∃ s2, make_kernel_directory fuel s1 = Done tt s2 ∧
    early s2 P D ∧ directory_is (mem s2) D (λ _, 0) ∧ used_below s2 1024 0 ∧
    placement_address (kmem s2) = D + 8196 ∧ ld32 (mem s2) (PhysicalAddress D) = D + 4096 ∧
    boot_only P s s2.
Proof.
  intros P Hkh HP Hoff Htop D. assert (P + 512 <= D <= P + 4096 ∧ D mod 4096 = 0) as [HD HDal]
    by (unfold D; split; [Z.div_mod_to_equations; lia|by apply Z.mod_mul]).
  assert (dir_ok D) as Hd by (unfold dir_ok, sizeof_PageDirectory; lia).
  unfold make_bitmap. change (mem_end_page / 0x1000) with 4096. change (INDEX_FROM_BIT 4096) with 128.
  rewrite bind_modify. erewrite bind_done; [|apply placement_kmalloc_eq; cbn; fold P; (done || lia)].
  rewrite bind_modify. cbn [fst placement]. unfold on_mem. rewrite memset_pair. cbn. fold P.
  destruct (memset_spec (mem s) P 0 128) as [Hf1 Hz1]; [lia..|]. set (m1 := (memset (mem s) P 0 128).1) in *.
  clearbody m1. eexists. split; [reflexivity|]. eexists.
  unfold make_kernel_directory, kmalloc_a. rewrite bind_assoc.
  erewrite bind_done; [|apply placement_kmalloc_eq; cbn; unfold sizeof_PageDirectory; (done || lia)].
  cbn -[ld32 memset]. assert (((P + 128) / 4096 + 1) * 4096 = D) as ->
    by (unfold D; Z.div_mod_to_equations; lia).
  rewrite bind_ret, bind_modify. erewrite bind_on_mem by reflexivity.
  destruct (memset_spec m1 D 0 sizeof_PageDirectory) as [Hf2 Hz2]; [unfold sizeof_PageDirectory; lia..|].
  cbn -[ld32 st32 memset]. set (m2 := (memset m1 D 0 sizeof_PageDirectory).1) in *.
  unfold store32, modify. cbn -[ld32 st32]. split; [reflexivity|]. fold m2. clearbody m2.
  rewrite PhysicalAddress_val, TablesPhysical_val by (done || lia). rewrite Z.mul_0_r, Z.add_0_r.
  unfold sizeof_PageDirectory, range in *.
  assert (frame (λ x, D <= x) m1 (st32 m2 (D + 8192) (D + 4096))) as Hf.
  { apply frame_st32; [|lia..]. eapply frame_weaken; [exact Hf2|cbn; lia]. }
  assert (∀ x, D <= x < D + 8192 → ld8 (st32 m2 (D + 8192) (D + 4096)) x = 0) as Hz.
  { intros x Hx. rewrite ld8_st32_near_ne by lia. apply Hz2. lia. }
  split_and!.
  - split; cbn; unfold sizeof_PageDirectory; [done|done|done|lia].
  - intros i Hi. cbn -[ld32 st32]. rewrite Tables_val, TablesPhysical_val by done.
    split; apply ld32_zero; intros; apply Hz; lia.
  - intros g Hg. rewrite (proj2 (Z.ltb_ge g 0)) by lia. unfold frame_used, frame_word. cbn -[ld32 st32].
    rewrite ld32_zero; [by rewrite Z.bits_0|]. intros x Hx. assert (0 <= g / 32 < 32) by (Z.div_mod_to_equations; lia).
    rewrite w32_small in Hx by lia. rewrite (frame_ld8 _ _ _ _ Hf) by lia. apply Hz1. lia.
  - cbn. lia.
  - rewrite mem_set_mem, ld32_st32_eq. apply w32_small. lia.
  - split; [done|]. cbn [mem set_mem]. eapply frame_trans; eapply frame_weaken; [exact Hf1|cbn; lia|exact Hf|cbn; lia].
Qed.

(** ** The three loops *)
Lemma kernel_page_present s B D ts a :
  early s B D → directory_is (mem s) D ts → 0 <= a < 4294967296 → ts (a / 4096 / 1024) ≠ 0 →
  kernel_page fuel a s = Done (Pages (ts (a / 4096 / 1024)) (a / 4096 mod 1024)) s.
Proof.
  intros He Hdir Ha Hts. destruct (Hdir _ (address_index a Ha)) as [E _].
  unfold kernel_page. rewrite bind_gets, (ea_directory _ _ _ He).
  rewrite get_page_present; unfold directory_of; by rewrite E.
Qed.

(** A loop whose first step does the same in another state. *)
Lemma whileM_made {A} n cond (body : A → K A) a s s' :
  cond a s = true → cond a s' = true → body a s = body a s' →
  whileM n cond body a s = whileM n cond body a s'.
Proof.
  intros Hc Hc' Hb. destruct n as [|n]; simpl; rewrite Hc, Hc'; [done|].
  unfold mbind, kernel_bind. by rewrite Hb.
Qed.

Lemma heap_page k :
  0 <= k < 1024 →
  (KHEAP_START + 4096 * k) / 4096 / 1024 = 768 ∧ (KHEAP_START + 4096 * k) / 4096 mod 1024 = k.
Proof. unfold KHEAP_START. intros. Z.div_mod_to_equations. lia. Qed.

Definition heap_pages : K Z :=
  for_pages fuel KHEAP_START (KHEAP_START ⊕ KHEAP_INITIAL_SIZE) (λ i, kernel_page fuel i ;; mret tt).

Lemma heap_pages_ok s B D :
  early s B D → directory_is (mem s) D (λ _, 0) → (256 <= fuel)%nat →
  let pa := placement_address (kmem s) in
  let t := (pa / 4096 + 1) * 4096 in
  pa + 8192 < 4294967296 →
  ∃ i s', heap_pages s = Done i s' ∧
    early s' B D ∧ directory_is (mem s') D (λ i, if i =? 768 then t else 0) ∧
    (∀ x, range t 4096 x → ld8 (mem s') x = 0) ∧
    placement_address (kmem s') = t + 4096 ∧ same_but_kmem s s' ∧
    frame (λ x, pa <= x ∨ range D 8192 x) (mem s) (mem s').
Proof.
  intros He Hdir Hfuel pa t Hpa. pose proof (ea_layout _ _ _ He) as (? & ? & _ & Hpa0). fold pa in Hpa0.
  destruct (kernel_page_make s B D (λ _, 0) KHEAP_START) as (s' & Hrun & He' & Hdir' & Hrest);
    [done|done|done|done|done|]. fold pa in Hrest. fold t in Hrest, Hrun, Hdir'.
  change (KHEAP_START / 4096 / 1024) with 768 in *.
  assert (0 < t) as Ht by (unfold t, sizeof_PageDirectory in *; Z.div_mod_to_equations; lia).
  assert (∀ k, 0 <= k < 1024 → ∃ p, kernel_page fuel (KHEAP_START + 4096 * k) s' = Done p s') as Hpresent.
  { intros k Hk. destruct (heap_page k Hk) as [E _]. eexists.
    eapply kernel_page_present; [done|exact Hdir'|unfold KHEAP_START; lia|]. rewrite E. change (t ≠ 0). lia. }
  set (body := λ i : Z, (kernel_page fuel i ;; mret tt) ;; mret (i ⊕ 0x1000)).
  destruct (whileM_total (λ i s1, s1 = s' ∧ ∃ k, i = KHEAP_START + 4096 * k ∧ 0 <= k <= 256)
    (λ i _, Z.to_nat ((KHEAP_START + KHEAP_INITIAL_SIZE - i) / 4096))
    (λ i _, i <? KHEAP_START ⊕ KHEAP_INITIAL_SIZE) body fuel KHEAP_START s')
    as (i & s1 & Hloop & (-> & _) & _).
  - split; [done|]. exists 0. lia.
  - change (Z.to_nat ((KHEAP_START + KHEAP_INITIAL_SIZE - KHEAP_START) / 4096)) with 256%nat. done.
  - intros i s1 (-> & k & -> & Hk) Hc. change (KHEAP_START ⊕ KHEAP_INITIAL_SIZE) with (KHEAP_START + 4096 * 256) in Hc.
    change (KHEAP_START + KHEAP_INITIAL_SIZE) with (KHEAP_START + 4096 * 256).
    apply Z.ltb_lt in Hc. destruct (Hpresent k) as [p Hp]; [lia|].
    eexists _, s'. split; [unfold body; by rewrite bind_assoc, (bind_done _ _ _ _ _ Hp)|].
    rewrite w32_small by (unfold KHEAP_START in *; lia). split.
    + split; [done|]. exists (k + 1). lia.
    + Z.div_mod_to_equations. lia.
  - exists i, s'. split; [|exact (conj He' (conj Hdir' Hrest))]. rewrite <- Hloop. unfold heap_pages, for_pages.
    apply whileM_made; [done|done|]. destruct (Hpresent 0) as [p Hp]; [lia|]. rewrite Z.add_0_r in Hp.
    rewrite !bind_assoc, (bind_done _ _ _ _ _ Hrun), (bind_done _ _ _ _ _ Hp). done.
Qed.

Lemma directory_is_frame P m m' D ts :
  frame P m m' → dir_ok D → (∀ x, range D 8192 x → ¬ P x) → directory_is m D ts → directory_is m' D ts.
Proof.
  intros Hf Hd HP Hdir i Hi. destruct (Hdir i Hi) as [<- <-]. pose proof Hd as [? ?].
  unfold range, sizeof_PageDirectory in *. rewrite Tables_val, TablesPhysical_val by done.
  split; (eapply frame_ld32; [exact Hf|lia..|]); intros; apply HP; lia.
Qed.

Lemma early_dir_ok s B D : early s B D → dir_ok D.
Proof. intros [_ _ _ (? & ? & _ & ?)]. unfold dir_ok, sizeof_PageDirectory in *. lia. Qed.

Lemma heap_map_ok s B D ts t n :
  early s B D → directory_is (mem s) D ts → ts 768 = t → D + 8196 <= t → t + 4096 <= 4294967296 →
  (∀ x, range t 4096 x → ld8 (mem s) x = 0) → used_below s 1024 n → 0 <= n → n + 256 <= 1024 →
  (256 <= fuel)%nat →
  ∃ i m, for_pages fuel KHEAP_START (KHEAP_START ⊕ KHEAP_INITIAL_SIZE) (map_page fuel) s = Done i (set_mem m s) ∧
    pages_mapped false false m t 0 n 256 ∧ frame (λ x, range B 512 x ∨ range t 1024 x) (mem s) m.
Proof.
  intros He Hdir Hts Ht0 Ht1 Hz Hu Hn0 Hn1 Hfuel.
  destruct (map_pages_ok s B D KHEAP_START t n 256 (λ i _, i <? KHEAP_START ⊕ KHEAP_INITIAL_SIZE))
    as (m & i & Hrun & Hmap & _ & Hf); [done|done|done|done| |done|done|done|done| |done|done|done| |done|].
  - change (KHEAP_START / 4096 / 1024) with 768. by destruct (Hdir 768) as [-> _].
  - change (KHEAP_START / 4096 mod 1024) with 0. intros q Hq. apply ld32_zero. intros x Hx.
    apply Hz. unfold range. lia.
  - intros m k Hk. change (KHEAP_START ⊕ KHEAP_INITIAL_SIZE) with (KHEAP_START + 4096 * 256).
    destruct (Z.ltb_spec (KHEAP_START + 4096 * k) (KHEAP_START + 4096 * 256)), (Z.ltb_spec k 256); lia || done.
  - exists i, m. split_and!; [exact Hrun|exact Hmap|]. eapply frame_weaken; [exact Hf|].
    change (KHEAP_START / 4096 mod 1024) with 0. unfold range. lia.
Qed.

Lemma identity_map_ok s B D ts :
  early s B D → directory_is (mem s) D ts → ts 0 = 0 → used_below s 1024 0 →
  let pa := placement_address (kmem s) in
  let t := (pa / 4096 + 1) * 4096 in
  let n := t / 4096 + 2 in
  n <= 1024 → (Z.to_nat n <= fuel)%nat →
  ∃ i s', identity_map fuel s = Done i s' ∧ early s' B D ∧
    directory_is (mem s') D (λ i, if i =? 0 then t else ts i) ∧
    pages_mapped false false (mem s') t 0 0 n ∧ (∀ q, n <= q < 1024 → ld32 (mem s') (t + 4 * q) = 0) ∧
    used_below s' 1024 n ∧ placement_address (kmem s') = t + 4096 ∧ same_but_kmem s s' ∧
    frame (λ x, range B 512 x ∨ range D 8192 x ∨ pa <= x) (mem s) (mem s').
Proof.
  intros He Hdir Hts Hu pa t n Hn Hfuel.
  pose proof (ea_layout _ _ _ He) as (HB & HBD & _ & Hpa). fold pa in Hpa. unfold sizeof_PageDirectory in Hpa.
  assert (pa <= t ∧ t mod 4096 = 0 ∧ t = 4096 * (n - 2) ∧ 4 <= n) as (Ht & Htal & Htn & Hn0)
    by (unfold n, t; Z.div_mod_to_equations; lia).
  clearbody n. destruct (kernel_page_make s B D ts 0) as (s1 & Hrun & He1 & Hdir1 & Hz1 & Hpl1 & Hpg1 & Hf1);
    [done..|fold pa; lia|]. fold pa in Hrun, Hdir1, Hz1, Hpl1, Hf1. fold t in Hrun, Hdir1, Hz1, Hpl1. clearbody t.
  change (0 / 4096 / 1024) with 0 in Hdir1. change (0 / 4096 mod 1024) with 0 in Hrun.
  assert (kernel_page fuel 0 s1 = Done (Pages t 0) s1) as Hpres
    by (rewrite (kernel_page_present s1 B D _ 0 He1 Hdir1); [done|lia|change (t ≠ 0); lia]).
  assert (used_below s1 1024 0) as Hu1 by (eapply early_used; [exact He|apply Hpg1|exact Hf1|unfold range; lia|done]).
  destruct (map_pages_ok s1 B D 0 t 0 n (λ i s, i <? placement_address (kmem s) ⊕ 0x1000))
    as (m & i & Hloop & Hmap & Hused & Hf); [done|lia|done|lia| |unfold sizeof_PageDirectory; lia|lia|lia|exact Hn| |done|lia|lia| |done|].
  - exact (proj1 (Hdir1 0 ltac:(lia))).
  - change (0 / 4096 mod 1024) with 0. intros q Hq. apply ld32_zero. intros x Hx. apply Hz1. unfold range. lia.
  - intros m k Hk. cbn [kmem set_mem]. rewrite Hpl1, w32_small by lia.
    destruct (Z.ltb_spec (0 + 4096 * k) (t + 4096 + 4096)), (Z.ltb_spec k n); lia || done.
  - change (0 / 4096 mod 1024) with 0 in *. exists i, (set_mem m s1). split_and!.
    + rewrite <- Hloop. unfold identity_map. apply whileM_made.
      * apply Z.ltb_lt. fold pa. rewrite w32_small; lia.
      * rewrite Hpl1. apply Z.ltb_lt. rewrite w32_small; lia.
      * unfold map_page. by rewrite !bind_assoc, (bind_done _ _ _ _ _ Hrun), (bind_done _ _ _ _ _ Hpres).
    + by apply early_set_mem.
    + eapply directory_is_frame; [exact Hf|by eapply early_dir_ok| |exact Hdir1]. unfold range. lia.
    + exact Hmap.
    + intros q Hq. rewrite mem_set_mem, (frame_ld32 _ _ _ _ Hf) by (unfold range; lia).
      apply ld32_zero. intros x Hx. apply Hz1. unfold range. lia.
    + exact Hused.
    + done.
    + done.
    + eapply frame_trans; [eapply frame_weaken; [exact Hf1|]|eapply frame_weaken; [exact Hf|]]; unfold range; lia.
Qed.

(** ** The whole map *)

(** The directory at [D] maps the memory up to [top] by the table [low], and the
    heap by the table [hp]. *)
Record maps (m : memory) (D low hp top : Z) : Prop := {
  mp_dir : dir_ok D;
  mp_top : top mod 4096 = 0 ∧ 0 <= top <= 768 * 4096;
  mp_place : table_place low ∧ table_place hp;
  mp_slots : directory_is m D (λ i, if i =? 0 then low else if i =? 768 then hp else 0);
  mp_low : table_maps m low 0 (top / 4096);
  mp_heap : table_maps m hp (top / 4096) 256;
}.

(** The state after [map_kernel]; [top] is the end of the memory in use. *)
Record kernel_mapped (s : machine) (B D top : Z) : Prop := {
  km_early : early s B D;
  km_placement : D + 0x7000 = top ∧ placement_address (kmem s) = top - 4096;
  km_control : current_directory (pg s) = D ∧ cr3 (pg s) = D + 4096 ∧ Z.testbit (cr0 (pg s)) 31 = true;
  km_maps : maps (mem s) D (D + 20480) (D + 12288) top;
}.

Lemma table_maps_frame P m m' t f k :
  frame P m m' → table_place t → 0 <= k <= 1024 → (∀ x, range t 4096 x → ¬ P x) →
  table_maps m t f k → table_maps m' t f k.
Proof.
  intros Hf (Ht0 & _ & Ht1) Hk HP [Hm Hz]. unfold range in HP.
  assert (∀ q, 0 <= q < 1024 → ld32 m' (t + 4 * q) = ld32 m (t + 4 * q)) as E.
  { intros q Hq. eapply frame_ld32; [exact Hf|lia..|]. intros x Hx. apply HP. lia. }
  split; intros q Hq; [rewrite <- Hm by done; unfold read_page|]; rewrite E by lia; [done|by apply Hz].
Qed.

(** The heap's pages complete the map. *)
Lemma maps_built m m' B D n :
  dir_ok D → B + 512 <= D → D <= 761 * 4096 → D mod 4096 = 0 → 4096 * n = D + 0x7000 →
  directory_is m D (λ i, if i =? 0 then D + 20480 else if i =? 768 then D + 12288 else 0) →
  table_maps m (D + 20480) 0 n → (∀ x, range (D + 12288) 4096 x → ld8 m x = 0) →
  pages_mapped false false m' (D + 12288) 0 n 256 →
  frame (λ x, range B 512 x ∨ range (D + 12288) 1024 x) m m' →
  maps m' D (D + 20480) (D + 12288) (D + 0x7000).
Proof.
  intros Hd HB HD HDal Hn Hdir Hlow Hz Hheap Hf. pose proof Hd as [? ?].
  assert ((D + 0x7000) / 4096 = n) as En by (Z.div_mod_to_equations; lia).
  assert (∀ k, k mod 4096 = 0 → 0 <= k <= 20480 → table_place (D + k)) as Hplace
    by (intros k Hk Hk'; unfold table_place; split_and!; [lia|Z.div_mod_to_equations; lia|lia]).
  split; rewrite ?En.
  - done.
  - split; [Z.div_mod_to_equations; lia|lia].
  - split; by apply Hplace.
  - eapply directory_is_frame; [exact Hf|done|unfold range; lia|exact Hdir].
  - eapply table_maps_frame; [exact Hf|by apply Hplace|lia|unfold range; lia|exact Hlow].
  - split; [exact Hheap|]. intros q Hq. apply ld32_zero. intros x Hx.
    rewrite (frame_ld8 _ _ _ _ Hf) by (unfold range in *; lia). apply Hz. unfold range. lia.
Qed.

Lemma map_kernel_run s :
  let P := placement_address (kmem s) in
  kheap (kmem s) = 0 → 4096 <= P < 761 * 4096 → P mod 4096 <= 3584 → (1024 <= fuel)%nat →
  let D := (P / 4096 + 1) * 4096 in
  ∃ s', map_kernel fuel s = Done tt s' ∧ kernel_mapped s' P D (D + 0x7000) ∧ boot_only P s s'.
Proof.
  intros P Hkh HP Hoff Hfuel D.
  assert (P + 512 <= D <= 761 * 4096 ∧ D mod 4096 = 0) as [HD HDal]
    by (unfold D; split; [Z.div_mod_to_equations; lia|by apply Z.mod_mul]).
  destruct (tables_start s) as (s1 & Hrun1 & s2 & Hrun2 & He2 & Hdir2 & Hu2 & Hpl2 & Hph2 & Hbo2);
    [done|lia|done|fold P; lia|]. fold P in He2, Hdir2, Hpl2, Hph2, Hbo2.
  fold D in He2, Hdir2, Hpl2, Hph2. clearbody D.
  assert (((D + 8196) / 4096 + 1) * 4096 = D + 12288) as Et1 by (Z.div_mod_to_equations; lia).
  destruct (heap_pages_ok s2 P D) as (i3 & s3 & Hrun3 & He3 & Hdir3 & Hz3 & Hpl3 & Hpg3 & Hf3);
    [done|done|lia|rewrite Hpl2; lia|]. rewrite Hpl2, Et1 in *.
  assert (used_below s3 1024 0) as Hu3
    by (eapply early_used; [exact He2|apply Hpg3|exact Hf3|unfold range; lia|done]).
  assert (((D + 12288 + 4096) / 4096 + 1) * 4096 = D + 20480) as Et0 by (Z.div_mod_to_equations; lia).
  assert ((D + 20480) / 4096 + 2 = (D + 0x7000) / 4096) as En by (Z.div_mod_to_equations; lia).
  destruct (identity_map_ok s3 P D _ He3 Hdir3)
    as (i4 & s4 & Hrun4 & He4 & Hdir4 & Hlow & Hlow0 & Hu4 & Hpl4 & Hpg4 & Hf4);
    [done|done|rewrite Hpl3, Et0, En; Z.div_mod_to_equations; lia
    |rewrite Hpl3, Et0, En; Z.div_mod_to_equations; lia|].
  rewrite Hpl3, Et0, En in *. set (n := (D + 0x7000) / 4096) in *.
  assert (4096 * n = D + 0x7000) as Hn by (unfold n; Z.div_mod_to_equations; lia).
  assert (∀ x, range (D + 12288) 4096 x → ld8 (mem s4) x = 0) as Hz4
    by (intros x Hx; rewrite (frame_ld8 _ _ _ _ Hf4) by (unfold range in *; lia); by apply Hz3).
  destruct (heap_map_ok s4 P D _ (D + 12288) n He4 Hdir4) as (i5 & m5 & Hrun5 & Hheap & Hf5);
    [done|lia|lia|exact Hz4|done|lia|lia|lia|].
  assert (early (set_mem m5 s4) P D) as He5 by (by apply early_set_mem).
  assert (ld32 m5 (PhysicalAddress D) = D + 4096) as Hph.
  { rewrite <- Hph2. rewrite PhysicalAddress_val by (by eapply early_dir_ok).
    rewrite (frame_ld32 _ _ _ _ Hf5), (frame_ld32 _ _ _ _ Hf4), (frame_ld32 _ _ _ _ Hf3);
      unfold range; (done || lia). }
  eexists. split.
  { unfold map_kernel. rewrite (bind_done _ _ _ _ _ Hrun1), (bind_done _ _ _ _ _ Hrun2).
    unfold heap_pages in Hrun3. rewrite (bind_done _ _ _ _ _ Hrun3), (bind_done _ _ _ _ _ Hrun4),
      (bind_done _ _ _ _ _ Hrun5), bind_gets, (ea_directory _ _ _ He5). reflexivity. }
  split; [|etransitivity; [exact Hbo2|]; transitivity s4; [transitivity s3|]].
  2: eapply boot_only_step; [exact Hpg3|exact Hf3|unfold range; lia].
  2: eapply boot_only_step; [exact Hpg4|exact Hf4|unfold range; lia].
  2: split; [done|]; eapply frame_weaken; [exact Hf5|unfold range; lia].
  split.
  - destruct He5 as [? ? ? ?]. by split.
  - cbn. lia.
  - split_and!; [done|exact Hph|]. change (Z.testbit (Z.lor (cr0 (pg s4)) 0x80000000) 31 = true).
    rewrite Z.lor_spec. apply orb_true_r.
  - apply (maps_built (mem s4) m5 P D n); [by eapply early_dir_ok|lia|lia|done|done|exact Hdir4|by split|done|exact Hheap|exact Hf5].
Qed.

(** The map the kernel runs in: what is in use at its own address, and the
    heap in the frames behind. *)
Definition kernel_map (top a : Z) : option Z :=
  if a <? top then Some a
  else if (KHEAP_START <=? a) && (a <? KHEAP_START + KHEAP_INITIAL_SIZE) then Some (top + (a - KHEAP_START))
  else None.

(** The walk through a table that maps [k] pages. *)
Lemma translate_mapped m D t f k a :
  dir_ok D → 0 <= a < 4294967296 → table_place t → table_maps m t f k →
  ld32 m (D + 4096 + 4 * (a / 4194304)) = t + 7 →
  translate m (D + 4096) a =
    if a / 4096 mod 1024 <? k then Some ((f + a / 4096 mod 1024) * 4096 + a mod 4096) else None.
Proof.
  intros [Hd0 Hd1] Ha (Ht0 & Htal & Ht1) [Hm Hz] Hpde. unfold sizeof_PageDirectory in *.
  rewrite (translate_table _ _ _ t) by (done || lia). cbv zeta.
  pose proof (Z.mod_pos_bound (a / 4096) 1024 ltac:(lia)) as He. set (e := a / 4096 mod 1024) in *.
  destruct (Z.ltb_spec e k) as [Hlt|Hge].
  - specialize (Hm e ltac:(lia)). rewrite Z.add_0_l in Hm. by rewrite Hm.
  - unfold read_page. by rewrite Hz by lia.
Qed.

Lemma maps_translate m D low hp top a :
  maps m D low hp top → 0 <= a < 4294967296 → translate m (D + 4096) a = kernel_map top a.
Proof.
  intros [Hd (Htal & Ht0 & Ht1) [Hlow Hhp] Hdir Hml Hmh] Ha.
  assert (0 <= a / 4194304 < 1024) as Hi by (Z.div_mod_to_equations; lia).
  destruct (Hdir _ Hi) as [_ Hpde]. rewrite TablesPhysical_val in Hpde by done.
  unfold kernel_map, KHEAP_START, KHEAP_INITIAL_SIZE in *.
  pose proof Hlow as (? & _ & _). pose proof Hhp as (? & _ & _).
  destruct (Z.eqb_spec (a / 4194304) 0) as [E|E]; [|destruct (Z.eqb_spec (a / 4194304) 768) as [E'|E']].
  - rewrite (proj2 (Z.eqb_neq low 0)) in Hpde by lia.
    rewrite (translate_mapped _ _ _ _ _ _ Hd Ha Hlow Hml Hpde).
    destruct (Z.ltb_spec a top), (Z.ltb_spec (a / 4096 mod 1024) (top / 4096)); try (Z.div_mod_to_equations; lia).
    + f_equal. Z.div_mod_to_equations; lia.
    + destruct (Z.leb_spec 0xC0000000 a); [Z.div_mod_to_equations; lia|done].
  - rewrite (proj2 (Z.eqb_neq hp 0)) in Hpde by lia.
    rewrite (translate_mapped _ _ _ _ _ _ Hd Ha Hhp Hmh Hpde).
    rewrite (proj2 (Z.ltb_ge a top)), (proj2 (Z.leb_le 0xC0000000 a)) by (Z.div_mod_to_equations; lia).
    destruct (Z.ltb_spec a (0xC0000000 + 0x100000)), (Z.ltb_spec (a / 4096 mod 1024) 256);
      try (Z.div_mod_to_equations; lia); [|done].
    cbn [andb]. f_equal. Z.div_mod_to_equations; lia.
  - rewrite translate_no_table by (done || (destruct Hd; unfold sizeof_PageDirectory in *; lia)).
    destruct (Z.ltb_spec a top); [Z.div_mod_to_equations; lia|].
    destruct (Z.leb_spec 0xC0000000 a), (Z.ltb_spec a (0xC0000000 + 0x100000)); try done.
    Z.div_mod_to_equations; lia.
Qed.

(** C4. Paging is turned on over the map the kernel needs.  From the placement
    address [P] the multiboot loader left, [map_kernel] (all of
    [initialise_paging] before the heap) returns, its "on-the-fly" loop that
    allocates while it maps included, with 1024 iterations enough; CR3 and the
    paging bit are set; and for the processor every address below the end of
    the memory in use, and a page more, is itself, the initial heap lies in
    the frames behind it, and every other address faults.  The bitmap needs
    512 bytes where the code allocates 128: [P mod 4096 <= 3584] keeps its
    tail out of the directory. *)
Theorem map_kernel_translates s :
  let P := placement_address (kmem s) in
  kheap (kmem s) = 0 → 4096 <= P < 761 * 4096 → P mod 4096 <= 3584 → (1024 <= fuel)%nat →
  ∃ s', map_kernel fuel s = Done tt s' ∧
    Z.testbit (cr0 (pg s')) 31 = true ∧
    current_directory (pg s') = kernel_directory (pg s') ∧
    placement_address (kmem s') = (P / 4096 + 7) * 4096 ∧
    ∀ a, 0 <= a < 4294967296 →
      translate (mem s') (cr3 (pg s')) a = kernel_map (placement_address (kmem s') + 0x1000) a.
Proof.
  intros P Hkh HP Hoff Hfuel. destruct (map_kernel_run s Hkh HP Hoff Hfuel) as (s' & Hrun & Hk & _).
  exists s'. destruct Hk as [He [Htop Hpl] (Hcd & Hcr3 & Hpg) Hmaps]. split_and!; [done|done| |unfold P; lia|].
  - by rewrite Hcd, (ea_directory _ _ _ He).
  - intros a Ha. rewrite Hpl, Z.sub_add, Hcr3. by eapply maps_translate.
Qed.
End map.

Lemma map_kernel_translates_witness :
  ∃ s', @map_kernel sample_image 1024 (sample ∅) = Done tt s' ∧
    translate (mem s') (cr3 (pg s')) 0x1234 = Some 0x1234 ∧
    translate (mem s') (cr3 (pg s')) 0xC0000010 = Some 0x48010 ∧
    translate (mem s') (cr3 (pg s')) 0xD0000000 = None.
Proof.
  destruct (@map_kernel_translates sample_image 1024 (sample ∅)) as (s' & Hrun & _ & _ & Hpl & Hmap);
    [done|zdecide|zdecide|done|].
  exists s'. split; [exact Hrun|]. rewrite !Hmap, Hpl by lia. zdecide.
Defined.
