(* ===== verification/BootPaging.v ===== *)
(** * Paging from boot to the first cloned directory

    [initialise_paging] as a whole: the map of [BootMap], then the heap over
    it, which takes over as the allocator, then the clone of the kernel's
    directory that the boot task runs in. *)
From S2P Require Import Prelude Memory LibString OrderedList Machine Console Stdio Descriptors Frames Kmalloc.
From S2P Require Import Initrd Paging MapPages Task Devices Heap HeapSpec HeapAlloc HeapAllocator Boot BootMap.
Local Open Scope Z_scope.
Local Open Scope u32_scope.

(** The one hole of the new heap, behind the array of its index. *)
Definition first_hole : chunk := MkChunk 0xC0080000 0x80000 true false.

(** [s'] is [s] with a heap that is one hole. *)
Record heap_made (s s' : machine) : Prop := {
  hm_kheap : kheap (kmem s') ≠ 0;
  hm_state : heap_state s' [first_hole] [c_addr first_hole];
  hm_index : m_index (this s') = MkOrderedList KHEAP_START 1 HEAP_INDEX_SIZE;
  hm_end : m_endAddress (this s') = KHEAP_START + KHEAP_INITIAL_SIZE;
  hm_rest : same_but_kmem s s';
  hm_frame : frame (range KHEAP_START KHEAP_INITIAL_SIZE) (mem s) (mem s');
}.

Section boot.
Context `{Image}.
Variable fuel : nat.

Lemma make_heap_ok s B D :
  early s B D → placement_address (kmem s) + 0x10000 < 4294967296 →
  ∃ s', make_heap fuel s = Done tt s' ∧ heap_made s s'.
Proof.
  intros He Hroom. pose proof (ea_layout _ _ _ He) as (? & ? & _ & Hpa). unfold sizeof_PageDirectory in Hpa.
  pose proof (placement_kmalloc_eq (Alloc fuel) s sizeof_Heap false None (ea_kheap _ _ _ He)) as Hkm.
  cbv zeta in Hkm. specialize (Hkm ltac:(lia) ltac:(unfold sizeof_Heap; lia) ltac:(done)).
  unfold make_heap. rewrite (bind_done _ _ _ _ _ Hkm), bind_modify. cbn [fst placement].
  set (s1 := set_kheap _ _).
  destruct (Heap_new_run s1 KHEAP_START (KHEAP_START ⊕ KHEAP_INITIAL_SIZE) 0xCFFFF000 false false)
    as (h & m & Hrun & Hok & Hf & ->); [done..|].
  eexists. split; [by rewrite (bind_done _ _ _ _ _ Hrun)|]. split.
  - cbn. lia.
  - exact Hok.
  - reflexivity.
  - reflexivity.
  - by split_and!.
  - eapply frame_weaken; [exact Hf|]. unfold range, KHEAP_START, KHEAP_INITIAL_SIZE. lia.
Qed.

(** The new heap can serve whatever its one hole can. *)
Lemma heap_made_plan s s' l :
  heap_made s s' → plan 0x80000 0 l → Z.of_nat (length l) < HEAP_INDEX_SIZE → planned s' l.
Proof.
  intros [_ Hst Hix _ _ _] Hplan Hl. exists 0x80000, 0. split; [|done].
  exists [first_hole], [c_addr first_hole], first_hole.
  split_and!; [done|set_solver|done..| |rewrite Hix; cbn [length m_maxSize]; lia].
  intros d ->%list_elem_of_singleton _. split; [done|by left].
Qed.

(** Memory below the heap is none of its own. *)
Lemma heap_made_outside s s' x : heap_made s s' → x < KHEAP_START → handed_out s' x.
Proof. intros [_ _ Hix He _ _] Hx. left. unfold outside. rewrite Hix, He. cbn. lia. Qed.

Lemma clone_kernel_ok n s s' D :
  heap_made s s' → kernel_directory (pg s') = D → dir_ok D → D + sizeof_PageDirectory <= KHEAP_START →
  ∃ dir s2, @clone_directory _ (heap_allocator n) D s' = Done dir s2 ∧
    @directory_clone _ (heap_allocator n) (heap_spec n) s' s2 D dir.
Proof.
  intros Hh Hkd Hd HD.
  assert (∀ x, dir_range D x → handed_out s' x) as Hres.
  { intros x Hx. eapply heap_made_outside; [exact Hh|]. unfold dir_range, range in Hx. lia. }
  apply (@clone_directory_shared _ (heap_allocator n) (heap_spec n) (heap_allocator_laws n) s' D []).
  - split; [apply Hh|]. by exists [first_hole], [c_addr first_hole]; apply Hh.
  - eapply heap_made_plan; [exact Hh|zdecide|done].
  - done.
  - by rewrite Hkd.
  - exact Hres.
  - rewrite Hkd. exact Hres.
  - intros i Hi. right. by rewrite Hkd.
Qed.

(** The map survives what spares the directory and its tables. *)
Lemma maps_frame P m m' D low hp top :
  frame P m m' → (∀ x, range D 8192 x ∨ range low 4096 x ∨ range hp 4096 x → ¬ P x) →
  maps m D low hp top → maps m' D low hp top.
Proof.
  intros Hf HP [Hd Ht [Hl Hh] Hs Hml Hmh]. split; [done|done|done| | |].
  - eapply directory_is_frame; [exact Hf|done| |done]. intros x Hx. apply HP. by left.
  - eapply table_maps_frame; [exact Hf|done|Z.div_mod_to_equations; lia| |done]. intros x Hx. apply HP. auto.
  - eapply table_maps_frame; [exact Hf|done|lia| |done]. intros x Hx. apply HP. auto.
Qed.

(** A clone that shares the tables gives the same map. *)
Lemma maps_clone n s s' D low hp top dir :
  @directory_clone _ (heap_allocator n) (heap_spec n) s s' D dir →
  maps (mem s) D low hp top → maps (mem s') D low hp top → maps (mem s') dir low hp top.
Proof.
  intros Hc [_ _ _ Hs _ _] [_ Ht Hp _ Hml Hmh]. split; [apply Hc|done|done| |done|done].
  intros i Hi. rewrite (dc_tables _ _ _ _ Hc), (dc_physical _ _ _ _ Hc) by done.
  destruct (Hs i Hi) as [E1 E2].
  rewrite E2, <- E1. split; [done|]. by destruct (ld32 (mem s) (Tables D i) =? 0).
Qed.

(** Where the clone lies: at the first page boundary with room for a header
    behind the start of the heap's one hole. *)
Definition boot_clone : Z := 0xC0081000.

Lemma clone_address n s s' D dir s2 :
  heap_made s s' → @clone_directory _ (heap_allocator n) D s' = Done dir s2 → dir = boot_clone.
Proof.
  intros [Hk Hst _ _ _ _] Hrun. pose proof Hst as [[_ _ Hcs _ _ _] _].
  destruct (Alloc_aligned_address s' _ _ _ sizeof_PageDirectory n 0 (c_addr first_hole) Hst) as [s3 Hal];
    [zdecide|zdecide| |].
  { split_and!; [done| |constructor]. unfold hole_fits.
    by rewrite (chunks_ok_size _ _ _ _ first_hole Hcs) by set_solver. }
  pose proof (heap_kmalloc n s' sizeof_PageDirectory true (Some indeterminate) _ _ Hk Hal) as Hkm.
  unfold clone_directory, kmalloc_ap_tmp in Hrun. rewrite bind_assoc, (bind_done _ _ _ _ _ Hkm), bind_ret in Hrun.
  cbv beta iota in Hrun. cbn [fst snd] in Hrun.
  repeat (apply bind_done_inv in Hrun as (? & ? & _ & Hrun); cbv beta iota zeta in Hrun).
  by injection Hrun as <-.
Qed.

(** The directory of the kernel and its clone, as the processor walks them,
    for a module that ends at [P]. *)
Record walkable (m : memory) (P : Z) : Prop := {
  wk_kernel : let D := (P / 4096 + 1) * 4096 in maps m D (D + 20480) (D + 12288) (D + 0x7000);
  wk_clone : let D := (P / 4096 + 1) * 4096 in maps m boot_clone (D + 20480) (D + 12288) (D + 0x7000);
}.

Lemma walkable_frame Q m m' P :
  0 <= P < 761 * 4096 → frame Q m m' → (∀ x, P <= x < KHEAP_START ∨ dir_range boot_clone x → ¬ Q x) →
  walkable m P → walkable m' P.
Proof.
  intros HP Hf HQ [Hk Hc]. cbv zeta in *. set (D := (P / 4096 + 1) * 4096) in *.
  assert (P < D <= 761 * 4096) as HD by (unfold D; Z.div_mod_to_equations; lia).
  assert (∀ x, P <= x < KHEAP_START → ¬ Q x) as HQ' by (intros; apply HQ; lia). unfold KHEAP_START in HQ'.
  split; (eapply maps_frame; [exact Hf| |eassumption]); intros x Hx.
  - apply HQ'. unfold range in Hx. lia.
  - destruct Hx as [Hx|[Hx|Hx]]; [|apply HQ'; unfold range in Hx; lia..].
    apply HQ. right. unfold dir_range, range, sizeof_PageDirectory in *. lia.
Qed.

End boot.

(** The state after [initialise_paging]. *)
Record paged `{Image} (n : nat) (P : Z) (s s' : machine) : Prop := {
  pd_heap : @alloc_inv _ (heap_spec n) s';
  pd_room l : plan 0x80000 0 ((sizeof_PageDirectory, true) :: l) → Z.of_nat (length l) + 1 < HEAP_INDEX_SIZE →
    planned s' l;
  pd_kernel : kernel_directory (pg s') = (P / 4096 + 1) * 4096;
  pd_dir : dir_ok (current_directory (pg s')) ∧ current_directory (pg s') mod 4096 = 0 ∧
    KHEAP_START <= current_directory (pg s');
  pd_shared : ∀ i, 0 <= i < 1024 →
    ld32 (mem s') (Tables (current_directory (pg s')) i) = ld32 (mem s') (Tables (kernel_directory (pg s')) i);
  pd_maps : ∃ low hp, maps (mem s') (current_directory (pg s')) low hp ((P / 4096 + 8) * 4096) ∧
    low + 4096 <= KHEAP_START ∧ hp + 4096 <= KHEAP_START;
  pd_walk : walkable (mem s') P ∧ current_directory (pg s') = boot_clone;
  pd_cr3 : cr3 (pg s') = indeterminate ⊕ 0x1000 ∧
    ld32 (mem s') (PhysicalAddress (current_directory (pg s'))) = indeterminate ⊕ 0x1000;
  pd_handed : ∀ x, x < KHEAP_START ∨ dir_range (current_directory (pg s')) x → handed_out s' x;
  pd_only : boot_only P s s';
}.

(** From a clone made in the new heap to that state. *)
Lemma paged_clone `{Image} n P s s1 s2 s3 D dir :
  D = (P / 4096 + 1) * 4096 → D <= 761 * 4096 → 0 < P → P < D →
  kernel_mapped s1 P D (D + 0x7000) → boot_only P s s1 → heap_made s1 s2 →
  @directory_clone _ (heap_allocator n) (heap_spec n) s2 s3 D dir → dir = boot_clone →
  paged n P s (switch_page_directory dir (set_current_directory dir s3)).
Proof.
  intros HD HD1 HP HPD [He1 _ _ Hmaps1] Hbo Hh Hc Hbc. pose proof (hm_rest _ _ Hh) as Hr2.
  pose proof (dc_rest _ _ _ _ Hc) as Hr3. pose proof (dc_dir _ _ _ _ Hc) as [Hdir Hal].
  assert (∀ x, x < KHEAP_START → handed_out s2 x) as Hbelow by (intros; by eapply heap_made_outside).
  assert (maps (mem s2) D (D + 20480) (D + 12288) (D + 0x7000)) as Hmaps2.
  { eapply maps_frame; [exact (hm_frame _ _ Hh)|unfold range, KHEAP_START; lia|exact Hmaps1]. }
  assert (maps (mem s3) D (D + 20480) (D + 12288) (D + 0x7000)) as Hmaps3.
  { eapply maps_frame; [exact (dc_frame _ _ _ _ Hc)| |exact Hmaps2].
    intros x Hx Hn. apply Hn, Hbelow. unfold range, KHEAP_START in *. lia. }
  set (s' := switch_page_directory dir (set_current_directory dir s3)).
  assert (pg s3 = pg s1) as Hpg by (etransitivity; [apply Hr3|apply Hr2]).
  assert (kernel_directory (pg s') = D) as Hkd.
  { transitivity (kernel_directory (pg s3)); [done|]. rewrite Hpg. apply He1. }
  pose proof (dc_inv _ _ _ _ Hc) as Hinv.
  assert (frame (handed_out s3) (mem s3) (mem s')) as Hsame by apply frame_refl.
  split.
  - by eapply (@alloc_inv_stable _ _ (heap_allocator_laws n) s3).
  - intros l Hl Hlen. eapply (@room_stable _ _ (heap_allocator_laws n) s3); [exact Hinv|done|exact Hsame|].
    apply (dc_room _ _ _ _ Hc). eapply heap_made_plan; [exact Hh|exact Hl|cbn [length]; lia].
  - by rewrite Hkd, HD.
  - split_and!; [exact Hdir|exact Hal|]. change (KHEAP_START <= dir).
    destruct (Z.le_gt_cases KHEAP_START dir) as [|Hn]; [done|]. exfalso.
    eapply (dc_fresh _ _ _ _ Hc dir); [unfold dir_range, range, sizeof_PageDirectory; lia|by apply Hbelow].
  - intros i Hi. rewrite Hkd. change (ld32 (mem s3) (Tables dir i) = ld32 (mem s3) (Tables D i)).
    rewrite (dc_tables _ _ _ _ Hc) by done.
    destruct (mp_slots _ _ _ _ _ Hmaps2 i Hi) as [-> _]. by destruct (mp_slots _ _ _ _ _ Hmaps3 i Hi) as [-> _].
  - exists (D + 20480), (D + 12288). replace ((P / 4096 + 8) * 4096) with (D + 0x7000) by lia.
    unfold KHEAP_START. split; [|lia]. exact (maps_clone n _ _ _ _ _ _ _ Hc Hmaps2 Hmaps3).
  - split; [|exact Hbc]. split; cbv zeta; rewrite <- HD; [exact Hmaps3|rewrite <- Hbc].
    exact (maps_clone n _ _ _ _ _ _ _ Hc Hmaps2 Hmaps3).
  - split; exact (dc_address _ _ _ _ Hc).
  - intros x Hx. eapply (@reserved_stable _ _ (heap_allocator_laws n) s3); [exact Hinv|done|exact Hsame|].
    apply (dc_reserved _ _ _ _ Hc). destruct Hx as [Hx|Hx]; [right; by apply Hbelow|by left].
  - etransitivity; [exact Hbo|]. transitivity s2; [|transitivity s3; [|split; [done|apply frame_refl]]].
    + eapply boot_only_step; [exact Hr2|exact (hm_frame _ _ Hh)|unfold range, KHEAP_START; lia].
    + eapply boot_only_step; [exact Hr3|exact (dc_frame _ _ _ _ Hc)|].
      intros x Hx. destruct (Z.le_gt_cases P x) as [|Hlt]; [done|]. exfalso. apply Hx, Hbelow. unfold KHEAP_START. lia.
Qed.

Lemma initialise_paging_run `{Image} n s :
  let P := placement_address (kmem s) in
  kheap (kmem s) = 0 → 4096 <= P < 761 * 4096 → P mod 4096 <= 3584 → (1024 <= S n)%nat →
  ∃ s', initialise_paging (S n) s = Done tt s' ∧ paged n P s s'.
Proof.
  intros P Hkh HP Hoff Hfuel.
  destruct (map_kernel_run (S n) s Hkh HP Hoff Hfuel) as (s1 & Hrun1 & Hk1 & Hbo1). fold P in Hk1, Hbo1.
  set (D := (P / 4096 + 1) * 4096) in *.
  assert (P < D <= 761 * 4096) as HD by (unfold D; Z.div_mod_to_equations; lia).
  pose proof (km_early _ _ _ _ Hk1) as He1. pose proof (early_dir_ok _ _ _ He1) as Hd.
  destruct (make_heap_ok (S n) s1 P D He1) as (s2 & Hrun2 & Hh).
  { destruct (km_placement _ _ _ _ Hk1) as [_ ->]. lia. }
  assert (kernel_directory (pg s2) = D) as Hkd by (rewrite (proj1 (hm_rest _ _ Hh)); apply He1).
  destruct (clone_kernel_ok n s1 s2 D Hh Hkd Hd) as (dir & s3 & Hrun3 & Hc);
    [unfold sizeof_PageDirectory, KHEAP_START; lia|].
  pose proof (clone_address n s1 s2 D dir s3 Hh Hrun3) as Hbc.
  eexists. split.
  - unfold initialise_paging. rewrite (bind_done _ _ _ _ _ Hrun1), (bind_done _ _ _ _ _ Hrun2), bind_gets, Hkd.
    rewrite (bind_done _ _ _ _ _ Hrun3), bind_modify, bind_gets. reflexivity.
  - eapply (paged_clone n P s s1 s2 s3 D dir); done || lia.
Qed.

Lemma paged_translate `{Image} n P s s' a :
  paged n P s s' → 0 <= a < 4294967296 →
  translate (mem s') (TablesPhysical (current_directory (pg s')) 0) a = kernel_map ((P / 4096 + 8) * 4096) a.
Proof.
  intros Hp Ha. destruct (pd_maps _ _ _ _ Hp) as (low & hp & Hm & _).
  rewrite TablesPhysical_val, Z.mul_0_r, Z.add_0_r by (apply Hm || lia). by eapply maps_translate.
Qed.

(** C16. Start-up as far as the first process's address space.  From a placement
    address that leaves the bitmap room, [initialise_paging] returns: the heap
    exists and its invariant holds; the directory in use is a new one, in the
    heap, that shares every table with the kernel's and, walked from its table
    of physical addresses, gives the processor the same map as the kernel's.
    But CR3 does not point to that table: [kmalloc] on the heap leaves the
    variable [phys] of [clone_directory] uninitialised, and CR3 is that
    content plus 4096. *)
Theorem initialise_paging_boots `{Image} fuel s :
  let P := placement_address (kmem s) in
  kheap (kmem s) = 0 → 4096 <= P < 761 * 4096 → P mod 4096 <= 3584 → (1024 <= fuel)%nat →
  ∃ s' cs idx, initialise_paging fuel s = Done tt s' ∧
    kheap (kmem s') ≠ 0 ∧ heap_state s' cs idx ∧
    let dir := current_directory (pg s') in
    dir mod 4096 = 0 ∧ KHEAP_START <= dir ∧
    (∀ i, 0 <= i < 1024 → ld32 (mem s') (Tables dir i) = ld32 (mem s') (Tables (kernel_directory (pg s')) i)) ∧
    (∀ a, 0 <= a < 4294967296 →
       translate (mem s') (TablesPhysical dir 0) a = kernel_map ((P / 4096 + 8) * 4096) a) ∧
    cr3 (pg s') = indeterminate ⊕ 0x1000.
Proof.
  intros P Hkh HP Hoff Hfuel. destruct fuel as [|n]; [lia|].
  destruct (initialise_paging_run n s Hkh HP Hoff Hfuel) as (s' & Hrun & Hp).
  destruct (pd_heap _ _ _ _ Hp) as [Hk (cs & idx & Hst)]. pose proof (pd_dir _ _ _ _ Hp) as (_ & Hal & Hlow).
  exists s', cs, idx. split_and!; [exact Hrun|exact Hk|exact Hst|].
  cbv zeta. split_and!; [exact Hal|exact Hlow|apply Hp| |apply Hp].
  intros a Ha. by eapply paged_translate.
Qed.

Lemma initialise_paging_boots_witness :
  ∃ s', @initialise_paging sample_image 1024 (sample ∅) = Done tt s' ∧
    cr3 (pg s') = 0xDEAD + 0x1000 ∧
    translate (mem s') (TablesPhysical (current_directory (pg s')) 0) 0xC0000010 = Some 0x48010.
Proof.
  destruct (@initialise_paging_boots sample_image 1024 (sample ∅))
    as (s' & cs & idx & Hrun & _ & _ & Hal & _ & _ & Hmap & Hcr3); [done|zdecide|zdecide|done|].
  exists s'. split; [exact Hrun|]. split; [exact Hcr3|]. rewrite Hmap by lia. zdecide.
Defined.
