(* ===== verification/PagedMemory.v ===== *)
(** * The processor's memory behind the page tables

    The model runs the kernel over one flat memory, indexed by the addresses the
    code uses.  The processor has physical memory and the page tables in it.
    This file shows that, over the map [initialise_paging] sets up, the two are
    the same for every program that leaves the page tables alone: the flat
    memory is a sound view, however loads, stores and addresses depend on one
    another. *)
From S2P Require Import Prelude Memory LibString OrderedList Machine Console Stdio Descriptors Frames Kmalloc.
From S2P Require Import Initrd Paging MapPages Task Devices Heap HeapSpec HeapAlloc HeapAllocator Boot BootMap BootPaging.
Local Open Scope Z_scope.
Local Open Scope u32_scope.

(** ** Programs of byte accesses *)

(** What runs next may depend on every byte loaded before. *)
Inductive program :=
  | halt
  | load (a : Z) (k : Z → program)
  | store (a v : Z) (k : program).

(** A word is four bytes, each of which the processor translates. *)
Definition load_word (a : Z) (k : Z → program) : program :=
  load a (λ b0, load (a + 1) (λ b1, load (a + 2) (λ b2, load (a + 3) (λ b3,
    k (b0 + 256 * b1 + 65536 * b2 + 16777216 * b3))))).
Definition store_word (a v : Z) (k : program) : program :=
  store a v (store (a + 1) (v / 256) (store (a + 2) (v / 65536) (store (a + 3) (v / 16777216) k))).

(** The bytes a run loads, and the memory it leaves: over the flat memory, and
    over physical memory through the tables CR3 names, where the run ends at a
    page fault. *)
Fixpoint run_flat (p : program) (m : memory) : memory * list Z :=
  match p with
  | halt => (m, [])
  | load a k => let '(m', l) := run_flat (k (ld8 m a)) m in (m', ld8 m a :: l)
  | store a v k => run_flat k (st8 m a v)
  end.
Fixpoint run_paged (cr3 : Z) (p : program) (m : memory) : option (memory * list Z) :=
  match p with
  | halt => Some (m, [])
  | load a k =>
      b ← translate m cr3 a;
      '(m', l) ← run_paged cr3 (k (ld8 m b)) m;
      Some (m', ld8 m b :: l)
  | store a v k =>
      b ← translate m cr3 a;
      run_paged cr3 k (st8 m b v)
  end.

(** The run over the flat memory stays within [R] when it loads and within [W]
    when it stores. *)
Fixpoint within (R W : Z → Prop) (p : program) (m : memory) : Prop :=
  match p with
  | halt => True
  | load a k => R a ∧ within R W (k (ld8 m a)) m
  | store a v k => W a ∧ within R W k (st8 m a v)
  end.

Lemma run_flat_load_word a k m :
  run_flat (load_word a k) m =
    let '(m', l) := run_flat (k (ld32 m a)) m in
    (m', ld8 m a :: ld8 m (a + 1) :: ld8 m (a + 2) :: ld8 m (a + 3) :: l).
Proof. unfold load_word, ld32. cbn. by destruct (run_flat _ m). Qed.
Lemma run_flat_store_word a v k m : run_flat (store_word a v k) m = run_flat k (st32 m a v).
Proof. done. Qed.

(** ** The flat memory as a view of the physical one *)
Definition shows (cr3 : Z) (p m : memory) : Prop :=
  ∀ a b, 0 <= a < 4294967296 → translate p cr3 a = Some b → ld8 m a = ld8 p b.

(** [p], with the [n] bytes at [base] a copy of those at [from]. *)
Definition copied_at (base n from : Z) (p : memory) : memory :=
  list_to_map ((λ a, (a, ld8 p (from + (a - base)))) <$> seqZ base n) ∪ p.

Lemma copied_at_ld8 base n from p a :
  0 <= a < 4294967296 →
  ld8 (copied_at base n from p) a = if decide (range base n a) then ld8 p (from + (a - base)) else ld8 p a.
Proof.
  intros Ha. unfold copied_at. set (f := λ x : Z, (x, ld8 p (from + (x - base)))).
  assert ((f <$> seqZ base n).*1 = seqZ base n) as Hkeys
    by (rewrite <- list_fmap_compose; apply list_fmap_id).
  rewrite (ld8_lookup (_ ∪ _)), lookup_union, w32_small by done.
  destruct (decide _) as [Hr|Hr].
  - rewrite (elem_of_list_to_map_1 _ a (ld8 p (from + (a - base)))).
    + rewrite union_Some_l. apply w8_small, ld8_range.
    + rewrite Hkeys. apply NoDup_seqZ.
    + apply list_elem_of_fmap. exists a. split; [reflexivity|]. by apply elem_of_seqZ.
  - rewrite not_elem_of_list_to_map_1 by (rewrite Hkeys, elem_of_seqZ; exact Hr).
    by rewrite (left_id_L None (∪)), ld8_lookup, w32_small.
Qed.
#[local] Opaque copied_at.

(** The view of the physical memory [p] under [kernel_map top]: its heap is
    what lies in the frames from [top] on. *)
Definition heap_view (top : Z) (p : memory) : memory := copied_at KHEAP_START KHEAP_INITIAL_SIZE top p.

(** ** The map *)

(** The addresses [kernel_map top] maps, and those of them behind which no
    table lies: the directory at [D] and its tables end at [top]. *)
Definition reachable (top : Z) : Z → Prop :=
  λ a, range 0 top a ∨ range KHEAP_START KHEAP_INITIAL_SIZE a.
Definition off_tables (D top : Z) : Z → Prop := λ a, reachable top a ∧ ¬ range D (top - D) a.

(** The tables of a map lie between its directory and its end. *)
Record enclosed (p : memory) (D low hp top : Z) : Prop := {
  en_maps : maps p D low hp top;
  en_dir : D + 8192 <= top;
  en_low : D <= low ∧ low + 4096 <= top;
  en_heap : D <= hp ∧ hp + 4096 <= top;
}.

Lemma kernel_map_reachable top a :
  top <= KHEAP_START → reachable top a → ∃ b, kernel_map top a = Some b ∧
    (b = a ∧ 0 <= a < top ∨ top <= b < top + KHEAP_INITIAL_SIZE).
Proof.
  unfold kernel_map, reachable, range, KHEAP_START, KHEAP_INITIAL_SIZE. intros Htop [Ha|Ha].
  - rewrite (proj2 (Z.ltb_lt a top)) by lia. eauto.
  - rewrite (proj2 (Z.ltb_ge a top)), (proj2 (Z.leb_le _ a)), (proj2 (Z.ltb_lt a _)) by lia.
    eexists. split; [reflexivity|]. lia.
Qed.

Lemma kernel_map_bound top a b :
  0 <= top → 0 <= a → kernel_map top a = Some b → 0 <= b < top + KHEAP_INITIAL_SIZE.
Proof.
  unfold kernel_map. destruct (Z.ltb_spec a top); [intros ? ? [= <-]; unfold KHEAP_INITIAL_SIZE; lia|].
  destruct (_ && _) eqn:E; [|done]. rewrite andb_true_iff, Z.leb_le, Z.ltb_lt in E. intros ? ? [= <-]. lia.
Qed.

(** No two addresses share a physical byte. *)
Lemma kernel_map_inj top a a' b :
  top <= KHEAP_START → kernel_map top a = Some b → kernel_map top a' = Some b → a = a'.
Proof.
  unfold kernel_map. intros Htop.
  destruct (Z.ltb_spec a top), (Z.ltb_spec a' top); try congruence;
    repeat match goal with |- context [if ?c then _ else _] => destruct c eqn:? end;
    try congruence; rewrite ?andb_true_iff, ?Z.leb_le, ?Z.ltb_lt in *; intros [= <-] [= ?]; lia.
Qed.

(** ** One access *)
Section access.
Variables (p m : memory) (D low hp top : Z).
Hypothesis Hen : enclosed p D low hp top.
Hypothesis Hshows : shows (D + 4096) p m.

Lemma enclosed_translate a : 0 <= a < 4294967296 → translate p (D + 4096) a = kernel_map top a.
Proof. by apply maps_translate with low hp, en_maps. Qed.

Lemma enclosed_top : 0 <= top <= 768 * 4096 ∧ top <= KHEAP_START.
Proof. destruct (mp_top _ _ _ _ _ (en_maps _ _ _ _ _ Hen)). unfold KHEAP_START. lia. Qed.

Lemma reachable_address a : reachable top a → 0 <= a < 4294967296.
Proof. pose proof enclosed_top. unfold reachable, range, KHEAP_START, KHEAP_INITIAL_SIZE. lia. Qed.

Lemma load_shown a :
  reachable top a → ∃ b, translate p (D + 4096) a = Some b ∧ ld8 p b = ld8 m a.
Proof.
  intros Ha. destruct (kernel_map_reachable top a) as (b & Hb & _); [apply enclosed_top|done|].
  pose proof (reachable_address a Ha) as Hr. rewrite <- enclosed_translate in Hb by done.
  exists b. split; [exact Hb|]. symmetry. by apply Hshows.
Qed.

Lemma store_shown a v :
  off_tables D top a → ∃ b, translate p (D + 4096) a = Some b ∧
    enclosed (st8 p b v) D low hp top ∧ shows (D + 4096) (st8 p b v) (st8 m a v).
Proof.
  intros [Ha Hoff]. pose proof (reachable_address a Ha) as Hr. pose proof enclosed_top as [Htop Hks].
  destruct (kernel_map_reachable top a Hks Ha) as (b & Hb & Hwhere).
  unfold range, KHEAP_INITIAL_SIZE in *.
  assert (∀ x, range D (top - D) x → x ≠ b) as Hne by (unfold range; intros; lia).
  assert (enclosed (st8 p b v) D low hp top) as Hen'.
  { destruct Hen as [Hm Hd Hl Hh]. split; [|done..].
    eapply (maps_frame (λ x, x = b)); [apply frame_st8; [apply frame_refl|lia|done]| |exact Hm].
    intros x Hx. apply Hne. unfold range in *. lia. }
  exists b. split; [by rewrite enclosed_translate|]. split; [exact Hen'|].
  intros a' b' Ha' Hb'. rewrite (maps_translate _ _ _ _ _ _ (en_maps _ _ _ _ _ Hen')) in Hb' by done.
  destruct (decide (a' = a)) as [->|Hna].
  - assert (b' = b) as -> by congruence. by rewrite !ld8_st8_eq.
  - assert (b' ≠ b) as Hnb by (intros ->; by eapply Hna, kernel_map_inj).
    assert (0 <= b' < 4294967296) as Hb0.
    { destruct (kernel_map_bound top a' b') as [? ?]; [lia..|done|]. unfold KHEAP_INITIAL_SIZE in *. lia. }
    rewrite !ld8_st8_ne by (done || lia). apply Hshows; [done|]. by rewrite enclosed_translate.
Qed.
End access.

(** ** Programs *)
Lemma run_shown D low hp top prog p m :
  enclosed p D low hp top → shows (D + 4096) p m →
  within (reachable top) (off_tables D top) prog m →
  ∃ p', run_paged (D + 4096) prog p = Some (p', (run_flat prog m).2) ∧
    enclosed p' D low hp top ∧ shows (D + 4096) p' (run_flat prog m).1.
Proof.
  revert p m. induction prog as [|a k IH|a v k IH]; intros p m Hen Hsh Hw.
  - by exists p.
  - destruct Hw as [Ha Hw]. destruct (load_shown p m D low hp top Hen Hsh a Ha) as (b & Hb & Hld).
    destruct (IH (ld8 m a) p m Hen Hsh Hw) as (p' & Hrun & Hen' & Hsh').
    exists p'. cbn [run_paged run_flat]. rewrite Hb. cbn. rewrite Hld, Hrun. cbn.
    by destruct (run_flat (k (ld8 m a)) m).
  - destruct Hw as [Ha Hw]. destruct (store_shown p m D low hp top Hen Hsh a v Ha) as (b & Hb & Hen1 & Hsh1).
    destruct (IH _ _ Hen1 Hsh1 Hw) as (p' & Hrun & Hen' & Hsh').
    exists p'. cbn [run_paged run_flat]. by rewrite Hb.
Qed.

Lemma heap_view_shown p D low hp top :
  enclosed p D low hp top → shows (D + 4096) p (heap_view top p).
Proof.
  intros Hen a b Ha Hb. rewrite (enclosed_translate _ _ _ _ _ Hen) in Hb by done.
  unfold heap_view. rewrite copied_at_ld8 by done. pose proof (enclosed_top _ _ _ _ _ Hen) as [_ Htop].
  unfold kernel_map in Hb. destruct (Z.ltb_spec a top).
  - injection Hb as <-. rewrite decide_False; [done|]. unfold range. lia.
  - destruct (_ && _) eqn:E; [|done]. rewrite andb_true_iff, Z.leb_le, Z.ltb_lt in E.
    injection Hb as <-. by rewrite decide_True.
Qed.

Lemma kernel_mapped_enclosed s P D :
  0 <= D → kernel_mapped s P D (D + 0x7000) → enclosed (mem s) D (D + 20480) (D + 12288) (D + 0x7000).
Proof. intros HD Hk. split; [apply Hk|lia..]. Qed.

(** ** The CR3 that start-up loads

    [initialise_paging] ends by loading CR3 with the content of an uninitialised
    variable plus 4096.  What runs after that, runs in this model's flat memory
    only if the processor still finds the kernel's map behind that CR3. *)

(** Every physical memory [p] that holds the flat memory of [s] in the places
    [kernel_map top] gives it: the processor's walk from the CR3 of [s] through
    [p] is that very map. *)
Definition processor_maps (top : Z) (s : machine) : Prop :=
  ∀ p, (∀ a b, 0 <= a < 4294967296 → kernel_map top a = Some b → ld8 p b = ld8 (mem s) a) →
    ∀ a, 0 <= a < 4294967296 → translate p (cr3 (pg s)) a = kernel_map top a.

(** The contents of the variable for which that is so: the physical address of
    the kernel's directory, or that of its clone. *)
Definition kernel_top (P : Z) : Z := (P / 4096 + 8) * 4096.
Definition lucky `{Image} (P : Z) : Prop :=
  indeterminate = (P / 4096 + 1) * 4096 ∨ indeterminate = kernel_top P + (boot_clone - KHEAP_START).

(** A directory that lies at [d] in the flat memory [m] and at [d'] in the
    physical memory [p]. *)
Lemma maps_moved m p d d' low hp top :
  maps m d low hp top → dir_ok d' → low + 4096 <= top → hp + 4096 <= top →
  (∀ x, 0 <= x < top → ld8 p x = ld8 m x) → (∀ k, 0 <= k < 8192 → ld8 p (d' + k) = ld8 m (d + k)) →
  maps p d' low hp top.
Proof.
  intros [Hd Ht [Hl Hh] Hs Hml Hmh] Hd' Hl1 Hh1 Hlow Hdir.
  assert (∀ k, 0 <= k <= 8188 → ld32 p (d' + k) = ld32 m (d + k)) as Hw.
  { intros k Hk. unfold ld32. rewrite <- !Z.add_assoc. by rewrite !Hdir by lia. }
  assert (frame (λ x, ¬ (0 <= x < top)) m p) as Hf by (intros x Hx Hn; apply Hlow; lia).
  pose proof Hl as (? & _ & _). pose proof Hh as (? & _ & _).
  split; [done|done|done| | |].
  - intros i Hi. destruct (Hs i Hi) as [<- <-]. rewrite !Tables_val, !TablesPhysical_val by done.
    rewrite <- !(Z.add_assoc _ 4096). by rewrite !Hw by lia.
  - eapply table_maps_frame; [exact Hf|done|Z.div_mod_to_equations; lia| |done]. intros x Hx Hn. apply Hn. unfold range in Hx. lia.
  - eapply table_maps_frame; [exact Hf|done|lia| |done]. intros x Hx Hn. apply Hn. unfold range in Hx. lia.
Qed.

Lemma walkable_processor_maps `{Image} s P :
  0 <= P < 761 * 4096 → walkable (mem s) P → cr3 (pg s) = indeterminate ⊕ 0x1000 → lucky P →
  processor_maps (kernel_top P) s.
Proof.
  intros HP [Hk Hc] Hcr3 Hlucky p Hp a Ha. cbv zeta in *. unfold lucky, kernel_top in *.
  set (D := (P / 4096 + 1) * 4096) in *.
  replace ((P / 4096 + 8) * 4096) with (D + 0x7000) in * by (unfold D; lia).
  assert (4096 <= D <= 761 * 4096) as HD by (unfold D; Z.div_mod_to_equations; lia).
  assert (∀ x, 0 <= x < D + 0x7000 → ld8 p x = ld8 (mem s) x) as Hlow.
  { intros x Hx. apply Hp; [lia|]. unfold kernel_map. by rewrite (proj2 (Z.ltb_lt _ _)) by lia. }
  unfold boot_clone, KHEAP_START in *.
  destruct Hlucky as [E|E]; rewrite Hcr3, E, w32_small by lia.
  - eapply maps_translate; [|done]. eapply maps_moved; [exact Hk|apply Hk|lia|lia|exact Hlow|].
    intros k Hk'. apply Hlow. lia.
  - eapply maps_translate; [|done].
    eapply maps_moved; [exact Hc|unfold dir_ok, sizeof_PageDirectory; lia|lia|lia|exact Hlow|].
    intros k Hk'. apply Hp; [lia|]. unfold kernel_map, KHEAP_START, KHEAP_INITIAL_SIZE.
    rewrite (proj2 (Z.ltb_ge _ _)), (proj2 (Z.leb_le _ _)), (proj2 (Z.ltb_lt _ _)) by lia. cbn [andb]. f_equal. lia.
Qed.

(** ** Properties *)

(** C5. The flat memory of this model is what the processor shows.  When
    [map_kernel] has returned, every program of byte loads and stores that
    stays in the addresses it maps, and does not store to the directory and
    the tables, runs through the page tables without a page fault; it loads
    exactly the bytes it loads over the flat memory, and afterwards the flat
    memory is again what the page tables show of the physical one, by the same
    map.  At the
    start this flat memory is the kernel's own up to its end, with the heap's
    bytes those of the frames behind it.  Addresses may depend on bytes loaded
    before; no two addresses share a physical byte ([kernel_map_inj]). *)
Theorem flat_memory_sound `{Image} fuel s :
  let P := placement_address (kmem s) in
  kheap (kmem s) = 0 → 4096 <= P < 761 * 4096 → P mod 4096 <= 3584 → (1024 <= fuel)%nat →
  ∃ s', map_kernel fuel s = Done tt s' ∧
    let D := kernel_directory (pg s') in
    let top := placement_address (kmem s') + 0x1000 in
    (∀ a, 0 <= a < top → ld8 (heap_view top (mem s')) a = ld8 (mem s') a) ∧
    ∀ prog, within (reachable top) (off_tables D top) prog (heap_view top (mem s')) →
      ∃ p', let flat := run_flat prog (heap_view top (mem s')) in
        run_paged (cr3 (pg s')) prog (mem s') = Some (p', flat.2) ∧ shows (cr3 (pg s')) p' flat.1 ∧
        ∀ a, 0 <= a < 4294967296 → translate p' (cr3 (pg s')) a = kernel_map top a.
Proof.
  intros P Hkh HP Hoff Hfuel. destruct (map_kernel_run fuel s Hkh HP Hoff Hfuel) as (s' & Hrun & Hk & _).
  fold P in Hk. set (D := (P / 4096 + 1) * 4096) in *.
  assert (0 <= D <= 761 * 4096) as HD by (unfold D; Z.div_mod_to_equations; lia). clearbody D.
  pose proof (kernel_mapped_enclosed _ _ _ (proj1 HD) Hk) as Hen.
  destruct Hk as [He [Htop Hpl] (_ & Hcr3 & _) _]. exists s'. split; [exact Hrun|]. cbv zeta.
  rewrite Hcr3, (ea_directory _ _ _ He), Hpl, Z.sub_add. split.
  - intros a Ha. unfold heap_view. rewrite copied_at_ld8, decide_False; [done| |lia].
    unfold range, KHEAP_START. lia.
  - intros prog Hw. destruct (run_shown _ _ _ _ prog _ _ Hen (heap_view_shown _ _ _ _ _ Hen) Hw)
      as (p' & Hpaged & Hen' & Hsh). exists p'. split_and!; [done..|].
    by apply (enclosed_translate _ _ _ _ _ Hen').
Qed.

(** A word written to the heap, read back, and its successor stored below the
    directory. *)
Definition sample_program : program :=
  store_word 0xC0000010 0x11223344 (load_word 0xC0000010 (λ w, store_word 0x3000 (w + 1) halt)).

Lemma flat_memory_sound_witness :
  ∃ s' p', @map_kernel sample_image 1024 (sample ∅) = Done tt s' ∧
    run_paged (cr3 (pg s')) sample_program (mem s') = Some (p', [0x44; 0x33; 0x22; 0x11]) ∧
    ld8 p' 0x48010 = 0x44 ∧ ld8 p' 0x3000 = 0x45.
Proof.
  destruct (@flat_memory_sound sample_image 1024 (sample ∅)) as (s' & Hrun & _ & Hprog);
    [done|zdecide|zdecide|done|].
  cbv zeta in Hprog. destruct (@map_kernel_run sample_image 1024 (sample ∅)) as (s1 & Hrun1 & Hk & _);
    [done|zdecide|zdecide|done|].
  assert (s' = s1) as -> by congruence. destruct Hk as [He [_ Hpl] _ _].
  rewrite (ea_directory _ _ _ He), Hpl in Hprog.
  change (((placement_address (kmem (sample ∅)) / 4096 + 1) * 4096)) with 0x41000 in Hprog.
  change (0x41000 + 0x7000 - 4096 + 4096) with 0x48000 in Hprog.
  revert Hprog. generalize (heap_view 0x48000 (mem s1)). intros m Hprog.
  destruct (Hprog sample_program) as (p' & Hp & Hsh & Hmap).
  { unfold sample_program, store_word, load_word, off_tables, reachable, range, KHEAP_START, KHEAP_INITIAL_SIZE.
    cbn [within]. repeat split; lia. }
  assert (run_flat sample_program m =
    (st32 (st32 m 0xC0000010 0x11223344) 0x3000 0x11223345, [0x44; 0x33; 0x22; 0x11])) as E.
  { unfold sample_program. rewrite run_flat_store_word, run_flat_load_word, ld32_st32_eq, run_flat_store_word.
    cbn [run_flat]. by rewrite ld8_st32_first, !ld8_st32_byte by lia. }
  rewrite E in Hp, Hsh. exists s1, p'. split; [exact Hrun|]. split; [exact Hp|].
  split; [rewrite <- (Hsh 0xC0000010 0x48010)|rewrite <- (Hsh 0x3000 0x3000)];
    [|lia|by rewrite Hmap by lia| |lia|by rewrite Hmap by lia]; cbn [fst].
  - rewrite ld8_st32_near_ne by lia. by rewrite ld8_st32_first.
  - by rewrite ld8_st32_first.
Defined.
