(* ===== verification/CopyPage.v ===== *)
(** * PagingAssembly.S: copy_page_physical

    The one assembly routine that works on memory, instruction by instruction
    over physical memory and the two control registers it depends on; the C++
    side keeps the call as an event of the trace.  Its constants are written
    without [$], which makes them addresses: what is to clear the paging bit of
    CR0 is the word at address 0x7fffffff, what is to set it again the word at
    address 0x80000000, the number of words to copy is the word at address 1024
    and the distance from one word to the next is the word at address 4. *)
From S2P Require Import Prelude Memory Machine Kmalloc Heap Boot BootMap.
Local Open Scope Z_scope.
Local Open Scope u32_scope.

(** ** The routine *)

(** How an instruction ends: done, in a page fault at an address, or with a CR0
    that has left protected mode, from where on nothing is said. *)
Inductive ran (A : Type) : Type :=
  | Ran (a : A)
  | Page_fault (a : Z) (m : memory)
  | Unprotected (m : memory).
Arguments Ran {_}.
Arguments Page_fault {_}.
Arguments Unprotected {_}.
Global Instance ran_bind : MBind ran := λ A B k r,
  match r with Ran a => k a | Page_fault a m => Page_fault a m | Unprotected m => Unprotected m end.

(** The paging bit of CR0 decides whether an address is walked. *)
Definition physical (cr0 cr3 : Z) (m : memory) (a : Z) : ran Z :=
  if Z.testbit cr0 31 then match translate m cr3 a with Some b => Ran b | None => Page_fault a m end else Ran a.
Definition read_word (cr0 cr3 : Z) (m : memory) (a : Z) : ran Z :=
  b0 ← physical cr0 cr3 m a; b1 ← physical cr0 cr3 m (a + 1);
  b2 ← physical cr0 cr3 m (a + 2); b3 ← physical cr0 cr3 m (a + 3);
  Ran (ld8 m b0 + 256 * ld8 m b1 + 65536 * ld8 m b2 + 16777216 * ld8 m b3).
Definition write_word (cr0 cr3 : Z) (m : memory) (a v : Z) : ran memory :=
  b0 ← physical cr0 cr3 m a; b1 ← physical cr0 cr3 m (a + 1);
  b2 ← physical cr0 cr3 m (a + 2); b3 ← physical cr0 cr3 m (a + 3);
  Ran (st8 (st8 (st8 (st8 m b0 v) b1 (v / 256)) b2 (v / 65536)) b3 (v / 16777216)).
Definition set_cr0 (m : memory) (w : Z) : ran Z := if Z.testbit w 0 then Ran w else Unprotected m.

(** One round of the loop, on memory, EBX and ECX. *)
Definition copy_word (cr0 cr3 : Z) (st : memory * Z * Z) : ran (memory * Z * Z) :=
  let '(m, ebx, ecx) := st in
  eax ← read_word cr0 cr3 m ebx;
  m ← write_word cr0 cr3 m ecx eax;
  w ← read_word cr0 cr3 m 4;
  w' ← read_word cr0 cr3 m 4;
  Ran (m, ebx ⊕ w, ecx ⊕ w').
Fixpoint copy_words (n : nat) (cr0 cr3 : Z) (st : memory * Z * Z) : ran (memory * Z * Z) :=
  match n with
  | O => Ran st
  | S n => st ← copy_word cr0 cr3 st; copy_words n cr0 cr3 st
  end.

(** [dec] comes before the test for zero, so that a count of 0 stands for 2^32. *)
Definition copy_count (edx : Z) : Z := if edx =? 0 then 4294967296 else edx.

(** The result is memory and CR0. *)
Definition copy_page_physical (cr0 cr3 src dst : Z) (m : memory) : ran (memory * Z) :=
  w ← read_word cr0 cr3 m 0x7fffffff;
  cr0 ← set_cr0 m (Z.land cr0 w);
  edx ← read_word cr0 cr3 m 1024;
  '(m, _, _) ← copy_words (Z.to_nat (copy_count edx)) cr0 cr3 (m, src, dst);
  w ← read_word cr0 cr3 m 0x80000000;
  cr0 ← set_cr0 m (Z.lor cr0 w);
  Ran (m, cr0).

(** ** With paging off *)
Lemma read_word_off cr0 cr3 m a : Z.testbit cr0 31 = false → read_word cr0 cr3 m a = Ran (ld32 m a).
Proof. unfold read_word, physical. by intros ->. Qed.
Lemma write_word_off cr0 cr3 m a v : Z.testbit cr0 31 = false → write_word cr0 cr3 m a v = Ran (st32 m a v).
Proof. unfold write_word, physical. by intros ->. Qed.

Definition copy_step (st : memory * Z * Z) : memory * Z * Z :=
  let '(m, ebx, ecx) := st in
  let m := st32 m ecx (ld32 m ebx) in
  (m, ebx ⊕ ld32 m 4, ecx ⊕ ld32 m 4).

Lemma copy_words_off n cr0 cr3 st :
  Z.testbit cr0 31 = false → copy_words n cr0 cr3 st = Ran (Nat.iter n copy_step st).
Proof.
  intros Hoff. revert st. induction n as [|n IH]; intros st; [done|].
  rewrite Nat.iter_succ_r, <- IH. destruct st as [[m ebx] ecx]. cbn [copy_words copy_word].
  rewrite read_word_off by done. cbn. rewrite write_word_off by done. cbn. by rewrite !read_word_off by done.
Qed.

Lemma copy_count_range m : 1 <= copy_count (ld32 m 1024) <= 4294967296.
Proof. unfold copy_count. pose proof (ld32_range m 1024). destruct (Z.eqb_spec (ld32 m 1024) 0); lia. Qed.

Section copy.
Variables (m : memory) (src dst : Z).
Let n := copy_count (ld32 m 1024).
Let d := ld32 m 4.
Hypothesis Hstride : d = 0 ∨ 4 <= d.
Hypothesis Hsrc : 0 <= src ∧ src + d * (n - 1) + 4 <= 4294967296.
Hypothesis Hdst : 8 <= dst ∧ dst + d * (n - 1) + 4 <= 4294967296.
Hypothesis Hapart : src + d * (n - 1) + 4 <= dst ∨ dst + d * (n - 1) + 4 <= src.

(** The words written by [k] rounds. *)
Definition strides (k x : Z) : Prop := ∃ i, 0 <= i < k ∧ range (dst + d * i) 4 x.

Lemma copy_steps (k : nat) :
  Z.of_nat k <= n →
  let '(m', ebx, ecx) := Nat.iter k copy_step (m, src, dst) in
  ebx = w32 (src + d * Z.of_nat k) ∧ ecx = w32 (dst + d * Z.of_nat k) ∧
  (∀ i, 0 <= i < Z.of_nat k → ld32 m' (dst + d * i) = ld32 m (src + d * i)) ∧
  frame (strides (Z.of_nat k)) m m'.
Proof.
  assert (0 <= d) as Hd by lia. pose proof (copy_count_range m : 1 <= n <= _) as Hn. induction k as [|k IH]; intros Hk.
  - cbn. rewrite Z.mul_0_r, !Z.add_0_r, !w32_small by nia. split_and!; [done|done|lia|apply frame_refl].
  - cbn [Nat.iter nat_rect]. fold (Nat.iter k copy_step (m, src, dst)).
    destruct (Nat.iter k copy_step (m, src, dst)) as [[mk ebx] ecx].
    destruct IH as (-> & -> & Hcopied & Hf); [lia|]. set (q := Z.of_nat k) in *.
    assert (0 <= d * q <= d * (n - 1)) as Hq by nia.
    unfold copy_step. rewrite (w32_small (src + d * q)), (w32_small (dst + d * q)) by lia.
    assert (ld32 mk (src + d * q) = ld32 m (src + d * q)) as Hload.
    { eapply frame_ld32; [exact Hf|lia|lia|]. intros x Hx (i & Hi & Hx'). unfold range in Hx'. nia. }
    assert (ld32 (st32 mk (dst + d * q) (ld32 mk (src + d * q))) 4 = d) as Hword.
    { rewrite ld32_st32_near_ne by lia. eapply frame_ld32; [exact Hf|lia|lia|].
      intros x Hx (i & Hi & Hx'). unfold range in Hx'. nia. }
    rewrite Hword. replace (Z.of_nat (S k)) with (q + 1) by lia. split_and!.
    + f_equal. lia.
    + f_equal. lia.
    + intros i Hi. destruct (decide (i = q)) as [->|Hne].
      * rewrite ld32_st32_eq, Hload. apply w32_small, ld32_range.
      * destruct Hstride as [H0|H4].
        -- rewrite H0, !Z.mul_0_l in *. rewrite ld32_st32_eq, Hload. apply w32_small, ld32_range.
        -- assert (d * i + 4 <= d * q) by nia. rewrite ld32_st32_near_ne by lia. apply Hcopied. lia.
    + eapply frame_trans; [eapply frame_weaken; [exact Hf|]|].
      * intros x _ (i & Hi & Hx). exists i. split; [lia|done].
      * apply frame_st32; [apply frame_refl|lia|lia|]. intros x Hx. exists q. unfold range. lia.
Qed.
End copy.

(** From the loop to the whole routine. *)
Lemma copy_page_off cr0 cr3 src dst m m' ebx ecx :
  Z.testbit cr0 31 = false → Z.testbit (Z.land cr0 (ld32 m 0x7fffffff)) 0 = true →
  Nat.iter (Z.to_nat (copy_count (ld32 m 1024))) copy_step (m, src, dst) = (m', ebx, ecx) →
  copy_page_physical cr0 cr3 src dst m =
    Ran (m', Z.lor (Z.land cr0 (ld32 m 0x7fffffff)) (ld32 m' 0x80000000)).
Proof.
  intros Hoff Hpe Hiter. set (c := Z.land cr0 _) in *.
  assert (Z.testbit c 31 = false) as Hoff' by (unfold c; by rewrite Z.land_spec, Hoff).
  unfold copy_page_physical. rewrite read_word_off by done. unfold mbind, ran_bind. fold c.
  unfold set_cr0 at 1. rewrite Hpe, read_word_off, copy_words_off, Hiter, read_word_off by done.
  unfold set_cr0. by rewrite Z.lor_spec, Hpe.
Qed.

(** C38. [copy_page_physical] does not copy a page.  With paging on and the
    kernel's map, as start-up makes it, it ends in a page fault before it copies
    anything: its [and] takes the word at 0x7fffffff, which is not mapped, for
    the mask 0x7fffffff.  With paging off (and the word at
    0x7fffffff leaving the processor in protected mode) it strides through
    memory by what the words at 4 and 1024 hold: with [n] at 1024 (0 counting as
    2^32) and [d] at 4, it copies the [n] words that lie [d] bytes apart from
    [src] and from [dst] on, one to the other, and changes nothing else: a page
    when [n] is 1024 and [d] is 4, but only the first word of it when [d] is 0,
    and never the second one when [d] is 8 or more.  (This for words that do not
    overlap: source and destination apart and within the address space, the
    destination not over the word at 4.) *)
Theorem copy_page_physical_runs cr0 cr3 src dst m :
  (∀ top, top <= KHEAP_START → top <= 0x7fffffff → Z.testbit cr0 31 = true →
     (∀ a, 0 <= a < 4294967296 → translate m cr3 a = kernel_map top a) →
     copy_page_physical cr0 cr3 src dst m = Page_fault 0x7fffffff m) ∧
  let n := copy_count (ld32 m 1024) in
  let d := ld32 m 4 in
  (Z.testbit cr0 31 = false → Z.testbit (Z.land cr0 (ld32 m 0x7fffffff)) 0 = true →
     d = 0 ∨ 4 <= d →
     0 <= src → src + d * (n - 1) + 4 <= 4294967296 → 8 <= dst → dst + d * (n - 1) + 4 <= 4294967296 →
     src + d * (n - 1) + 4 <= dst ∨ dst + d * (n - 1) + 4 <= src →
     ∃ m' cr0', copy_page_physical cr0 cr3 src dst m = Ran (m', cr0') ∧
       (∀ i, 0 <= i < n → ld32 m' (dst + d * i) = ld32 m (src + d * i)) ∧
       frame (λ x, ∃ i, 0 <= i < n ∧ range (dst + d * i) 4 x) m m' ∧
       (dst + 8 <= 4294967296 → d = 0 ∨ 8 <= d ∨ n = 1 → ld32 m' (dst + 4) = ld32 m (dst + 4))).
Proof.
  split.
  - intros top Htop Hlow Hon Hmap. assert (physical cr0 cr3 m 0x7fffffff = Page_fault 0x7fffffff m) as Hfault.
    { unfold physical. rewrite Hon, Hmap by lia. unfold kernel_map. by rewrite (proj2 (Z.ltb_ge _ _)) by lia. }
    unfold copy_page_physical, read_word. by rewrite Hfault.
  - intros n d Hoff Hpe Hd Hs0 Hs1 Ht0 Ht1 Hap. pose proof (copy_count_range m : 1 <= n <= _) as Hn.
    pose proof (copy_steps m src dst Hd (conj Hs0 Hs1) (conj Ht0 Ht1) Hap (Z.to_nat n)) as Hrun.
    destruct (Nat.iter _ _ _) as [[mk ebx] ecx] eqn:Hiter.
    rewrite Z2Nat.id in Hrun by lia. destruct Hrun as (_ & _ & Hcopied & Hf); [done|].
    exists mk. eexists. split; [by eapply copy_page_off|]. split; [exact Hcopied|]. split; [exact Hf|].
    intros Hend Hno. eapply frame_ld32; [exact Hf|lia|lia|].
    intros x Hx (i & Hi & Hx'). unfold range in Hx'. fold d in Hx'. destruct (decide (i = 0)) as [->|Hi0]; [lia|].
    destruct Hno as [E|[E|E]]; [rewrite E in Hx'; lia| |lia].
    assert (d * 1 <= d * i) by (apply Z.mul_le_mono_nonneg_l; lia). lia.
Qed.

(** The kernel's map of a machine whose first module ends at [0x40000]; and with
    paging off and the word at 4 clear, the three words "copied" are one and the
    same. *)
Lemma copy_page_physical_runs_witness :
  let m := st32 (st32 (st32 (st32 ∅ 0x7fffffff 1) 1024 3) 0x7000 0x11) 0x7004 0x22 in
  (∃ s, @map_kernel sample_image 1024 (sample ∅) = Done tt s ∧
     copy_page_physical 0x80000001 (cr3 (pg s)) 0x7000 0x9000 (mem s) = Page_fault 0x7fffffff (mem s)) ∧
  ∃ m' cr0, copy_page_physical 1 0 0x7000 0x9000 m = Ran (m', cr0) ∧ ld32 m' 0x9000 = 0x11 ∧ ld32 m' 0x9004 = 0.
Proof.
  intros m. split.
  - destruct (@map_kernel_run sample_image 1024 (sample ∅)) as (s & Hrun & Hk & _); [done|zdecide|zdecide|done|].
    exists s. split; [exact Hrun|].
    apply (proj1 (copy_page_physical_runs 0x80000001 (cr3 (pg s)) 0x7000 0x9000 (mem s)) (0x41000 + 0x7000));
      [zdecide|zdecide|done|].
    destruct Hk as [He _ (_ & Hcr3 & _) Hmaps]. rewrite Hcr3.
    intros a Ha. by eapply maps_translate.
  - destruct (proj2 (copy_page_physical_runs 1 0 0x7000 0x9000 m)) as (m' & cr0 & Hrun & Hc & _ & Hno);
      [done|by vm_compute|left; by vm_compute|zdecide..|left; zdecide|].
    exists m', cr0. split; [exact Hrun|]. split.
    + refine (eq_trans (Hc 0 _) _); [zdecide|by vm_compute].
    + refine (eq_trans (Hno _ _) _); [done|left; by vm_compute|by vm_compute].
Defined.
