(* ===== verification/Startup.v ===== *)
(** * Start-up as a whole

    [kernel_main] from the multiboot loader to the first process: [start_up]
    (descriptor tables, handlers, timer, paging and the heap) and
    [initialise_tasking], with what every component promised still true at the
    end. *)
From S2P Require Import Prelude Memory LibString OrderedList Machine Console Stdio Descriptors Frames Kmalloc.
From S2P Require Import Initrd Paging MapPages Task Devices Heap HeapSpec HeapAlloc HeapAllocator Boot BootMap BootPaging.
From S2P Require Import PagedMemory.
Local Open Scope Z_scope.
Local Open Scope u32_scope.

Section startup.
Context `{Image} `{Tables_image} `{Devices_image}.

(** The bytes of the static tables and of their pointers. *)
Definition table_bytes (x : Z) : Prop :=
  range gdt_entries 24 x ∨ range gtdPointer 6 x ∨ range entries 2048 x ∨ range idtPointer 6 x.

(** What the loader leaves: the kernel's image, with its tables apart from each
    other and below the end [P] of the first module, and the multiboot words
    that say where the module lies, apart from the tables. *)
Record loaded (s : machine) (mboot_ptr location P : Z) : Prop := {
  ld_gdt : gdt_ok ∧ pointer_ok gtdPointer ∧ apart gdt_entries 24 gtdPointer 6;
  ld_idt : idt_ok ∧ pointer_ok idtPointer ∧ apart entries 2048 idtPointer 6;
  ld_apart : apart gdt_entries 24 entries 2048 ∧ apart gdt_entries 24 idtPointer 6 ∧
    apart gtdPointer 6 entries 2048 ∧ apart gtdPointer 6 idtPointer 6;
  ld_stubs : (∀ i, 0 <= isr i < 4294967296) ∧ (∀ i, 0 <= irq_stub i < 4294967296);
  ld_below : ∀ x, table_bytes x → x < P;
  ld_mods : ∃ mods, ld32 (mem s) (mods_addr mboot_ptr) = mods ∧ mods + 8 <= 4294967296 ∧
    ld32 (mem s) mods = location ∧ ld32 (mem s) (mods + 4) = P ∧
    (∀ x, range (mods_addr mboot_ptr) 4 x ∨ range mods 8 x → ¬ table_bytes x) ∧
    mods_addr mboot_ptr + 4 <= 4294967296;
  ld_place : 4096 <= P < 761 * 4096 ∧ P mod 4096 <= 3584;
  ld_globals : kheap (kmem s) = 0 ∧ length (irq_routines (irq s)) = 16%nat ∧
    0 <= next_pid (tasks s) < 2147483647;
}.

(** What the processor and the devices were told, latest first. *)
Definition start_up_trace : list event :=
  [ev_outb 0x40 0x2E; ev_outb 0x40 0x9B; ev_outb 0x43 0x36] ++
  remap_trace ++ [ev_load_idt idtPointer; ev_load_gdt gtdPointer].

(** The tables in memory [m]. *)
Record tables_set (m : memory) : Prop := {
  ts_gdt : table_at m gtdPointer 23 gdt_entries;
  ts_code : segment_of m (gdt_entries + 8) = MkSegment 0 0xFFFFF 0x9A 0xC;
  ts_data : segment_of m (gdt_entries + 16) = MkSegment 0 0xFFFFF 0x92 0xC;
  ts_idt : table_at m idtPointer 2047 entries;
  ts_isr : ∀ i, 0 <= i < 32 → gate_of m (entries + 8 * i) = MkGate (isr i) 0x08 0 0x8E;
  ts_irq : ∀ i, 32 <= i < 48 → gate_of m (entries + 8 * i) = MkGate (irq_stub i) 0x08 0 0x8E;
}.

Lemma tables_set_frame Q m m' :
  gdt_ok → pointer_ok gtdPointer → idt_ok → pointer_ok idtPointer →
  frame Q m m' → (∀ x, table_bytes x → ¬ Q x) → tables_set m → tables_set m'.
Proof.
  intros [? ?] [? ?] [? ?] [? ?] Hf HQ [T1 T2 T3 T4 T5 T6].
  assert (∀ e, (∀ x, range e 8 x → table_bytes x) → ∀ x, range e 8 x → ¬ Q x) as He by (intros; apply HQ; auto).
  split.
  - eapply table_at_frame; [exact Hf|done|done| |done]. intros x Hx. apply HQ. unfold table_bytes. auto.
  - rewrite <- T2. eapply segment_of_frame; [exact Hf|split; lia|]. apply He. unfold table_bytes, range. lia.
  - rewrite <- T3. eapply segment_of_frame; [exact Hf|split; lia|]. apply He. unfold table_bytes, range. lia.
  - eapply table_at_frame; [exact Hf|done|done| |done]. intros x Hx. apply HQ. unfold table_bytes. auto.
  - intros i Hi. rewrite <- T5 by done.
    eapply gate_of_frame; [exact Hf|split; lia|]. apply He. unfold table_bytes, range. lia.
  - intros i Hi. rewrite <- T6 by done.
    eapply gate_of_frame; [exact Hf|split; lia|]. apply He. unfold table_bytes, range. lia.
Qed.

(** Up to [initialise_paging]: a state whose memory is [s] but for the tables. *)
Definition before_paging (s : machine) (stack P : Z) (m : memory) : machine :=
  let hs := <[0%nat := TickHandler_address]> (<[1%nat := keyboard_handler_address]> (irq_routines (irq s))) in
  set_trace (start_up_trace ++ trace s) (set_irq (MkIrq hs (ticks (irq s)))
    (set_placement_address P (set_initial_esp stack (set_mem m s)))).

Lemma start_up_tables fuel s mboot_ptr stack location P :
  loaded s mboot_ptr location P →
  ∃ m, tables_set m ∧ frame table_bytes (mem s) m ∧
    start_up fuel mboot_ptr stack s =
      (initialise_paging fuel ;; mret (location, P)) (before_paging s stack P m).
Proof.
  intros [(Hg & Hgp & Hga) (Hi & Hip & Hia) (A1 & A2 & A3 & A4) [Hisr Hirq] _ Hmods _ (_ & Hlen & _)].
  set (s0 := set_initial_esp stack s).
  destruct (InitGDT_run s0 Hg Hgp Hga) as (m1 & Hrun1 & T1 & _ & C1 & D1 & F1).
  set (s1 := add_event _ _) in Hrun1.
  destruct (Init_IDT_run s1 Hi Hip Hia Hisr Hirq) as (m2 & Hrun2 & T2 & I1 & I2 & _ & F2).
  set (s2 := set_trace _ _) in Hrun2. change (mem s1) with m1 in F2. change (mem s0) with (mem s) in F1.
  assert (frame table_bytes (mem s) m2) as F.
  { eapply frame_trans; (eapply frame_weaken; [eassumption|]); unfold table_bytes; tauto. }
  exists m2. split; [|split; [exact F|]].
  { unfold apart in *. destruct Hg, Hgp, Hi, Hip.
    split; [|rewrite <- C1|rewrite <- D1|exact T2|exact I1|exact I2].
    - eapply table_at_frame; [exact F2|done|done|unfold range; lia|exact T1].
    - eapply segment_of_frame; [exact F2|split; lia|unfold range; lia].
    - eapply segment_of_frame; [exact F2|split; lia|unfold range; lia]. }
  destruct Hmods as (mods & Hm & Hmods & Hloc & HP & Hap & Hmb).
  pose proof (ld32_range (mem s) (mods_addr mboot_ptr)) as Hm0. rewrite Hm in Hm0.
  assert (0 <= mods_addr mboot_ptr) by apply w32_range.
  assert (ld32 m2 (mods_addr mboot_ptr) = mods ∧ ld32 m2 mods = location ∧ ld32 m2 (mods + 4) = P) as (E1 & E2 & E3).
  { split_and!; (etransitivity; [eapply (frame_ld32 _ _ _ _ F); [lia|lia|]|done]); intros x Hx; apply Hap; unfold range; lia. }
  unfold start_up. rewrite bind_modify. fold s0.
  rewrite (bind_done _ _ _ _ _ Hrun1), (bind_done _ _ _ _ _ Hrun2), !bind_load32.
  change (mem s2) with m2. rewrite E1, E2. rewrite (w32_small (mods + 4)) by lia. rewrite E3, bind_modify.
  unfold InstallHandler, Timer_new. rewrite (bind_done _ _ _ _ _ (set_irq_routine_ok 1 _ (SetPlacementAddress P s2) Hlen ltac:(lia))).
  rewrite bind_assoc. unfold InstallHandler.
  set (s3 := set_irq _ _). assert (TimerPhase 100 s3 =
    Done tt (set_trace ([ev_outb 0x40 0x2E; ev_outb 0x40 0x9B; ev_outb 0x43 0x36] ++ trace s3) s3)) as Ht
    by reflexivity.
  rewrite (bind_done _ _ _ _ _ Ht).
  rewrite (bind_done _ _ _ _ _ (set_irq_routine_ok 0 TickHandler_address (set_trace _ s3)
    (eq_trans (length_insert _ _ _) Hlen) ltac:(lia))).
  reflexivity.
Qed.

(** The machine once the first process exists. *)
Record started (n : nat) (s s' : machine) (P t : Z) : Prop := {
  sd_tables : tables_set (mem s');
  sd_handlers : irq_routines (irq s') !! 0%nat = Some TickHandler_address ∧
    irq_routines (irq s') !! 1%nat = Some keyboard_handler_address;
  sd_ticks : ticks (irq s') = ticks (irq s);
  sd_inv : @alloc_inv _ (heap_spec n) s';
  sd_room l : plan 0x80000 0 ((sizeof_PageDirectory, true) :: (sizeof_Task, false) :: l) →
    Z.of_nat (length l) + 2 < HEAP_INDEX_SIZE → planned s' l;
  sd_queue : scheduling s' [MkTask t (next_pid (tasks s)) (MkContext 0 0 0) (current_directory (pg s'))] 0;
  sd_pid : next_pid (tasks s') = next_pid (tasks s) + 1;
  sd_dirs : (dir_ok (current_directory (pg s')) ∧ KHEAP_START <= current_directory (pg s')) ∧
    kernel_directory (pg s') = (P / 4096 + 1) * 4096;
  sd_shared : shares_kernel_tables s' (current_directory (pg s'));
  sd_map : ∀ a, 0 <= a < 4294967296 →
    translate (mem s') (TablesPhysical (current_directory (pg s')) 0) a = kernel_map ((P / 4096 + 8) * 4096) a;
  sd_walk : walkable (mem s') P ∧ current_directory (pg s') = boot_clone;
  sd_cr3 : cr3 (pg s') = indeterminate ⊕ 0x1000 ∧
    ld32 (mem s') (PhysicalAddress (current_directory (pg s'))) = indeterminate ⊕ 0x1000;
  sd_handed x : x < KHEAP_START ∨ dir_range (current_directory (pg s')) x ∨ range t sizeof_Task x → handed_out s' x;
  sd_frame : frame (λ x, P <= x ∨ table_bytes x) (mem s) (mem s');
  sd_task : KHEAP_START <= t ∧ t + 24 <= 4294967296 ∧ ∀ x, range t 24 x → ¬ dir_range (current_directory (pg s')) x;
  sd_rest : tty s' = tty s ∧ initrd s' = initrd s;
  sd_trace : trace s' = ev_sti :: ev_cli :: start_up_trace ++ trace s;
}.

(** From [initialise_paging] to the first process. *)
Lemma started_paged n s s1 s' stack P m t :
  gdt_ok ∧ pointer_ok gtdPointer → idt_ok ∧ pointer_ok idtPointer → (∀ x, table_bytes x → x < P) →
  4096 <= P < 761 * 4096 → length (irq_routines (irq s)) = 16%nat →
  tables_set m → frame table_bytes (mem s) m → paged n P (before_paging s stack P m) s1 →
  @tasking_started _ (heap_spec n) s1 s' t → started n s s' P t.
Proof.
  intros [Hg Hgp] [Hi Hip] Hbelow HP Hlen Hts Hf Hp Ht.
  pose proof (pd_only _ _ _ _ Hp) as [(Htty1 & Hirq1 & Htasks1 & Hrd1 & Htr1) Hf1].
  pose proof (pd_dir _ _ _ _ Hp) as (Hdok & _ & Hdlow). pose proof (pd_handed _ _ _ _ Hp) as Hhand.
  pose proof (tg_rest _ _ _ Ht) as (Hpg2 & Hirq2 & Htty2 & Hrd2).
  assert (next_pid (tasks s1) = next_pid (tasks s)) as Hpid1 by (by rewrite Htasks1).
  assert (frame (λ x, ¬ handed_out s1 x) (mem s1) (mem s')) as Hf2 by apply Ht.
  assert (frame (λ x, P <= x) m (mem s')) as Hf3.
  { eapply frame_trans; [exact Hf1|]. eapply frame_weaken; [exact Hf2|]. intros x _ Hx.
    destruct (Z.le_gt_cases P x) as [|Hlt]; [done|]. exfalso. apply Hx, Hhand. left. unfold KHEAP_START. lia. }
  split.
  - eapply tables_set_frame; [done..|exact Hf3| |exact Hts]. intros x Hx. specialize (Hbelow x Hx). cbn. lia.
  - rewrite Hirq2, Hirq1. cbn. split.
    + apply list_lookup_insert_eq. rewrite length_insert. lia.
    + rewrite list_lookup_insert_ne by done. apply list_lookup_insert_eq. lia.
  - by rewrite Hirq2, Hirq1.
  - apply Ht.
  - intros l Hl Hlen'. apply Ht. apply (pd_room _ _ _ _ Hp); [done|]. cbn [length]. lia.
  - rewrite Hpg2, <- Hpid1. apply Ht.
  - rewrite <- Hpid1. apply Ht.
  - rewrite Hpg2. split; [done|apply Hp].
  - intros i Hi'. right. rewrite Hpg2. pose proof (pd_kernel _ _ _ _ Hp) as Hkd.
    assert (dir_ok (kernel_directory (pg s1))) as Hkok.
    { rewrite Hkd. unfold dir_ok, sizeof_PageDirectory. Z.div_mod_to_equations. lia. }
    assert (∀ d, dir_ok d → (∀ x, dir_range d x → handed_out s1 x) →
      ld32 (mem s') (Tables d i) = ld32 (mem s1) (Tables d i)) as Hsame
      by (intros d Hd Hd'; by apply (reserved_slots (AS := heap_spec n))).
    rewrite !Hsame; [symmetry; by apply Hp|done|auto|done|].
    intros x Hx. apply Hhand. left. rewrite Hkd in Hx.
    unfold dir_range, range, sizeof_PageDirectory, KHEAP_START in *. Z.div_mod_to_equations. lia.
  - intros a Ha. destruct (pd_maps _ _ _ _ Hp) as (low & hp & Hm & Hlow & Hhp).
    rewrite Hpg2, TablesPhysical_val, Z.mul_0_r, Z.add_0_r by (done || lia).
    eapply maps_translate; [|done]. eapply maps_frame; [exact Hf2| |exact Hm].
    intros x Hx Hn. apply Hn, Hhand. unfold dir_range, range, sizeof_PageDirectory in *. lia.
  - rewrite Hpg2. destruct (pd_walk _ _ _ _ Hp) as [Hw Hbc]. split; [|exact Hbc].
    eapply walkable_frame; [lia|exact Hf2| |exact Hw]. intros x Hx Hn. apply Hn, Hhand. rewrite Hbc.
    destruct Hx as [[_ Hx]|Hx]; auto.
  - rewrite Hpg2. destruct (pd_cr3 _ _ _ _ Hp) as [Hcr3 Hphys]. split; [exact Hcr3|]. rewrite <- Hphys.
    rewrite PhysicalAddress_val by done. destruct Hdok as [Hd0 Hd1]. unfold sizeof_PageDirectory in Hd1.
    eapply frame_ld32; [exact Hf2|lia|lia|]. intros x Hx Hn. apply Hn, Hhand. right.
    unfold dir_range, range, sizeof_PageDirectory. lia.
  - intros x Hx. rewrite Hpg2 in Hx. apply (tg_reserved _ _ _ Ht). destruct Hx as [Hx|[Hx|Hx]]; [right|right|by left];
      apply Hhand; auto.
  - apply (frame_trans _ _ m); (eapply frame_weaken; [eassumption|]); auto.
  - split; [|split; [apply (tg_queue _ _ _ Ht)|]].
    2: { intros x Hx Hd. rewrite Hpg2 in Hd. apply (tg_fresh _ _ _ Ht x Hx), Hhand. by right. }
    destruct (Z.le_gt_cases KHEAP_START t) as [|Hlt]; [done|]. exfalso.
    eapply (tg_fresh _ _ _ Ht t); [unfold range, sizeof_Task; lia|]. apply Hhand. by left.
  - by rewrite Htty2, Htty1, Hrd2, Hrd1.
  - rewrite (tg_trace _ _ _ Ht), Htr1. done.
Qed.

Lemma start_up_run n s mboot_ptr stack location P :
  loaded s mboot_ptr location P → (1024 <= S n)%nat →
  ∃ s1 s' t, start_up (S n) mboot_ptr stack s = Done (location, P) s1 ∧
    @initialise_tasking (boot_kmalloc (S n)) s1 = Done tt s' ∧ started n s s' P t.
Proof.
  intros Hl Hfuel. destruct (start_up_tables (S n) s mboot_ptr stack location P Hl) as (m & Hts & Hf & Hrun).
  destruct Hl as [(Hg & Hgp & _) (Hi & Hip & _) _ _ Hbelow _ [HP Hoff] (Hkh & Hlen & Hpid)].
  set (sb := before_paging s stack P m) in *.
  destruct (initialise_paging_run n sb Hkh HP Hoff Hfuel) as (s1 & Hrun1 & Hp).
  change (placement_address (kmem sb)) with P in Hp.
  pose proof (pd_only _ _ _ _ Hp) as [(_ & _ & Htasks1 & _ & _) _]. pose proof (pd_dir _ _ _ _ Hp) as ([Hd0 Hd1] & _).
  unfold sizeof_PageDirectory in Hd1.
  destruct (@initialise_tasking_ok (heap_allocator n) (heap_spec n) (heap_allocator_laws n) s1 [])
    as (s' & t & Hrun2 & Ht);
    [apply Hp|apply (pd_room _ _ _ _ Hp); [zdecide|done]|by rewrite Htasks1|lia|].
  exists s1, s', t. split_and!; [by rewrite Hrun, (bind_done _ _ _ _ _ Hrun1)|done|].
  by eapply started_paged.
Qed.

(** C3. The kernel starts, when it is lucky.  [initialise_paging] loads CR3 with
    the content of an uninitialised variable plus 4096.  When that variable
    happens to hold the physical address of the kernel's directory or of its
    clone ([lucky]; with any other content CR3 names neither), [kernel_main]'s
    path up to the first process returns, from what a multiboot loader leaves
    with a module that ends below page 761 and not in the last 512 bytes of a
    page.  Everything its parts promised then holds together: the walk from CR3
    through physical memory maps the memory in use to itself and the heap behind
    it, so that the flat memory in which the rest is said is what the processor
    shows ([processor_maps]; [flat_memory_sound]); the descriptor tables given to
    the processor are in memory, timer and keyboard have their handlers, the
    module is kept below the placement address, the heap's invariant holds, the
    first process is the one task of the ready queue, running in a directory of
    that same map, and the processor and the devices were told exactly
    [start_up_trace] before interrupts go off and on around the creation of the
    process. *)
Theorem kernel_starts n s mboot_ptr stack location P :
  loaded s mboot_ptr location P → (1024 <= S n)%nat → lucky P →
  ∃ s' t cs idx,
    (r ← start_up (S n) mboot_ptr stack; @initialise_tasking (boot_kmalloc (S n)) ;; mret r) s =
      Done (location, P) s' ∧
    processor_maps (kernel_top P) s' ∧
    tables_set (mem s') ∧
    irq_routines (irq s') !! 0%nat = Some TickHandler_address ∧
    irq_routines (irq s') !! 1%nat = Some keyboard_handler_address ∧
    kheap (kmem s') ≠ 0 ∧ heap_state s' cs idx ∧
    scheduling s' [MkTask t (next_pid (tasks s)) (MkContext 0 0 0) (current_directory (pg s'))] 0 ∧
    (∀ a, 0 <= a < 4294967296 →
       translate (mem s') (TablesPhysical (current_directory (pg s')) 0) a = kernel_map (kernel_top P) a) ∧
    (∀ x, 0 <= x < P → ¬ table_bytes x → ld8 (mem s') x = ld8 (mem s) x) ∧
    trace s' = ev_sti :: ev_cli :: start_up_trace ++ trace s.
Proof.
  intros Hl Hfuel Hlucky.
  destruct (start_up_run n s mboot_ptr stack location P Hl Hfuel) as (s1 & s' & t & Hrun1 & Hrun2 & Hs).
  destruct Hs as [Hts [Hh0 Hh1] _ [Hk (cs & idx & Hst)] _ Hq _ _ _ Hmap [Hwalk _] [Hcr3 _] _ Hf _ _ Htr].
  destruct Hl as [_ _ _ _ Hbelow _ [HP _] _].
  exists s', t, cs, idx. split_and!; [| |done..| |done].
  - by rewrite (bind_done _ _ _ _ _ Hrun1), (bind_done _ _ _ _ _ Hrun2).
  - apply walkable_processor_maps; [lia|done..].
  - intros x Hx Hn. apply (frame_ld8 _ _ _ _ Hf); [lia|]. intros [|]; [lia|done].
Qed.
End startup.

(** A machine as the loader leaves it: one module, from [0x30000] to [0x40000]. *)
Definition sample_loaded : machine :=
  sample (st32 (st32 (st32 ∅ 0x2018 0x2100) 0x2100 0x30000) 0x2104 0x40000).

Lemma sample_loaded_ok : @loaded sample_tables sample_loaded 0x2000 0x30000 0x40000.
Proof.
  split.
  - split_and!; [zdecide|zdecide|by left].
  - split_and!; [zdecide|zdecide|by left].
  - split_and!; by left.
  - split; intros i; cbn; pose proof (Z.mod_pos_bound i 64); lia.
  - intros x. unfold table_bytes, range; cbn. lia.
  - exists 0x2100. split_and!; [by vm_compute|done|by vm_compute|by vm_compute| |done].
    intros x. unfold table_bytes, range; cbn. change (mods_addr 0x2000) with 0x2018. lia.
  - zdecide.
  - split_and!; [done|done|zdecide|zdecide].
Qed.

(** The uninitialised variable holds the address of the kernel's directory. *)
Definition lucky_image (P : Z) : Image := {| lit_no_free_frames := 0x2000; indeterminate := (P / 4096 + 1) * 4096 |}.

Lemma kernel_starts_witness :
  ∃ s' t, (r ← @start_up (lucky_image 0x40000) sample_tables sample_devices 1024 0x2000 0x9000;
      @initialise_tasking (@boot_kmalloc (lucky_image 0x40000) 1024) ;; mret r) sample_loaded =
      Done (0x30000, 0x40000) s' ∧
    processor_maps 0x48000 s' ∧
    scheduling s' [MkTask t 1 (MkContext 0 0 0) (current_directory (pg s'))] 0.
Proof.
  destruct (@kernel_starts (lucky_image 0x40000) sample_tables sample_devices 1023 sample_loaded 0x2000 0x9000 0x30000
    0x40000 sample_loaded_ok) as (s' & t & cs & idx & Hrun & Hmaps & _ & _ & _ & _ & _ & Hs & _); [done|by left|].
  exists s', t. split; [exact Hrun|]. split; [exact Hmaps|exact Hs].
Defined.
