(* ===== verification/KernelMain.v ===== *)
(** * kernel/kernel.cpp: kernel_main as a whole

    From what the multiboot loader leaves to the end of [kernel_main]: two
    processes in the ready queue, the greeting on the screen, and a root
    directory through which every file of the loaded module can be read. *)
From S2P Require Import Prelude Memory LibString OrderedList Machine Console Stdio Descriptors Frames Kmalloc.
From S2P Require Import Initrd Mount Paging MapPages Task Devices Heap HeapSpec HeapAlloc HeapAllocator Boot BootMap BootPaging.
From S2P Require Import PagedMemory Startup.
Local Open Scope Z_scope.
Local Open Scope u32_scope.

Section kernel_main.
Context `{Image} `{Tables_image} `{Devices_image} `{Initrd_image}.
Variable lit_hello : Z.

(** "Hello, kernel World!\n" *)
Definition hello : list Z :=
  [72; 101; 108; 108; 111; 44; 32; 107; 101; 114; 110; 101; 108; 32; 87; 111; 114; 108; 100; 33; 10].

(** The memory that [kernel_main] leaves as the loader made it, but for the
    headers of the ramdisk: below the placement address, the static tables and
    the screen apart. *)
Definition kept (P x : Z) : Prop := 0 <= x < P ∧ ¬ table_bytes x ∧ ¬ vga_range x.

(** A string literal of the kernel. *)
Definition kernel_literal (s : machine) (P p : Z) (l : list Z) : Prop :=
  cstr (mem s) p l ∧ 0 <= p ∧ ∀ x, range p (Z.of_nat (length l) + 1) x → kept P x.

(** What the loader and the global constructors leave, for a module that holds
    a ramdisk of [files]. *)
Record bootable (n : nat) (s : machine) (mboot_ptr location P : Z) (files : list file) : Prop := {
  bt_loaded : loaded s mboot_ptr location P;
  bt_place : 0x100000 <= P;
  bt_fuel : (1024 <= S n)%nat;
  bt_pid : next_pid (tasks s) < 2147483646;
  bt_console : tty_ok s;
  bt_hello : kernel_literal s P lit_hello hello;
  bt_initrd : kernel_literal s P lit_initrd initrd_name;
  bt_dev : kernel_literal s P lit_dev dev;
  bt_addresses : addresses_ok ∧ initrd_read_address ≠ 0 ∧ initrd_readdir_address ≠ 0 ∧ initrd_finddir_address ≠ 0;
  bt_names : names_fit (S n) files;
  bt_count : Z.of_nat (length files) <= 2000;
  bt_location : 0 <= location;
  bt_disk : ramdisk_at (mem s) location files;
  bt_headers x : headers location files x → kept P x ∧ ¬ range lit_dev 4 x;
}.

(** ** The steps after the first process *)

Lemma vga_low x : vga_range x → x < KHEAP_START.
Proof. unfold vga_range, range, VGA_MEMORY, KHEAP_START. lia. Qed.

Lemma kept_frame P m m' m'' :
  0 <= P <= 4294967296 → frame (λ x, P <= x ∨ table_bytes x) m m' → frame (λ x, ¬ kept P x) m' m'' →
  frame (λ x, ¬ kept P x) m m''.
Proof.
  intros HP Hf Hf'. eapply frame_trans; [|exact Hf']. eapply frame_weaken; [exact Hf|].
  unfold kept. intros x _ Hx Hk. destruct Hx; [lia|tauto].
Qed.

Lemma literal_frame P m m' p l :
  P <= 4294967296 → frame (λ x, ¬ kept P x) m m' → 0 <= p → (∀ x, range p (Z.of_nat (length l) + 1) x → kept P x) →
  cstr m p l → cstr m' p l.
Proof.
  intros HP Hf Hp Hk. pose proof (proj1 (Hk (p + Z.of_nat (length l)) ltac:(unfold range; lia))).
  eapply cstr_frame; [exact Hf|lia|lia|]. intros x Hx Hn. apply Hn, Hk. unfold range. lia.
Qed.

Definition parent (s sA : machine) (t : Z) : task :=
  MkTask t (next_pid (tasks s)) (MkContext 0 0 0) (current_directory (pg sA)).

(** The clone of the kernel. *)
Lemma fork_started n s sA P t x :
  started n s sA P t → 0x100000 <= P < 761 * 4096 → 0 <= next_pid (tasks s) < 2147483646 → context_ok x →
  ∃ sB child, @fork _ (heap_allocator n) (S n) x sA = Done (next_pid (tasks s) + 1) sB ∧
    @forked _ _ (heap_spec n) sA sB [parent s sA t] 0 child ∧ t_context child = x.
Proof.
  intros Hs HP Hpid Hx. pose proof (sd_dirs _ _ _ _ _ Hs) as [[Hcd _] Hkd].
  assert (∀ y, y < KHEAP_START → handed_out sA y) as Hbelow by (intros; apply (sd_handed _ _ _ _ _ Hs); auto).
  destruct (@fork_parent _ _ (heap_spec n) (heap_allocator_laws n) (S n) sA [parent s sA t] 0 x)
    as (sB & child & Hrun & Hf & Hc & _); [|done|].
  - split.
    + apply Hs.
    + cbn; lia.
    + rewrite (sd_pid _ _ _ _ _ Hs). lia.
    + apply Hs.
    + apply (sd_room _ _ _ _ _ Hs); [zdecide|done].
    + done.
    + rewrite Hkd. unfold dir_ok, sizeof_PageDirectory. Z.div_mod_to_equations. lia.
    + intros y Hy. apply (sd_handed _ _ _ _ _ Hs).
      destruct Hy as [(u & ->%list_elem_of_singleton & Hy)|[Hy|Hy]]; [auto|auto|left].
      rewrite Hkd in Hy. unfold dir_range, range, sizeof_PageDirectory, KHEAP_START in *. Z.div_mod_to_equations. lia.
    + apply Hs.
  - exists sB, child. by rewrite <- (sd_pid _ _ _ _ _ Hs).
Qed.

(** The greeting. *)
Lemma print_hello n s P lit :
  tty_ok s → P < 761 * 4096 → kernel_literal s P lit hello → (1024 <= S n)%nat →
  printf (S n) lit [] s = Done 21 (put_list hello s).
Proof.
  intros Htty HP (Hc & Hlit & Hkept) Hn. pose proof (proj1 (Hkept (lit + 21) ltac:(unfold range; cbn; lia))) as Hend.
  apply (printf_loop_spec (S n) (S n) hello lit 0 [] s hello); try done; [|cbn [length hello]; lia..].
  split_and!; [done| |done]. split_and!; [done|cbn; lia|].
  apply (range_apart lit 22 VGA_MEMORY 4000); [lia|lia|]. intros x Hx. by apply (Hkept x Hx).
Qed.

(** The address of a directory's table survives what spares the directory. *)
Lemma physical_frame Q m m' d :
  dir_ok d → frame Q m m' → (∀ x, dir_range d x → ¬ Q x) →
  ld32 m' (PhysicalAddress d) = ld32 m (PhysicalAddress d).
Proof.
  intros Hd Hf HQ. rewrite PhysicalAddress_val by done. destruct Hd as [Hd0 Hd1]. unfold sizeof_PageDirectory in Hd1.
  eapply frame_ld32; [exact Hf|lia|lia|]. intros x Hx. apply HQ. unfold dir_range, range, sizeof_PageDirectory. lia.
Qed.

(** What the walks from the directories of the tasks [q] need of memory: the
    kernel's tables, the first process's directory where start-up cloned it, and
    for every task the word that a switch loads into CR3, in a directory apart
    from the task structures. *)
Record walked (m : memory) (P : Z) (q : list task) : Prop := {
  wd_walk : walkable m P;
  wd_boot : ∃ u, u ∈ q ∧ t_directory u = boot_clone;
  wd_task u : u ∈ q → KHEAP_START <= t_addr u ∧ KHEAP_START <= t_directory u ∧ dir_ok (t_directory u);
  wd_address u : u ∈ q → ld32 m (PhysicalAddress (t_directory u)) = indeterminate ⊕ 0x1000;
  wd_apart u v x : u ∈ q → v ∈ q → task_range u x → ¬ dir_range (t_directory v) x;
}.

Lemma walked_frame Q m m' P q :
  0 <= P < 761 * 4096 → frame Q m m' →
  (∀ x, P <= x < KHEAP_START ∨ (∃ u, u ∈ q ∧ dir_range (t_directory u) x) → ¬ Q x) →
  walked m P q → walked m' P q.
Proof.
  intros HP Hf HQ [Hw (u & Hu & Hbc) Ht Ha Hap]. split; [|by exists u|done| |done].
  - eapply walkable_frame; [done|exact Hf| |done]. rewrite <- Hbc. intros x [Hx|Hx]; apply HQ; eauto.
  - intros v Hv. rewrite <- (Ha v Hv). eapply physical_frame; [by apply Ht|exact Hf|]. intros x Hx. apply HQ. eauto.
Qed.

(** Saving a task's registers moves neither its structure nor its directory. *)
Lemma walked_save m P q k x : walked m P q → walked m P (alter (save x) k q).
Proof.
  assert (∀ u, u ∈ alter (save x) k q → ∃ v, v ∈ q ∧ t_addr u = t_addr v ∧ t_directory u = t_directory v) as Hback.
  { intros u (i & Hi)%list_elem_of_lookup. destruct (decide (i = k)) as [->|Hne].
    - rewrite list_lookup_alter_eq in Hi. destruct (q !! k) as [v|] eqn:Hv; [|done]. injection Hi as <-.
      exists v. split; [by eapply list_elem_of_lookup_2|done].
    - rewrite list_lookup_alter_ne in Hi by done. exists u. split; [by eapply list_elem_of_lookup_2|done]. }
  intros [Hw (u & (i & Hi)%list_elem_of_lookup & Hbc) Ht Ha Hap]. split; [done| | | |].
  - destruct (decide (i = k)) as [->|Hne].
    + exists (save x u). split; [|done]. eapply (list_elem_of_lookup_2 _ k). by rewrite list_lookup_alter_eq, Hi.
    + exists u. split; [|done]. eapply (list_elem_of_lookup_2 _ i). by rewrite list_lookup_alter_ne.
  - intros v (v' & Hv & -> & ->)%Hback. auto.
  - intros v (v' & Hv & _ & ->)%Hback. auto.
  - intros v w y (v' & Hv & Hav & _)%Hback (w' & Hw' & _ & ->)%Hback. unfold task_range. rewrite Hav. eauto.
Qed.

(** The state before the mount. *)
Record greeted (n : nat) (s sA sD : machine) (P t : Z) (child : task) : Prop := {
  gr_inv : @alloc_inv _ (heap_spec n) sD;
  gr_room l : plan 0x80000 0 ((sizeof_PageDirectory, true) :: (sizeof_Task, false) :: fork_requests ++ l) →
    Z.of_nat (length l) + 4 < HEAP_INDEX_SIZE → planned sD l;
  gr_queue : scheduling sD [parent s sA t; child] 0;
  gr_space : ∀ i, 0 <= i < 1024 →
    ld32 (mem sD) (Tables (t_directory child) i) = ld32 (mem sD) (Tables (current_directory (pg sD)) i);
  gr_high u : u ∈ [parent s sA t; child] → KHEAP_START <= t_addr u;
  gr_dirs : (KHEAP_START <= t_directory child ∧ dir_ok (t_directory child)) ∧
    KHEAP_START <= current_directory (pg sD) ∧ dir_ok (current_directory (pg sD));
  gr_handed x : x < KHEAP_START ∨ task_range (parent s sA t) x ∨ task_range child x ∨
    dir_range (t_directory child) x ∨ dir_range (current_directory (pg sD)) x → handed_out sD x;
  gr_frame : frame (λ x, ¬ kept P x) (mem s) (mem sD);
  gr_rest : pg sD = pg sA ∧ irq sD = irq sA ∧ initrd sD = initrd sA;
  gr_tty : tty_ok sD ∧ ∀ i c, hello !! i = Some c →
    cell sD ((cursor s + Z.of_nat i) mod 2000) = vga_entry (w8 c) (terminal_color (tty s));
  gr_walked : walked (mem sD) P [parent s sA t; child];
  gr_trace : trace sD = ev_sti :: ev_sti :: ev_cli :: trace sA;
}.

(** The heap lies above the screen. *)
Lemma high_off_screen x : KHEAP_START <= x → ¬ vga_range x.
Proof. unfold vga_range, range, VGA_MEMORY, KHEAP_START. lia. Qed.

(** [fork] spares the first process's directory and what lies below the heap. *)
Lemma started_spared n s sA P t x :
  started n s sA P t → x < KHEAP_START ∨ dir_range (current_directory (pg sA)) x →
  ¬ (¬ handed_out sA x ∨ ∃ u, u ∈ [parent s sA t] ∧ task_range u x).
Proof.
  intros Hs Hx. pose proof (sd_task _ _ _ _ _ Hs) as (Hthigh & Ht1 & Htap).
  intros [Hn|(u & ->%list_elem_of_singleton & Hu)].
  - apply Hn, (sd_handed _ _ _ _ _ Hs). destruct Hx; auto.
  - destruct Hx as [Hx|Hx]; [|by eapply Htap]. unfold task_range, range in Hu. cbn in Hu. lia.
Qed.

Lemma forked_walked n s sA sB P t child :
  0 <= P < 761 * 4096 → started n s sA P t → @forked _ _ (heap_spec n) sA sB [parent s sA t] 0 child →
  walked (mem sB) P [parent s sA t; child].
Proof.
  intros HP Hs Hf. pose proof (sd_task _ _ _ _ _ Hs) as (Hthigh & Ht1 & Htap).
  pose proof (sd_dirs _ _ _ _ _ Hs) as [[Hdir Hdlow] _]. destruct (sd_walk _ _ _ _ _ Hs) as [Hw Hbc].
  pose proof (fk_dir _ _ _ _ _ Hf) as [Hcdir _]. pose proof (λ x, started_spared _ _ _ _ _ x Hs) as Hspare.
  assert (∀ x, x < KHEAP_START ∨ dir_range (current_directory (pg sA)) x ∨ task_range (parent s sA t) x →
    ¬ (task_range child x ∨ dir_range (t_directory child) x)) as Hnew.
  { intros x Hx Hc. destruct (fk_new _ _ _ _ _ Hf x Hc) as [Hn _]. apply Hn, (sd_handed _ _ _ _ _ Hs).
    destruct Hx as [Hx|[Hx|Hx]]; auto. }
  split.
  - eapply walkable_frame; [lia|apply (fk_frame _ _ _ _ _ Hf)| |exact Hw].
    intros x Hx. rewrite <- Hbc in Hx. apply Hspare. destruct Hx as [[_ Hx]|Hx]; auto.
  - exists (parent s sA t). split; [by left|done].
  - intros u Hu. rewrite !elem_of_cons in Hu. destruct Hu as [->|[->|Hu%elem_of_nil]]; [done| |done].
    assert (∀ a, task_range child a ∨ dir_range (t_directory child) a → KHEAP_START <= a) as Hhigh.
    { intros a Ha. destruct (Z.le_gt_cases KHEAP_START a); [done|]. exfalso. by apply (Hnew a); [left|]. }
    split_and!; [apply Hhigh; left|apply Hhigh; right|done];
      unfold task_range, dir_range, range, sizeof_Task, sizeof_PageDirectory; lia.
  - intros u Hu. rewrite !elem_of_cons in Hu. destruct Hu as [->|[->|Hu%elem_of_nil]]; [|by apply Hf|done].
    rewrite <- (proj2 (sd_cr3 _ _ _ _ _ Hs)). eapply physical_frame; [done|apply (fk_frame _ _ _ _ _ Hf)|].
    intros x Hx. apply Hspare. auto.
  - intros u v x Hu Hv. rewrite !elem_of_cons in Hu, Hv.
    destruct Hu as [->|[->|Hu%elem_of_nil]], Hv as [->|[->|Hv%elem_of_nil]]; try done.
    + apply Htap.
    + intros Hx Hd. eapply (Hnew x); [|by right]. auto.
    + intros Hx Hd. eapply (Hnew x); [|by left]. auto.
    + apply (fk_apart _ _ _ _ _ Hf).
Qed.

(** The greeting changes the screen only. *)
Lemma greeted_forked n s sA sB sC mboot_ptr location P t child files :
  bootable n s mboot_ptr location P files → started n s sA P t →
  @forked _ _ (heap_spec n) sA sB [parent s sA t] 0 child → frame (λ x, ¬ kept P x) (mem sA) (mem sB) →
  same_but_screen sB sC → tty_ok sC →
  (∀ i c, hello !! i = Some c →
    cell sC ((cursor s + Z.of_nat i) mod 2000) = vga_entry (w8 c) (terminal_color (tty s))) →
  greeted n s sA (add_event ev_sti sC) P t child.
Proof.
  intros Hb Hs Hf HfB ((Hkm & Hpg' & Hirq' & Htasks' & Hrd') & Htr' & _ & Hfv) Hok' Hcells.
  pose proof (bt_loaded _ _ _ _ _ _ Hb) as [_ _ _ _ Hbelow _ [HP _] _].
  pose proof (fk_rest _ _ _ _ _ Hf) as (Hpg & Hirq & Htty & Hrd).
  pose proof (sd_task _ _ _ _ _ Hs) as (Hthigh & Ht1 & Htap).
  pose proof (fk_dir _ _ _ _ _ Hf) as [Hcdir Hcal]. pose proof (sd_dirs _ _ _ _ _ Hs) as [[Hdir Hdlow] _].
  set (sD := add_event ev_sti sC).
  assert (pg sD = pg sA) as HpgD by (by rewrite <- Hpg, <- Hpg').
  assert (∀ x, handed_out sA x → handed_out sB x) as HresB by apply Hf.
  assert (∀ x, x < KHEAP_START → handed_out sA x) as Hlow by (intros; apply (sd_handed _ _ _ _ _ Hs); auto).
  assert (∀ x, task_range child x ∨ dir_range (t_directory child) x → KHEAP_START <= x) as Hchild.
  { intros x Hx. destruct (Z.le_gt_cases KHEAP_START x) as [|Hlt]; [done|].
    destruct (fk_new _ _ _ _ _ Hf x Hx) as [Hn _]. exfalso. by apply Hn, Hlow. }
  assert (@alloc_inv _ (heap_spec n) sB) as HinvB by apply Hf.
  assert (frame (handed_out sB) (mem sB) (mem sD)) as HfD.
  { eapply frame_weaken; [exact Hfv|]. intros x _ Hx. by apply HresB, Hlow, vga_low. }
  assert (∀ x, handed_out sB x → handed_out sD x) as HresD
    by (intros x; by apply (@reserved_stable _ _ (heap_allocator_laws n) sB)).
  assert (frame (λ x, ¬ kept P x) (mem s) (mem sB)) as Hf0 by (eapply kept_frame; [lia|apply Hs|exact HfB]).
  split.
  - by apply (@alloc_inv_stable _ _ (heap_allocator_laws n) sB).
  - intros l Hl Hlen. apply (@room_stable _ _ (heap_allocator_laws n) sB); [done..|].
    apply (fk_room _ _ _ _ _ Hf), (sd_room _ _ _ _ _ Hs); [done|]. cbn [length app fork_requests]. lia.
  - eapply (scheduling_frame vga_range sB); [exact Hfv|exact Htasks'| |apply Hf].
    intros u x Hu Hx. apply high_off_screen. rewrite !elem_of_cons in Hu.
    destruct Hu as [->|[->|Hu%elem_of_nil]]; [|by apply Hchild; left|done].
    unfold task_range, range in Hx. cbn in Hx. lia.
  - intros i Hi. rewrite HpgD. change (mem sD) with (mem sC).
    destruct (slots_frame _ _ _ _ i Hfv Hcdir) as [-> _]; [|done|].
    { intros x Hx. apply high_off_screen, Hchild. by right. }
    destruct (slots_frame _ _ _ _ i Hfv Hdir) as [-> _]; [|done|].
    { intros x Hx. apply high_off_screen. unfold dir_range, range in Hx. lia. }
    rewrite (fk_space _ _ _ _ _ Hf) by done. symmetry.
    eapply slots_frame; [apply (fk_frame _ _ _ _ _ Hf)|done| |done].
    intros x Hx. eapply started_spared; [exact Hs|by right].
  - intros u Hu. rewrite !elem_of_cons in Hu. destruct Hu as [->|[->|Hu%elem_of_nil]]; [done| |done].
    apply Hchild. left. unfold task_range, range, sizeof_Task. lia.
  - rewrite HpgD. split; [split; [|done]|by split]. apply Hchild. right. unfold dir_range, range, sizeof_PageDirectory. lia.
  - intros x Hx. apply HresD. rewrite HpgD in Hx.
    destruct Hx as [Hx|[Hx|[Hx|[Hx|Hx]]]]; [apply HresB, Hlow; done| |apply (fk_new _ _ _ _ _ Hf); auto..|];
      apply HresB, (sd_handed _ _ _ _ _ Hs); auto.
  - eapply frame_trans; [exact Hf0|]. eapply frame_weaken; [exact Hfv|]. unfold kept. tauto.
  - split_and!; [done|by rewrite <- Hirq, <- Hirq'|by rewrite <- Hrd, <- Hrd'].
  - split; [done|]. exact Hcells.
  - pose proof (bt_place _ _ _ _ _ _ Hb) as HP0. pose proof (forked_walked n s sA sB P t child ltac:(lia) Hs Hf) as Hwd.
    eapply walked_frame; [lia|exact Hfv| |exact Hwd].
    intros x [Hx|(u & Hu & Hx)] Hv; [unfold vga_range, range, VGA_MEMORY in *; lia|].
    apply (high_off_screen x); [|done]. destruct (wd_task _ _ _ Hwd u Hu) as (_ & Hhigh & _).
    unfold dir_range, range in Hx. lia.
  - change (trace sD) with (ev_sti :: trace sC). by rewrite Htr', (fk_trace _ _ _ _ _ Hf).
Qed.

Lemma forked_kept n s sA sB P t child :
  started n s sA P t → P < 761 * 4096 → @forked _ _ (heap_spec n) sA sB [parent s sA t] 0 child →
  frame (λ x, ¬ kept P x) (mem sA) (mem sB).
Proof.
  intros Hs HP Hf. pose proof (sd_task _ _ _ _ _ Hs) as (Hthigh & _ & _).
  eapply frame_weaken; [apply (fk_frame _ _ _ _ _ Hf)|]. unfold kept.
  intros x _ [Hx|(u & ->%list_elem_of_singleton & Hx)] [Hk _].
  - apply Hx, (sd_handed _ _ _ _ _ Hs). left. unfold KHEAP_START. lia.
  - unfold task_range, range, KHEAP_START in *. cbn in Hx. lia.
Qed.

Lemma greet n s sA sB mboot_ptr location P t child files :
  bootable n s mboot_ptr location P files → started n s sA P t →
  @forked _ _ (heap_spec n) sA sB [parent s sA t] 0 child →
  ∃ sC, printf (S n) lit_hello [] sB = Done 21 sC ∧ greeted n s sA (add_event ev_sti sC) P t child.
Proof.
  intros Hb Hs Hf. pose proof (bt_loaded _ _ _ _ _ _ Hb) as [_ _ _ _ _ _ [HP _] _].
  pose proof (forked_kept _ _ _ _ _ _ _ Hs ltac:(lia) Hf) as HfB.
  pose proof (fk_rest _ _ _ _ _ Hf) as (_ & _ & Htty & _). pose proof (sd_rest _ _ _ _ _ Hs) as [Htty0 _].
  assert (tty_ok sB) as Hok by (unfold tty_ok; rewrite Htty, Htty0; apply Hb).
  exists (put_list hello sB). split.
  - apply (print_hello n sB P); [done|lia| |apply Hb]. destruct (bt_hello _ _ _ _ _ _ Hb) as (Hc & Hp & Hk).
    split; [|done]. eapply (literal_frame P); [lia| |done|done|exact Hc].
    eapply kept_frame; [lia|apply Hs|exact HfB].
  - destruct (put_list_ok hello sB Hok) as [Hok' Hsame].
    destruct (put_list_cells hello sB Hok ltac:(cbn; lia)) as [Hcells _].
    unfold cursor in Hcells. rewrite Htty, Htty0 in Hcells. by eapply greeted_forked.
Qed.

(** The ramdisk can be mounted. *)
Lemma greeted_mountable n s sA sD mboot_ptr location P t child files :
  bootable n s mboot_ptr location P files → greeted n s sA sD P t child →
  @mountable _ _ (heap_spec n) (S n) sD location files.
Proof.
  intros Hb Hg. pose proof (bt_loaded _ _ _ _ _ _ Hb) as [_ _ _ _ _ _ [HP _] _].
  pose proof (bt_location _ _ _ _ _ _ Hb) as Hloc. pose proof (bt_fuel _ _ _ _ _ _ Hb) as Hfuel.
  pose proof (bt_count _ _ _ _ _ _ Hb) as Hcount. pose proof (gr_frame _ _ _ _ _ _ _ Hg) as Hf.
  assert (∀ x, headers location files x → x < P) as Hhead by (intros x Hx; apply (bt_headers _ _ _ _ _ _ Hb x Hx)).
  assert (header_of location (Z.of_nat (length files)) <= P) as Hend.
  { unfold header_of. specialize (Hhead (location + 4 + 76 * Z.of_nat (length files) - 1)).
    unfold headers, range in Hhead. lia. }
  assert (∀ x, x < P → handed_out sD x) as Hlow.
  { intros x Hx. apply (gr_handed _ _ _ _ _ _ _ Hg). left. unfold KHEAP_START. lia. }
  assert (∀ p l, kernel_literal s P p l → (length l < 128)%nat → @literal _ (heap_spec n) sD p l) as Hlit.
  { intros p l (Hc & Hp & Hk) Hl.
    pose proof (proj1 (Hk (p + Z.of_nat (length l)) ltac:(unfold range; lia))).
    split_and!; [eapply (literal_frame P); [lia|exact Hf|done..]|done|lia|done|].
    intros x Hx. by apply Hlow, Hk. }
  destruct (bt_disk _ _ _ _ _ _ Hb) as [Hn Hfiles].
  split.
  - apply Hb.
  - apply Hg.
  - apply (gr_room _ _ _ _ _ _ _ Hg); [|done].
    unfold fork_requests, mount_requests, sizeof_PageDirectory, sizeof_Task, sizeof_fs_node. cbn [app plan].
    split_and!; try done; try lia. rewrite Z.mul_comm. change 184 with (92 * 2). rewrite Z.mul_assoc. by apply Z.mod_mul.
  - apply Hlit; [apply Hb|cbn; lia].
  - apply Hlit; [apply Hb|cbn; lia].
  - lia.
  - apply Hb.
  - lia.
  - lia.
  - split.
    + rewrite <- Hn. eapply frame_ld32; [exact Hf|lia|unfold header_of in *; lia|].
      intros x Hx Hk. apply Hk, (bt_headers _ _ _ _ _ _ Hb). unfold headers, range. lia.
    + intros i f Hi. pose proof (lookup_lt_Some _ _ _ Hi).
      pose proof (bt_names _ _ _ _ _ _ Hb) as Hnames. unfold names_fit in Hnames. rewrite Forall_lookup in Hnames.
      eapply header_at_frame; [exact Hf|unfold header_of; lia|unfold header_of in *; lia|by eapply Hnames| |by apply Hfiles].
      intros x Hx Hk. apply Hk, (bt_headers _ _ _ _ _ _ Hb). unfold headers, header_of, range in *. lia.
  - intros x Hx. by apply Hlow, Hhead.
  - intros x Hx Hh. by apply (bt_headers _ _ _ _ _ _ Hb x Hh).
Qed.

(** Every file of the module, if its name is its own and its content lies in
    memory the kernel leaves alone, is found from [fs_root] by its name and
    reads as the bytes the loader put there. *)
Definition files_served (fuel : nat) (s s' : machine) (location P : Z) (files : list file) : Prop :=
  ∀ i f, files !! i = Some f → fl_name f ≠ dev →
    (∀ j g, (j < i)%nat → files !! j = Some g → fl_name g ≠ fl_name f) →
    let a := location + fl_offset f in
    a + fl_length f < 4294967296 → (∀ x, range a (fl_length f) x → kept P x ∧ ¬ headers location files x) →
    ∀ name offset size buffer,
      cstr (mem s') name (fl_name f) → 0 <= offset <= fl_length f → 0 <= size → offset + size < 4294967296 →
      0 <= buffer → buffer + size <= 4294967296 → buffer + size <= a ∨ a + fl_length f <= buffer →
      ∃ node m', @finddir_fs (initrd_calls fuel) (fs_root (initrd s')) name s' = Done node s' ∧
        @read_fs (initrd_calls fuel) node offset size buffer s'
          = Done (Z.min size (fl_length f - offset)) (set_mem m' s') ∧
        ∀ k, 0 <= k < Z.min size (fl_length f - offset) → ld8 m' (buffer + k) = ld8 (mem s) (a + offset + k).

(** The end of [kernel_main]: the mount over the greeted machine. *)
Record booted (n : nat) (s s' : machine) (location P : Z) (files : list file) (p c : task) : Prop := {
  bd_queue : scheduling s' [p; c] 0;
  bd_space : ∀ i, 0 <= i < 1024 →
    ld32 (mem s') (Tables (t_directory c) i) = ld32 (mem s') (Tables (t_directory p) i);
  bd_screen : ∀ i b, hello !! i = Some b →
    cell s' ((cursor s + Z.of_nat i) mod 2000) = vga_entry (w8 b) (terminal_color (tty s));
  bd_heap : kheap (kmem s') ≠ 0 ∧ ∃ cs idx, heap_state s' cs idx;
  bd_files : files_served (S n) s s' location P files;
  bd_timer : irq_routines (irq s') !! 0%nat = Some TickHandler_address ∧ ticks (irq s') = ticks (irq s);
  bd_walked : walked (mem s') P [p; c];
  bd_cr3 : cr3 (pg s') = indeterminate ⊕ 0x1000;
}.

Lemma booted_mounted n s sA sD sE mboot_ptr location P t child files :
  bootable n s mboot_ptr location P files → started n s sA P t → greeted n s sA sD P t child →
  @mounted _ _ (heap_spec n) sD sE location files → fs_root (initrd sE) = initrd_root (initrd sE) →
  booted n s sE location P files (parent s sA t) child.
Proof.
  intros Hb Hst Hg Hm Hroot. pose proof (bt_loaded _ _ _ _ _ _ Hb) as [_ _ _ _ _ _ [HP _] _].
  pose proof (greeted_mountable _ _ _ _ _ _ _ _ _ _ Hb Hg) as Hmo.
  pose proof (mt_frame _ _ _ _ Hm) as Hf. destruct (mt_rest _ _ _ _ Hm) as (Hpg & Htty & Hirq & Htasks & Htr).
  pose proof (gr_rest _ _ _ _ _ _ _ Hg) as (HpgD & _ & _).
  assert (∀ x, headers location files x → kept P x) as Hhead by (intros x Hx; by apply (bt_headers _ _ _ _ _ _ Hb)).
  assert (∀ x, handed_out sD x → KHEAP_START <= x ∨ vga_range x → ¬ (¬ handed_out sD x ∨ headers location files x)) as Hkeep.
  { intros x Hx Hwhere [Hn|Hh]; [done|]. destruct (Hhead x Hh) as (Hlt & _ & Hv). destruct Hwhere; [|done].
    unfold KHEAP_START in *. lia. }
  assert (∀ x, x < KHEAP_START → handed_out sD x) as Hlow by (intros; apply (gr_handed _ _ _ _ _ _ _ Hg); auto).
  split.
  - eapply scheduling_frame; [exact Hf|exact Htasks| |apply Hg]. intros u x Hu Hx. apply Hkeep.
    + apply (gr_handed _ _ _ _ _ _ _ Hg). rewrite !elem_of_cons in Hu.
      destruct Hu as [->|[->|Hu%elem_of_nil]]; [auto|auto|done].
    + left. pose proof (gr_high _ _ _ _ _ _ _ Hg u Hu). unfold task_range, range in Hx. lia.
  - intros i Hi. pose proof (gr_dirs _ _ _ _ _ _ _ Hg) as [[Hc1 Hc2] [Hd1 Hd2]].
    assert (∀ d, dir_ok d → KHEAP_START <= d → (∀ x, dir_range d x → handed_out sD x) →
      ld32 (mem sE) (Tables d i) = ld32 (mem sD) (Tables d i)) as Hsame.
    { intros d Hok Hlo Hd. eapply slots_frame; [exact Hf|done| |done]. intros x Hx.
      apply Hkeep; [by apply Hd|left]. unfold dir_range, range in Hx. lia. }
    cbn [t_directory parent]. rewrite <- HpgD, !Hsame; [by apply Hg|done|done| |done|done|];
      intros x Hx; apply (gr_handed _ _ _ _ _ _ _ Hg); auto.
  - intros i b Hi. rewrite <- (proj2 (gr_tty _ _ _ _ _ _ _ Hg) i b Hi).
    set (j := (cursor s + Z.of_nat i) mod 2000). assert (0 <= j < 2000) by (apply Z.mod_pos_bound; lia).
    eapply frame_ld16; [exact Hf|unfold VGA_MEMORY; lia..|]. intros x Hx.
    assert (vga_range x) as Hv by (unfold vga_range, range, VGA_MEMORY in *; lia).
    apply Hkeep; [apply Hlow; by apply vga_low|by right].
  - apply Hm.
  - intros i f Hi Hdev Hfirst a Ha Hcontent. destruct (bt_addresses _ _ _ _ _ _ Hb) as (Ha1 & Ha2 & Ha3 & Ha4).
    rewrite Hroot. intros name offset size buffer Hname Hoff Hsz Hsum Hb0 Hb1 Hap.
    pose proof (@mounted_reads _ _ (heap_spec n) (heap_allocator_laws n) (S n) sD sE location files i f Hm Hmo Hi Hdev
      Hfirst Ha2 Ha3 Ha4 Ha) as Hreads.
    destruct (Hreads) with (name := name) (offset := offset) (size := size) (buffer := buffer)
      as (node & m' & Hfind & Hread & Hbytes); try done.
    { intros x Hx. destruct (Hcontent x Hx) as [Hk Hh]. split; [|done]. apply Hlow. unfold kept, KHEAP_START in *. lia. }
    exists node, m'. split_and!; [done..|]. intros k Hk. rewrite (Hbytes k Hk).
    apply (frame_ld8 _ _ _ _ (gr_frame _ _ _ _ _ _ _ Hg)).
    + destruct (Hcontent (a + offset + k)) as [[Hk0 _] _]; [unfold range; lia|lia].
    + intros Hn. apply Hn, (Hcontent (a + offset + k)). unfold range. lia.
  - rewrite Hirq, (proj1 (proj2 (gr_rest _ _ _ _ _ _ _ Hg))). split; apply Hst.
  - pose proof (gr_walked _ _ _ _ _ _ _ Hg) as Hwd. eapply walked_frame; [lia|exact Hf| |exact Hwd].
    intros x [Hx|(u & Hu & Hx)] [Hn|Hh].
    + apply Hn, Hlow, Hx.
    + specialize (Hhead x Hh). unfold kept in *. lia.
    + apply Hn, (gr_handed _ _ _ _ _ _ _ Hg). rewrite HpgD. rewrite !elem_of_cons in Hu.
      destruct Hu as [->|[->|Hu%elem_of_nil]]; [auto..|done].
    + destruct (wd_task _ _ _ Hwd u Hu) as (_ & Hhigh & _). specialize (Hhead x Hh).
      unfold kept, KHEAP_START, dir_range, range in *. lia.
  - rewrite Hpg, HpgD. apply (sd_cr3 _ _ _ _ _ Hst).
Qed.

Lemma kernel_main_run n s mboot_ptr stack location P files x :
  bootable n s mboot_ptr location P files → context_ok x →
  ∃ s' sA t child, kernel_main (S n) lit_hello mboot_ptr stack x s = Done tt s' ∧
    booted n s s' location P files (parent s sA t) child ∧
    t_id child = next_pid (tasks s) + 1 ∧ t_context child = x ∧
    trace s' = [ev_sti; ev_sti; ev_cli; ev_sti; ev_cli] ++ start_up_trace ++ trace s.
Proof.
  intros Hb Hx. pose proof (bt_loaded _ _ _ _ _ _ Hb) as Hl. pose proof Hl as [_ _ _ _ _ _ [HP _] (_ & _ & Hpid)].
  pose proof (bt_place _ _ _ _ _ _ Hb) as HP0. pose proof (bt_pid _ _ _ _ _ _ Hb) as Hpid1.
  destruct (start_up_run n s mboot_ptr stack location P Hl (bt_fuel _ _ _ _ _ _ Hb)) as (s1 & sA & t & Hrun1 & Hrun2 & Hs).
  destruct (fork_started n s sA P t x Hs ltac:(lia) ltac:(lia) Hx) as (sB & child & Hfork & Hf & Hcx).
  pose proof (getpid_ok sB _ 0 (parent s sA t) (fk_queue _ _ _ _ _ Hf) eq_refl ltac:(cbn; lia)) as Hgetpid.
  destruct (greet n s sA sB mboot_ptr location P t child files Hb Hs Hf) as (sC & Hprint & Hg).
  pose proof (greeted_mountable _ _ _ _ _ _ _ _ _ _ Hb Hg) as Hmo.
  destruct (@initialise_initrd_ok _ _ (heap_spec n) (heap_allocator_laws n) _ _ _ _ Hmo) as (sE & Hmount & Hm).
  exists (set_fs_root (initrd_root (initrd sE)) sE), sA, t, child. split_and!.
  - unfold kernel_main. rewrite (bind_done _ _ _ _ _ Hrun1). cbn [fst].
    rewrite (bind_done _ _ _ _ _ Hrun2), (bind_done _ _ _ _ _ Hfork), (bind_done _ _ _ _ _ Hgetpid).
    rewrite (bind_done _ _ _ _ _ Hprint). unfold sti. rewrite bind_modify.
    by rewrite (bind_done _ _ _ _ _ Hmount).
  - eapply booted_mounted; [exact Hb|exact Hs|exact Hg| |done].
    exact (@mounted_initrd _ _ (heap_spec n) (heap_allocator_laws n) (add_event ev_sti sC) sE location files
      (λ r, MkInitrd (initrd_header r) (file_headers r) (initrd_root r) (initrd_dev r) (root_nodes r) (nroot_nodes r)
        (initrd_root (initrd sE))) (λ r, conj eq_refl (conj eq_refl (conj eq_refl (conj eq_refl eq_refl)))) Hm).
  - rewrite (proj1 (fk_pid _ _ _ _ _ Hf)). apply Hs.
  - done.
  - destruct (mt_rest _ _ _ _ Hm) as (_ & _ & _ & _ & Htr). change (trace sE = [ev_sti; ev_sti; ev_cli; ev_sti; ev_cli] ++ start_up_trace ++ trace s).
    by rewrite Htr, (gr_trace _ _ _ _ _ _ _ Hg), (sd_trace _ _ _ _ _ Hs).
Qed.

(** C1. [kernel_main] boots the kernel, when it is lucky. [initialise_paging]
    loads CR3 with the content of an uninitialised variable plus 4096. When that
    variable happens to hold the physical address of the kernel's directory or
    of its clone ([lucky]; with any other content CR3 names neither),
    [kernel_main] runs to its end from what the multiboot loader leaves, over
    everything it calls: descriptor tables, handlers, timer, paging, heap, the
    first process, [fork], the greeting and the mount. ([bootable]: its first
    module is a ramdisk of at most 2000 files, whose names fit; it ends between
    1 MB and page 761 and not in the last 512 bytes of a page; literals and
    headers lie apart from the screen and the tables.) At the end the walk from
    CR3 is still the kernel's map, so that the flat memory in which this is said
    is what the processor shows ([processor_maps]); the ready queue holds the
    parent, running, and its clone with the registers of the call, the next
    process id and a directory of the same tables; the greeting is on the
    screen; the heap's invariant holds; and the processor and the devices were
    told exactly the start-up events, then interrupts off and on for each
    process and on once more. A file of the module is found from [fs_root] and
    reads as the loader put it, if it is not named "dev", no earlier file has
    its name, its content lies in memory the kernel keeps, the buffer is apart
    from the file, and neither file, buffer nor offset + size passes 2^32 (the
    clamp of initrd.cpp:19 wraps there). *)
Theorem kernel_main_boots n s mboot_ptr stack location P files x :
  bootable n s mboot_ptr location P files → lucky P → context_ok x →
  ∃ s' parent child, kernel_main (S n) lit_hello mboot_ptr stack x s = Done tt s' ∧
    processor_maps (kernel_top P) s' ∧
    scheduling s' [parent; child] 0 ∧
    t_id parent = next_pid (tasks s) ∧ t_id child = next_pid (tasks s) + 1 ∧ t_context child = x ∧
    (∀ i, 0 <= i < 1024 →
       ld32 (mem s') (Tables (t_directory child) i) = ld32 (mem s') (Tables (t_directory parent) i)) ∧
    (∀ i b, hello !! i = Some b →
       cell s' ((cursor s + Z.of_nat i) mod 2000) = vga_entry (w8 b) (terminal_color (tty s))) ∧
    (∃ cs idx, heap_state s' cs idx) ∧
    files_served (S n) s s' location P files ∧
    trace s' = [ev_sti; ev_sti; ev_cli; ev_sti; ev_cli] ++ start_up_trace ++ trace s.
Proof.
  intros Hb Hlucky Hx. pose proof (bt_loaded _ _ _ _ _ _ Hb) as [_ _ _ _ _ _ [HP _] _].
  destruct (kernel_main_run n s mboot_ptr stack location P files x Hb Hx)
    as (s' & sA & t & child & Hrun & [Hq Hsp Hscreen [_ Hheap] Hfiles _ Hw Hcr3] & Hid & Hcx & Htr).
  exists s', (parent s sA t), child. pose proof (walkable_processor_maps s' P ltac:(lia) (wd_walk _ _ _ Hw) Hcr3 Hlucky). by split_and!.
Qed.
End kernel_main.

(** A machine as the loader leaves it: one module, from [0x110000] to
    [0x140000], with one file "a" of the bytes 7 and 8. *)
Definition boot_initrd_image : Initrd_image := {|
  initrd_read_address := 0x101000; initrd_readdir_address := 0x101100; initrd_finddir_address := 0x101200;
  direntry := 0x7400; lit_dev := 0x7000; lit_initrd := 0x7010;
|}.
Definition boot_memory : memory :=
  let m := st32 (st32 (st32 ∅ 0x2018 0x2100) 0x2100 0x110000) 0x2104 0x140000 in
  let m := store_bytes (store_bytes (store_bytes m 0x7000 dev) 0x7010 initrd_name) 0x7100 hello in
  let m := st32 (st32 (st8 (st32 m 0x110000 1) 0x110005 97) 0x110048 0x50) 0x11004C 2 in
  store_bytes m 0x110050 [7; 8].
Definition boot_machine : machine := sample boot_memory.

Lemma boot_machine_loaded : @loaded sample_tables boot_machine 0x2000 0x110000 0x140000.
Proof.
  split.
  - split_and!; [zdecide|zdecide|by left].
  - split_and!; [zdecide|zdecide|by left].
  - split_and!; by left.
  - split; intros i; cbn; pose proof (Z.mod_pos_bound i 64); lia.
  - intros x. unfold table_bytes, range; cbn. lia.
  - exists 0x2100. split_and!; [by vm_compute|done|by vm_compute|by vm_compute| |done].
    intros x. unfold table_bytes, range; cbn. change (mods_addr 0x2000) with 0x2018. lia.
  - zdecide.
  - split_and!; [done|done|zdecide|zdecide].
Qed.

Lemma boot_kept x : 0x7000 <= x < 0x8000 ∨ 0x110000 <= x < 0x140000 → @kept sample_tables 0x140000 x.
Proof. unfold kept, table_bytes, vga_range, range, VGA_MEMORY; cbn. lia. Qed.

Lemma boot_machine_ok :
  @bootable sample_tables boot_initrd_image 0x7100 1023 boot_machine 0x2000 0x110000 0x140000 [sample_file].
Proof.
  split.
  - apply boot_machine_loaded.
  - done.
  - done.
  - zdecide.
  - zdecide.
  - split; [by vm_compute|]. split; [done|]. intros x Hx. apply boot_kept. unfold range in Hx. cbn in Hx. lia.
  - split; [by vm_compute|]. split; [done|]. intros x Hx. apply boot_kept. unfold range in Hx. cbn in Hx. lia.
  - split; [by vm_compute|]. split; [done|]. intros x Hx. apply boot_kept. unfold range in Hx. cbn in Hx. lia.
  - zdecide.
  - apply Forall_singleton. cbn. lia.
  - done.
  - done.
  - split; [by vm_compute|]. intros i f Hi. apply list_lookup_singleton_Some in Hi as [-> <-]. by vm_compute.
  - intros x Hx. unfold headers, range in Hx. cbn in Hx. split; [apply boot_kept; lia|].
    unfold range. cbn. lia.
Qed.

Lemma kernel_main_boots_witness :
  ∃ s' parent child,
    @kernel_main (lucky_image 0x140000) sample_tables sample_devices boot_initrd_image 1024 0x7100 0x2000 0x9000
      (MkContext 0x100044 0x8FF0 0x9000) boot_machine = Done tt s' ∧
    processor_maps 0x148000 s' ∧ scheduling s' [parent; child] 0 ∧ t_id parent = 1 ∧ t_id child = 2 ∧
    cell s' 0 = 0x0748 ∧
    @files_served sample_tables boot_initrd_image 1024 boot_machine s' 0x110000 0x140000 [sample_file].
Proof.
  destruct (@kernel_main_boots (lucky_image 0x140000) sample_tables sample_devices boot_initrd_image 0x7100 1023 boot_machine
    0x2000 0x9000 0x110000 0x140000 [sample_file] (MkContext 0x100044 0x8FF0 0x9000) boot_machine_ok)
    as (s' & parent & child & Hrun & Hmaps & Hq & Hp & Hc & _ & _ & Hcell & _ & Hfiles & _); [by left|zdecide|].
  exists s', parent, child. split_and!; [exact Hrun|exact Hmaps|exact Hq|exact Hp|exact Hc| |exact Hfiles].
  exact (Hcell 0%nat 72 eq_refl).
Defined.
