(* ===== verification/FirstTick.v ===== *)
(** * From boot to the first switches

    The kernel that [kernel_main] leaves, driven by the timer: the interrupt
    handler, the tick handler and the scheduler over the two processes of
    kernel.cpp and Task.cpp. *)
From S2P Require Import Prelude Memory LibString OrderedList Machine Console Stdio Descriptors Frames Kmalloc.
From S2P Require Import Initrd Mount Paging MapPages Task Devices Heap HeapSpec HeapAlloc HeapAllocator Boot BootMap BootPaging.
From S2P Require Import PagedMemory Startup KernelMain.
Local Open Scope Z_scope.
Local Open Scope u32_scope.


Section ticks.
Context `{Image} `{Tables_image} `{Devices_image}.


Context `{Initrd_image}.
Variable lit_hello : Z.

End ticks.

